(* ===== verification/_CoqProject ===== *)
-Q . S2P
Prelude.v
Regex.v
RepoKey.v
Utf8.v
Json.v
JsonDecoder.v
JsonEncode.v
Decimal.v
GoTime.v
PepDecision.v
PepRequest.v
PepDecider.v
PepStrict.v
PepWire.v
PepClient.v
PepFake.v
PepCacheKey.v
PepCache.v
PepCacheSpec.v
PepCacheSafety.v
PepCacheDecide.v
Base64.v
GoStrings.v
AuthJson.v
AuthToken.v
AuthTokenSpec.v
AuthJwks.v
AuthJwksClient.v
AuthReview.v
AuthExchange.v
WtObject.v
WtToken.v
WtTokenSpec.v
WtExchange.v
WtClient.v
WtClientSpec.v
WtTransport.v
GoFormat.v
ChBindings.v
ChStatement.v
ChClient.v
ReadQuery.v
ReadInstrument.v
ReadOwnership.v
ReadScope.v
ReadScopeSpec.v
Readers.v
ReadPieces.v
ReadSpec.v
ReadMetrics.v
ReadSizing.v
ReadRows.v
GoRegexp.v
LlmErrors.v
Wellformed.v
LlmJson.v
LlmProvider.v
LlmRedact.v
LlmParse.v
LlmSchema.v
LlmSchemaSpec.v
LlmCall.v
LlmRequest.v
LlmComplete.v
LlmContract.v
LlmRule.v
LlmStrict.v
LlmBatch.v
LlmBatchSpec.v
SchemaTables.v
ReadRowsSpec.v
