(* ===== verification/Prelude.v ===== *)
(** * dev-health-go: authorization, credentials, queries and language models, modelled and verified

    dev-health-go is a library for the services of the dev-health product. This development models it
    function by function, package by package, and proves what each part promises. Every definition
    keeps its source's name where Rocq allows it.

    ** The program's parts and the files that model them

    - [repokey] (src/repokey): when a repository key is well formed. RepoKey.v.
    - [pep] (src/pep): a policy enforcement point. It asks a policy decision point (PDP) over HTTP
      whether a principal may act on a resource, reads the answer strictly, and caches allows.
        PepDecision.v   internal/decision, decision.go, errors.go: reasons, decisions, obligations
        PepRequest.v    request.go: validation, the request documents and their bytes
        PepDecider.v    the Decider interface, as a class the client, the fake and the cache fill
        PepStrict.v     strict.go: duplicate names, depth, revisions, expiries
        PepWire.v       wire.go: one decision, a batch, obligations
        PepClient.v     client.go: configuration, one call, classification of failures
        PepFake.v       pepfake/fake.go: the test double
        PepCacheKey.v   cache.go cacheKey: strconv.Quote of the fields
        PepCache.v      cache.go: the pointer-level cache, each critical section, Decide, DecideBatch
        PepCacheSpec.v, PepCacheSafety.v, PepCacheDecide.v: the abstract LRU list the cache refines,
        what a hit is worth, and both operations with other goroutines in between
    - [authverify] (src/authverify): verifies the three kinds of signed tokens, fetches and caches
      signing keys, and exchanges Kubernetes tokens.
        AuthJson.v      the readers every document goes through (jwks.go, accesstoken_wire.go)
        AuthToken.v     accesstoken.go, accesstoken_wire.go, workload_token.go, service_account_token.go
        AuthTokenSpec.v what each class is and what Verify accepts
        AuthJwks.v      jwks.go: the strict JWKS reader
        AuthJwksClient.v jwks_client.go: fetch, cache, single flight
        AuthReview.v    k8s_token_review.go
        AuthExchange.v  workload_exchange.go, workload_token_exchange_service.go
    - [workloadtoken] (src/workloadtoken): the client that exchanges a deployment's subject for
      workload tokens, caches them and puts them on requests.
        WtObject.v      exchange.go uniqueObject
        WtToken.v, WtTokenSpec.v  exchange.go checkToken, and its agreement with authverify
        WtExchange.v    exchange.go exchange, client.go requestKey
        WtClient.v, WtClientSpec.v  client.go and config.go: New, Token, Invalidate, their slots
        WtTransport.v   transport.go
    - [clickhouse] (src/clickhouse): a read-only client of ClickHouse.
        ChStatement.v   client.go validateReadOnlyStatement, with its regular expressions
        ChBindings.v    bindings.go: parameters as the server reads them
        ChClient.v      client.go, options.go, tls.go, budget_error.go: Query and its rows, the options
    - [readers] (src/readers): the queries of the product over that client.
        ReadQuery.v     query.go, timebound.go, settings.go, instrumentation.go safeErrorClass
        ReadInstrument.v  instrumentation.go, otel_instrumentation.go, slog_instrumentation.go: the
        signals around a query
        ReadOwnership.v ownership.go: who owns a project, as SQL
        ReadScope.v, ReadScopeSpec.v  authorization.go, work_item_candidates.go: the authorization of
        work items as SQL, and what the SQL says
        Readers.v       each reader's statement, byte for byte (ci.go, deployments.go, identity.go,
        incidents.go, investment_theme.go, investment_project_theme.go, metrics.go, pullrequests.go,
        readiness.go, source_health.go, workitems.go, workload.go)
        ReadPieces.v, ReadSpec.v  placeholders and bindings of a text, and of every reader
        ReadMetrics.v, ReadSizing.v  the project rollup, and the sizing coverage
        ReadRows.v      each reader's row type, its Scan and the rows it returns
    - [schema] (src/schema): the production tables that the readers query.
        SchemaTables.v  schema.go: columns, engines, DDL, the membership view
        ReadRowsSpec.v  what each statement selects against what its Scan takes
    - [llm] (src/llm): clients of language model providers (OpenAI, Anthropic, and those with a
      compatible Chat Completions API), with budgets, strict JSON answers and batches.
        LlmErrors.v     errors.go and transport.go's failures: classes, classification, delays
        LlmRedact.v     errors.go sanitizeMessage, secret.go: what is printed
        LlmProvider.v   provider.go, secret.go, the constructors of the clients
        Wellformed.v, LlmJson.v  strict.go CompactJSON and gateJSON
        LlmParse.v      the response parsers (openai.go, compatible.go, anthropic.go)
        LlmSchema.v, LlmSchemaSpec.v  anthropic.go's schema passes, anthropic_schema_fit.go
        LlmCall.v       transport.go exchange, budget.go: one call, its budget and its span
        LlmRequest.v    the request bodies
        LlmComplete.v, LlmContract.v  Complete of the three clients, and the protocol that they share
        LlmRule.v       the rule of Complete, stated apart from the loops, which derive exactly it
        LlmStrict.v     strict.go CompleteStrict over any Provider
        LlmBatch.v, LlmBatchSpec.v  batch.go, openai_batch.go
    - the Go standard library as these parts use it: Regex.v (regexp, by derivatives), GoRegexp.v
      (regexp's leftmost search, with a group), Utf8.v, Json.v
      (encoding/json's grammar and values), JsonDecoder.v (its token machine), JsonEncode.v (Marshal),
      Decimal.v and GoFormat.v (strconv, time.Format), GoTime.v (time), Base64.v, GoStrings.v (strings).

    ** How the parts interact

    A service asks [pep] through the Decider interface (class in PepDecider.v): the cache wraps a
    client, both are Deciders, and the cache's theorems are proved against any Decider. [authverify]'s
    Verify runs over the interface TokenKind, which its three token classes implement and whose laws
    (TokenKindLaws) they discharge; it takes its keys from a KeySource, which the JWKS client is one
    of (AuthJwksClient.source). [workloadtoken] does not verify signatures: the theorem
    checked_token_verifies ties its check to the WorkloadVerifier that the receiving side runs. [readers]
    run every statement through one function, QueryOrgScopedNamed, over any RowScanner (class in
    ChClient.v); QueryOrgScoped_scoped composes it with [clickhouse]'s Query, and reader_calls_sound
    shows that what the readers hand over is what that client takes. The repository keys that the
    selectors keep are [repokey]'s. columns_scanned ties each reader's projection to the columns that
    [schema] declares and to the destinations of its Scan.

    [llm] is written in a monad over a world (LlmCall.v): what the code asks of its surroundings (the
    context, the clock, the HTTP client, a random key, the caller's budget) the world answers, in any
    way it likes, and what the code does (a request sent, a budget asked or settled, a span ended, a
    sleep) is an event. A caller's budget is any program that may run the attempt it is handed. Each
    client's Complete is shown to be one abstract protocol of calls (LlmContract.v), whose promises are
    proved once; CompleteStrict and the batch calls are proved over the same calls. A client is a
    Provider (class in LlmStrict.v), and CompleteStrict's theorem is proved against any Provider.

    ** State and concurrency

    Shared state is a record, each stretch of code under a mutex a function on it. Other goroutines
    are lists of such steps, placed where the code gives the lock up; a theorem about one call holds
    for every list. So the cache, the JWKS client and the workload token client are each proved over
    all interleavings of their critical sections. Errors are values of [result] or of sum types.

    ** What the theorems show

    - reading (C3, C5, C11, C26, C27, C32): each parser reads exactly the documents of its contract,
      whose grammar is stated apart from it; nothing malformed passes;
    - deciding (C1, C2, C4, C6): a verdict is the PDP's own answer to this request, or a cached one,
      which is current and was the answer to the same question; every other outcome is a local deny; the
      cache refines an LRU list within its bound;
    - verifying (C28 to C30, C33, C34, C36): Verify accepts exactly the genuine tokens of its class,
      the classes are disjoint, accepted tokens are current and signed under published keys;
    - fetching keys (C30, C31): fetches never overlap, served keys are from the last good fetch;
    - workload tokens (C35 to C39): Token returns only tokens that a strict verifier accepts now,
      from the client's own exchanges, which are paced; no call waits in vain; the transport sends
      the token to its target only;
    - querying (C7, C10, C40): only checked, bound, read-only statements reach the driver, each
      inside its organization; rows are closed and contexts cancelled;
    - readers (C8, C9, C22, C23): every statement is one the client takes with all its placeholders
      bound, and selects what its Scan takes, by types that are derived from the declared columns; a reader returns the driver's rows in order; the
      authorization SQL is the union of its four paths under the request's restrictions;
    - language models (C12 to C18, C24): at most two attempts, each with its true size and the
      client's own key; what is sent again, when and under what cap, and what is not, by a rule that is
      written apart from the loops; an answer is compact JSON or nothing; a
      refusal is never repaired; a batch is created at most once and read line by line; no long
      credential is printed;
    - schemas (C19 to C21, C25): the limits that the code checks and the copy that it sends to
      Anthropic, each by a description of its own; and DDL, read back.

    Beside the numbered theorems the files hold those of the parts: parseRevision_exact, checkToken_iff,
    array_round_trip, telemetry_closed, view_without_key and others.

    ** Bounds and fuel

    Recursion that is not structural takes fuel: twice the input's length and two more for the JSON
    parser and walks, the input's length for loops over runes and bytes, one more than its length for
    loops over members. Each reader's theorem is an equivalence with a relational grammar, or has a
    totality lemma beside it (rejectDuplicates_total, single_document_total, walk_document_fuel), so
    fuel that ran out would break it. Integers are Z with the wrap of int64 ([i64]) where a sum can
    reach it; durations and dates carry their bounds. encoding/json's nesting limit (10000) is
    [Json.maxNestingDepth]; float64 is the standard library's SpecFloat, where the code computes with it.
    The loops of [llm] need no fuel: their attempts are bounded by the code (two at most). A schema is
    walked to the depth the code allows (64). A replacement by regexp consumes a rune of its text for each
    match or stops, so its length is enough fuel; the query loop's fuel is more than the rows of the driver.

    ** Arguments

    What is not the repository's code is an argument, and no property of it is assumed unless a
    theorem names it as a hypothesis: the Unicode tables (strconv.IsPrint, unicode.SimpleFold,
    strings.ToLower), sha256, ed25519.Verify, url.Parse, mime.ParseMediaType, net.ParseIP, random bytes,
    files and their owners, the network's answers, the ClickHouse driver, certificate pools, the clock's
    readings, and what other goroutines do; in [llm], the world, strconv.ParseFloat, http.ParseTime, Go's
    conversion of a float that no int64 is near, and the caller's budget, validate and repair.

    ** Not modelled

    - the insides of OpenTelemetry and slog: what the code hands to them is a signal or an event. Of
      the error texts, those of [llm] and of the ClickHouse client are modelled, the others are classes;
    - what the server does with SQL: the texts are modelled byte for byte, ReadScopeSpec.v reads the
      authorization text as a two-valued formula over its atoms (work_items' columns there are not
      null), and ReadRowsSpec.v derives types by ClickHouse's documented rules for the functions that the
      statements use. Two columns are Nullable; that the driver puts a value of such a column, which is
      not NULL, into a plain destination is the driver's own;
    - a CachedClient that is nil or not configured (ready), which denies, stores nothing and cannot be
      invalidated; the order that DDL leaves its caller's list in;
      the requests that pep's client and TokenReview put on the wire, but for pep's bodies (C26);
    - Close of a provider, which only releases idle connections; a response schema that
      json.Marshal refuses (a schema is a JSON value here); src/llm/doc.go, a comment;
    - garbage collection, data races outside the locks, and the memory model: a critical section is
      one step. *)
From Stdlib Require Export ZArith Ascii String Lia.
From stdpp Require Export base tactics list gmap sets strings.

Set Default Proof Using "Type".

(** * Results *)

(** A Go function that returns (value, error): the value or the error. *)
Inductive result (E A : Type) : Type :=
| Ok (a : A)
| Err (e : E).
Arguments Ok {E A} a.
Arguments Err {E A} e.

#[global] Instance result_eq_dec {E A} `{!EqDecision E} `{!EqDecision A} : EqDecision (result E A).
Proof. solve_decision. Defined.

Definition is_ok {E A} (r : result E A) : bool := match r with Ok _ => true | Err _ => false end.

Definition rbind {E A B} (r : result E A) (k : A -> result E B) : result E B :=
  match r with Ok a => k a | Err e => Err e end.

Declare Scope go_scope.
Delimit Scope go_scope with go.
Notation "'try!' x ':=' e 'in' k" := (rbind e (fun x => k))
  (at level 10, x name, e at level 100, k at level 200) : go_scope.
Open Scope go_scope.

Lemma rbind_ok {E A B} (r : result E A) (k : A -> result E B) b :
  rbind r k = Ok b <-> exists a, r = Ok a /\ k a = Ok b.
Proof. destruct r; simpl; naive_solver. Qed.

(** * Machine integers *)

(** Go's int64 and uint64. Wrap-around is written at the operations that can reach it. *)
Definition two64 : Z := 18446744073709551616.
Definition max_int64 : Z := 9223372036854775807.
Definition min_int64 : Z := -9223372036854775808.
Definition u64 (z : Z) : Z := (z mod two64)%Z.
Definition i64 (z : Z) : Z := ((z + 9223372036854775808) mod two64 - 9223372036854775808)%Z.

Lemma u64_small z : (0 <= z < two64)%Z -> u64 z = z.
Proof. intros H. unfold u64. apply Z.mod_small. exact H. Qed.

Lemma u64_range z : (0 <= u64 z < two64)%Z.
Proof. unfold u64. apply Z.mod_pos_bound. reflexivity. Qed.

Lemma i64_small z : (min_int64 <= z <= max_int64)%Z -> i64 z = z.
Proof.
  unfold min_int64, max_int64, i64, two64. intros H. rewrite Z.mod_small; lia.
Qed.

(** A decidable fact about the numbers below a bound, by running it on each. *)
Lemma below_run (P : N -> bool) (k : nat) :
  forallb (fun i => P (N.of_nat i)) (seq 0 k) = true -> forall n, (n < N.of_nat k)%N -> P n = true.
Proof.
  intros H n Hn. rewrite forallb_forall in H. specialize (H (N.to_nat n)). rewrite N2Nat.id in H. apply H. apply in_seq. lia.
Qed.

(** * Bytes and strings *)

(** A Go string and a Go []byte are both byte sequences: Rocq's [string] of 8-bit characters. *)

Definition code (c : ascii) : N := N_of_ascii c.
Definition chr (n : N) : ascii := ascii_of_N n.
Definition dquote : ascii := chr 34.
Definition squote : ascii := chr 39.
Definition backslash : ascii := chr 92.

Lemma code_chr n : (n < 256)%N -> code (chr n) = n.
Proof. intros H. unfold code, chr. apply N_ascii_embedding. exact H. Qed.

Lemma chr_code c : chr (code c) = c.
Proof. apply ascii_N_embedding. Qed.

Lemma code_lt c : (code c < 256)%N.
Proof. unfold code. apply N_ascii_bounded. Qed.

Lemma code_inj c d : code c = code d -> c = d.
Proof. intros H. rewrite <-(chr_code c), <-(chr_code d), H. reflexivity. Qed.

Definition in_range (lo hi c : ascii) : bool :=
  (code lo <=? code c)%N && (code c <=? code hi)%N.

(** The characters of a string, first to last. *)
Fixpoint chars (s : string) : list ascii :=
  match s with EmptyString => [] | String c r => c :: chars r end.

Fixpoint of_chars (l : list ascii) : string :=
  match l with [] => EmptyString | c :: r => String c (of_chars r) end.

Lemma of_chars_chars s : of_chars (chars s) = s.
Proof. induction s as [|c s IH]; simpl; congruence. Qed.

Lemma chars_of_chars l : chars (of_chars l) = l.
Proof. induction l as [|c l IH]; simpl; congruence. Qed.

Lemma chars_inj s t : chars s = chars t -> s = t.
Proof. intros H. rewrite <-(of_chars_chars s), <-(of_chars_chars t), H. reflexivity. Qed.

Lemma chars_app s t : chars (s +:+ t) = chars s ++ chars t.
Proof. induction s as [|c s IH]; simpl; [reflexivity | f_equal; exact IH]. Qed.

Lemma length_chars s : length (chars s) = String.length s.
Proof. induction s as [|c s IH]; simpl; [reflexivity | f_equal; exact IH]. Qed.

Lemma str_app_cons c s t : String c s +:+ t = String c (s +:+ t).
Proof. reflexivity. Qed.

Lemma str_app_nil s : EmptyString +:+ s = s.
Proof. reflexivity. Qed.

Lemma of_chars_app l k : of_chars (l ++ k) = of_chars l +:+ of_chars k.
Proof. induction l as [|c l IH]; simpl; [reflexivity | rewrite IH; reflexivity]. Qed.

Lemma str_app_assoc s t u : (s +:+ t) +:+ u = s +:+ (t +:+ u).
Proof. induction s as [|c s IH]; [reflexivity|]. rewrite !str_app_cons, IH. reflexivity. Qed.

Lemma str_app_nil_r s : s +:+ EmptyString = s.
Proof. induction s as [|c s IH]; [reflexivity|]. rewrite str_app_cons, IH. reflexivity. Qed.

Lemma str_length_app s t : String.length (s +:+ t) = String.length s + String.length t.
Proof. rewrite <-!length_chars, chars_app, length_app. reflexivity. Qed.

(** contains (list []string, s string) of pep/request.go and authverify/accesstoken_wire.go. *)
Definition contains (l : list string) (s : string) : bool :=
  existsb (fun v => String.eqb v s) l.

#[global] Arguments contains : simpl never.

Lemma contains_spec l s : contains l s = true <-> s ∈ l.
Proof.
  unfold contains. rewrite existsb_exists. setoid_rewrite String.eqb_eq.
  setoid_rewrite <-list_elem_of_In. naive_solver.
Qed.

Lemma contains_false l s : contains l s = false <-> s ∉ l.
Proof. rewrite <-contains_spec. destruct (contains l s); naive_solver. Qed.

(** A property of a closed set of strings is checked by running the test on its members. *)
Lemma forallb_contains (P : string -> bool) l s : forallb P l = true -> contains l s = true -> P s = true.
Proof.
  intros Hl Hs. apply contains_spec in Hs. rewrite forallb_forall in Hl. apply Hl. apply list_elem_of_In. exact Hs.
Qed.

(** strings.Split(s, string(sep)): always at least one element. *)
Fixpoint split (sep : ascii) (s : string) : list string :=
  match s with
  | EmptyString => [EmptyString]
  | String c r =>
      if Ascii.eqb c sep then EmptyString :: split sep r
      else match split sep r with
           | [] => [String c EmptyString]
           | p :: ps => String c p :: ps
           end
  end.

(** strings.Join(parts, sep). *)
Fixpoint join (sep : string) (l : list string) : string :=
  match l with
  | [] => EmptyString
  | [x] => x
  | x :: r => x +:+ sep +:+ join sep r
  end.

(** No character of [s] is [c]. *)
Definition free_of (c : ascii) (s : string) : Prop := c ∉ chars s.

Lemma free_of_cons c d s : free_of c (String d s) <-> c <> d /\ free_of c s.
Proof. unfold free_of. simpl. rewrite not_elem_of_cons. reflexivity. Qed.

Lemma free_of_app c s t : free_of c (s +:+ t) <-> free_of c s /\ free_of c t.
Proof. unfold free_of. rewrite chars_app, not_elem_of_app. reflexivity. Qed.

Lemma split_nonempty sep s : split sep s <> [].
Proof. destruct s as [|c r]; simpl; [discriminate|]. destruct (Ascii.eqb c sep); [discriminate|]. destruct (split sep r); discriminate. Qed.

Lemma split_free sep s : free_of sep s -> split sep s = [s].
Proof.
  induction s as [|c s IH]; [reflexivity|]. rewrite free_of_cons. intros [Hc Hs]. simpl.
  rewrite IH by exact Hs. destruct (Ascii.eqb_spec c sep); [congruence | reflexivity].
Qed.

Lemma split_app_sep sep s t : free_of sep s -> split sep (s +:+ String sep t) = s :: split sep t.
Proof.
  induction s as [|c s IH].
  - intros _. simpl. rewrite Ascii.eqb_refl. reflexivity.
  - rewrite str_app_cons. simpl. rewrite free_of_cons. intros [Hc Hs]. rewrite IH by exact Hs.
    destruct (Ascii.eqb_spec c sep); [congruence | reflexivity].
Qed.

Lemma split_parts_free sep s : Forall (free_of sep) (split sep s).
Proof.
  induction s as [|c s IH]; simpl.
  - constructor; [|constructor]. unfold free_of. simpl. apply not_elem_of_nil.
  - destruct (Ascii.eqb_spec c sep) as [->|Hc].
    + constructor; [unfold free_of; simpl; apply not_elem_of_nil | exact IH].
    + destruct (split sep s) as [|p ps]; inversion_clear IH.
      * constructor; [|constructor]. rewrite free_of_cons. split; [congruence|].
        unfold free_of. simpl. apply not_elem_of_nil.
      * constructor; [|assumption]. rewrite free_of_cons. split; [congruence | assumption].
Qed.

Lemma join_cons sep x l : l <> [] -> join sep (x :: l) = x +:+ sep +:+ join sep l.
Proof. destruct l; [congruence | reflexivity]. Qed.

Lemma join_char sep c p ps : join sep (String c p :: ps) = String c (join sep (p :: ps)).
Proof. destruct ps; reflexivity. Qed.

Lemma join_split sep s : join (String sep EmptyString) (split sep s) = s.
Proof.
  induction s as [|c s IH]; [reflexivity|]. simpl.
  pose proof (split_nonempty sep s) as Hne.
  destruct (Ascii.eqb_spec c sep) as [->|Hc].
  - rewrite join_cons, IH by exact Hne. reflexivity.
  - destruct (split sep s) as [|p ps]; [congruence|]. rewrite join_char, IH. reflexivity.
Qed.

Lemma split_join sep l :
  l <> [] -> Forall (free_of sep) l -> split sep (join (String sep EmptyString) l) = l.
Proof.
  intros Hne Hl. induction Hl as [|x l Hx Hl IH]; [congruence|].
  destruct l as [|y l]; [apply split_free; exact Hx|].
  change (join (String sep EmptyString) (x :: y :: l))
    with (x +:+ String sep (join (String sep EmptyString) (y :: l))).
  rewrite split_app_sep by exact Hx. rewrite IH by discriminate. reflexivity.
Qed.

(** A text with its single quotes as double quotes, to write JSON documents. *)
Definition quotes (s : string) : string :=
  of_chars (map (fun c => if Ascii.eqb c squote then dquote else c) (chars s)).

(** * Automation *)

(** [go] holds the facts that close the common side conditions. *)
Create HintDb go.
#[export] Hint Resolve u64_range code_lt : go.
#[export] Hint Rewrite str_app_cons str_app_nil str_app_assoc str_app_nil_r : strs.

(** Boolean tests of the source, as hypotheses. *)
Ltac simp_bool :=
  repeat match goal with
  | H : _ && _ = true |- _ => apply andb_true_iff in H; destruct H
  | H : _ || _ = false |- _ => apply orb_false_iff in H; destruct H
  | H : negb _ = true |- _ => apply negb_true_iff in H
  | H : negb _ = false |- _ => apply negb_false_iff in H
  | H : bool_decide _ = true |- _ => apply bool_decide_eq_true in H
  | H : bool_decide _ = false |- _ => apply bool_decide_eq_false in H
  | H : String.eqb _ _ = true |- _ => apply String.eqb_eq in H
  | H : String.eqb _ _ = false |- _ => apply String.eqb_neq in H
  | H : Ascii.eqb _ _ = true |- _ => apply Ascii.eqb_eq in H
  | H : Ascii.eqb _ _ = false |- _ => apply Ascii.eqb_neq in H
  | H : (_ <? _)%Z = true |- _ => apply Z.ltb_lt in H
  | H : (_ <? _)%Z = false |- _ => apply Z.ltb_ge in H
  | H : (_ <=? _)%Z = true |- _ => apply Z.leb_le in H
  | H : (_ <=? _)%Z = false |- _ => apply Z.leb_gt in H
  | H : (_ =? _)%Z = true |- _ => apply Z.eqb_eq in H
  | H : (_ =? _)%Z = false |- _ => apply Z.eqb_neq in H
  | H : (_ <? _)%nat = true |- _ => apply Nat.ltb_lt in H
  | H : (_ <? _)%nat = false |- _ => apply Nat.ltb_ge in H
  | H : (_ <=? _)%nat = true |- _ => apply Nat.leb_le in H
  | H : (_ <=? _)%nat = false |- _ => apply Nat.leb_gt in H
  | H : (_ =? _)%nat = true |- _ => apply Nat.eqb_eq in H
  | H : (_ =? _)%nat = false |- _ => apply Nat.eqb_neq in H
  | H : contains _ _ = true |- _ => apply contains_spec in H
  | H : contains _ _ = false |- _ => apply contains_false in H
  end.

(** Walk through the early returns of a translated body: each [if] or [match] that guards a
    hypothesis [H : body = v] is split, and the branches whose value cannot be [v] are closed. *)
Ltac walk_returns H :=
  repeat (first
    [ discriminate H
    | match type of H with
      | context [if ?b then _ else _] => let E := fresh "E" in destruct b eqn:E
      | context [match ?x with _ => _ end] => let E := fresh "E" in destruct x eqn:E
      end ];
    try discriminate H).
