(* ===== verification/Regex.v ===== *)
(** Regular expressions of the kind Go's regexp package compiles for this repository: anchored
    patterns over ASCII classes with bounded repetition. The syntax tree [re] has one constructor
    per operator the patterns use; [matches] is its language, [matchb] the executable matcher by
    derivatives, and [matchb_spec] says they agree. A pattern [^...$] is the tree of its body and
    MatchString is [matchb]: every class is ASCII, so matching bytes and matching runes agree. *)
From S2P Require Import Prelude.

Inductive re : Type :=
| RNone                                        (* no string *)
| REps                                         (* the empty string *)
| RCls (ranges : list (ascii * ascii))         (* [a-z0-9] *)
| RSeq (r s : re)
| RAlt (r s : re)
| RRep (r : re) (lo : nat) (hi : option nat).  (* r{lo,hi}; None is no upper bound *)

Definition in_class (ranges : list (ascii * ascii)) (c : ascii) : bool :=
  existsb (fun '(lo, hi) => in_range lo hi c) ranges.

Definition opred (h : option nat) : option nat := option_map pred h.

Inductive matches : re -> string -> Prop :=
| m_eps : matches REps EmptyString
| m_cls rs c : in_class rs c = true -> matches (RCls rs) (String c EmptyString)
| m_seq r s u v : matches r u -> matches s v -> matches (RSeq r s) (u +:+ v)
| m_alt_l r s u : matches r u -> matches (RAlt r s) u
| m_alt_r r s u : matches s u -> matches (RAlt r s) u
| m_rep_nil r h : matches (RRep r 0 h) EmptyString
| m_rep_cons r lo h u v : h <> Some 0 -> matches r u -> matches (RRep r (pred lo) (opred h)) v ->
    matches (RRep r lo h) (u +:+ v).

(** * The matcher *)

Fixpoint nullable (r : re) : bool :=
  match r with
  | RNone | RCls _ => false
  | REps => true
  | RSeq r s => nullable r && nullable s
  | RAlt r s => nullable r || nullable s
  | RRep r lo h => (lo =? 0) || (nullable r && match h with None => true | Some h => lo <=? h end)
  end.

(** Smart constructors keep derivatives small; they do not change the language. *)
Definition seq' (r s : re) : re :=
  match r, s with
  | RNone, _ | _, RNone => RNone
  | REps, s => s
  | r, REps => r
  | r, s => RSeq r s
  end.

Definition alt' (r s : re) : re :=
  match r, s with RNone, s => s | r, RNone => r | r, s => RAlt r s end.

Fixpoint deriv (c : ascii) (r : re) : re :=
  match r with
  | RNone | REps => RNone
  | RCls rs => if in_class rs c then REps else RNone
  | RSeq r s => let d := seq' (deriv c r) s in if nullable r then alt' d (deriv c s) else d
  | RAlt r s => alt' (deriv c r) (deriv c s)
  | RRep r lo h =>
      match h with
      | Some 0 => RNone
      | _ => seq' (deriv c r) (RRep r (pred lo) (opred h))
      end
  end.

Fixpoint matchb (r : re) (s : string) : bool :=
  match s with EmptyString => nullable r | String c s => matchb (deriv c r) s end.

(** * Inversions *)

Lemma str_app_eq_nil u v : u +:+ v = EmptyString -> u = EmptyString /\ v = EmptyString.
Proof. destruct u; [auto | discriminate]. Qed.

Lemma matches_none u : ~ matches RNone u.
Proof. inversion 1. Qed.

Lemma matches_eps u : matches REps u <-> u = EmptyString.
Proof. split; [inversion 1; reflexivity | intros ->; constructor]. Qed.

Lemma matches_cls rs u : matches (RCls rs) u <-> exists c, u = String c EmptyString /\ in_class rs c = true.
Proof. split; [inversion 1; eauto | intros (c & -> & H); constructor; exact H]. Qed.

Lemma matches_seq r s w : matches (RSeq r s) w <-> exists u v, w = u +:+ v /\ matches r u /\ matches s v.
Proof. split; [inversion 1; eauto | intros (u & v & -> & Hu & Hv); constructor; assumption]. Qed.

Lemma matches_alt r s u : matches (RAlt r s) u <-> matches r u \/ matches s u.
Proof. split; [inversion 1; auto | intros [H|H]; [apply m_alt_l | apply m_alt_r]; exact H]. Qed.

Lemma matches_rep r lo h w :
  matches (RRep r lo h) w <->
  (lo = 0 /\ w = EmptyString) \/
  (exists u v, w = u +:+ v /\ h <> Some 0 /\ matches r u /\ matches (RRep r (pred lo) (opred h)) v).
Proof.
  split.
  - inversion 1; subst; [left; auto | right; eauto 10].
  - intros [[-> ->] | (u & v & -> & Hh & Hu & Hv)]; econstructor; eauto.
Qed.

(** One optional occurrence. *)
Lemma matches_opt r w : matches (RRep r 0 (Some 1)) w <-> w = EmptyString \/ matches r w.
Proof.
  rewrite matches_rep. simpl. split.
  - intros [[_ ->] | (u & v & -> & _ & Hu & Hv)]; [auto|].
    apply matches_rep in Hv as [[_ ->] | (? & ? & ? & H & _)]; [|congruence].
    rewrite str_app_nil_r. auto.
  - intros [-> | H]; [auto|]. right. exists w, EmptyString. rewrite str_app_nil_r.
    split; [reflexivity | split; [discriminate | split; [exact H | constructor]]].
Qed.

(** Between [lo] and [hi] characters of a class. *)
Lemma matches_rep_cls rs lo h w :
  matches (RRep (RCls rs) lo h) w <->
  Forall (fun c => in_class rs c = true) (chars w) /\ lo <= String.length w /\
  match h with None => True | Some h => String.length w <= h end.
Proof.
  revert lo h. induction w as [|c w IH]; intros lo h.
  - rewrite matches_rep. simpl. split.
    + intros [[-> _] | (u & v & E & _ & Hu & _)].
      * repeat split; [constructor | lia | destruct h; [lia | exact I]].
      * symmetry in E. apply str_app_eq_nil in E as [-> ->]. inversion Hu.
    + intros (_ & Hlo & _). left. split; [lia | reflexivity].
  - rewrite matches_rep. simpl. split.
    + intros [[_ E] | (u & v & E & Hh & Hu & Hv)]; [discriminate|].
      apply matches_cls in Hu as (d & -> & Hd). rewrite str_app_cons in E. simpl in E.
      injection E as -> ->. apply IH in Hv as (Hall & Hlo & Hhi).
      repeat split; [constructor; assumption | lia |].
      destruct h as [[|n]|]; simpl in *; [congruence | lia | exact I].
    + intros (Hall & Hlo & Hhi). apply Forall_cons in Hall as [Hc Hall]. right.
      exists (String c EmptyString), w. repeat split.
      * destruct h as [[|]|]; [lia | discriminate | discriminate].
      * constructor. exact Hc.
      * apply IH. repeat split; [exact Hall | lia |]. destruct h as [[|n]|]; simpl; [lia | lia | exact I].
Qed.

(** * Correctness of the matcher *)

Lemma nullable_spec r : nullable r = true <-> matches r EmptyString.
Proof.
  induction r as [| |rs|r IHr s IHs|r IHr s IHs|r IHr lo h]; simpl.
  - split; [discriminate | intros H; destruct (matches_none _ H)].
  - rewrite matches_eps. tauto.
  - rewrite matches_cls. split; [discriminate | intros (? & ? & _); discriminate].
  - rewrite andb_true_iff, IHr, IHs, matches_seq. split.
    + intros [Hr Hs]. exists EmptyString, EmptyString. auto.
    + intros (u & v & E & Hu & Hv). symmetry in E. apply str_app_eq_nil in E as [-> ->]. auto.
  - rewrite orb_true_iff, IHr, IHs, matches_alt. reflexivity.
  - rewrite orb_true_iff, andb_true_iff, Nat.eqb_eq, IHr. split.
    + intros [-> | [Hr Hh]]; [constructor|]. revert h Hh.
      induction lo as [|lo IH]; intros h Hh; [constructor|].
      apply (m_rep_cons r (S lo) h EmptyString EmptyString); [| exact Hr | apply IH].
      * destruct h as [[|]|]; [discriminate Hh | discriminate | discriminate].
      * destruct h as [[|]|]; [discriminate Hh | exact Hh | reflexivity].
    + intros H. clear IHr. remember (RRep r lo h) as q eqn:Eq. remember EmptyString as w eqn:Ew.
      revert lo h Eq Ew. induction H as [| | | | |r' h'|r' lo' h' u v Hh Hu _ Hv IHv]; intros lo h Eq Ew;
        try discriminate Eq; injection Eq as -> -> ->; [left; reflexivity|].
      apply str_app_eq_nil in Ew as [-> ->].
      destruct (IHv _ _ eq_refl eq_refl) as [E | [_ E]].
      * destruct lo as [|[|lo]]; simpl in E; [left; reflexivity | | discriminate].
        right. split; [exact Hu|]. destruct h as [[|]|]; [congruence | reflexivity | reflexivity].
      * destruct lo as [|lo]; [left; reflexivity|]. right. split; [exact Hu|].
        destruct h as [[|n]|]; simpl in *; [congruence | exact E | reflexivity].
Qed.

Lemma matches_seq' r s w : matches (seq' r s) w <-> matches (RSeq r s) w.
Proof.
  assert (Hl : forall s w, matches (RSeq REps s) w <-> matches s w).
  { intros q u. rewrite matches_seq. split.
    - intros (a & b & -> & Ha & Hb). apply matches_eps in Ha as ->. exact Hb.
    - intros H. exists EmptyString, u. split; [reflexivity | split; [constructor | exact H]]. }
  assert (Hr : forall r w, matches (RSeq r REps) w <-> matches r w).
  { intros q u. rewrite matches_seq. split.
    - intros (a & b & -> & Ha & Hb). apply matches_eps in Hb as ->. rewrite str_app_nil_r. exact Ha.
    - intros H. exists u, EmptyString. rewrite str_app_nil_r. split; [reflexivity | split; [exact H | constructor]]. }
  assert (Hnl : forall s w, ~ matches (RSeq RNone s) w).
  { intros q u. rewrite matches_seq. intros (a & b & _ & Ha & _). exact (matches_none _ Ha). }
  assert (Hnr : forall r w, ~ matches (RSeq r RNone) w).
  { intros q u. rewrite matches_seq. intros (a & b & _ & _ & Hb). exact (matches_none _ Hb). }
  destruct r; destruct s; simpl;
    first [ reflexivity | rewrite Hl; reflexivity | rewrite Hr; reflexivity
          | split; intros H; [destruct (matches_none _ H) | destruct (Hnl _ _ H)]
          | split; intros H; [destruct (matches_none _ H) | destruct (Hnr _ _ H)] ].
Qed.

Lemma matches_alt' r s w : matches (alt' r s) w <-> matches (RAlt r s) w.
Proof.
  rewrite matches_alt. pose proof (matches_none w).
  destruct r; destruct s; simpl; rewrite ?matches_alt; tauto.
Qed.

Lemma deriv_rep_sound r lo h c w :
  (forall u, matches (deriv c r) u <-> matches r (String c u)) ->
  matches (RRep r lo h) (String c w) ->
  h <> Some 0 /\ matches (RSeq (deriv c r) (RRep r (pred lo) (opred h))) w.
Proof.
  intros IHr H. remember (RRep r lo h) as q eqn:Eq. remember (String c w) as z eqn:Ez.
  revert lo h w Eq Ez. induction H as [| | | | |r' h'|r' lo' h' u v Hh Hu _ Hv IHv]; intros lo h w Eq Ez;
    try discriminate Eq; injection Eq as -> -> ->; [discriminate|].
  split; [exact Hh|]. apply matches_seq. destruct u as [|d u].
  - rewrite str_app_nil in Ez. subst v. destruct (IHv _ _ _ eq_refl eq_refl) as [Hh' Hw].
    apply matches_seq in Hw as (a & b & -> & Ha & Hb). exists a, b. repeat split; [exact Ha|].
    apply (m_rep_cons r (pred lo) (opred h) EmptyString b); assumption.
  - rewrite str_app_cons in Ez. injection Ez as -> <-. exists u, v. repeat split; [|exact Hv].
    apply IHr. exact Hu.
Qed.

Lemma deriv_spec c r w : matches (deriv c r) w <-> matches r (String c w).
Proof.
  revert w. induction r as [| |rs|r IHr s IHs|r IHr s IHs|r IHr lo h]; intros w; simpl.
  - split; intros H; destruct (matches_none _ H).
  - rewrite matches_eps. split; [intros H; destruct (matches_none _ H) | discriminate].
  - rewrite matches_cls. destruct (in_class rs c) eqn:E.
    + rewrite matches_eps. split; [intros ->; eauto | intros (d & Hd & _); congruence].
    + split; [intros H; destruct (matches_none _ H) | intros (d & Hd & H)]. congruence.
  - assert (Hd : matches (RSeq (deriv c r) s) w <->
                 exists u v, w = u +:+ v /\ matches r (String c u) /\ matches s v).
    { rewrite matches_seq. setoid_rewrite IHr. reflexivity. }
    rewrite (matches_seq r s). split.
    + intros H. assert (matches (RSeq (deriv c r) s) w \/ (matches r EmptyString /\ matches (deriv c s) w)) as [H'|[Hn H']].
      { destruct (nullable r) eqn:En.
        - apply matches_alt', matches_alt in H as [H|H]; [left; apply matches_seq'; exact H|].
          right. split; [apply nullable_spec; exact En | exact H].
        - left. apply matches_seq'. exact H. }
      * apply Hd in H' as (u & v & -> & Hu & Hv). exists (String c u), v. auto.
      * exists EmptyString, (String c w). rewrite <-IHs. auto.
    + intros (u & v & E & Hu & Hv). destruct u as [|d u].
      * rewrite str_app_nil in E. subst v. pose proof (proj2 (nullable_spec r) Hu) as En. rewrite En.
        apply matches_alt', matches_alt. right. apply IHs. exact Hv.
      * rewrite str_app_cons in E. injection E as <- ->.
        assert (H' : matches (seq' (deriv c r) s) (u +:+ v)) by (apply matches_seq', Hd; eauto).
        destruct (nullable r); [apply matches_alt', matches_alt; left|]; exact H'.
  - rewrite matches_alt', !matches_alt, IHr, IHs. reflexivity.
  - split.
    + intros H. assert (h <> Some 0 /\ matches (RSeq (deriv c r) (RRep r (pred lo) (opred h))) w) as [Hh Hw].
      { destruct h as [[|n]|]; [destruct (matches_none _ H) | split; [discriminate | apply matches_seq'; exact H]
                               | split; [discriminate | apply matches_seq'; exact H]]. }
      apply matches_seq in Hw as (u & v & -> & Hu & Hv). apply IHr in Hu.
      rewrite <-str_app_cons. constructor; assumption.
    + intros H. apply deriv_rep_sound in H as [Hh Hw]; [|exact IHr].
      destruct h as [[|n]|]; [congruence | apply matches_seq'; exact Hw | apply matches_seq'; exact Hw].
Qed.

Theorem matchb_spec r s : matchb r s = true <-> matches r s.
Proof.
  revert r. induction s as [|c s IH]; intros r; simpl; [apply nullable_spec|].
  rewrite IH. apply deriv_spec.
Qed.

Lemma matchb_false r s : matchb r s = false <-> ~ matches r s.
Proof. rewrite <-matchb_spec. destruct (matchb r s); naive_solver. Qed.

#[export] Instance matches_dec r s : Decision (matches r s).
Proof.
  refine (match matchb r s as b return matchb r s = b -> Decision (matches r s) with
          | true => fun H => left _ | false => fun H => right _ end eq_refl).
  - apply matchb_spec. exact H.
  - apply matchb_false. exact H.
Defined.

(** * Notation for the patterns of the source *)

Declare Scope re_scope.
Delimit Scope re_scope with re.
Bind Scope re_scope with re.

(** A literal. *)
Fixpoint lit (s : string) : re :=
  match s with
  | EmptyString => REps
  | String c EmptyString => RCls [(c, c)]
  | String c r => RSeq (RCls [(c, c)]) (lit r)
  end.

(** A class given by its text: "a-z0-9._" reads as ranges and single characters; a '-' that is
    last stands for itself, as in the source's classes. *)
Fixpoint cls_ranges (s : string) (fuel : nat) : list (ascii * ascii) :=
  match fuel with
  | 0 => []
  | S fuel =>
      match s with
      | EmptyString => []
      | String a (String "-"%char (String b r)) => (a, b) :: cls_ranges r fuel
      | String a r => (a, a) :: cls_ranges r fuel
      end
  end.

Definition cls (s : string) : re := RCls (cls_ranges s (String.length s)).
Definition star (r : re) : re := RRep r 0 None.
Definition plus (r : re) : re := RRep r 1 None.
Definition opt (r : re) : re := RRep r 0 (Some 1).
Definition rep (r : re) (lo hi : nat) : re := RRep r lo (Some hi).

Fixpoint seqs (l : list re) : re :=
  match l with [] => REps | [r] => r | r :: l => RSeq r (seqs l) end.
Fixpoint alts (l : list re) : re :=
  match l with [] => RNone | [r] => r | r :: l => RAlt r (alts l) end.

Lemma matches_lit s w : matches (lit s) w <-> w = s.
Proof.
  revert w. induction s as [|c s IH]; intros w; [apply matches_eps|].
  assert (Hc : forall u, matches (RCls [(c, c)]) u <-> u = String c EmptyString).
  { intros u. rewrite matches_cls. unfold in_class, in_range. simpl. split.
    - intros (d & -> & H). rewrite orb_false_r in H. apply andb_true_iff in H as [H1 H2].
      apply N.leb_le in H1, H2. f_equal. apply code_inj. lia.
    - intros ->. exists c. split; [reflexivity|]. rewrite N.leb_refl. reflexivity. }
  destruct s as [|d s]; [apply Hc|].
  change (lit (String c (String d s))) with (RSeq (RCls [(c, c)]) (lit (String d s))).
  rewrite matches_seq. setoid_rewrite Hc. setoid_rewrite IH. split.
  - intros (u & v & -> & -> & ->). reflexivity.
  - intros ->. exists (String c EmptyString), (String d s). auto.
Qed.

(** * The characters of a match *)

(** Every class of the expression holds only characters that satisfy [P]. *)
Fixpoint re_within (P : ascii -> bool) (r : re) : bool :=
  match r with
  | RNone | REps => true
  | RCls rs => forallb (fun n => implb (in_class rs (chr (N.of_nat n))) (P (chr (N.of_nat n)))) (seq 0 256)
  | RSeq r s | RAlt r s => re_within P r && re_within P s
  | RRep r _ _ => re_within P r
  end.

Lemma matches_within P r s : re_within P r = true -> matches r s -> Forall (fun c => P c = true) (chars s).
Proof.
  intros Hr Hs. induction Hs as [|rs c Hc|r q u v Hu IHu Hv IHv|r q u Hu IHu|r q u Hu IHu|r h|r lo h u v Hh Hu IHu Hv IHv];
    cbn [re_within] in Hr; try (constructor; fail).
  - constructor; [|constructor]. rewrite forallb_forall in Hr. specialize (Hr (N.to_nat (code c))).
    rewrite N2Nat.id, chr_code, Hc in Hr. apply Hr. apply in_seq. pose proof (code_lt c). lia.
  - simp_bool. rewrite chars_app. apply Forall_app. auto.
  - simp_bool. auto.
  - simp_bool. auto.
  - rewrite chars_app. apply Forall_app. auto.
Qed.
