(* ===== verification/RepoKey.v ===== *)
(** The canonical repository key of src/repokey/repokey.go: the pattern text as a syntax tree, the
    two validity tests, and what they accept, said in terms of path segments. *)
From S2P Require Import Prelude Regex.

Module RepoKey.

Definition MaxSegments : nat := 20.
Definition MaxBytes : nat := 255.

(** The two constants of body(). *)
Definition group : re :=
  RSeq (cls "a-z0-9") (opt (RSeq (rep (cls "a-z0-9._-") 0 98) (cls "a-z0-9"))).
Definition last_segment : re :=
  RAlt (cls "a-z0-9") (seqs [cls "a-z0-9."; rep (cls "a-z0-9._-") 0 98; cls "a-z0-9"]).

(** nest after [n] rounds of body()'s loop. *)
Fixpoint nest (n : nat) : re :=
  match n with 0 => REps | S n => opt (seqs [lit "/"; group; nest n]) end.

Definition body : re := seqs [group; nest (MaxSegments - 2); lit "/"; last_segment].

Definition SlugPattern : re := body.
Definition SchemaPattern : re := RAlt body (lit "*").

Definition ValidSlug (key : string) : bool :=
  (String.length key <=? MaxBytes) && matchb SlugPattern key.

Definition Valid (key : string) : bool :=
  (String.length key <=? MaxBytes) && matchb SchemaPattern key.

(** * What a key is *)

Definition alnum (c : ascii) : bool := in_range "a" "z" c || in_range "0" "9" c.
Definition seg_char (c : ascii) : bool :=
  alnum c || Ascii.eqb c "." || Ascii.eqb c "_" || Ascii.eqb c "-".

(** A segment: 1 to 100 segment characters that begin with [first] and end with an alphanumeric. *)
Definition segment (first : ascii -> bool) (s : string) : Prop :=
  1 <= String.length s <= 100 /\ Forall (fun c => seg_char c = true) (chars s) /\
  (forall c, head (chars s) = Some c -> first c = true) /\
  (forall c, last (chars s) = Some c -> alnum c = true).

Definition group_name : string -> Prop := segment alnum.
Definition repo_name : string -> Prop := segment (fun c => alnum c || Ascii.eqb c ".").

(** A repository path: 1 to 19 group names and a repository name, joined by '/'. *)
Definition repo_path (s : string) : Prop :=
  exists gs r, s = join "/" (gs ++ [r]) /\ 1 <= length gs <= MaxSegments - 1 /\
    Forall group_name gs /\ repo_name r.

(** * The classes *)

Lemma in_range_eq c d : in_range c c d = Ascii.eqb d c.
Proof.
  unfold in_range. destruct (Ascii.eqb_spec d c) as [->|Hne]; [rewrite N.leb_refl; reflexivity|].
  destruct (N.leb_spec (code c) (code d)); destruct (N.leb_spec (code d) (code c)); simpl; try reflexivity.
  destruct Hne. apply code_inj. lia.
Qed.

Lemma class_alnum c : in_class (cls_ranges "a-z0-9" 6) c = alnum c.
Proof. unfold in_class, alnum. simpl. rewrite orb_false_r. reflexivity. Qed.

Lemma class_first c : in_class (cls_ranges "a-z0-9." 7) c = alnum c || Ascii.eqb c ".".
Proof. unfold in_class, alnum. simpl. rewrite in_range_eq, orb_false_r, orb_assoc. reflexivity. Qed.

Lemma class_seg c : in_class (cls_ranges "a-z0-9._-" 9) c = seg_char c.
Proof.
  unfold in_class, seg_char, alnum. simpl. rewrite !in_range_eq, orb_false_r, !orb_assoc. reflexivity.
Qed.

Lemma alnum_seg c : alnum c = true -> seg_char c = true.
Proof. unfold seg_char. intros ->. reflexivity. Qed.

(** One character of class [f], then at most 98 segment characters and an alphanumeric. *)
Lemma long_segment (rs : list (ascii * ascii)) f w :
  (forall c, in_class rs c = f c) -> (forall c, f c = true -> seg_char c = true) ->
  (matches (seqs [RCls rs; rep (cls "a-z0-9._-") 0 98; cls "a-z0-9"]) w <->
   2 <= String.length w /\ segment f w).
Proof.
  intros Hf Hseg. unfold seqs, rep. rewrite matches_seq. split.
  - intros (u & v & -> & Hu & Hv). apply matches_cls in Hu as (c & -> & Hc). rewrite Hf in Hc.
    apply matches_seq in Hv as (m & e & -> & Hm & He). apply matches_rep_cls in Hm as (Hm & _ & Hlen).
    apply matches_cls in He as (d & -> & Hd). rewrite class_alnum in Hd.
    unfold segment. rewrite !str_length_app, !chars_app. simpl. repeat split; try lia.
    + constructor; [auto|]. apply Forall_app. split; [|repeat constructor; auto using alnum_seg].
      eapply Forall_impl; [exact Hm|]. intros x Hx. rewrite <-class_seg. exact Hx.
    + intros x [= <-]. exact Hc.
    + intros x Hx. rewrite last_cons, last_snoc in Hx. injection Hx as <-. exact Hd.
  - intros [H2 ([Hlo Hhi] & Hall & Hfirst & Hlast)]. destruct w as [|c w]; [simpl in H2; lia|].
    simpl in *. apply Forall_cons in Hall as [_ Hall].
    destruct (chars w) as [|x l] eqn:E using rev_ind; [rewrite <-length_chars, E in H2; simpl in H2; lia|].
    clear IHl. assert (Ew : w = of_chars l +:+ String x EmptyString).
    { apply chars_inj. rewrite E, chars_app, chars_of_chars. reflexivity. }
    exists (String c EmptyString), w. split; [reflexivity|]. split.
    { constructor. rewrite Hf. apply Hfirst. reflexivity. }
    rewrite Ew. constructor.
    + apply matches_rep_cls. rewrite chars_of_chars. apply Forall_app in Hall as [Hl _].
      rewrite <-(length_chars (of_chars l)), chars_of_chars. split; [|split; [lia|]].
      * eapply Forall_impl; [exact Hl|]. intros y Hy. unfold cls. simpl String.length. rewrite class_seg. exact Hy.
      * rewrite <-length_chars, E, length_app in Hhi. simpl in Hhi. lia.
    + constructor. simpl String.length. rewrite class_alnum. apply Hlast.
      rewrite last_cons, last_snoc. reflexivity.
Qed.

(** A segment of one character. *)
Lemma short_segment f w :
  (forall c, alnum c = true -> f c = true) ->
  (matches (cls "a-z0-9") w <-> String.length w < 2 /\ segment f w).
Proof.
  intros Hf. unfold cls. simpl String.length. rewrite matches_cls. setoid_rewrite class_alnum. split.
  - intros (c & -> & Hc). unfold segment. simpl. repeat split; try lia.
    + repeat constructor. apply alnum_seg. exact Hc.
    + intros x [= <-]. auto.
    + intros x [= <-]. exact Hc.
  - intros (Hlen & [Hlo _] & _ & _ & Hlast). destruct w as [|c [|d w]]; simpl in *; try lia.
    exists c. split; [reflexivity | apply Hlast; reflexivity].
Qed.

Lemma split_length (P : Prop) (w : string) : (String.length w < 2 /\ P) \/ (2 <= String.length w /\ P) <-> P.
Proof. split; [tauto|]. intros H. destruct (Nat.lt_ge_cases (String.length w) 2); tauto. Qed.

Lemma matches_last w : matches last_segment w <-> repo_name w.
Proof.
  unfold last_segment, repo_name. rewrite matches_alt.
  rewrite (short_segment (fun c => alnum c || Ascii.eqb c ".")) by (intros c ->; reflexivity).
  change (cls "a-z0-9.") with (RCls (cls_ranges "a-z0-9." 7)).
  rewrite (long_segment _ (fun c => alnum c || Ascii.eqb c ".")); [apply split_length | exact class_first |].
  intros c Hc. unfold seg_char. rewrite Hc. reflexivity.
Qed.

Lemma matches_group w : matches group w <-> group_name w.
Proof.
  assert (H : matches group w <->
     matches (cls "a-z0-9") w \/ matches (seqs [cls "a-z0-9"; rep (cls "a-z0-9._-") 0 98; cls "a-z0-9"]) w).
  { unfold group, seqs. rewrite !matches_seq. setoid_rewrite matches_opt. split.
    - intros (u & v & -> & Hu & [-> | Hv]); [left; rewrite str_app_nil_r; exact Hu | right; eauto].
    - intros [Hw | (u & v & -> & Hu & Hv)]; [|eauto 10].
      exists w, EmptyString. rewrite str_app_nil_r. auto. }
  rewrite H. unfold group_name. rewrite (short_segment alnum) by auto.
  change [cls "a-z0-9"; rep (cls "a-z0-9._-") 0 98; cls "a-z0-9"]
    with [RCls (cls_ranges "a-z0-9" 6); rep (cls "a-z0-9._-") 0 98; cls "a-z0-9"].
  rewrite (long_segment _ alnum); [apply split_length | exact class_alnum | exact alnum_seg].
Qed.

(** * The pattern is the path grammar *)

Lemma matches_nest n w :
  matches (nest n) w <->
  exists gs, length gs <= n /\ Forall group_name gs /\ w = foldr (fun g acc => "/" +:+ g +:+ acc) EmptyString gs.
Proof.
  revert w. induction n as [|n IH]; intros w.
  - simpl nest. rewrite matches_eps. split.
    + intros ->. exists []. auto.
    + intros ([|g gs] & Hlen & _ & ->); [reflexivity | simpl in Hlen; lia].
  - change (nest (S n)) with (opt (RSeq (lit "/") (RSeq group (nest n)))).
    unfold opt. rewrite matches_opt, matches_seq. setoid_rewrite matches_lit. setoid_rewrite matches_seq.
    setoid_rewrite matches_group. setoid_rewrite IH. split.
    + intros [-> | (u & v & -> & -> & g & t & -> & Hg & gs & Hlen & Hgs & ->)].
      * exists []. simpl. split; [lia | auto].
      * exists (g :: gs). simpl. split; [lia | auto].
    + intros ([|g gs] & Hlen & Hgs & ->); [left; reflexivity | right].
      apply Forall_cons in Hgs as [Hg Hgs]. simpl in Hlen.
      eexists _, _. split; [simpl; reflexivity|]. split; [reflexivity|].
      eexists g, _. split; [reflexivity|]. split; [exact Hg|]. exists gs. split; [lia | auto].
Qed.

Lemma join_path g gs r :
  join "/" ((g :: gs) ++ [r]) = g +:+ foldr (fun g acc => "/" +:+ g +:+ acc) EmptyString gs +:+ "/" +:+ r.
Proof.
  revert g. induction gs as [|h gs IH]; intros g; [reflexivity|].
  change ((g :: h :: gs) ++ [r]) with (g :: ((h :: gs) ++ [r])).
  rewrite join_cons by discriminate. rewrite IH. simpl. rewrite !str_app_assoc. reflexivity.
Qed.

Lemma body_matches_path s : matches body s <-> repo_path s.
Proof.
  change body with (RSeq group (RSeq (nest 18) (RSeq (lit "/") last_segment))).
  rewrite matches_seq. setoid_rewrite matches_group. repeat setoid_rewrite matches_seq.
  setoid_rewrite matches_nest. setoid_rewrite matches_lit.
  setoid_rewrite matches_last. unfold repo_path, MaxSegments. simpl. split.
  - intros (g & ? & -> & Hg & ? & ? & -> & (gs & Hlen & Hgs & ->) & ? & r & -> & -> & Hr).
    exists (g :: gs), r. rewrite join_path. split; [reflexivity|]. simpl length. split; [lia | auto].
  - intros ([|g gs] & r & -> & [Hlo Hhi] & Hgs & Hr); simpl in Hlo, Hhi; [lia|].
    apply Forall_cons in Hgs as [Hg Hgs]. rewrite (join_path g gs r).
    eexists g, _. split; [reflexivity|]. split; [exact Hg|]. eexists _, _. split; [reflexivity|].
    split; [exists gs; split; [lia | auto]|]. eexists _, _. split; [reflexivity | auto].
Qed.

(** Segments hold no '/', so a path determines its segments. *)
Lemma segment_free f s : segment f s -> free_of "/" s.
Proof.
  intros (_ & Hall & _). unfold free_of. intros Hin. rewrite Forall_forall in Hall.
  apply Hall in Hin. discriminate Hin.
Qed.

Lemma path_segments gs r :
  Forall group_name gs -> repo_name r -> split "/" (join "/" (gs ++ [r])) = gs ++ [r].
Proof.
  intros Hgs Hr. apply split_join; [destruct gs; discriminate|]. apply Forall_app. split.
  - eapply Forall_impl; [exact Hgs|]. intros x. apply segment_free.
  - repeat constructor. eapply segment_free. exact Hr.
Qed.

(** C27: repokey.ValidSlug accepts exactly the lowercase paths the package documents: at most 255
    bytes, 2 to 20 '/'-separated segments, every segment but the last a group name (1-100 characters,
    alphanumeric at both ends), the last a repository name (which may also start with '.'). *)
Theorem valid_slug_iff_path key :
  ValidSlug key = true <->
  String.length key <= MaxBytes /\
  exists gs r, split "/" key = gs ++ [r] /\ 2 <= length (split "/" key) <= MaxSegments /\
    Forall group_name gs /\ repo_name r.
Proof.
  unfold ValidSlug. rewrite andb_true_iff, Nat.leb_le, matchb_spec. unfold SlugPattern.
  rewrite body_matches_path. unfold repo_path, MaxSegments. split; intros [Hlen H]; (split; [exact Hlen|]).
  - destruct H as (gs & r & -> & Hn & Hgs & Hr). exists gs, r. rewrite path_segments by assumption.
    rewrite length_app. simpl. split; [reflexivity|]. split; [lia | auto].
  - destruct H as (gs & r & E & Hn & Hgs & Hr). exists gs, r. rewrite <-E, join_split.
    rewrite E, length_app in Hn. simpl in Hn. split; [reflexivity|]. split; [lia | auto].
Qed.

(** Valid adds the wildcard and nothing else. *)
Lemma valid_iff key : Valid key = true <-> ValidSlug key = true \/ key = "*".
Proof.
  unfold Valid, ValidSlug, SchemaPattern, SlugPattern.
  rewrite !andb_true_iff, !Nat.leb_le, !matchb_spec, matches_alt, matches_lit.
  split; [tauto | intros [H | ->]; [tauto|]]. simpl. split; [unfold MaxBytes; lia | auto].
Qed.

Lemma wildcard_not_slug : ValidSlug "*" = false.
Proof. reflexivity. Qed.

Example slug_github : ValidSlug "acme/.github" = true.
Proof. vm_compute. reflexivity. Qed.
Example slug_dotdot : ValidSlug "acme/.." = false.
Proof. vm_compute. reflexivity. Qed.
Example slug_nested : ValidSlug "a/b/c/d/e/f/g/h/i/j/k/l/m/n/o/p/q/r/s/t" = true.
Proof. vm_compute. reflexivity. Qed.
Example slug_too_deep : ValidSlug "a/b/c/d/e/f/g/h/i/j/k/l/m/n/o/p/q/r/s/t/u" = false.
Proof. vm_compute. reflexivity. Qed.

End RepoKey.
