(* ===== verification/Utf8.v ===== *)
(** UTF-8 as Go's unicode/utf8 reads and writes it: DecodeRune with its error value and width, and
    EncodeRune. A rune is its code point, an [N]. *)
From S2P Require Import Prelude.

Module Utf8.

Definition RuneError : N := 65533.

Definition between (lo hi : N) (c : ascii) : bool := (lo <=? code c)%N && (code c <=? hi)%N.
Definition cont (c : ascii) : bool := between 128 191 c.
(** The low six bits of a continuation byte. *)
Definition low6 (c : ascii) : N := (code c - 128)%N.

(** utf8.DecodeRune: the rune and its width in bytes; an invalid byte is (RuneError, 1) and the
    empty string (RuneError, 0). *)
Definition DecodeRune (s : string) : N * nat :=
  match s with
  | EmptyString => (RuneError, 0)
  | String a r =>
      if (code a <? 128)%N then (code a, 1)
      else if between 194 223 a then
        match r with
        | String b _ => if cont b then (((code a - 192) * 64 + low6 b)%N, 2) else (RuneError, 1)
        | _ => (RuneError, 1)
        end
      else if between 224 239 a then
        match r with
        | String b (String c _) =>
            let lo := if (code a =? 224)%N then 160%N else 128%N in
            let hi := if (code a =? 237)%N then 159%N else 191%N in
            if between lo hi b && cont c
            then ((((code a - 224) * 64 + low6 b) * 64 + low6 c)%N, 3) else (RuneError, 1)
        | _ => (RuneError, 1)
        end
      else if between 240 244 a then
        match r with
        | String b (String c (String d _)) =>
            let lo := if (code a =? 240)%N then 144%N else 128%N in
            let hi := if (code a =? 244)%N then 143%N else 191%N in
            if between lo hi b && cont c && cont d
            then (((((code a - 240) * 64 + low6 b) * 64 + low6 c) * 64 + low6 d)%N, 4) else (RuneError, 1)
        | _ => (RuneError, 1)
        end
      else (RuneError, 1)
  end.

(** utf8.ValidRune: a code point that is no surrogate. *)
Definition ValidRune (r : N) : bool := (r <? 55296)%N || ((57343 <? r)%N && (r <=? 1114111)%N).

(** utf8.EncodeRune: an invalid rune is written as RuneError. *)
Definition encode (r : N) : string :=
  if (r <? 128)%N then of_chars [chr r]
  else if (r <? 2048)%N then of_chars [chr (192 + r / 64); chr (128 + r mod 64)]
  else if (r <? 65536)%N then of_chars [chr (224 + r / 4096); chr (128 + r / 64 mod 64); chr (128 + r mod 64)]
  else of_chars [chr (240 + r / 262144); chr (128 + r / 4096 mod 64); chr (128 + r / 64 mod 64); chr (128 + r mod 64)].

Definition EncodeRune (r : N) : string := encode (if ValidRune r then r else RuneError).

(** s[:n] and s[n:]. *)
Fixpoint take (n : nat) (s : string) : string :=
  match n, s with S n, String c r => String c (take n r) | _, _ => EmptyString end.
Fixpoint drop (n : nat) (s : string) : string :=
  match n, s with S n, String _ r => drop n r | _, s => s end.

Lemma take_drop n s : take n s +:+ drop n s = s.
Proof. revert s. induction n as [|n IH]; intros [|c s]; simpl; try reflexivity. rewrite str_app_cons, IH. reflexivity. Qed.

Lemma length_drop n s : String.length (drop n s) = String.length s - n.
Proof. revert s. induction n as [|n IH]; intros [|c s]; simpl; auto. Qed.

(** A rune occupies at least one byte. *)
Lemma decode_width s : s <> EmptyString -> 1 <= (DecodeRune s).2.
Proof.
  destruct s as [|a s]; [congruence|]. intros _. simpl.
  repeat case_match; simpl; lia.
Qed.

(** An ASCII byte is its own rune. *)
Lemma decode_ascii a r : (code a < 128)%N -> DecodeRune (String a r) = (code a, 1).
Proof. intros H. simpl. apply N.ltb_lt in H. rewrite H. reflexivity. Qed.

Lemma encode_ascii n : (n < 128)%N -> encode n = String (chr n) EmptyString.
Proof. intros H. unfold encode. apply N.ltb_lt in H. rewrite H. reflexivity. Qed.

(** Arithmetic of the continuation bytes. *)
Lemma cont_code c : cont c = true -> (128 <= code c <= 191)%N.
Proof. unfold cont, between. intros H. apply andb_true_iff in H as [H1 H2]. apply N.leb_le in H1, H2. lia. Qed.

Lemma between_code lo hi c : between lo hi c = true -> (lo <= code c <= hi)%N.
Proof. unfold between. intros H. apply andb_true_iff in H as [H1 H2]. apply N.leb_le in H1, H2. lia. Qed.

Lemma chr_eq n c : n = code c -> chr n = c.
Proof. intros ->. apply chr_code. Qed.

(** Base-64 digits. *)
Lemma div64 q x : (x < 64)%N -> ((q * 64 + x) / 64 = q)%N.
Proof. intros H. symmetry. apply (N.div_unique _ 64 q x); lia. Qed.

Lemma mod64 q x : (x < 64)%N -> ((q * 64 + x) mod 64 = x)%N.
Proof. intros H. symmetry. apply (N.mod_unique _ 64 q x); lia. Qed.

Lemma encode2 p x : (2 <= p < 32)%N -> (x < 64)%N ->
  encode (p * 64 + x) = of_chars [chr (192 + p); chr (128 + x)].
Proof.
  intros Hp Hx. unfold encode. rewrite (proj2 (N.ltb_ge _ 128)), (proj2 (N.ltb_lt _ 2048)) by lia.
  rewrite div64, mod64 by exact Hx. reflexivity.
Qed.

Lemma encode3 p y x : (32 <= p * 64 + y < 1024)%N -> (y < 64)%N -> (x < 64)%N ->
  encode ((p * 64 + y) * 64 + x) = of_chars [chr (224 + p); chr (128 + y); chr (128 + x)].
Proof.
  intros Hp Hy Hx. unfold encode.
  rewrite (proj2 (N.ltb_ge _ 128)), (proj2 (N.ltb_ge _ 2048)), (proj2 (N.ltb_lt _ 65536)) by lia.
  change 4096%N with (64 * 64)%N. rewrite <-N.Div0.div_div, !div64, !mod64 by assumption. reflexivity.
Qed.

Lemma encode4 p z y x : (16 <= p * 64 + z)%N -> (z < 64)%N -> (y < 64)%N -> (x < 64)%N ->
  encode (((p * 64 + z) * 64 + y) * 64 + x) = of_chars [chr (240 + p); chr (128 + z); chr (128 + y); chr (128 + x)].
Proof.
  intros Hp Hz Hy Hx. unfold encode.
  rewrite (proj2 (N.ltb_ge _ 128)), (proj2 (N.ltb_ge _ 2048)), (proj2 (N.ltb_ge _ 65536)) by lia.
  change 262144%N with (64 * (64 * 64))%N. change 4096%N with (64 * 64)%N.
  rewrite <-!N.Div0.div_div, !div64, !mod64 by assumption. reflexivity.
Qed.

Lemma valid_rune_iff r : ValidRune r = true <-> (r < 55296 \/ 57343 < r <= 1114111)%N.
Proof. unfold ValidRune. rewrite orb_true_iff, andb_true_iff, N.leb_le, !N.ltb_lt. reflexivity. Qed.

(** The bytes a rune was decoded from are its encoding. *)
Definition whole (s : string) (d : N * nat) : Prop := encode d.1 = take d.2 s /\ ValidRune d.1 = true.

Lemma whole2 a b s : between 194 223 a = true -> cont b = true ->
  whole (String a (String b s)) (((code a - 192) * 64 + low6 b)%N, 2).
Proof.
  intros Ha Hb. apply between_code in Ha. apply cont_code in Hb. unfold whole, low6. cbn [fst snd].
  rewrite valid_rune_iff, encode2 by lia. split; [|lia]. simpl.
  rewrite (chr_eq _ a), (chr_eq _ b) by lia. reflexivity.
Qed.

Lemma whole3 a b c s :
  between 224 239 a = true ->
  between (if (code a =? 224)%N then 160 else 128) (if (code a =? 237)%N then 159 else 191) b = true ->
  cont c = true -> whole (String a (String b (String c s))) ((((code a - 224) * 64 + low6 b) * 64 + low6 c)%N, 3).
Proof.
  intros Ha Hb Hc. apply between_code in Ha, Hb. apply cont_code in Hc. unfold whole, low6. cbn [fst snd].
  destruct (N.eqb_spec (code a) 224); destruct (N.eqb_spec (code a) 237); rewrite valid_rune_iff, encode3 by lia;
    (split; [simpl; rewrite (chr_eq _ a), (chr_eq _ b), (chr_eq _ c) by lia; reflexivity | lia]).
Qed.

Lemma whole4 a b c d s :
  between 240 244 a = true ->
  between (if (code a =? 240)%N then 144 else 128) (if (code a =? 244)%N then 143 else 191) b = true ->
  cont c = true -> cont d = true ->
  whole (String a (String b (String c (String d s)))) (((((code a - 240) * 64 + low6 b) * 64 + low6 c) * 64 + low6 d)%N, 4).
Proof.
  intros Ha Hb Hc Hd. apply between_code in Ha, Hb. apply cont_code in Hc, Hd. unfold whole, low6. cbn [fst snd].
  destruct (N.eqb_spec (code a) 240); destruct (N.eqb_spec (code a) 244); rewrite valid_rune_iff, encode4 by lia;
    (split; [simpl; rewrite (chr_eq _ a), (chr_eq _ b), (chr_eq _ c), (chr_eq _ d) by lia; reflexivity | lia]).
Qed.

Lemma whole1 a s : (code a < 128)%N -> whole (String a s) (code a, 1).
Proof.
  intros H. unfold whole. cbn [fst snd]. rewrite valid_rune_iff, encode_ascii, chr_code by exact H.
  split; [reflexivity | lia].
Qed.

(** DecodeRune either reads a whole rune, or reports the error value at width 1 (0 at the end). *)
Lemma decode_cases s : whole s (DecodeRune s) \/ DecodeRune s = (RuneError, 1) \/ s = EmptyString.
Proof.
  destruct s as [|a s]; [auto|]. simpl DecodeRune.
  destruct (N.ltb_spec (code a) 128); [left; apply whole1; assumption|].
  destruct (between 194 223 a) eqn:E2.
  { destruct s as [|b s]; [auto|]. destruct (cont b) eqn:Hb; [left; apply whole2; assumption | auto]. }
  destruct (between 224 239 a) eqn:E3.
  { destruct s as [|b [|c s]]; auto. destruct (between _ _ b && cont c) eqn:Hb; [|auto].
    apply andb_true_iff in Hb as [Hb Hc]. left. apply whole3; assumption. }
  destruct (between 240 244 a) eqn:E4; [|auto].
  destruct s as [|b [|c [|d s]]]; auto. destruct (between _ _ b && cont c && cont d) eqn:Hb; [|auto].
  apply andb_true_iff in Hb as [Hb Hd]. apply andb_true_iff in Hb as [Hb Hc]. left. apply whole4; assumption.
Qed.

End Utf8.
