(* ===== verification/Json.v ===== *)
(** The parts of Go's encoding/json that the repository uses: the lexical grammar of its scanner,
    the values Unmarshal reads, and the token machine behind Decoder.Token and Decoder.More.

    A [json] value keeps what the source looks at: numbers stay text (RawMessage, json.Number),
    strings are unquoted as Go unquotes them, objects are their members in document order. A
    json.RawMessage is modelled by the value it holds: the source only ever parses it again.
    [value] is the grammar, [parse_value] the parser, and the two agree ([parse_iff]). *)
From S2P Require Import Prelude Utf8.

Module Json.

Inductive json : Type :=
| JNull
| JBool (b : bool)
| JNum (text : string)
| JStr (s : string)
| JArr (l : list json)
| JObj (members : list (string * json)).

(** Induction with hypotheses for the elements and the members. *)
Section JsonInd.
Variable P : json -> Prop.
Hypothesis Hnull : P JNull.
Hypothesis Hbool : forall b, P (JBool b).
Hypothesis Hnum : forall t, P (JNum t).
Hypothesis Hstr : forall s, P (JStr s).
Hypothesis Harr : forall l, Forall P l -> P (JArr l).
Hypothesis Hobj : forall m, Forall (fun kv => P kv.2) m -> P (JObj m).

Fixpoint json_deep_ind (v : json) : P v :=
  match v with
  | JNull => Hnull
  | JBool b => Hbool b
  | JNum t => Hnum t
  | JStr s => Hstr s
  | JArr l => Harr l ((fix go (l : list json) : Forall P l :=
      match l with
      | [] => List.Forall_nil P
      | x :: r => List.Forall_cons P x r (json_deep_ind x) (go r)
      end) l)
  | JObj m => Hobj m ((fix go (m : list (string * json)) : Forall (fun kv => P kv.2) m :=
      match m with
      | [] => List.Forall_nil (fun kv => P kv.2)
      | x :: r => List.Forall_cons (fun kv => P kv.2) x r (json_deep_ind x.2) (go r)
      end) m)
  end.
End JsonInd.

(** * Lexical grammar *)

Definition is_space (c : ascii) : bool :=
  Ascii.eqb c " " || Ascii.eqb c (chr 9) || Ascii.eqb c (chr 10) || Ascii.eqb c (chr 13).

Fixpoint skip_ws (s : string) : string :=
  match s with String c r => if is_space c then skip_ws r else s | EmptyString => s end.

Definition is_digit (c : ascii) : bool := in_range "0" "9" c.

Definition hex_value (c : ascii) : option N :=
  if in_range "0" "9" c then Some (code c - 48)%N
  else if in_range "a" "f" c then Some (code c - 87)%N
  else if in_range "A" "F" c then Some (code c - 55)%N
  else None.

Definition hex4 (a b c d : ascii) : option N :=
  match hex_value a, hex_value b, hex_value c, hex_value d with
  | Some a, Some b, Some c, Some d => Some (((a * 16 + b) * 16 + c) * 16 + d)%N
  | _, _, _, _ => None
  end.

(** The one-letter escapes: the letter and the byte it stands for. *)
Definition simple_escape (e : ascii) : option ascii :=
  if Ascii.eqb e dquote || Ascii.eqb e backslash || Ascii.eqb e "/" then Some e
  else if Ascii.eqb e "b" then Some (chr 8)
  else if Ascii.eqb e "f" then Some (chr 12)
  else if Ascii.eqb e "n" then Some (chr 10)
  else if Ascii.eqb e "r" then Some (chr 13)
  else if Ascii.eqb e "t" then Some (chr 9)
  else None.

(** The scanner inside a string literal, after the opening quote: the raw body and what follows
    the closing quote. *)
Fixpoint scan_string (s : string) : option (string * string) :=
  match s with
  | EmptyString => None
  | String c r =>
      if Ascii.eqb c dquote then Some (EmptyString, r)
      else if Ascii.eqb c backslash then
        match r with
        | EmptyString => None
        | String e r1 =>
            match simple_escape e with
            | Some _ =>
                match scan_string r1 with
                | Some (b, t) => Some (String c (String e b), t)
                | None => None
                end
            | None =>
                if Ascii.eqb e "u" then
                  match r1 with
                  | String h1 (String h2 (String h3 (String h4 r2))) =>
                      match hex4 h1 h2 h3 h4, scan_string r2 with
                      | Some _, Some (b, t) =>
                          Some (String c (String e (String h1 (String h2 (String h3 (String h4 b))))), t)
                      | _, _ => None
                      end
                  | _ => None
                  end
                else None
            end
        end
      else if (code c <? 32)%N then None
      else match scan_string r with Some (b, t) => Some (String c b, t) | None => None end
  end.

(** getu4: the code unit of a \uXXXX escape at the head of [s]. *)
Definition getu4 (s : string) : option N :=
  match s with
  | String b (String u (String h1 (String h2 (String h3 (String h4 _))))) =>
      if Ascii.eqb b backslash && Ascii.eqb u "u" then hex4 h1 h2 h3 h4 else None
  | _ => None
  end.

(** utf16.IsSurrogate and utf16.DecodeRune. *)
Definition is_surrogate (r : N) : bool := (55296 <=? r)%N && (r <? 57344)%N.
Definition utf16_decode (r1 r2 : N) : option N :=
  if (55296 <=? r1)%N && (r1 <? 56320)%N && (56320 <=? r2)%N && (r2 <? 57344)%N
  then Some ((r1 - 55296) * 1024 + (r2 - 56320) + 65536)%N else None.

(** unquoteBytes over a scanned body; [fuel] is the body's length. *)
Fixpoint unquote (fuel : nat) (s : string) : string :=
  match fuel with
  | 0 => EmptyString
  | S fuel =>
      match s with
      | EmptyString => EmptyString
      | String c r =>
          if Ascii.eqb c backslash then
            match getu4 s with
            | Some rr =>
                let rest := Utf8.drop 6 s in
                if is_surrogate rr then
                  match getu4 rest with
                  | Some rr1 =>
                      match utf16_decode rr rr1 with
                      | Some d => Utf8.EncodeRune d +:+ unquote fuel (Utf8.drop 6 rest)
                      | None => Utf8.EncodeRune Utf8.RuneError +:+ unquote fuel rest
                      end
                  | None => Utf8.EncodeRune Utf8.RuneError +:+ unquote fuel rest
                  end
                else Utf8.EncodeRune rr +:+ unquote fuel rest
            | None =>
                match r with
                | String e r1 =>
                    match simple_escape e with
                    | Some x => String x (unquote fuel r1)
                    | None => EmptyString
                    end
                | EmptyString => EmptyString
                end
            end
          else if (code c <? 128)%N then String c (unquote fuel r)
          else let '(rr, w) := Utf8.DecodeRune s in
               Utf8.EncodeRune rr +:+ unquote fuel (Utf8.drop w s)
      end
  end.

(** A string literal after its opening quote, unquoted, and what follows. *)
Definition lex_string (s : string) : option (string * string) :=
  match scan_string s with
  | Some (raw, rest) => Some (unquote (String.length raw) raw, rest)
  | None => None
  end.

(** A run of digits and what follows. *)
Fixpoint digits (s : string) : string * string :=
  match s with
  | String c r => if is_digit c then let '(d, t) := digits r in (String c d, t) else (EmptyString, s)
  | EmptyString => (EmptyString, EmptyString)
  end.

(** A number token: sign, integer digits, fraction digits, exponent (its text up to the digits,
    whether it is negative, its digits). *)
Record number := Number {
  n_neg : bool; n_int : string; n_frac : option string; n_exp : option (string * bool * string) }.

Definition lex_int (s : string) : option (string * string) :=
  match s with
  | String c r =>
      if Ascii.eqb c "0" then Some ("0", r)
      else if is_digit c then Some (digits s) else None
  | EmptyString => None
  end.

Definition lex_frac (s : string) : option (option string * string) :=
  match s with
  | String c r =>
      if Ascii.eqb c "." then
        match digits r with (EmptyString, _) => None | (d, t) => Some (Some d, t) end
      else Some (None, s)
  | EmptyString => Some (None, s)
  end.

Definition lex_exp (s : string) : option (option (string * bool * string) * string) :=
  match s with
  | String c r =>
      if Ascii.eqb c "e" || Ascii.eqb c "E" then
        let '(sign, neg, r1) :=
          match r with
          | String g r1 => if Ascii.eqb g "+" then ("+", false, r1)
                           else if Ascii.eqb g "-" then ("-", true, r1) else (EmptyString, false, r)
          | EmptyString => (EmptyString, false, r)
          end in
        match digits r1 with
        | (EmptyString, _) => None
        | (d, t) => Some (Some (String c sign, neg, d), t)
        end
      else Some (None, s)
  | EmptyString => Some (None, s)
  end.

Definition lex_number (s : string) : option (number * string) :=
  let '(neg, s1) := match s with
                    | String c r => if Ascii.eqb c "-" then (true, r) else (false, s)
                    | EmptyString => (false, s) end in
  match lex_int s1 with
  | None => None
  | Some (i, s2) =>
      match lex_frac s2 with
      | None => None
      | Some (f, s3) =>
          match lex_exp s3 with None => None | Some (e, s4) => Some (Number neg i f e, s4) end
      end
  end.

Definition number_text (n : number) : string :=
  (if n_neg n then "-" else EmptyString) +:+ n_int n +:+
  match n_frac n with Some f => "." +:+ f | None => EmptyString end +:+
  match n_exp n with Some (e, _, d) => e +:+ d | None => EmptyString end.

Definition digit_value (c : ascii) : Z := Z.of_N (code c) - 48.

(** The value of a digit string. *)
Definition dec_value (s : string) : Z :=
  foldl (fun acc c => acc * 10 + digit_value c)%Z 0%Z (chars s).

(** strconv.ParseFloat's out-of-range test on a number token: |value| rounds to 2^1024 or more. The
    exponent's digits stop counting at 10000, as in readFloat. *)
Definition exp_value (s : string) : Z :=
  foldl (fun acc c => if acc <? 10000 then acc * 10 + digit_value c else acc)%Z 0%Z (chars s).

Definition overflows (n : number) : bool :=
  let frac := match n_frac n with Some f => f | None => EmptyString end in
  let m := dec_value (n_int n +:+ frac) in
  let e := (match n_exp n with
            | Some (_, neg, d) => if neg then - exp_value d else exp_value d
            | None => 0 end - Z.of_nat (String.length frac))%Z in
  let bound := (2 ^ 1024 - 2 ^ 970)%Z in
  if (m =? 0)%Z then false
  else if (e <? 0)%Z then
    (if Z.log2 m + 1 <? -e then false else bound * 10 ^ (-e) <=? m)%Z
  else if (400 <? e)%Z then true else (bound <=? m * 10 ^ e)%Z.

(** A literal name. *)
Fixpoint after (p s : string) : option string :=
  match p, s with
  | EmptyString, s => Some s
  | String a p, String b s => if Ascii.eqb a b then after p s else None
  | _, _ => None
  end.

(** What the scanner reads as one scalar at the head of [s]. *)
Inductive lexeme := LVal (v : json) | LNum (n : number).

Definition lex_scalar (s : string) : option (lexeme * string) :=
  match s with
  | EmptyString => None
  | String c r =>
      if Ascii.eqb c dquote then
        match lex_string r with Some (x, t) => Some (LVal (JStr x), t) | None => None end
      else if Ascii.eqb c "t" then
        match after "true" s with Some t => Some (LVal (JBool true), t) | None => None end
      else if Ascii.eqb c "f" then
        match after "false" s with Some t => Some (LVal (JBool false), t) | None => None end
      else if Ascii.eqb c "n" then
        match after "null" s with Some t => Some (LVal JNull, t) | None => None end
      else if Ascii.eqb c "-" || is_digit c then
        match lex_number s with Some (n, t) => Some (LNum n, t) | None => None end
      else None
  end.

Definition lexeme_value (l : lexeme) : json :=
  match l with LVal v => v | LNum n => JNum (number_text n) end.

(** * Values *)

(** [floats] is true where the value is decoded into Go's any: a number out of float64's range is
    then an error; it is false where numbers stay text (RawMessage, json.Number). *)
Definition scalar (floats : bool) (s : string) : option (json * string) :=
  match lex_scalar s with
  | Some (LNum n, t) => if floats && overflows n then None else Some (JNum (number_text n), t)
  | Some (LVal v, t) => Some (v, t)
  | None => None
  end.

(** The head character after white space. *)
Definition peek (s : string) : option (ascii * string) :=
  match skip_ws s with EmptyString => None | String c r => Some (c, r) end.

(** An object key and its colon. *)
Definition key (s : string) : option (string * string) :=
  match peek s with
  | Some (c, r) =>
      if Ascii.eqb c dquote then
        match lex_string r with
        | Some (k, r1) =>
            match peek r1 with
            | Some (d, r2) => if Ascii.eqb d ":" then Some (k, r2) else None
            | None => None
            end
        | None => None
        end
      else None
  | None => None
  end.

(** [value fl s v r]: a JSON value [v] at the head of [s], followed by [r]. *)
Inductive value (fl : bool) : string -> json -> string -> Prop :=
| v_scalar s c t v r : peek s = Some (c, t) -> c <> "{"%char -> c <> "["%char ->
    scalar fl (String c t) = Some (v, r) -> value fl s v r
| v_obj_nil s t r : peek s = Some ("{"%char, t) -> peek t = Some ("}"%char, r) -> value fl s (JObj []) r
| v_obj s t m r : peek s = Some ("{"%char, t) -> members fl t m r -> value fl s (JObj m) r
| v_arr_nil s t r : peek s = Some ("["%char, t) -> peek t = Some ("]"%char, r) -> value fl s (JArr []) r
| v_arr s t l r : peek s = Some ("["%char, t) -> elements fl t l r -> value fl s (JArr l) r
with members (fl : bool) : string -> list (string * json) -> string -> Prop :=
| m_last s k t v t1 r : key s = Some (k, t) -> value fl t v t1 -> peek t1 = Some ("}"%char, r) ->
    members fl s [(k, v)] r
| m_more s k t v t1 t2 m r : key s = Some (k, t) -> value fl t v t1 -> peek t1 = Some (","%char, t2) ->
    members fl t2 m r -> members fl s ((k, v) :: m) r
with elements (fl : bool) : string -> list json -> string -> Prop :=
| e_last s v t1 r : value fl s v t1 -> peek t1 = Some ("]"%char, r) -> elements fl s [v] r
| e_more s v t1 t2 l r : value fl s v t1 -> peek t1 = Some (","%char, t2) -> elements fl t2 l r ->
    elements fl s (v :: l) r.

Scheme value_mind := Induction for value Sort Prop
with members_mind := Induction for members Sort Prop
with elements_mind := Induction for elements Sort Prop.
Combined Scheme value_members_elements_ind from value_mind, members_mind, elements_mind.

(** The parser. [fuel] counts calls; twice the input's length and two more is enough. *)
Fixpoint parse_value (fl : bool) (fuel : nat) (s : string) : option (json * string) :=
  match fuel with
  | 0 => None
  | S fuel =>
      match peek s with
      | None => None
      | Some (c, t) =>
          if Ascii.eqb c "{" then
            match peek t with
            | Some (d, r) =>
                if Ascii.eqb d "}" then Some (JObj [], r)
                else match parse_members fl fuel t with Some (m, r) => Some (JObj m, r) | None => None end
            | None => None
            end
          else if Ascii.eqb c "[" then
            match peek t with
            | Some (d, r) =>
                if Ascii.eqb d "]" then Some (JArr [], r)
                else match parse_elements fl fuel t with Some (l, r) => Some (JArr l, r) | None => None end
            | None => None
            end
          else scalar fl (String c t)
      end
  end
with parse_members (fl : bool) (fuel : nat) (s : string) : option (list (string * json) * string) :=
  match fuel with
  | 0 => None
  | S fuel =>
      match key s with
      | None => None
      | Some (k, t) =>
          match parse_value fl fuel t with
          | None => None
          | Some (v, t1) =>
              match peek t1 with
              | Some (d, t2) =>
                  if Ascii.eqb d "}" then Some ([(k, v)], t2)
                  else if Ascii.eqb d "," then
                    match parse_members fl fuel t2 with Some (m, r) => Some ((k, v) :: m, r) | None => None end
                  else None
              | None => None
              end
          end
      end
  end
with parse_elements (fl : bool) (fuel : nat) (s : string) : option (list json * string) :=
  match fuel with
  | 0 => None
  | S fuel =>
      match parse_value fl fuel s with
      | None => None
      | Some (v, t1) =>
          match peek t1 with
          | Some (d, t2) =>
              if Ascii.eqb d "]" then Some ([v], t2)
              else if Ascii.eqb d "," then
                match parse_elements fl fuel t2 with Some (l, r) => Some (v :: l, r) | None => None end
              else None
          | None => None
          end
      end
  end.

(** How deep the brackets of a value go, and the scanner's maxNestingDepth. *)
Fixpoint levels (v : json) : N :=
  match v with
  | JArr l => N.succ (foldr (fun x acc => N.max (levels x) acc) 0%N l)
  | JObj m => N.succ (foldr (fun kv acc => N.max (levels kv.2) acc) 0%N m)
  | _ => 0%N
  end.
Definition maxNestingDepth : N := 10000.
Definition shallow (v : json) : bool := (levels v <=? maxNestingDepth)%N.

(** One value and nothing after it but white space: what Unmarshal and a Decoder that must reach
    the end accept. *)
Definition parse_document (fl : bool) (s : string) : option json :=
  match parse_value fl (2 * String.length s + 2) s with
  | Some (v, r) => match peek r with None => if shallow v then Some v else None | Some _ => None end
  | None => None
  end.

(** ** Consumption *)

Lemma length_skip_ws s : String.length (skip_ws s) <= String.length s.
Proof. induction s as [|c s IH]; simpl; [lia|]. destruct (is_space c); simpl; lia. Qed.

Lemma peek_length s c r : peek s = Some (c, r) -> String.length r < String.length s.
Proof.
  unfold peek. pose proof (length_skip_ws s) as H. destruct (skip_ws s) as [|d t]; [discriminate|].
  intros [= <- <-]. simpl in H. lia.
Qed.

Lemma scan_string_length s b r : scan_string s = Some (b, r) -> String.length r < String.length s.
Proof.
  revert b r. induction s as [s IH] using (induction_ltof1 _ String.length). unfold ltof in IH.
  intros b r. destruct s as [|c s]; simpl; [discriminate|].
  destruct (Ascii.eqb c dquote); [intros [= <- <-]; lia|].
  destruct (Ascii.eqb c backslash).
  - destruct s as [|e r1]; [discriminate|]. simpl in IH. destruct (simple_escape e).
    + destruct (scan_string r1) as [[b' t]|] eqn:E; [|discriminate]. intros [= <- <-].
      apply IH in E; simpl; lia.
    + destruct (Ascii.eqb e "u"); [|discriminate]. destruct r1 as [|h1 [|h2 [|h3 [|h4 r2]]]]; try discriminate.
      destruct (hex4 h1 h2 h3 h4); [|discriminate]. destruct (scan_string r2) as [[b' t]|] eqn:E; [|discriminate].
      intros [= <- <-]. simpl in *. apply IH in E; lia.
  - destruct (code c <? 32)%N; [discriminate|]. destruct (scan_string s) as [[b' t]|] eqn:E; [|discriminate].
    intros [= <- <-]. apply IH in E; simpl; lia.
Qed.

Lemma lex_string_length s x r : lex_string s = Some (x, r) -> String.length r < String.length s.
Proof.
  unfold lex_string. destruct (scan_string s) as [[b t]|] eqn:E; [|discriminate]. intros [= <- <-].
  eapply scan_string_length. exact E.
Qed.

Lemma digits_length s : String.length (digits s).2 <= String.length s.
Proof.
  induction s as [|c s IH]; simpl; [lia|]. destruct (is_digit c); simpl; [|lia].
  destruct (digits s). simpl in *. lia.
Qed.

Lemma lex_number_length s n r : lex_number s = Some (n, r) -> String.length r < String.length s.
Proof.
  unfold lex_number.
  assert (Hint : forall s i t, lex_int s = Some (i, t) -> String.length t < String.length s).
  { intros q i t. destruct q as [|c q]; simpl; [discriminate|]. destruct (Ascii.eqb c "0"); [intros [= <- <-]; lia|].
    destruct (is_digit c); [|discriminate]. pose proof (digits_length q). destruct (digits q). intros [= <- <-]. simpl in *. lia. }
  assert (Hfrac : forall s f t, lex_frac s = Some (f, t) -> String.length t <= String.length s).
  { intros q f t. destruct q as [|c q]; simpl; [intros [= <- <-]; simpl; lia|].
    destruct (Ascii.eqb c "."); [|intros [= <- <-]; simpl; lia].
    pose proof (digits_length q). destruct (digits q) as [[|d ds] u]; [discriminate|]. intros [= <- <-]. simpl in *. lia. }
  assert (Hexp : forall s f t, lex_exp s = Some (f, t) -> String.length t <= String.length s).
  { intros q f t. destruct q as [|c q]; simpl; [intros [= <- <-]; simpl; lia|].
    destruct (_ || _); [|intros [= <- <-]; simpl; lia].
    set (z := match q with EmptyString => _ | String g r1 => _ end).
    assert (Hz : String.length z.2 <= String.length q).
    { unfold z. destruct q as [|g q]; simpl; [lia|]. destruct (Ascii.eqb g "+"); [|destruct (Ascii.eqb g "-")]; simpl; lia. }
    destruct z as [[sg ng] q1]. pose proof (digits_length q1).
    destruct (digits q1) as [[|d ds] u]; [discriminate|]. intros [= <- <-]. simpl in *. lia. }
  destruct s as [|c s]; [discriminate|].
  set (z := if Ascii.eqb c "-" then _ else _).
  assert (Hz : String.length z.2 <= S (String.length s)) by (unfold z; destruct (Ascii.eqb c "-"); simpl; lia).
  destruct z as [ng s1]. simpl in Hz.
  destruct (lex_int s1) as [[i s2]|] eqn:E1; [|discriminate]. apply Hint in E1.
  destruct (lex_frac s2) as [[f s3]|] eqn:E2; [|discriminate]. apply Hfrac in E2.
  destruct (lex_exp s3) as [[e s4]|] eqn:E3; [|discriminate]. apply Hexp in E3.
  intros [= <- <-]. simpl. lia.
Qed.

Lemma after_length p s r : after p s = Some r -> String.length r + String.length p = String.length s.
Proof.
  revert s. induction p as [|a p IH]; intros s; simpl; [intros [= <-]; lia|].
  destruct s as [|b s]; [discriminate|]. destruct (Ascii.eqb a b); [|discriminate]. intros H. apply IH in H. simpl. lia.
Qed.

Lemma lex_scalar_length s l r : lex_scalar s = Some (l, r) -> String.length r < String.length s.
Proof.
  intros H. destruct s as [|c s]; [discriminate|]. unfold lex_scalar in H.
  repeat match type of H with (if ?b then _ else _) = _ => destruct b end; try discriminate H.
  - destruct (lex_string s) as [[x t]|] eqn:E; [|discriminate]. injection H as <- <-. apply lex_string_length in E. simpl. lia.
  - destruct (after _ _) eqn:E; [|discriminate]. injection H as <- <-. apply after_length in E. simpl in *. lia.
  - destruct (after _ _) eqn:E; [|discriminate]. injection H as <- <-. apply after_length in E. simpl in *. lia.
  - destruct (after _ _) eqn:E; [|discriminate]. injection H as <- <-. apply after_length in E. simpl in *. lia.
  - destruct (lex_number _) as [[n t]|] eqn:E; [|discriminate]. injection H as <- <-. apply lex_number_length in E. exact E.
Qed.

Lemma scalar_length fl s v r : scalar fl s = Some (v, r) -> String.length r < String.length s.
Proof.
  unfold scalar. destruct (lex_scalar s) as [[l t]|] eqn:E; [|discriminate]. apply lex_scalar_length in E.
  destruct l as [x|n]; [intros [= <- <-]; exact E|]. destruct (fl && overflows n); [discriminate|].
  intros [= <- <-]. exact E.
Qed.

Lemma key_length s k r : key s = Some (k, r) -> String.length r < String.length s.
Proof.
  unfold key. destruct (peek s) as [[c t]|] eqn:E; [|discriminate]. apply peek_length in E.
  destruct (Ascii.eqb c dquote); [|discriminate]. destruct (lex_string t) as [[x t1]|] eqn:E1; [|discriminate].
  apply lex_string_length in E1. destruct (peek t1) as [[d t2]|] eqn:E2; [|discriminate]. apply peek_length in E2.
  destruct (Ascii.eqb d ":"); [|discriminate]. intros [= <- <-]. lia.
Qed.

Lemma value_consumes fl :
  (forall s v r, value fl s v r -> String.length r < String.length s) /\
  (forall s m r, members fl s m r -> String.length r < String.length s) /\
  (forall s l r, elements fl s l r -> String.length r < String.length s).
Proof.
  apply value_members_elements_ind; intros;
    repeat match goal with
    | H : peek _ = Some _ |- _ => apply peek_length in H
    | H : key _ = Some _ |- _ => apply key_length in H
    | H : scalar _ _ = Some _ |- _ => apply scalar_length in H; simpl in H
    end; lia.
Qed.

(** ** The parser is the grammar *)

(** A value does not begin with a delimiter that closes or separates. *)
Definition closing (c : ascii) : bool :=
  Ascii.eqb c "]" || Ascii.eqb c "}" || Ascii.eqb c "," || Ascii.eqb c ":".

Lemma scalar_head fl c t v r : scalar fl (String c t) = Some (v, r) -> closing c = false.
Proof.
  intros H. destruct (closing c) eqn:E; [|reflexivity]. unfold closing in E.
  rewrite !orb_true_iff in E. destruct E as [[[E|E]|E]|E]; apply Ascii.eqb_eq in E as ->; discriminate H.
Qed.

Lemma value_head fl s v r : value fl s v r -> exists c t, peek s = Some (c, t) /\ closing c = false.
Proof.
  inversion 1; subst; eauto. eexists _, _. split; [eassumption|]. eapply scalar_head. eassumption.
Qed.

Lemma closing_not c d : closing c = false -> closing d = true -> Ascii.eqb c d = false.
Proof. intros Hc Hd. apply Ascii.eqb_neq. intros ->. congruence. Qed.

Lemma key_head s k t : key s = Some (k, t) -> exists r, peek s = Some (dquote, r).
Proof.
  unfold key. destruct (peek s) as [[c r]|]; [|discriminate].
  destruct (Ascii.eqb_spec c dquote) as [->|]; [eauto | discriminate].
Qed.

Lemma parse_sound fl fuel :
  (forall s v r, parse_value fl fuel s = Some (v, r) -> value fl s v r) /\
  (forall s m r, parse_members fl fuel s = Some (m, r) -> members fl s m r) /\
  (forall s l r, parse_elements fl fuel s = Some (l, r) -> elements fl s l r).
Proof.
  induction fuel as [|fuel (IHv & IHm & IHe)]; [repeat split; discriminate|].
  split; [|split]; intros s x r H; simpl in H.
  - destruct (peek s) as [[c t]|] eqn:E; [|discriminate].
    destruct (Ascii.eqb_spec c "{") as [->|N1].
    { destruct (peek t) as [[d u]|] eqn:E1; [|discriminate]. destruct (Ascii.eqb_spec d "}") as [->|].
      - injection H as <- <-. eapply v_obj_nil; eassumption.
      - destruct (parse_members fl fuel t) as [[m u']|] eqn:E2; [|discriminate]. injection H as <- <-. eapply v_obj; eauto. }
    destruct (Ascii.eqb_spec c "[") as [->|N2]; [|eapply v_scalar; eassumption].
    destruct (peek t) as [[d u]|] eqn:E1; [|discriminate]. destruct (Ascii.eqb_spec d "]") as [->|].
    + injection H as <- <-. eapply v_arr_nil; eassumption.
    + destruct (parse_elements fl fuel t) as [[m u']|] eqn:E2; [|discriminate]. injection H as <- <-. eapply v_arr; eauto.
  - destruct (key s) as [[k t]|] eqn:E; [|discriminate].
    destruct (parse_value fl fuel t) as [[v t1]|] eqn:E1; [|discriminate].
    destruct (peek t1) as [[d t2]|] eqn:E2; [|discriminate]. destruct (Ascii.eqb_spec d "}") as [->|].
    + injection H as <- <-. eapply m_last; eauto.
    + destruct (Ascii.eqb_spec d ",") as [->|]; [|discriminate].
      destruct (parse_members fl fuel t2) as [[m u]|] eqn:E3; [|discriminate]. injection H as <- <-. eapply m_more; eauto.
  - destruct (parse_value fl fuel s) as [[v t1]|] eqn:E1; [|discriminate].
    destruct (peek t1) as [[d t2]|] eqn:E2; [|discriminate]. destruct (Ascii.eqb_spec d "]") as [->|].
    + injection H as <- <-. eapply e_last; eauto.
    + destruct (Ascii.eqb_spec d ",") as [->|]; [|discriminate].
      destruct (parse_elements fl fuel t2) as [[m u]|] eqn:E3; [|discriminate]. injection H as <- <-. eapply e_more; eauto.
Qed.

Lemma parse_complete fl :
  (forall s v r, value fl s v r -> forall fuel, 2 * String.length s + 1 <= fuel -> parse_value fl fuel s = Some (v, r)) /\
  (forall s m r, members fl s m r -> forall fuel, 2 * String.length s + 1 <= fuel -> parse_members fl fuel s = Some (m, r)) /\
  (forall s l r, elements fl s l r -> forall fuel, 2 * String.length s + 2 <= fuel -> parse_elements fl fuel s = Some (l, r)).
Proof.
  apply value_members_elements_ind.
  - intros s c t v r E N1 N2 H [|fuel] Hf; [lia|]. simpl. rewrite E.
    rewrite (proj2 (Ascii.eqb_neq c "{") N1), (proj2 (Ascii.eqb_neq c "[") N2). exact H.
  - intros s t r E E1 [|fuel] Hf; [lia|]. simpl. rewrite E, E1. reflexivity.
  - intros s t m r E Hm IH [|fuel] Hf; [lia|]. simpl. rewrite E. simpl.
    assert (exists u, peek t = Some (dquote, u)) as [u Hu] by (inversion Hm; eapply key_head; eassumption).
    rewrite Hu. simpl. apply peek_length in E. rewrite IH by lia. reflexivity.
  - intros s t r E E1 [|fuel] Hf; [lia|]. simpl. rewrite E. simpl. rewrite E1. reflexivity.
  - intros s t l r E He IH [|fuel] Hf; [lia|]. simpl. rewrite E. simpl.
    assert (exists c u, peek t = Some (c, u) /\ closing c = false) as (c & u & Hc & Hcl)
      by (inversion He; eapply value_head; eassumption).
    rewrite Hc, (closing_not c "]") by (assumption || reflexivity). apply peek_length in E. rewrite IH by lia. reflexivity.
  - intros s k t v t1 r Hk Hv IH E [|fuel] Hf; [lia|]. simpl. rewrite Hk. apply key_length in Hk.
    rewrite IH by lia. rewrite E. reflexivity.
  - intros s k t v t1 t2 m r Hk Hv IH E Hm IHm [|fuel] Hf; [lia|]. simpl. rewrite Hk. apply key_length in Hk.
    rewrite IH by lia. rewrite E. simpl. apply peek_length in E. apply value_consumes in Hv.
    rewrite IHm by lia. reflexivity.
  - intros s v t1 r Hv IH E [|fuel] Hf; [lia|]. simpl. rewrite IH by lia. rewrite E. reflexivity.
  - intros s v t1 t2 l r Hv IH E He IHe [|fuel] Hf; [lia|]. simpl. rewrite IH by lia. rewrite E. simpl.
    apply peek_length in E. apply value_consumes in Hv. rewrite IHe by lia. reflexivity.
Qed.

(** A text: one value, then only white space; a document, if it is not nested too deep. *)
Definition text (fl : bool) (s : string) (v : json) : Prop := exists r, value fl s v r /\ peek r = None.
Definition document (fl : bool) (s : string) (v : json) : Prop := text fl s v /\ shallow v = true.

Lemma text_parse fl s v : text fl s v -> exists r, parse_value fl (2 * String.length s + 2) s = Some (v, r) /\ peek r = None.
Proof. intros (r & Hv & Hr). exists r. split; [|exact Hr]. apply (proj1 (parse_complete fl) s v r Hv). lia. Qed.

Lemma text_unique fl s v w : text fl s v -> text fl s w -> v = w.
Proof. intros (r & H & _)%text_parse (r' & H' & _)%text_parse. congruence. Qed.

Lemma parse_iff fl s v : parse_document fl s = Some v <-> document fl s v.
Proof.
  unfold parse_document, document. split.
  - destruct (parse_value fl _ s) as [[x r]|] eqn:E; [|discriminate].
    destruct (peek r) as [|] eqn:E1; [discriminate|]. destruct (shallow x) eqn:Ex; [|discriminate]. intros [= <-].
    split; [|exact Ex]. exists r. split; [|exact E1]. eapply parse_sound. exact E.
  - intros [Ht Hs]. destruct (text_parse fl s v Ht) as (r & -> & ->). rewrite Hs. reflexivity.
Qed.

Lemma document_unique fl s v w : document fl s v -> document fl s w -> v = w.
Proof. rewrite <-!parse_iff. congruence. Qed.

(** A value that is read with float64 numbers is also read with its numbers as text. *)
Lemma scalar_weaken s v r : scalar true s = Some (v, r) -> scalar false s = Some (v, r).
Proof.
  unfold scalar. destruct (lex_scalar s) as [[[x|n] t]|]; simpl; try discriminate; [auto|].
  destruct (overflows n); [discriminate | auto].
Qed.

Lemma value_weaken :
  (forall s v r, value true s v r -> value false s v r) /\
  (forall s m r, members true s m r -> members false s m r) /\
  (forall s l r, elements true s l r -> elements false s l r).
Proof.
  apply value_members_elements_ind; intros.
  - eapply v_scalar; eauto using scalar_weaken.
  - eapply v_obj_nil; eassumption.
  - eapply v_obj; eassumption.
  - eapply v_arr_nil; eassumption.
  - eapply v_arr; eassumption.
  - eapply m_last; eassumption.
  - eapply m_more; eassumption.
  - eapply e_last; eassumption.
  - eapply e_more; eassumption.
Qed.

Lemma text_weaken s v : text true s v -> text false s v.
Proof. intros (r & Hv & Hr). exists r. split; [apply value_weaken; exact Hv | exact Hr]. Qed.

Lemma document_weaken s v : document true s v -> document false s v.
Proof. intros [Ht Hs]. split; [apply text_weaken; exact Ht | exact Hs]. Qed.

End Json.
