(* ===== verification/JsonDecoder.v ===== *)
(** json.Decoder as a token reader: Token, More and their state machine (encoding/json/stream.go),
    and the recursive token walk that pep and authverify both build on it. [walk_iff] says what such
    a walk accepts: exactly the grammar's values whose objects pass the walk's repeated-name test
    and whose depth it admits. *)
From S2P Require Import Prelude Utf8 Json.

Module Decoder.
Import Json.

Inductive tstate :=
| TopValue | ArrayStart | ArrayValue | ArrayComma
| ObjectStart | ObjectKey | ObjectColon | ObjectValue | ObjectComma.

#[export] Instance tstate_eq_dec : EqDecision tstate.
Proof. solve_decision. Defined.

Record decoder := Dec { d_in : string; d_state : tstate; d_stack : list tstate }.

Definition NewDecoder (s : string) : decoder := Dec s TopValue [].

Definition value_allowed (st : tstate) : bool :=
  match st with TopValue | ArrayStart | ArrayValue | ObjectValue => true | _ => false end.

Definition value_end (st : tstate) : tstate :=
  match st with ArrayStart | ArrayValue => ArrayComma | ObjectValue => ObjectComma | st => st end.

Inductive token := TDelim (c : ascii) | TVal (v : json).

Inductive tok_result := TokOk (t : token) (d : decoder) | TokEOF | TokErr.

(** One round of Token's loop at a character [c] that is neither ':' nor ','. *)
Definition token_here (d : decoder) (c : ascii) (t : string) : tok_result :=
  let st := d_state d in
  if Ascii.eqb c "[" then
    if value_allowed st then TokOk (TDelim "[") (Dec t ArrayStart (st :: d_stack d)) else TokErr
  else if Ascii.eqb c "]" then
    match st, d_stack d with
    | (ArrayStart | ArrayComma), up :: stk => TokOk (TDelim "]") (Dec t (value_end up) stk)
    | _, _ => TokErr
    end
  else if Ascii.eqb c "{" then
    if value_allowed st then TokOk (TDelim "{") (Dec t ObjectStart (st :: d_stack d)) else TokErr
  else if Ascii.eqb c "}" then
    match st, d_stack d with
    | (ObjectStart | ObjectComma), up :: stk => TokOk (TDelim "}") (Dec t (value_end up) stk)
    | _, _ => TokErr
    end
  else if Ascii.eqb c ":" || Ascii.eqb c "," then TokErr
  else if Ascii.eqb c dquote && (bool_decide (st = ObjectStart) || bool_decide (st = ObjectKey)) then
    match lex_string t with
    | Some (k, r) => TokOk (TVal (JStr k)) (Dec r ObjectColon (d_stack d))
    | None => TokErr
    end
  else if value_allowed st then
    match scalar true (String c t) with
    | Some (v, r) => TokOk (TVal v) (Dec r (value_end st) (d_stack d))
    | None => TokErr
    end
  else TokErr.

Definition token_next (d : decoder) : tok_result :=
  match peek (d_in d) with None => TokEOF | Some (c, t) => token_here d c t end.

(** Decoder.Token: the loop goes round once more after a ':' or ',' its state admits. *)
Definition Token (d : decoder) : tok_result :=
  match peek (d_in d) with
  | None => TokEOF
  | Some (c, t) =>
      if Ascii.eqb c ":" then
        match d_state d with ObjectColon => token_next (Dec t ObjectValue (d_stack d)) | _ => TokErr end
      else if Ascii.eqb c "," then
        match d_state d with
        | ArrayComma => token_next (Dec t ArrayValue (d_stack d))
        | ObjectComma => token_next (Dec t ObjectKey (d_stack d))
        | _ => TokErr
        end
      else token_here d c t
  end.

(** Decoder.More. *)
Definition More (d : decoder) : bool :=
  match peek (d_in d) with
  | Some (c, _) => negb (Ascii.eqb c "]") && negb (Ascii.eqb c "}")
  | None => false
  end.

(** * The token walk *)

Inductive wres := WDone (d : decoder) | WFail | WFuel.

Section Walk.
(** [too_deep] is the depth test at the head of a walk, [dup] the repeated-name test against the
    names of the object seen so far, and [stray] whether a walk that got a closing delimiter where a
    value must be goes on to the last Token (it cannot get one: [token_value]). *)
Variable too_deep : nat -> bool.
Variable dup : list string -> string -> bool.
Variable stray : bool.

Fixpoint walk (fuel : nat) (d : decoder) (depth : nat) : wres :=
  match fuel with
  | 0 => WFuel
  | S fuel =>
      if too_deep depth then WFail
      else match Token d with
      | TokOk (TVal _) d1 => WDone d1
      | TokOk (TDelim c) d1 =>
          match (if Ascii.eqb c "{" then walk_members fuel d1 [] depth
                 else if Ascii.eqb c "[" then walk_items fuel d1 depth
                 else if stray then WDone d1 else WFail) with
          | WDone d2 => match Token d2 with TokOk _ d3 => WDone d3 | _ => WFail end
          | r => r
          end
      | _ => WFail
      end
  end
with walk_members (fuel : nat) (d : decoder) (seen : list string) (depth : nat) : wres :=
  match fuel with
  | 0 => WFuel
  | S fuel =>
      if More d then
        match Token d with
        | TokOk (TVal (JStr k)) d1 =>
            if dup seen k then WFail
            else match walk fuel d1 (S depth) with
                 | WDone d2 => walk_members fuel d2 (k :: seen) depth
                 | r => r
                 end
        | _ => WFail
        end
      else WDone d
  end
with walk_items (fuel : nat) (d : decoder) (depth : nat) : wres :=
  match fuel with
  | 0 => WFuel
  | S fuel =>
      if More d then
        match walk fuel d (S depth) with
        | WDone d2 => walk_items fuel d2 depth
        | r => r
        end
      else WDone d
  end.

(** What a walk checks of the value it passes over. *)
Fixpoint names_ok (seen : list string) (names : list string) : bool :=
  match names with [] => true | k :: r => negb (dup seen k) && names_ok (k :: seen) r end.

Fixpoint strictb (depth : nat) (v : json) : bool :=
  negb (too_deep depth) &&
  match v with
  | JArr l => forallb (strictb (S depth)) l
  | JObj m => names_ok [] (map fst m) && forallb (fun kv => strictb (S depth) kv.2) m
  | _ => true
  end.

(** ** What one Token does *)

Definition at_value (d : decoder) (s : string) : Prop :=
  match d_state d with
  | TopValue | ArrayStart => s = d_in d
  | ArrayComma => peek (d_in d) = Some (","%char, s)
  | ObjectColon => peek (d_in d) = Some (":"%char, s)
  | _ => False
  end.

Definition after_value (st : tstate) : tstate :=
  match st with ArrayStart | ArrayComma => ArrayComma | ObjectColon => ObjectComma | st => st end.

(** The state a value at the decoder is read in. *)
Definition value_state (st : tstate) : tstate :=
  match st with ArrayComma => ArrayValue | ObjectColon => ObjectValue | st => st end.

Definition at_states (st : tstate) : bool :=
  match st with TopValue | ArrayStart | ArrayComma | ObjectColon => true | _ => false end.

(** Where the walk stands when it is called: at a value, in an array only when More said so. *)
Definition good (d : decoder) : Prop :=
  at_states (d_state d) = true /\ (d_state d = ArrayStart \/ d_state d = ArrayComma -> More d = true).

(** The token a value begins with, given its first character. *)
Definition value_token (d : decoder) (c : ascii) (t : string) : tok_result :=
  if Ascii.eqb c "[" then TokOk (TDelim "[") (Dec t ArrayStart (value_state (d_state d) :: d_stack d))
  else if Ascii.eqb c "{" then TokOk (TDelim "{") (Dec t ObjectStart (value_state (d_state d) :: d_stack d))
  else match scalar true (String c t) with
       | Some (v, r) => TokOk (TVal v) (Dec r (after_value (d_state d)) (d_stack d))
       | None => TokErr
       end.

Lemma value_end_state st : at_states st = true -> value_end (value_state st) = after_value st.
Proof. destruct st; reflexivity || discriminate. Qed.

Lemma token_here_value st stk i c t :
  value_allowed st = true -> closing c = false ->
  token_here (Dec i st stk) c t =
  (if Ascii.eqb c "[" then TokOk (TDelim "[") (Dec t ArrayStart (st :: stk))
   else if Ascii.eqb c "{" then TokOk (TDelim "{") (Dec t ObjectStart (st :: stk))
   else match scalar true (String c t) with
        | Some (v, r) => TokOk (TVal v) (Dec r (value_end st) stk) | None => TokErr end).
Proof.
  intros Hst Hc. unfold token_here. simpl. rewrite Hst.
  rewrite (closing_not c "]"), (closing_not c "}"), (closing_not c ":"), (closing_not c ",") by (assumption || reflexivity).
  simpl. destruct (Ascii.eqb c "["); [reflexivity|]. destruct (Ascii.eqb c "{"); [reflexivity|].
  destruct st; try discriminate Hst; simpl; rewrite ?andb_false_r; reflexivity.
Qed.

Lemma token_here_closing st stk i c t :
  value_allowed st = true -> closing c = true -> st <> ArrayStart -> token_here (Dec i st stk) c t = TokErr.
Proof.
  intros Hst Hc Hn. unfold closing in Hc. rewrite !orb_true_iff in Hc. unfold token_here. simpl.
  destruct Hc as [[[E|E]|E]|E]; apply Ascii.eqb_eq in E as ->; simpl; destruct st; congruence || discriminate Hst.
Qed.

Lemma token_here_refuses st stk i c t :
  st = ArrayComma \/ st = ObjectColon -> More (Dec i st stk) = true -> peek i = Some (c, t) ->
  token_here (Dec i st stk) c t = TokErr.
Proof.
  intros Hst Hm Hp. unfold More in Hm. simpl in Hm. rewrite Hp in Hm. simp_bool. unfold token_here. simpl.
  rewrite (proj2 (Ascii.eqb_neq c "]")), (proj2 (Ascii.eqb_neq c "}")) by assumption.
  destruct Hst as [-> | ->]; simpl; rewrite ?andb_false_r; repeat case_match; reflexivity.
Qed.

Lemma token_here_colon stk i c t : token_here (Dec i ObjectColon stk) c t = TokErr.
Proof. unfold token_here. simpl. rewrite ?andb_false_r. repeat case_match; reflexivity. Qed.

(** At a value, Token gives the value's first token. *)
Lemma token_at_value d s c t :
  at_states (d_state d) = true -> at_value d s -> peek s = Some (c, t) -> closing c = false ->
  Token d = value_token d c t.
Proof.
  destruct d as [i st stk]. unfold at_value, Token, token_next, value_token. simpl. intros Hst Hs Hp Hc.
  destruct st; try discriminate Hst; simpl in *.
  - subst s. rewrite Hp, (closing_not c ":"), (closing_not c ",") by (assumption || reflexivity).
    apply token_here_value; assumption || reflexivity.
  - subst s. rewrite Hp, (closing_not c ":"), (closing_not c ",") by (assumption || reflexivity).
    apply token_here_value; assumption || reflexivity.
  - rewrite Hs. simpl. rewrite Hp. apply token_here_value; assumption || reflexivity.
  - rewrite Hs. simpl. rewrite Hp. apply token_here_value; assumption || reflexivity.
Qed.

(** And Token gives nothing else where the walk calls it. *)
Lemma token_good d tk d1 :
  good d -> Token d = TokOk tk d1 ->
  exists s c t, at_value d s /\ peek s = Some (c, t) /\ closing c = false /\ value_token d c t = TokOk tk d1.
Proof.
  intros [Hst Hm] HT.
  enough (exists s c t, at_value d s /\ peek s = Some (c, t) /\ closing c = false) as (s & c & t & Hs & Hp & Hc).
  { exists s, c, t. rewrite <-(token_at_value d s c t) by assumption. auto. }
  destruct d as [i st stk]. unfold Token, token_next in HT. unfold at_value. simpl in *.
  destruct (peek i) as [[c t]|] eqn:Ep; [|discriminate].
  destruct (Ascii.eqb_spec c ":") as [->|Nc].
  { destruct st; try discriminate. simpl in HT. destruct (peek t) as [[c' t']|] eqn:Ep'; [|discriminate].
    exists t, c', t'. repeat split; auto. destruct (closing c') eqn:Ec; [|reflexivity].
    rewrite token_here_closing in HT by (assumption || reflexivity || discriminate). discriminate. }
  destruct (Ascii.eqb_spec c ",") as [->|Nc'].
  { destruct st; try discriminate. simpl in HT. destruct (peek t) as [[c' t']|] eqn:Ep'; [|discriminate].
    exists t, c', t'. repeat split; auto. destruct (closing c') eqn:Ec; [|reflexivity].
    rewrite token_here_closing in HT by (assumption || reflexivity || discriminate). discriminate. }
  destruct st; try discriminate Hst.
  - exists i, c, t. repeat split; auto. destruct (closing c) eqn:Ec; [|reflexivity].
    rewrite token_here_closing in HT by (assumption || reflexivity || discriminate). discriminate.
  - exists i, c, t. repeat split; auto. specialize (Hm (or_introl eq_refl)). unfold More in Hm. simpl in Hm.
    rewrite Ep in Hm. simp_bool. unfold closing. rewrite !orb_false_iff, !Ascii.eqb_neq. auto.
  - rewrite token_here_refuses in HT by auto. discriminate.
  - rewrite token_here_colon in HT. discriminate.
Qed.

(** ** Lists of items and members as the loops read them *)

Inductive items : tstate -> string -> list json -> string -> Prop :=
| it_nil st i : items st i [] i
| it_cons st i stk s v t l i2 : at_value (Dec i st stk) s -> value true s v t -> items ArrayComma t l i2 ->
    items st i (v :: l) i2.

Inductive mems : tstate -> string -> list (string * json) -> string -> Prop :=
| me_nil st i : mems st i [] i
| me_cons st i i1 k t v t1 m i2 :
    (st = ObjectStart /\ i1 = i \/ st = ObjectComma /\ peek i = Some (","%char, i1)) ->
    key i1 = Some (k, t) -> value true t v t1 -> mems ObjectComma t1 m i2 -> mems st i ((k, v) :: m) i2.

Lemma items_elements l t i2 r :
  items ArrayComma t l i2 -> peek i2 = Some ("]"%char, r) ->
  forall s v, value true s v t -> elements true s (v :: l) r.
Proof.
  intros H Hr. remember ArrayComma as st eqn:Est. induction H as [st i|st i stk s v t l i2 Hs Hv Hl IH]; intros s' v' Hv'.
  - eapply e_last; eassumption.
  - subst st. unfold at_value in Hs. simpl in Hs. eapply e_more; eauto.
Qed.

Lemma mems_members m t i2 r :
  mems ObjectComma t m i2 -> peek i2 = Some ("}"%char, r) ->
  forall s k u v, key s = Some (k, u) -> value true u v t -> members true s ((k, v) :: m) r.
Proof.
  intros H Hr. remember ObjectComma as st eqn:Est. induction H as [st i|st i i1 k u v t1 m i2 Hi Hk Hv Hm IH]; intros s' k' u' v' Hk' Hv'.
  - eapply m_last; eassumption.
  - subst st. destruct Hi as [[? _]|[_ Hi]]; [discriminate|]. eapply m_more; eauto.
Qed.

(** The closing Token after a loop. *)
Lemma token_close_array i st up stk tk d :
  (st = ArrayStart \/ st = ArrayComma) -> More (Dec i st (up :: stk)) = false -> Token (Dec i st (up :: stk)) = TokOk tk d ->
  exists r, peek i = Some ("]"%char, r) /\ d = Dec r (value_end up) stk.
Proof.
  intros Hst Hm HT. unfold Token, More in *. simpl in *. destruct (peek i) as [[c t]|] eqn:Ep; [|discriminate].
  destruct (Ascii.eqb_spec c "]") as [->|N1]; [|destruct (Ascii.eqb_spec c "}") as [->|N2]; [|discriminate Hm]].
  - unfold token_here in HT. destruct Hst as [-> | ->]; simpl in HT; injection HT as <- <-; eauto.
  - unfold token_here in HT. destruct Hst as [-> | ->]; discriminate HT.
Qed.

Lemma token_close_object i st up stk tk d :
  (st = ObjectStart \/ st = ObjectComma) -> More (Dec i st (up :: stk)) = false -> Token (Dec i st (up :: stk)) = TokOk tk d ->
  exists r, peek i = Some ("}"%char, r) /\ d = Dec r (value_end up) stk.
Proof.
  intros Hst Hm HT. unfold Token, More in *. simpl in *. destruct (peek i) as [[c t]|] eqn:Ep; [|discriminate].
  destruct (Ascii.eqb_spec c "]") as [->|N1]; [|destruct (Ascii.eqb_spec c "}") as [->|N2]; [|discriminate Hm]].
  - unfold token_here in HT. destruct Hst as [-> | ->]; discriminate HT.
  - unfold token_here in HT. destruct Hst as [-> | ->]; simpl in HT; injection HT as <- <-; eauto.
Qed.

(** The key Token. *)
Lemma token_key i st stk k d :
  (st = ObjectStart \/ st = ObjectComma) -> More (Dec i st stk) = true -> Token (Dec i st stk) = TokOk (TVal (JStr k)) d ->
  exists i1 q r, (st = ObjectStart /\ i1 = i \/ st = ObjectComma /\ peek i = Some (","%char, i1)) /\
    peek i1 = Some (dquote, q) /\ lex_string q = Some (k, r) /\ d = Dec r ObjectColon stk.
Proof.
  intros Hst Hm HT. unfold Token, token_next, More in *. simpl in *.
  destruct (peek i) as [[c t]|] eqn:Ep; [|discriminate].
  destruct (Ascii.eqb_spec c ":") as [->|Nc]; [destruct Hst as [-> | ->]; discriminate|].
  assert (Hkey : forall st' j c t, (st' = ObjectStart \/ st' = ObjectKey) -> token_here (Dec j st' stk) c t = TokOk (TVal (JStr k)) d ->
            c = dquote /\ exists r, lex_string t = Some (k, r) /\ d = Dec r ObjectColon stk).
  { intros st' j c' t' Hst' HT'. unfold token_here in HT'. simpl in HT'.
    destruct (Ascii.eqb_spec c' dquote) as [->|Nq].
    - split; [reflexivity|]. destruct (lex_string t') as [[k' r]|] eqn:El.
      + destruct Hst' as [-> | ->]; simpl in HT'; injection HT' as <- <-; eauto.
      + destruct Hst' as [-> | ->]; discriminate HT'.
    - destruct Hst' as [-> | ->]; simpl in HT'; destruct stk; repeat case_match; discriminate HT'. }
  destruct (Ascii.eqb_spec c ",") as [->|Nc'].
  - destruct Hst as [-> | ->]; [discriminate|]. simpl in HT. destruct (peek t) as [[c' t']|] eqn:Ep'; [|discriminate].
    apply Hkey in HT as (-> & r & Hl & ->); [|auto]. exists t, t', r. auto 10.
  - destruct Hst as [-> | ->].
    + apply Hkey in HT as (-> & r & Hl & ->); [|auto]. exists i, t, r. auto 10.
    + unfold token_here in HT. simpl in HT. rewrite ?andb_false_r in HT. simp_bool.
      rewrite (proj2 (Ascii.eqb_neq c "]")), (proj2 (Ascii.eqb_neq c "}")) in HT by assumption.
      repeat case_match; discriminate HT.
Qed.

(** ** The walk accepts only the grammar's values *)

Definition walk_sound_at (fuel : nat) : Prop :=
  forall d depth d2, good d -> walk fuel d depth = WDone d2 ->
  exists s v r, at_value d s /\ value true s v r /\ strictb depth v = true /\
    d2 = Dec r (after_value (d_state d)) (d_stack d).

Definition items_sound_at (fuel : nat) : Prop :=
  forall i st stk depth d2, (st = ArrayStart \/ st = ArrayComma) -> walk_items fuel (Dec i st stk) depth = WDone d2 ->
  exists l i2, items st i l i2 /\ forallb (strictb (S depth)) l = true /\
    d2 = Dec i2 (if l then st else ArrayComma) stk /\ More d2 = false.

Definition mems_sound_at (fuel : nat) : Prop :=
  forall i st stk seen depth d2, (st = ObjectStart \/ st = ObjectComma) ->
  walk_members fuel (Dec i st stk) seen depth = WDone d2 ->
  exists m i2, mems st i m i2 /\ names_ok seen (map fst m) = true /\
    forallb (fun kv => strictb (S depth) kv.2) m = true /\
    d2 = Dec i2 (if m then st else ObjectComma) stk /\ More d2 = false.

Lemma items_sound_step fuel : walk_sound_at fuel -> items_sound_at fuel -> items_sound_at (S fuel).
Proof.
  intros IHw IHi i st stk depth d2 Hst H. simpl in H. destruct (More (Dec i st stk)) eqn:Em.
  - destruct (walk fuel (Dec i st stk) (S depth)) as [d1| |] eqn:Ew; try discriminate.
    apply IHw in Ew as (s & v & r & Hs & Hv & Hb & ->); [|split; [destruct Hst; subst; reflexivity | auto]].
    simpl in H. replace (after_value st) with ArrayComma in H by (destruct Hst; subst; reflexivity).
    apply IHi in H as (l & i2 & Hl & Hbl & -> & Hm); [|auto].
    exists (v :: l), i2. simpl. rewrite Hb. split; [econstructor; eassumption|]. split; [exact Hbl|].
    split; [destruct l; reflexivity | destruct l; exact Hm].
  - injection H as <-. exists [], i. split; [constructor|]. auto.
Qed.

Lemma mems_sound_step fuel : walk_sound_at fuel -> mems_sound_at fuel -> mems_sound_at (S fuel).
Proof.
  intros IHw IHm i st stk seen depth d2 Hst H. simpl in H. destruct (More (Dec i st stk)) eqn:Em.
  - destruct (Token (Dec i st stk)) as [[c|[| | |k| |]] d1| |] eqn:Et; try discriminate.
    destruct (dup seen k) eqn:Ed; [discriminate|].
    apply token_key in Et as (i1 & q & r & Hi & Hq & Hl & ->); [|assumption|assumption].
    destruct (walk fuel (Dec r ObjectColon stk) (S depth)) as [d1| |] eqn:Ew; try discriminate.
    apply IHw in Ew as (s & v & t & Hs & Hv & Hb & ->); [|split; [reflexivity | intros [?|?]; discriminate]].
    unfold at_value in Hs. simpl in Hs, H.
    apply IHm in H as (m & i2 & Hm & Hn & Hbm & -> & Hmore); [|auto].
    exists ((k, v) :: m), i2. simpl. rewrite Ed, Hb. split.
    { econstructor; try eassumption. unfold key. rewrite Hq. simpl. rewrite Hl, Hs. reflexivity. }
    split; [exact Hn|]. split; [exact Hbm|]. split; [destruct m; reflexivity | destruct m; exact Hmore].
  - injection H as <-. exists [], i. split; [constructor|]. auto.
Qed.

Lemma walk_sound_step fuel : mems_sound_at fuel -> items_sound_at fuel -> walk_sound_at (S fuel).
Proof.
  intros IHm IHi d depth d2 Hg H. simpl in H. destruct (too_deep depth) eqn:Edeep; [discriminate|].
  destruct (Token d) as [tk d1| |] eqn:Et; try (discriminate H).
  apply token_good in Et as (s & c & t & Hs & Hp & Hc & Hv); [|exact Hg].
  destruct Hg as [Hst _]. exists s. unfold value_token in Hv.
  destruct (Ascii.eqb_spec c "[") as [->|N1]; [|destruct (Ascii.eqb_spec c "{") as [->|N2]].
  - injection Hv as <- <-. simpl in H.
    destruct (walk_items fuel _ depth) as [d3| |] eqn:Ei; try discriminate.
    apply IHi in Ei as (l & i2 & Hl & Hb & -> & Hm); [|auto].
    destruct (Token (Dec i2 _ _)) as [tk d4| |] eqn:Et; try discriminate. injection H as <-.
    apply token_close_array in Et as (r & Hr & ->); [|destruct l; auto|exact Hm].
    exists (JArr l), r. split; [exact Hs|]. split; [|split; [simpl; rewrite Edeep; exact Hb | rewrite value_end_state by exact Hst; reflexivity]].
    inversion Hl as [|? ? ? s' v' t' l' ? Hs' Hv' Hl']; subst; [eapply v_arr_nil; eassumption|].
    unfold at_value in Hs'. simpl in Hs'. subst s'. eapply v_arr; [exact Hp|]. eapply items_elements; eassumption.
  - injection Hv as <- <-. simpl in H.
    destruct (walk_members fuel _ [] depth) as [d3| |] eqn:Ei; try discriminate.
    apply IHm in Ei as (m & i2 & Hl & Hn & Hb & -> & Hm); [|auto].
    destruct (Token (Dec i2 _ _)) as [tk d4| |] eqn:Et; try discriminate. injection H as <-.
    apply token_close_object in Et as (r & Hr & ->); [|destruct m; auto|exact Hm].
    exists (JObj m), r. split; [exact Hs|].
    split; [|split; [simpl; rewrite Edeep, Hn; exact Hb | rewrite value_end_state by exact Hst; reflexivity]].
    inversion Hl as [|? ? i1 k u v' t' m' ? Hi Hk Hv' Hl']; subst; [eapply v_obj_nil; eassumption|].
    destruct Hi as [[_ ->]|[? _]]; [|discriminate]. eapply v_obj; [exact Hp|]. eapply mems_members; eassumption.
  - destruct (scalar true (String c t)) as [[v r]|] eqn:Esc; [|discriminate]. injection Hv as <- <-.
    injection H as <-. exists v, r. split; [exact Hs|].
    split; [eapply v_scalar; eassumption|]. split; [|reflexivity].
    assert (Hsc : match v with JArr _ | JObj _ => False | _ => True end).
    { unfold scalar, lex_scalar in Esc. clear - Esc. repeat case_match; simplify_eq; exact I. }
    destruct v; simpl; rewrite Edeep; reflexivity || contradiction.
Qed.

Lemma walk_sound_all fuel : walk_sound_at fuel /\ items_sound_at fuel /\ mems_sound_at fuel.
Proof.
  induction fuel as [|fuel (IHw & IHi & IHm)].
  - split; [|split]; intros ?; intros; discriminate.
  - split; [|split]; [apply walk_sound_step | apply items_sound_step | apply mems_sound_step]; assumption.
Qed.

(** ** And all of them *)

Lemma strictb_too_deep depth v : strictb depth v = true -> too_deep depth = false.
Proof. destruct v; simpl; intros H; simp_bool; assumption. Qed.

Lemma More_comma i st stk t : peek i = Some (","%char, t) -> More (Dec i st stk) = true.
Proof. intros H. unfold More. simpl. rewrite H. reflexivity. Qed.

Lemma More_value i st stk v r : value true i v r -> More (Dec i st stk) = true.
Proof.
  intros H. apply value_head in H as (c & t & Hp & Hc). unfold More. simpl. rewrite Hp.
  rewrite (closing_not c "]"), (closing_not c "}") by (assumption || reflexivity). reflexivity.
Qed.

Definition walk_complete (s : string) (v : json) (r : string) : Prop :=
  forall d depth fuel, at_states (d_state d) = true -> at_value d s -> strictb depth v = true ->
  2 * String.length s + 2 <= fuel -> walk fuel d depth = WDone (Dec r (after_value (d_state d)) (d_stack d)).

Definition mems_complete (s : string) (m : list (string * json)) (r : string) : Prop :=
  forall i st stk seen depth fuel,
  (st = ObjectStart /\ s = i \/ st = ObjectComma /\ peek i = Some (","%char, s)) ->
  names_ok seen (map fst m) = true -> forallb (fun kv => strictb (S depth) kv.2) m = true ->
  2 * String.length s + 2 <= fuel ->
  exists i2, walk_members fuel (Dec i st stk) seen depth = WDone (Dec i2 ObjectComma stk) /\
    peek i2 = Some ("}"%char, r).

Definition items_complete (s : string) (l : list json) (r : string) : Prop :=
  forall i st stk depth fuel,
  (st = ArrayStart /\ s = i \/ st = ArrayComma /\ peek i = Some (","%char, s)) ->
  forallb (strictb (S depth)) l = true -> 2 * String.length s + 3 <= fuel ->
  exists i2, walk_items fuel (Dec i st stk) depth = WDone (Dec i2 ArrayComma stk) /\
    peek i2 = Some ("]"%char, r).

Lemma token_key_complete i st stk s k t :
  (st = ObjectStart /\ s = i \/ st = ObjectComma /\ peek i = Some (","%char, s)) -> key s = Some (k, t) ->
  exists r, Token (Dec i st stk) = TokOk (TVal (JStr k)) (Dec r ObjectColon stk) /\ peek r = Some (":"%char, t) /\
    More (Dec i st stk) = true /\ String.length r < String.length s.
Proof.
  intros Hi Hk. unfold key in Hk. destruct (peek s) as [[c q]|] eqn:Ep; [|discriminate].
  destruct (Ascii.eqb_spec c dquote) as [->|]; [|discriminate].
  destruct (lex_string q) as [[k' r]|] eqn:El; [|discriminate].
  destruct (peek r) as [[d r2]|] eqn:Er; [|discriminate].
  destruct (Ascii.eqb_spec d ":") as [->|]; [|discriminate]. injection Hk as <- <-. exists r.
  apply peek_length in Ep as Hlen. apply lex_string_length in El as Hlen'.
  destruct Hi as [[-> ->]|[-> Hi]]; unfold Token, token_next, More; simpl.
  - rewrite Ep. simpl. unfold token_here. simpl. rewrite El. repeat split; auto; lia.
  - rewrite Hi. simpl. rewrite Ep. unfold token_here. simpl. rewrite El. repeat split; auto; lia.
Qed.

Lemma walk_close_array i up stk r :
  peek i = Some ("]"%char, r) ->
  More (Dec i ArrayStart (up :: stk)) = false /\ More (Dec i ArrayComma (up :: stk)) = false /\
  Token (Dec i ArrayStart (up :: stk)) = TokOk (TDelim "]") (Dec r (value_end up) stk) /\
  Token (Dec i ArrayComma (up :: stk)) = TokOk (TDelim "]") (Dec r (value_end up) stk).
Proof. intros H. unfold More, Token. simpl. rewrite H. auto. Qed.

Lemma walk_close_object i up stk r :
  peek i = Some ("}"%char, r) ->
  More (Dec i ObjectStart (up :: stk)) = false /\ More (Dec i ObjectComma (up :: stk)) = false /\
  Token (Dec i ObjectStart (up :: stk)) = TokOk (TDelim "}") (Dec r (value_end up) stk) /\
  Token (Dec i ObjectComma (up :: stk)) = TokOk (TDelim "}") (Dec r (value_end up) stk).
Proof. intros H. unfold More, Token. simpl. rewrite H. auto. Qed.

(** The pieces of [walk_complete_all], one per grammar rule that opens a container or continues one. *)
Lemma walk_scalar_step d s c t v r depth fuel :
  at_states (d_state d) = true -> at_value d s -> peek s = Some (c, t) -> c <> "{"%char -> c <> "["%char ->
  scalar true (String c t) = Some (v, r) -> too_deep depth = false ->
  walk (S fuel) d depth = WDone (Dec r (after_value (d_state d)) (d_stack d)).
Proof.
  intros Hst Hs Hp N1 N2 Hv Hd. simpl. rewrite Hd.
  rewrite (token_at_value d s c t) by (assumption || (eapply scalar_head; eassumption)).
  unfold value_token. rewrite (proj2 (Ascii.eqb_neq c "[") N2), (proj2 (Ascii.eqb_neq c "{") N1), Hv. reflexivity.
Qed.

Lemma walk_object_step d s t r i2 st depth fuel :
  at_states (d_state d) = true -> at_value d s -> peek s = Some ("{"%char, t) -> too_deep depth = false ->
  (st = ObjectStart \/ st = ObjectComma) ->
  walk_members fuel (Dec t ObjectStart (value_state (d_state d) :: d_stack d)) [] depth =
    WDone (Dec i2 st (value_state (d_state d) :: d_stack d)) -> peek i2 = Some ("}"%char, r) ->
  walk (S fuel) d depth = WDone (Dec r (after_value (d_state d)) (d_stack d)).
Proof.
  intros Hst Hs Hp Hd Hs2 Hm Hr. simpl. rewrite Hd, (token_at_value d s "{" t) by (assumption || reflexivity).
  unfold value_token. simpl. rewrite Hm.
  destruct (walk_close_object i2 (value_state (d_state d)) (d_stack d) r Hr) as (_ & _ & T1 & T2).
  destruct Hs2 as [-> | ->]; rewrite ?T1, ?T2, value_end_state by exact Hst; reflexivity.
Qed.

Lemma walk_array_step d s t r i2 st depth fuel :
  at_states (d_state d) = true -> at_value d s -> peek s = Some ("["%char, t) -> too_deep depth = false ->
  (st = ArrayStart \/ st = ArrayComma) ->
  walk_items fuel (Dec t ArrayStart (value_state (d_state d) :: d_stack d)) depth =
    WDone (Dec i2 st (value_state (d_state d) :: d_stack d)) -> peek i2 = Some ("]"%char, r) ->
  walk (S fuel) d depth = WDone (Dec r (after_value (d_state d)) (d_stack d)).
Proof.
  intros Hst Hs Hp Hd Hs2 Hm Hr. simpl. rewrite Hd, (token_at_value d s "[" t) by (assumption || reflexivity).
  unfold value_token. simpl. rewrite Hm.
  destruct (walk_close_array i2 (value_state (d_state d)) (d_stack d) r Hr) as (_ & _ & T1 & T2).
  destruct Hs2 as [-> | ->]; rewrite ?T1, ?T2, value_end_state by exact Hst; reflexivity.
Qed.

(** One member: its key token, its value, then the loop again. *)
Lemma mems_step i st stk s k t v t1 seen depth fuel :
  (st = ObjectStart /\ s = i \/ st = ObjectComma /\ peek i = Some (","%char, s)) -> key s = Some (k, t) ->
  walk_complete t v t1 -> dup seen k = false -> strictb (S depth) v = true ->
  2 * String.length s + 2 <= S fuel ->
  walk_members (S fuel) (Dec i st stk) seen depth = walk_members fuel (Dec t1 ObjectComma stk) (k :: seen) depth.
Proof.
  intros Hi Hk Hw Hd Hb Hf. apply key_length in Hk as Hlen.
  destruct (token_key_complete i st stk s k t Hi Hk) as (r & HT & Hr & HM & _).
  simpl. rewrite HM, HT, Hd. rewrite (Hw _ (S depth) fuel); [reflexivity|reflexivity| |assumption|lia].
  unfold at_value. exact Hr.
Qed.

(** One element. *)
Lemma items_step i st stk s v t1 depth fuel :
  (st = ArrayStart /\ s = i \/ st = ArrayComma /\ peek i = Some (","%char, s)) ->
  value true s v t1 -> walk_complete s v t1 -> strictb (S depth) v = true -> 2 * String.length s + 3 <= S fuel ->
  walk_items (S fuel) (Dec i st stk) depth = walk_items fuel (Dec t1 ArrayComma stk) depth.
Proof.
  intros Hi Hv Hw Hb Hf. simpl.
  assert (HM : More (Dec i st stk) = true).
  { destruct Hi as [[_ ->]|[_ Hi]]; [eapply More_value; exact Hv | eapply More_comma; exact Hi]. }
  rewrite HM. rewrite (Hw _ (S depth) fuel); [|destruct Hi as [[-> _]|[-> _]]; reflexivity| |assumption|lia].
  - destruct Hi as [[-> _]|[-> _]]; reflexivity.
  - unfold at_value. destruct Hi as [[-> ->]|[-> Hi]]; [reflexivity | exact Hi].
Qed.

Lemma members_last_fuel i stk seen depth fuel r :
  peek i = Some ("}"%char, r) -> 0 < fuel ->
  walk_members fuel (Dec i ObjectComma stk) seen depth = WDone (Dec i ObjectComma stk).
Proof. intros H Hf. destruct fuel as [|fuel]; [lia|]. simpl. unfold More. simpl. rewrite H. reflexivity. Qed.

Lemma items_last_fuel i stk depth fuel r :
  peek i = Some ("]"%char, r) -> 0 < fuel ->
  walk_items fuel (Dec i ArrayComma stk) depth = WDone (Dec i ArrayComma stk).
Proof. intros H Hf. destruct fuel as [|fuel]; [lia|]. simpl. unfold More. simpl. rewrite H. reflexivity. Qed.

Lemma walk_complete_all :
  (forall s v r, value true s v r -> walk_complete s v r) /\
  (forall s m r, members true s m r -> mems_complete s m r) /\
  (forall s l r, elements true s l r -> items_complete s l r).
Proof.
  apply value_members_elements_ind.
  - intros s c t v r Hp N1 N2 Hv d depth [|fuel] Hst Hs Hb Hf; [lia|].
    eapply walk_scalar_step; eauto using strictb_too_deep.
  - intros s t r Hp Hr d depth [|[|fuel]] Hst Hs Hb Hf; [lia|lia|].
    eapply (walk_object_step d s t r t ObjectStart); eauto using strictb_too_deep.
    simpl. unfold More. simpl. rewrite Hr. reflexivity.
  - intros s t m r Hp Hm IH d depth [|fuel] Hst Hs Hb Hf; [lia|]. apply peek_length in Hp as Hlen.
    pose proof (strictb_too_deep _ _ Hb) as Hd. simpl in Hb. simp_bool.
    edestruct (IH t ObjectStart (value_state (d_state d) :: d_stack d) [] depth fuel) as (i2 & Hw & Hr); auto; [lia|].
    eapply (walk_object_step d s t r i2 ObjectComma); eauto.
  - intros s t r Hp Hr d depth [|[|fuel]] Hst Hs Hb Hf; [lia|lia|].
    eapply (walk_array_step d s t r t ArrayStart); eauto using strictb_too_deep.
    simpl. unfold More. simpl. rewrite Hr. reflexivity.
  - intros s t l r Hp Hl IH d depth [|fuel] Hst Hs Hb Hf; [lia|]. apply peek_length in Hp as Hlen.
    pose proof (strictb_too_deep _ _ Hb) as Hd. simpl in Hb. simp_bool.
    edestruct (IH t ArrayStart (value_state (d_state d) :: d_stack d) depth fuel) as (i2 & Hw & Hr); auto; [lia|].
    eapply (walk_array_step d s t r i2 ArrayComma); eauto.
  - intros s k t v t1 r Hk Hv IH Hr i st stk seen depth [|fuel] Hi Hn Hb Hf; [lia|]. simpl in Hn, Hb. simp_bool.
    apply key_length in Hk as Hlen. exists t1. split; [|exact Hr].
    rewrite (mems_step i st stk s k t v t1) by assumption. eapply members_last_fuel; [exact Hr | lia].
  - intros s k t v t1 t2 m r Hk Hv IH Hr Hm IHm i st stk seen depth [|fuel] Hi Hn Hb Hf; [lia|].
    simpl in Hn, Hb. simp_bool. rewrite (mems_step i st stk s k t v t1) by assumption.
    apply key_length in Hk. apply value_consumes in Hv. apply peek_length in Hr as Hlen. apply IHm; auto; lia.
  - intros s v t1 r Hv IH Hr i st stk depth [|fuel] Hi Hb Hf; [lia|]. simpl in Hb. simp_bool.
    exists t1. split; [|exact Hr]. rewrite (items_step i st stk s v t1) by assumption.
    eapply items_last_fuel; [exact Hr | lia].
  - intros s v t1 t2 l r Hv IH Hr Hl IHl i st stk depth [|fuel] Hi Hb Hf; [lia|]. simpl in Hb. simp_bool.
    rewrite (items_step i st stk s v t1) by assumption.
    apply value_consumes in Hv. apply peek_length in Hr as Hlen. apply IHl; auto; lia.
Qed.

(** ** The fuel is enough *)

Lemma token_here_consumes d c t tk d1 :
  token_here d c t = TokOk tk d1 -> String.length (d_in d1) <= String.length t.
Proof.
  unfold token_here. intros H.
  repeat match type of H with
  | (if ?b then _ else _) = _ => destruct b
  end; try discriminate H;
  try (destruct (d_state d), (d_stack d)); try discriminate H;
  repeat match type of H with
  | context [lex_string ?q] => let E := fresh "E" in destruct (lex_string q) as [[? ?]|] eqn:E; [apply lex_string_length in E | discriminate H]
  | context [scalar true ?q] => let E := fresh "E" in destruct (scalar true q) as [[? ?]|] eqn:E; [apply scalar_length in E; simpl in E | discriminate H]
  end; injection H as <- <-; simpl; lia.
Qed.

Lemma token_consumes d tk d1 : Token d = TokOk tk d1 -> String.length (d_in d1) < String.length (d_in d).
Proof.
  unfold Token, token_next. destruct (peek (d_in d)) as [[c t]|] eqn:Ep; [|discriminate].
  apply peek_length in Ep. intros H.
  assert (Hnext : forall st, match peek t with None => TokEOF | Some (c, t') => token_here (Dec t st (d_stack d)) c t' end
                             = TokOk tk d1 -> String.length (d_in d1) < String.length t).
  { intros st Ht. destruct (peek t) as [[c' t']|] eqn:Ep'; [|discriminate]. apply peek_length in Ep'.
    apply token_here_consumes in Ht. lia. }
  destruct (Ascii.eqb c ":"); [|destruct (Ascii.eqb c ",")].
  - destruct (d_state d); try discriminate H. apply Hnext in H. lia.
  - destruct (d_state d); try discriminate H; apply Hnext in H; lia.
  - apply token_here_consumes in H. lia.
Qed.

Definition din_length (d : decoder) : nat := String.length (d_in d).

Lemma walk_fuel_all fuel :
  (forall d depth, 2 * din_length d + 2 <= fuel ->
     match walk fuel d depth with WDone d2 => din_length d2 < din_length d | WFail => True | WFuel => False end) /\
  (forall d seen depth, 2 * din_length d + 3 <= fuel ->
     match walk_members fuel d seen depth with WDone d2 => din_length d2 <= din_length d | WFail => True | WFuel => False end) /\
  (forall d depth, 2 * din_length d + 3 <= fuel ->
     match walk_items fuel d depth with WDone d2 => din_length d2 <= din_length d | WFail => True | WFuel => False end).
Proof.
  induction fuel as [|fuel (IHw & IHm & IHi)]; [repeat split; intros; exfalso; lia|].
  split; [|split].
  - intros d depth Hf. simpl. destruct (too_deep depth); [exact I|].
    destruct (Token d) as [[c|v] d1| |] eqn:Et; try exact I; apply token_consumes in Et; fold (din_length d1) (din_length d) in Et; [|exact Et].
    assert (Hr : match (if Ascii.eqb c "{" then walk_members fuel d1 [] depth
                        else if Ascii.eqb c "[" then walk_items fuel d1 depth else if stray then WDone d1 else WFail)
                 with WDone d2 => din_length d2 <= din_length d1 | WFail => True | WFuel => False end).
    { destruct (Ascii.eqb c "{"); [apply IHm; lia|]. destruct (Ascii.eqb c "["); [apply IHi; lia|]. destruct stray; [lia | exact I]. }
    destruct (if Ascii.eqb c "{" then _ else _) as [d2| |]; [|exact I|contradiction].
    destruct (Token d2) as [tk d3| |] eqn:Et2; try exact I. apply token_consumes in Et2. unfold din_length in *. lia.
  - intros d seen depth Hf. simpl. destruct (More d); [|lia].
    destruct (Token d) as [[c|[| | |k| |]] d1| |] eqn:Et; try exact I. apply token_consumes in Et.
    fold (din_length d1) (din_length d) in Et. destruct (dup seen k); [exact I|].
    pose proof (IHw d1 (S depth) ltac:(lia)) as Hw. destruct (walk fuel d1 (S depth)) as [d2| |]; [|exact I|exact Hw].
    pose proof (IHm d2 (k :: seen) depth ltac:(lia)) as Hm. destruct (walk_members fuel d2 (k :: seen) depth); [lia|exact I|exact Hm].
  - intros d depth Hf. simpl. destruct (More d); [|lia].
    pose proof (IHw d (S depth) ltac:(lia)) as Hw. destruct (walk fuel d (S depth)) as [d2| |]; [|exact I|exact Hw].
    pose proof (IHi d2 depth ltac:(lia)) as Hm. destruct (walk_items fuel d2 depth); [lia|exact I|exact Hm].
Qed.

(** ** Walking a document *)

(** A walk of the whole body, then a Token that must find the end: the fuel covers any body. *)
Definition walk_document (body : string) (depth : nat) : bool :=
  match walk (2 * String.length body + 2) (NewDecoder body) depth with
  | WDone d => match Token d with TokEOF => true | _ => false end
  | _ => false
  end.

Lemma walk_document_fuel body depth : walk (2 * String.length body + 2) (NewDecoder body) depth <> WFuel.
Proof.
  intros H. pose proof (proj1 (walk_fuel_all (2 * String.length body + 2)) (NewDecoder body) depth) as Hf.
  rewrite H in Hf. apply Hf. unfold din_length. simpl. lia.
Qed.

Lemma token_eof d : Token d = TokEOF -> d_state d = TopValue -> peek (d_in d) = None.
Proof.
  unfold Token. intros H Hst. destruct (peek (d_in d)) as [[c t]|]; [|reflexivity]. exfalso. rewrite Hst in H.
  destruct (Ascii.eqb c ":"); [discriminate|]. destruct (Ascii.eqb c ","); [discriminate|].
  unfold token_here in H. rewrite Hst in H. simpl in H.
  repeat case_match; discriminate H.
Qed.

Lemma walk_document_iff body depth :
  walk_document body depth = true <-> exists v, text true body v /\ strictb depth v = true.
Proof.
  unfold walk_document. split.
  - destruct (walk _ _ _) as [d| |] eqn:Ew; try discriminate.
    apply (proj1 (walk_sound_all _)) in Ew as (s & v & r & Hs & Hv & Hb & ->);
      [|split; [reflexivity | intros [?|?]; discriminate]].
    unfold at_value in Hs. simpl in Hs. subst s. simpl.
    destruct (Token _) eqn:Et; try discriminate. intros _. exists v. split; [|exact Hb].
    exists r. split; [exact Hv|]. apply token_eof in Et; [exact Et | reflexivity].
  - intros (v & (r & Hv & Hr) & Hb).
    rewrite (proj1 walk_complete_all body v r Hv (NewDecoder body) depth) by (reflexivity || assumption || simpl; lia).
    unfold Token. simpl. rewrite Hr. reflexivity.
Qed.

End Walk.
End Decoder.
