(* ===== verification/JsonEncode.v ===== *)
(** json.Marshal as the repository uses it to build request bodies: the string encoder of
    encoding/json (appendString with HTML escaping), compact arrays and objects, and the round trip:
    what Marshal writes, the grammar reads back, with the bytes that are not UTF-8 replaced. *)
From S2P Require Import Prelude Utf8 Json.

Module Encode.
Import Json.

Definition hex_digit (n : N) : ascii := chr (if (n <? 10)%N then 48 + n else 87 + n).

(** The ASCII bytes written as they are. *)
Definition html_safe (c : ascii) : bool :=
  (32 <=? code c)%N && (code c <? 128)%N && negb (Ascii.eqb c dquote) && negb (Ascii.eqb c backslash)
  && negb (Ascii.eqb c "<") && negb (Ascii.eqb c ">") && negb (Ascii.eqb c "&").

Definition esc (c : ascii) : string := String backslash (String c EmptyString).

Definition u_escape (a b c d : ascii) : string :=
  String backslash (String "u" (String a (String b (String c (String d EmptyString))))).

(** One ASCII byte. *)
Definition enc_ascii (c : ascii) : string :=
  if html_safe c then String c EmptyString
  else if Ascii.eqb c backslash || Ascii.eqb c dquote then esc c
  else if Ascii.eqb c (chr 8) then esc "b"
  else if Ascii.eqb c (chr 12) then esc "f"
  else if Ascii.eqb c (chr 10) then esc "n"
  else if Ascii.eqb c (chr 13) then esc "r"
  else if Ascii.eqb c (chr 9) then esc "t"
  else u_escape "0" "0" (hex_digit (code c / 16)) (hex_digit (code c mod 16)).

(** The text written for the rune at the head of [s], and its width in [s]. *)
Definition enc_head (s : string) : string * nat :=
  match s with
  | EmptyString => (EmptyString, 0)
  | String c r =>
      if (code c <? 128)%N then (enc_ascii c, 1)
      else let '(rr, w) := Utf8.DecodeRune s in
           if (rr =? Utf8.RuneError)%N && (w =? 1) then (u_escape "f" "f" "f" "d", 1)
           else if (rr =? 8232)%N then (u_escape "2" "0" "2" "8", w)
           else if (rr =? 8233)%N then (u_escape "2" "0" "2" "9", w)
           else (Utf8.take w s, w)
  end.

(** appendString between the quotes; [fuel] is at least the string's length. *)
Fixpoint enc_body (fuel : nat) (s : string) : string :=
  match fuel, s with
  | S fuel, String _ _ => let '(t, w) := enc_head s in t +:+ enc_body fuel (Utf8.drop w s)
  | _, _ => EmptyString
  end.

Definition enc_string (s : string) : string :=
  String dquote (enc_body (String.length s) s +:+ String dquote EmptyString).

(** The string a reader gets: each byte that begins no rune replaced by U+FFFD. *)
Fixpoint clean (fuel : nat) (s : string) : string :=
  match fuel, s with
  | S fuel, String _ _ =>
      let '(rr, w) := Utf8.DecodeRune s in Utf8.EncodeRune rr +:+ clean fuel (Utf8.drop w s)
  | _, _ => EmptyString
  end.

Definition clean_string (s : string) : string := clean (String.length s) s.

(** Marshal of a document of strings, booleans and nulls: struct fields and slices in order. *)
Fixpoint Marshal (v : json) : string :=
  match v with
  | JNull => "null"
  | JBool true => "true"
  | JBool false => "false"
  | JNum t => t
  | JStr s => enc_string s
  | JArr l => String "[" (join "," (map Marshal l) +:+ "]")
  | JObj m => String "{" (join "," (map (fun kv => enc_string kv.1 +:+ String ":" (Marshal kv.2)) m) +:+ "}")
  end.

Fixpoint cleaned (v : json) : json :=
  match v with
  | JStr s => JStr (clean_string s)
  | JArr l => JArr (map cleaned l)
  | JObj m => JObj (map (fun kv => (clean_string kv.1, cleaned kv.2)) m)
  | v => v
  end.

Fixpoint no_numbers (v : json) : bool :=
  match v with
  | JNum _ => false
  | JArr l => forallb no_numbers l
  | JObj m => forallb (fun kv => no_numbers kv.2) m
  | _ => true
  end.

(** * Strings *)

(** A piece of a body the scanner passes over and the unquoter reads as [x], whatever follows. *)
Definition piece (t x : string) : Prop :=
  (forall r, scan_string (t +:+ r) = match scan_string r with Some (b, q) => Some (t +:+ b, q) | None => None end) /\
  (forall fuel r, unquote (S fuel) (t +:+ r) = x +:+ unquote fuel r) /\ t <> EmptyString.

(** A check of every ASCII byte, by running it. *)
Definition ascii_range : list N := map N.of_nat (seq 0 128).

Lemma ascii_range_spec (P : ascii -> Prop) :
  Forall (fun n => P (chr n)) ascii_range -> forall c, (code c < 128)%N -> P c.
Proof.
  intros H c Hc. rewrite Forall_forall in H. rewrite <-(chr_code c). apply H. unfold ascii_range.
  apply list_elem_of_fmap. exists (N.to_nat (code c)). split; [lia|]. apply elem_of_seq. lia.
Qed.

Lemma piece_ascii c : (code c < 128)%N -> piece (enc_ascii c) (String c EmptyString).
Proof.
  revert c. apply ascii_range_spec. unfold ascii_range. repeat (apply Forall_cons; split); [..|apply Forall_nil; exact I];
    (split; [|split]; [intros r; reflexivity
                     | intros fuel r; first [reflexivity | destruct r as [|? [|? [|? [|? ?]]]]; reflexivity]
                     | discriminate]).
Qed.

Lemma scan_plain c r :
  (128 <= code c)%N ->
  scan_string (String c r) = match scan_string r with Some (b, q) => Some (String c b, q) | None => None end.
Proof.
  intros H. simpl.
  destruct (Ascii.eqb_spec c dquote) as [->|_]; [vm_compute in H; congruence|].
  destruct (Ascii.eqb_spec c backslash) as [->|_]; [vm_compute in H; congruence|].
  destruct (N.ltb_spec (code c) 32); [lia | reflexivity].
Qed.

Definition high (s : string) : Prop := Forall (fun c => (128 <= code c)%N) (chars s).

Lemma scan_high t r : high t ->
  scan_string (t +:+ r) = match scan_string r with Some (b, q) => Some (t +:+ b, q) | None => None end.
Proof.
  unfold high. induction t as [|c t IH]; simpl chars; intros H.
  - rewrite str_app_nil. destruct (scan_string r) as [[b q]|]; reflexivity.
  - apply Forall_cons in H as [Hc Ht]. rewrite str_app_cons, scan_plain, IH by assumption.
    destruct (scan_string r) as [[b q]|]; reflexivity.
Qed.

(** A rune read from [s] is read from its own bytes too, whatever follows them. *)
Lemma decode_take s c q t :
  s = String c q -> (128 <= code c)%N -> Utf8.whole s (Utf8.DecodeRune s) ->
  Utf8.DecodeRune s <> (Utf8.RuneError, 1) ->
  high (Utf8.take (Utf8.DecodeRune s).2 s) /\
  Utf8.DecodeRune (Utf8.take (Utf8.DecodeRune s).2 s +:+ t) = Utf8.DecodeRune s.
Proof.
  intros -> Hc _ Hne. revert Hne. unfold high. simpl Utf8.DecodeRune.
  destruct (N.ltb_spec (code c) 128) as [|_]; [lia|].
  destruct (Utf8.between 194 223 c) eqn:E2.
  { destruct q as [|b q]; [congruence|]. destruct (Utf8.cont b) eqn:Eb; [|congruence]. intros _.
    apply Utf8.cont_code in Eb as Hb. simpl. rewrite ?str_app_cons, ?str_app_nil. simpl.
    destruct (N.ltb_spec (code c) 128); [lia|]. rewrite E2, Eb. split; [repeat constructor; lia | reflexivity]. }
  destruct (Utf8.between 224 239 c) eqn:E3.
  { destruct q as [|b [|d q]]; try congruence. destruct (_ && Utf8.cont d) eqn:Eb; [|congruence]. intros _.
    apply andb_true_iff in Eb as Hb. destruct Hb as [Hb Hd]. apply Utf8.between_code in Hb. apply Utf8.cont_code in Hd.
    simpl. rewrite ?str_app_cons, ?str_app_nil. simpl.
    destruct (N.ltb_spec (code c) 128); [lia|]. rewrite E2, E3, Eb.
    split; [|reflexivity]. repeat constructor; try lia. destruct (code c =? 224)%N; lia. }
  destruct (Utf8.between 240 244 c) eqn:E4; [|congruence].
  destruct q as [|b [|d [|e q]]]; try congruence. destruct (_ && Utf8.cont e) eqn:Eb; [|congruence]. intros _.
  apply andb_true_iff in Eb as Hb. destruct Hb as [Hb He]. apply andb_true_iff in Hb as [Hb Hd].
  apply Utf8.between_code in Hb. apply Utf8.cont_code in Hd, He.
  simpl. rewrite ?str_app_cons, ?str_app_nil. simpl.
  destruct (N.ltb_spec (code c) 128); [lia|]. rewrite E2, E3, E4, Eb.
  split; [|reflexivity]. repeat constructor; try lia. destruct (code c =? 240)%N; lia.
Qed.

Lemma drop_take_app w q r : w <= String.length q -> Utf8.drop w (Utf8.take w q +:+ r) = r.
Proof.
  revert q. induction w as [|w IH]; intros q Hw; [reflexivity|]. destruct q as [|c q]; simpl in Hw; [lia|].
  simpl Utf8.take. rewrite str_app_cons. simpl. apply IH. lia.
Qed.

Lemma decode_bounded s : (Utf8.DecodeRune s).2 <= String.length s.
Proof. destruct s as [|a s]; simpl; [lia|]. repeat case_match; simpl; lia. Qed.

Definition enc_decoded (s : string) (d : N * nat) : string * nat :=
  if (d.1 =? Utf8.RuneError)%N && (d.2 =? 1) then (u_escape "f" "f" "f" "d", 1)
  else if (d.1 =? 8232)%N then (u_escape "2" "0" "2" "8", d.2)
  else if (d.1 =? 8233)%N then (u_escape "2" "0" "2" "9", d.2)
  else (Utf8.take d.2 s, d.2).

Lemma enc_head_high c q :
  (128 <= code c)%N -> enc_head (String c q) = enc_decoded (String c q) (Utf8.DecodeRune (String c q)).
Proof.
  intros Hc. unfold enc_head, enc_decoded. destruct (N.ltb_spec (code c) 128) as [|_]; [lia|].
  destruct (Utf8.DecodeRune (String c q)). reflexivity.
Qed.

Lemma piece_u_escape a b c d x :
  (forall r, scan_string (u_escape a b c d +:+ r) =
     match scan_string r with Some (b', q) => Some (u_escape a b c d +:+ b', q) | None => None end) ->
  (forall fuel r, unquote (S fuel) (u_escape a b c d +:+ r) = x +:+ unquote fuel r) -> piece (u_escape a b c d) x.
Proof. intros. split; [assumption|]. split; [assumption | discriminate]. Qed.

Lemma piece_rune c q :
  (128 <= code c)%N -> let s := String c q in
  piece (enc_head s).1 (Utf8.EncodeRune (Utf8.DecodeRune s).1) /\ (enc_head s).2 = (Utf8.DecodeRune s).2.
Proof.
  intros Hc s. subst s. rewrite enc_head_high by exact Hc. set (s := String c q).
  pose proof (Utf8.decode_cases s) as Hcases.
  destruct (Utf8.DecodeRune s) as [rr w] eqn:Ed. unfold enc_decoded. cbn [fst snd].
  destruct ((rr =? Utf8.RuneError)%N && (w =? 1)) eqn:E1.
  { apply andb_true_iff in E1 as [E1 E2]. apply N.eqb_eq in E1 as ->. apply Nat.eqb_eq in E2 as ->.
    split; [apply piece_u_escape; reflexivity | reflexivity]. }
  destruct (N.eqb_spec rr 8232) as [->|N1]; [split; [apply piece_u_escape; reflexivity | reflexivity]|].
  destruct (N.eqb_spec rr 8233) as [->|N2]; [split; [apply piece_u_escape; reflexivity | reflexivity]|].
  split; [|reflexivity]. cbn [fst].
  destruct Hcases as [Hw|[[= -> ->]|He]]; [|discriminate E1|discriminate He].
  assert (Hne : Utf8.DecodeRune s <> (Utf8.RuneError, 1)) by (rewrite Ed; intros [= -> ->]; discriminate E1).
  assert (Hw' : Utf8.whole s (Utf8.DecodeRune s)) by (rewrite Ed; exact Hw).
  destruct Hw as [Henc Hvalid]. simpl in Henc, Hvalid.
  split; [|split].
  - intros r. apply scan_high. pose proof (decode_take s c q EmptyString eq_refl Hc Hw' Hne) as [Hh _].
    rewrite Ed in Hh. exact Hh.
  - intros fuel r. pose proof (decode_take s c q r eq_refl Hc Hw' Hne) as [_ Hd]. rewrite Ed in Hd. simpl in Hd.
    unfold Utf8.EncodeRune. rewrite Hvalid, Henc.
    assert (Hwpos : 1 <= w) by (change w with ((rr, w).2); rewrite <-Ed; apply Utf8.decode_width; discriminate).
    destruct w as [|w]; [lia|]. unfold s in Hd |- *. simpl Utf8.take in Hd |- *. rewrite str_app_cons in Hd |- *.
    cbn [unquote]. destruct (Ascii.eqb_spec c backslash) as [->|_]; [vm_compute in Hc; congruence|].
    destruct (N.ltb_spec (code c) 128) as [|_]; [lia|]. rewrite Hd.
    unfold Utf8.EncodeRune. rewrite Hvalid, Henc. unfold s. simpl Utf8.take. rewrite !str_app_cons. f_equal. f_equal.
    f_equal. simpl. apply drop_take_app.
    pose proof (decode_bounded s) as Hb. rewrite Ed in Hb. unfold s in Hb. simpl in Hb. lia.
  - intros Ht. rewrite Ht in Henc. unfold Utf8.encode in Henc. repeat case_match; discriminate Henc.
Qed.

Lemma piece_head c q :
  let s := String c q in
  piece (enc_head s).1 (Utf8.EncodeRune (Utf8.DecodeRune s).1) /\ (enc_head s).2 = (Utf8.DecodeRune s).2.
Proof.
  intros s. destruct (N.lt_ge_cases (code c) 128) as [H|H]; [|apply piece_rune; exact H].
  unfold s. rewrite Utf8.decode_ascii by exact H. unfold enc_head.
  rewrite (proj2 (N.ltb_lt _ _) H). cbn [fst snd]. split; [|reflexivity].
  unfold Utf8.EncodeRune. rewrite (proj2 (Utf8.valid_rune_iff _)) by lia.
  rewrite Utf8.encode_ascii, chr_code by exact H. apply piece_ascii. exact H.
Qed.

Lemma enc_body_step fuel c q :
  let s := String c q in
  enc_body (S fuel) s = (enc_head s).1 +:+ enc_body fuel (Utf8.drop (Utf8.DecodeRune s).2 s).
Proof.
  intros s. destruct (piece_head c q) as [_ Hw]. cbn [enc_body]. unfold s. fold s in Hw |- *.
  destruct (enc_head s) as [t w]. cbn [fst snd] in *. rewrite Hw. reflexivity.
Qed.

Lemma clean_step fuel c q :
  let s := String c q in
  clean (S fuel) s = Utf8.EncodeRune (Utf8.DecodeRune s).1 +:+ clean fuel (Utf8.drop (Utf8.DecodeRune s).2 s).
Proof. intros s. cbn [clean]. unfold s. destruct (Utf8.DecodeRune (String c q)). reflexivity. Qed.

Lemma scan_enc fuel s r : scan_string (enc_body fuel s +:+ String dquote r) = Some (enc_body fuel s, r).
Proof.
  revert s. induction fuel as [|fuel IH]; intros [|c q]; try reflexivity.
  rewrite enc_body_step. destruct (piece_head c q) as [(Hs & _ & _) _].
  rewrite str_app_assoc, Hs, IH. reflexivity.
Qed.

Lemma unquote_enc fuel s k :
  String.length (enc_body fuel s) <= k -> unquote k (enc_body fuel s) = clean fuel s.
Proof.
  revert s k. induction fuel as [|fuel IH]; intros s k Hk.
  - simpl. destruct k; [reflexivity|]. destruct s; reflexivity.
  - destruct s as [|c q]; [destruct k; reflexivity|].
    rewrite enc_body_step in Hk |- *. rewrite clean_step.
    destruct (piece_head c q) as [(_ & Hu & Hne) _]. rewrite str_length_app in Hk.
    assert (Hpos : 1 <= String.length (enc_head (String c q)).1) by (destruct (enc_head (String c q)).1; [congruence | simpl; lia]).
    destruct k as [|k]; [lia|]. rewrite Hu, IH; [reflexivity | lia].
Qed.

(** The round trip of one string literal, whatever follows it. *)
Lemma lex_enc_string s r :
  lex_string (enc_body (String.length s) s +:+ String dquote r) = Some (clean_string s, r).
Proof. unfold lex_string. rewrite scan_enc, unquote_enc by lia. reflexivity. Qed.

(** A UTF-8 string is not changed. *)
Fixpoint valid_utf8 (fuel : nat) (s : string) : bool :=
  match fuel, s with
  | S fuel, String _ _ =>
      let '(rr, w) := Utf8.DecodeRune s in
      negb ((rr =? Utf8.RuneError)%N && (w =? 1)) && valid_utf8 fuel (Utf8.drop w s)
  | _, _ => true
  end.

(** utf8.ValidString. *)
Definition ValidString (s : string) : bool := valid_utf8 (String.length s) s.

Lemma clean_valid fuel s : String.length s <= fuel -> valid_utf8 fuel s = true -> clean fuel s = s.
Proof.
  revert s. induction fuel as [|fuel IH]; intros s Hf; [destruct s; [reflexivity|simpl in Hf; lia]|].
  destruct s as [|c q]; [reflexivity|]. rewrite clean_step. cbn [valid_utf8]. set (s := String c q) in *.
  pose proof (Utf8.decode_cases s) as Hc. pose proof (Utf8.decode_width s ltac:(discriminate)) as Hw.
  destruct (Utf8.DecodeRune s) as [rr w]. cbn [fst snd] in *. intros H. apply andb_true_iff in H as [Hn Hr].
  destruct Hc as [[Henc Hv]|[[= -> ->]|He]]; [|discriminate Hn|discriminate He]. cbn [fst snd] in *.
  unfold Utf8.EncodeRune. rewrite Hv, Henc, IH; [apply Utf8.take_drop| |exact Hr].
  rewrite Utf8.length_drop. lia.
Qed.

Lemma clean_string_valid s : ValidString s = true -> clean_string s = s.
Proof. apply clean_valid. lia. Qed.

(** ASCII is UTF-8. *)
Lemma ascii_valid fuel s : Forall (fun c => (code c < 128)%N) (chars s) -> valid_utf8 fuel s = true.
Proof.
  revert s. induction fuel as [|fuel IH]; intros [|c q] H; try reflexivity. simpl in H. apply Forall_cons in H as [Hc Hq].
  cbn [valid_utf8]. rewrite Utf8.decode_ascii by exact Hc. destruct (N.eqb_spec (code c) Utf8.RuneError) as [E|_]; [|simpl; apply IH; exact Hq].
  rewrite E in Hc. vm_compute in Hc. discriminate.
Qed.

(** * Documents *)

Lemma peek_char c r : is_space c = false -> peek (String c r) = Some (c, r).
Proof. intros H. unfold peek. simpl. rewrite H. reflexivity. Qed.

Lemma enc_string_app s r :
  enc_string s +:+ r = String dquote (enc_body (String.length s) s +:+ String dquote r).
Proof. unfold enc_string. rewrite str_app_cons, str_app_assoc. reflexivity. Qed.

Lemma key_enc k r : key (enc_string k +:+ String ":" r) = Some (clean_string k, r).
Proof.
  unfold key. rewrite enc_string_app, peek_char by reflexivity. simpl Ascii.eqb.
  rewrite lex_enc_string, peek_char by reflexivity. reflexivity.
Qed.

Lemma value_enc_string fl s r : value fl (enc_string s +:+ r) (JStr (clean_string s)) r.
Proof.
  rewrite enc_string_app. eapply v_scalar; [apply peek_char; reflexivity|discriminate|discriminate|].
  unfold scalar, lex_scalar. simpl Ascii.eqb. rewrite lex_enc_string. reflexivity.
Qed.

Lemma elements_Marshal fl l r :
  l <> [] -> Forall (fun v => forall r, value fl (Marshal v +:+ r) (cleaned v) r) l ->
  elements fl (join "," (map Marshal l) +:+ String "]" r) (map cleaned l) r.
Proof.
  intros Hne H. induction H as [|v l Hv Hl IH]; [congruence|]. destruct l as [|w l].
  - simpl. eapply e_last; [apply Hv | apply peek_char; reflexivity].
  - change (join "," (map Marshal (v :: w :: l))) with (Marshal v +:+ String "," (join "," (map Marshal (w :: l)))).
    rewrite str_app_assoc, str_app_cons. eapply e_more; [apply Hv | apply peek_char; reflexivity | apply IH; discriminate].
Qed.

Lemma members_Marshal fl m r :
  m <> [] -> Forall (fun kv => forall r, value fl (Marshal kv.2 +:+ r) (cleaned kv.2) r) m ->
  members fl (join "," (map (fun kv => enc_string kv.1 +:+ String ":" (Marshal kv.2)) m) +:+ String "}" r)
    (map (fun kv => (clean_string kv.1, cleaned kv.2)) m) r.
Proof.
  intros Hne H. induction H as [|[k v] m Hv Hm IH]; [congruence|]. simpl in Hv.
  set (f := fun kv : string * json => enc_string kv.1 +:+ String ":" (Marshal kv.2)) in *. destruct m as [|w m].
  - simpl. unfold f. simpl. rewrite str_app_assoc, str_app_cons.
    eapply m_last; [apply key_enc | apply Hv | apply peek_char; reflexivity].
  - change (join "," (map f ((k, v) :: w :: m))) with ((enc_string k +:+ String ":" (Marshal v)) +:+ String "," (join "," (map f (w :: m)))).
    rewrite !str_app_assoc. repeat rewrite ?str_app_cons, ?str_app_assoc.
    eapply m_more; [apply key_enc | apply Hv | apply peek_char; reflexivity | apply IH; discriminate].
Qed.

Lemma value_Marshal fl v r : no_numbers v = true -> value fl (Marshal v +:+ r) (cleaned v) r.
Proof.
  revert v r. apply (json_deep_ind (fun v => forall r, no_numbers v = true -> value fl (Marshal v +:+ r) (cleaned v) r)).
  - intros r _. eapply v_scalar; [apply peek_char; reflexivity|discriminate|discriminate|reflexivity].
  - intros [] r _; (eapply v_scalar; [apply peek_char; reflexivity|discriminate|discriminate|reflexivity]).
  - discriminate.
  - intros s r _. apply value_enc_string.
  - intros l IH r H. simpl in *. rewrite str_app_cons, str_app_assoc. destruct l as [|x l].
    + eapply v_arr_nil; apply peek_char; reflexivity.
    + eapply v_arr; [apply peek_char; reflexivity|]. apply elements_Marshal; [discriminate|].
      rewrite forallb_forall in H. apply Forall_forall. intros y Hy r'. rewrite Forall_forall in IH.
      apply IH; [exact Hy|]. apply H. apply list_elem_of_In. exact Hy.
  - intros m IH r H. simpl in *. rewrite str_app_cons, str_app_assoc. destruct m as [|x m].
    + eapply v_obj_nil; apply peek_char; reflexivity.
    + eapply v_obj; [apply peek_char; reflexivity|]. apply members_Marshal; [discriminate|].
      rewrite forallb_forall in H. apply Forall_forall. intros y Hy r'. rewrite Forall_forall in IH.
      apply IH; [exact Hy|]. apply H. apply list_elem_of_In. exact Hy.
Qed.

Lemma levels_cleaned v : levels (cleaned v) = levels v.
Proof.
  induction v using json_deep_ind; try reflexivity; simpl; f_equal.
  - induction H as [|x l Hx _ IH]; [reflexivity|]. simpl. rewrite Hx, IH. reflexivity.
  - induction H as [|x l Hx _ IH]; [reflexivity|]. simpl. rewrite Hx, IH. reflexivity.
Qed.

(** What Marshal writes is one document, read back as written. *)
Lemma parse_Marshal fl v : no_numbers v = true -> shallow v = true -> parse_document fl (Marshal v) = Some (cleaned v).
Proof.
  intros H Hs. apply parse_iff. split; [|unfold shallow; rewrite levels_cleaned; exact Hs]. exists EmptyString. split; [|reflexivity].
  rewrite <-(str_app_nil_r (Marshal v)). apply value_Marshal. exact H.
Qed.

End Encode.
