(* ===== verification/Decimal.v ===== *)
(** Decimal numerals: the value of a string of digits, and the canonical numeral of a number, as
    strconv and fmt print it (stdpp's [pretty]). *)
From stdpp Require Export pretty.
From S2P Require Import Prelude.

Module Decimal.
Local Open Scope Z_scope.

Definition digit (c : ascii) : Z := Z.of_N (code c) - 48.

Fixpoint dec_acc (acc : Z) (s : string) : Z :=
  match s with EmptyString => acc | String c r => dec_acc (acc * 10 + digit c) r end.

(** The decimal value of a string of digits. *)
Definition dec (s : string) : Z := dec_acc 0 s.

Definition is_digit (c : ascii) : bool := in_range "0" "9" c.

(** The shape 0|[1-9][0-9]*. *)
Definition canonical (s : string) : Prop :=
  s = "0" \/ exists c r, s = String c r /\ in_range "1" "9" c = true /\ Forall (fun d => is_digit d = true) (chars r).

Lemma in_range_code lo hi c : in_range lo hi c = true <-> (code lo <= code c <= code hi)%N.
Proof. unfold in_range. rewrite andb_true_iff, !N.leb_le. reflexivity. Qed.

Lemma digit_range c : is_digit c = true -> 0 <= digit c <= 9.
Proof.
  unfold is_digit. rewrite in_range_code. change (code "0") with 48%N. change (code "9") with 57%N.
  unfold digit. lia.
Qed.

(** The ten digit characters, checked one by one. *)
Lemma digit_pretty_char n : (n < 10)%N -> digit (pretty_N_char n) = Z.of_N n.
Proof. intros H. apply Z.eqb_eq. revert n H. apply (below_run (fun n => digit (pretty_N_char n) =? Z.of_N n) 10). reflexivity. Qed.

Lemma pretty_char_is_digit n : (n < 10)%N -> is_digit (pretty_N_char n) = true.
Proof. revert n. apply (below_run (fun n => is_digit (pretty_N_char n)) 10). reflexivity. Qed.

Lemma pretty_char_leading n : (0 < n < 10)%N -> in_range "1" "9" (pretty_N_char n) = true.
Proof.
  intros [H0 H]. assert (Hb : ((n =? 0)%N || in_range "1" "9" (pretty_N_char n))%bool = true).
  { revert n H0 H. intros n _. revert n. apply (below_run (fun n => (n =? 0)%N || in_range "1" "9" (pretty_N_char n))%bool 10). reflexivity. }
  destruct (N.eqb_spec n 0); [lia | exact Hb].
Qed.

Lemma pretty_char_digit c : is_digit c = true -> pretty_N_char (Z.to_N (digit c)) = c.
Proof.
  intros H. apply Ascii.eqb_eq. pose proof (code_lt c) as Hc. rewrite <-(chr_code c) in H |- *. revert H. generalize (code c) Hc. clear.
  intros n Hn H. assert (Hb : (implb (is_digit (chr n)) (Ascii.eqb (pretty_N_char (Z.to_N (digit (chr n)))) (chr n))) = true).
  { revert n Hn H. intros n Hn _. revert n Hn.
    apply (below_run (fun n => implb (is_digit (chr n)) (Ascii.eqb (pretty_N_char (Z.to_N (digit (chr n)))) (chr n))) 256).
    vm_compute. reflexivity. }
  rewrite H in Hb. exact Hb.
Qed.

Lemma dec_pretty_go x s : dec (pretty_N_go x s) = dec_acc (Z.of_N x) s.
Proof.
  revert s. induction (N.lt_wf_0 x) as [x _ IH]. intros s.
  destruct (N.eq_0_gt_0_cases x) as [->|Hx]; [rewrite pretty_N_go_0; reflexivity|].
  rewrite pretty_N_go_step by lia. rewrite IH by (apply N.div_lt; lia). simpl.
  rewrite digit_pretty_char by (apply N.mod_lt; lia). f_equal.
  pose proof (N.div_mod x 10 ltac:(lia)). lia.
Qed.

Lemma dec_pretty (n : N) : dec (pretty n) = Z.of_N n.
Proof.
  unfold pretty, pretty_N. destruct (decide (n = 0%N)) as [->|]; [reflexivity|]. apply dec_pretty_go.
Qed.

Lemma dec_acc_nonneg s a : 0 <= a -> Forall (fun d => is_digit d = true) (chars s) -> 0 <= dec_acc a s.
Proof.
  revert a. induction s as [|c s IH]; intros a Ha H; simpl in *; [exact Ha|]. apply Forall_cons in H as [Hc Hs].
  apply IH; [|exact Hs]. apply digit_range in Hc. lia.
Qed.

(** Printing the value of a prefix, then the digits that follow. *)
Lemma pretty_go_dec s t a :
  0 < a -> Forall (fun d => is_digit d = true) (chars s) ->
  pretty_N_go (Z.to_N (dec_acc a s)) t = pretty_N_go (Z.to_N a) (s +:+ t).
Proof.
  revert a. induction s as [|c s IH]; intros a Ha H; simpl in H; [reflexivity|]. apply Forall_cons in H as [Hc Hs].
  pose proof (digit_range c Hc). simpl dec_acc. rewrite IH by (assumption || lia).
  rewrite pretty_N_go_step by lia.
  assert (Hq : (Z.to_N (a * 10 + digit c) / 10 = Z.to_N a)%N).
  { symmetry. apply (N.div_unique _ 10 _ (Z.to_N (digit c))); lia. }
  assert (Hr : (Z.to_N (a * 10 + digit c) mod 10 = Z.to_N (digit c))%N).
  { symmetry. apply (N.mod_unique _ 10 (Z.to_N a) _); lia. }
  rewrite Hq, Hr, pretty_char_digit by exact Hc. reflexivity.
Qed.

Lemma pretty_canonical s : canonical s -> pretty (Z.to_N (dec s)) = s.
Proof.
  intros [->|(c & r & -> & Hc & Hr)]; [reflexivity|]. apply in_range_code in Hc.
  change (code "1") with 49%N in Hc. change (code "9") with 57%N in Hc.
  assert (Hd : is_digit c = true).
  { apply in_range_code. change (code "0") with 48%N. change (code "9") with 57%N. lia. }
  assert (Hpos : 0 < digit c) by (unfold digit; lia). pose proof (digit_range c Hd) as Hle.
  unfold dec. change (dec_acc 0 (String c r)) with (dec_acc (0 * 10 + digit c) r). rewrite Z.mul_0_l, Z.add_0_l.
  pose proof (dec_acc_nonneg r (digit c) ltac:(lia) Hr) as Hnn.
  assert (E : pretty_N_go (Z.to_N (dec_acc (digit c) r)) "" = String c r).
  { rewrite pretty_go_dec, str_app_nil_r by assumption. rewrite pretty_N_go_step by lia.
    rewrite N.div_small, N.mod_small, pretty_char_digit by (assumption || lia). reflexivity. }
  unfold pretty, pretty_N. destruct (decide (Z.to_N (dec_acc (digit c) r) = 0%N)) as [E0|]; [|exact E].
  rewrite E0 in E. discriminate E.
Qed.

Lemma canonical_dec_nonneg s : canonical s -> 0 <= dec s.
Proof.
  intros [->|(c & r & -> & Hc & Hr)]; [vm_compute; discriminate|]. apply dec_acc_nonneg; [lia|]. constructor; [|exact Hr].
  apply in_range_code in Hc. apply in_range_code.
  change (code "1") with 49%N in Hc. change (code "0") with 48%N. lia.
Qed.

(** The numeral of a positive number ends with the text that was there and begins with its leading
    digit. *)
Lemma pretty_go_canonical x s :
  (0 < x)%N -> Forall (fun d => is_digit d = true) (chars s) -> canonical (pretty_N_go x s).
Proof.
  revert s. induction (N.lt_wf_0 x) as [x _ IH]. intros s Hx Hs.
  rewrite pretty_N_go_step by lia. destruct (N.eq_0_gt_0_cases (x / 10)) as [E|Hq].
  - rewrite E, pretty_N_go_0. right. exists (pretty_N_char (x mod 10)), s. split; [reflexivity|]. split; [|exact Hs].
    apply N.div_small_iff in E; [|lia]. rewrite N.mod_small by lia. apply pretty_char_leading. lia.
  - apply IH; [apply N.div_lt; lia|exact Hq|]. constructor; [apply pretty_char_is_digit, N.mod_lt; lia | exact Hs].
Qed.

Lemma pretty_is_canonical (n : N) : canonical (pretty n).
Proof.
  unfold pretty, pretty_N. destruct (decide (n = 0%N)) as [->|]; [left; reflexivity|].
  apply pretty_go_canonical; [lia | constructor].
Qed.

End Decimal.
