(* ===== verification/GoTime.v ===== *)
(** Go's time package as the repository uses it: a Time is an instant with an optional monotonic
    reading, Sub/Before/After prefer the monotonic readings when both times carry one and Sub
    saturates at the int64 range of a Duration; and the calendar behind time.Parse(RFC3339Nano). *)
From S2P Require Import Prelude Decimal.

Module GoTime.
Import Decimal.
Local Open Scope Z_scope.

(** Nanoseconds since the Unix epoch, and the monotonic reading that time.Now attaches. *)
Record Time := mkTime { wall : Z; mono : option Z }.

#[export] Instance Time_eq_dec : EqDecision Time.
Proof. solve_decision. Defined.

Definition Duration := Z.
Definition Second : Duration := 1000000000.
Definition Minute : Duration := 60 * Second.
Definition Hour : Duration := 60 * Minute.

(** time.Time{}: 1 January of year 1, UTC. *)
Definition zero_time : Time := mkTime (-62135596800 * Second) None.

Definition sat64 (z : Z) : Z := Z.max min_int64 (Z.min max_int64 z).

(** The two readings a comparison of [t] and [u] is made on. *)
Definition readings (t u : Time) : Z * Z :=
  match mono t, mono u with
  | Some a, Some b => (a, b)
  | _, _ => (wall t, wall u)
  end.

Definition Sub (t u : Time) : Duration := let '(a, b) := readings t u in sat64 (a - b).
Definition Before (t u : Time) : bool := let '(a, b) := readings t u in a <? b.
Definition After (t u : Time) : bool := let '(a, b) := readings t u in b <? a.

(** Time.Add: both readings move, and a monotonic reading that would overflow is dropped. *)
Definition Add (t : Time) (d : Duration) : Time :=
  mkTime (wall t + d)
    (match mono t with
     | Some m => if (min_int64 <=? m + d) && (m + d <=? max_int64) then Some (m + d) else None
     | None => None
     end).

(** Time.UTC strips the monotonic reading. *)
Definition UTC (t : Time) : Time := mkTime (wall t) None.

Definition at_ns (ns : Z) : Time := mkTime ns None.

(** time.Unix(sec, 0). *)
Definition Unix (sec : Z) : Time := at_ns (sec * Second).

Lemma Before_After t u : Before t u = After u t.
Proof. unfold Before, After, readings. destruct (mono t), (mono u); reflexivity. Qed.

Lemma Before_irrefl t : Before t t = false.
Proof. unfold Before, readings. destruct (mono t); apply Z.ltb_irrefl. Qed.

Lemma sat64_range z : min_int64 <= sat64 z <= max_int64.
Proof. unfold sat64, min_int64, max_int64. lia. Qed.

Lemma sat64_nonneg z : 0 <= sat64 z <-> 0 <= z.
Proof. unfold sat64, min_int64, max_int64. lia. Qed.

Lemma sat64_lt z b : b <= max_int64 -> min_int64 < b -> (sat64 z < b <-> z < b).
Proof. unfold sat64, min_int64, max_int64. lia. Qed.

(** Without monotonic readings the operations are those of the instants. *)
Lemma Before_wall t u : mono u = None -> Before t u = (wall t <? wall u).
Proof. unfold Before, readings. intros ->. destruct (mono t); reflexivity. Qed.

(** * The calendar *)

Definition leap (y : Z) : bool :=
  (y mod 4 =? 0) && (negb (y mod 100 =? 0) || (y mod 400 =? 0)).

Definition daysIn (m y : Z) : Z :=
  if m =? 2 then (if leap y then 29 else 28)
  else if (m =? 4) || (m =? 6) || (m =? 9) || (m =? 11) then 30 else 31.

(** Days from 1 January 1970 to the civil date, proleptic Gregorian. *)
Definition days_from_civil (y m d : Z) : Z :=
  let y' := if m <=? 2 then y - 1 else y in
  let era := y' / 400 in
  let yoe := y' - era * 400 in
  let mp := (m + 9) mod 12 in
  let doy := (153 * mp + 2) / 5 + d - 1 in
  let doe := yoe * 365 + yoe / 4 - yoe / 100 + doy in
  era * 146097 + doe - 719468.

(** time.Date(y, m, d, h, mi, s, ns, UTC), as nanoseconds since the epoch, for in-range fields. *)
Definition Date (y m d h mi s ns : Z) : Z :=
  (((days_from_civil y m d * 24 + h) * 60 + mi) * 60 + s) * Second + ns.

Definition field (pos len : nat) (s : string) : Z := dec (String.substring pos len s).

Fixpoint digits_of (s : string) : string * string :=
  match s with
  | String c r => if in_range "0" "9" c then let '(d, t) := digits_of r in (String c d, t) else (EmptyString, s)
  | EmptyString => (EmptyString, s)
  end.

(** The fraction of a second, in nanoseconds, of at most nine digits. *)
Definition fraction (ds : string) : Z := dec ds * 10 ^ (9 - Z.of_nat (String.length ds)).

(** "Z" or "+hh:mm" or "-hh:mm", in seconds east of UTC. *)
Definition zone (s : string) : Z :=
  match s with
  | String c r =>
      let off := (field 0 2 r * 60 + field 3 2 r) * 60 in
      if Ascii.eqb c "+" then off else if Ascii.eqb c "-" then - off else 0
  | EmptyString => 0
  end.

(** time.Parse(time.RFC3339Nano, s) for [s] of the shape of an RFC 3339 timestamp whose components
    are in their ranges but for the day of the month, which the month bounds. *)
Definition ParseRFC3339 (s : string) : option Time :=
  let y := field 0 4 s in let m := field 5 2 s in let d := field 8 2 s in
  let h := field 11 2 s in let mi := field 14 2 s in let sec := field 17 2 s in
  let rest := String.substring 19 (String.length s - 19) s in
  let '(ns, z) := match rest with
                  | String c r => if Ascii.eqb c "." then let '(ds, t) := digits_of r in (fraction ds, t) else (0, rest)
                  | EmptyString => (0, rest)
                  end in
  if (1 <=? d) && (d <=? daysIn m y) then Some (at_ns (Date y m d h mi sec ns - zone z * Second)) else None.

Example parse_epoch : ParseRFC3339 "1970-01-01T00:00:00Z" = Some (at_ns 0).
Proof. reflexivity. Qed.
Example parse_offset : ParseRFC3339 "2026-09-26T14:30:05.25+02:00" = Some (at_ns (1790425805 * Second + 250000000)).
Proof. vm_compute. reflexivity. Qed.
Example parse_no_leap_day : ParseRFC3339 "2023-02-29T00:00:00Z" = None.
Proof. reflexivity. Qed.

(** The calendar agrees with the month lengths: a month's first day follows the last of the month
    before it. *)
Lemma days_next_month y m :
  1 <= m < 12 -> days_from_civil y (m + 1) 1 = days_from_civil y m 1 + daysIn m y.
Proof.
  intros Hm. unfold days_from_civil, daysIn.
  destruct (Z.eqb_spec m 2) as [->|N2].
  - simpl. unfold leap. destruct (y mod 4 =? 0) eqn:E4, (y mod 100 =? 0) eqn:E100, (y mod 400 =? 0) eqn:E400; simpl; simp_bool;
      Z.div_mod_to_equations; lia.
  - destruct (Z.leb_spec (m + 1) 2), (Z.leb_spec m 2); try lia;
      destruct (Z.eqb_spec m 4), (Z.eqb_spec m 6), (Z.eqb_spec m 9), (Z.eqb_spec m 11); try lia; simpl;
      Z.div_mod_to_equations; lia.
Qed.

Lemma days_next_year y : days_from_civil (y + 1) 1 1 = days_from_civil y 12 31 + 1.
Proof. unfold days_from_civil. simpl. replace (y + 1 - 1) with y by lia. Z.div_mod_to_equations. lia. Qed.

End GoTime.
