(* ===== verification/PepDecision.v ===== *)
(** The decision value of src/pep/internal/decision/decision.go with the reason sets of
    src/pep/decision.go and the typed cause of src/pep/errors.go: reasons, obligations, FromWire and
    Local, and what a Decision of any origin satisfies ([Decision.consistent]). *)
From stdpp Require Import pretty.
From S2P Require Import Prelude Regex RepoKey GoTime.

Module Decision.
Import GoTime.

(** * Reasons (type Reason string) *)

Definition Reason := string.

Definition AllowedByMembershipDefault : Reason := "allowed_by_membership_default".
Definition AllowedByRepositoryGrant : Reason := "allowed_by_repository_grant".
Definition AllowedByRole : Reason := "allowed_by_role".
Definition AllowedByPlatformAdmin : Reason := "allowed_by_platform_admin".
Definition DelegationInvalid : Reason := "delegation_invalid".
Definition GrantAbsent : Reason := "grant_absent".
Definition GrantExpired : Reason := "grant_expired".
Definition GrantRevoked : Reason := "grant_revoked".
Definition ImpersonationDenied : Reason := "impersonation_denied".
Definition InvalidRequest : Reason := "invalid_request".
Definition MembershipInactive : Reason := "membership_inactive".
Definition NoMembership : Reason := "no_membership".
Definition OrgMismatch : Reason := "org_mismatch".
Definition OrganizationInactive : Reason := "organization_inactive".
Definition PlatformRoleAbsent : Reason := "platform_role_absent".
Definition PrincipalInactive : Reason := "principal_inactive".
Definition RepositoryAllowlistTooLarge : Reason := "repository_allowlist_too_large".
Definition RepositoryNotGranted : Reason := "repository_not_granted".
Definition ResourceMismatch : Reason := "resource_mismatch".
Definition RoleLacksAction : Reason := "role_lacks_action".
Definition RoleScopeMismatch : Reason := "role_scope_mismatch".
Definition RoleUnknown : Reason := "role_unknown".
Definition ServiceAccountInactive : Reason := "service_account_inactive".
Definition UnknownAction : Reason := "unknown_action".
Definition WorkloadActionDenied : Reason := "workload_action_denied".
Definition WorkloadAudienceDenied : Reason := "workload_audience_denied".

Definition Unreachable : Reason := "pdp_unreachable".
Definition Timeout_ : Reason := "pdp_timeout".
Definition Canceled : Reason := "pdp_canceled".
Definition Unavailable : Reason := "pdp_unavailable".
Definition RateLimited : Reason := "pdp_rate_limited".
Definition Refused : Reason := "pdp_refused".
Definition Malformed : Reason := "pdp_malformed".
Definition TooLarge : Reason := "pdp_too_large".
Definition Mismatch : Reason := "pdp_mismatch".
Definition UnknownObligation : Reason := "pdp_unknown_obligation".
Definition LocalInvalid : Reason := "pdp_invalid_request".
Definition NotConfigured : Reason := "pdp_not_configured".
Definition NoDecision : Reason := "pdp_no_decision".

(** Reason.Local. *)
Definition Reason_Local (r : Reason) : bool :=
  (4 <? String.length r) && String.eqb (String.substring 0 4 r) "pdp_".

Definition wireReasons : list Reason :=
  [AllowedByMembershipDefault; AllowedByRepositoryGrant; AllowedByRole;
   DelegationInvalid; GrantAbsent; GrantExpired; GrantRevoked; ImpersonationDenied;
   InvalidRequest; MembershipInactive; NoMembership; OrgMismatch; OrganizationInactive;
   PlatformRoleAbsent; PrincipalInactive; RepositoryAllowlistTooLarge; RepositoryNotGranted; ResourceMismatch;
   RoleLacksAction; RoleScopeMismatch; RoleUnknown; ServiceAccountInactive;
   UnknownAction; WorkloadActionDenied; WorkloadAudienceDenied].

Definition localReasons : list Reason :=
  [Unreachable; Timeout_; Canceled; Unavailable; RateLimited; Refused; Malformed; TooLarge; Mismatch;
   UnknownObligation; LocalInvalid; NotConfigured; NoDecision].

Definition acceptAheadReasons : list Reason := [AllowedByPlatformAdmin].

(** The map allowReasons: a reason outside it reads false. *)
Definition allowReasons (r : Reason) : bool :=
  contains [AllowedByMembershipDefault; AllowedByRepositoryGrant; AllowedByRole; AllowedByPlatformAdmin] r.

(** wireReason: (r, true), or ("", false) as None. *)
Definition wireReason (s : string) : option Reason :=
  if contains wireReasons s then Some s
  else if contains acceptAheadReasons s then Some s
  else None.

(** * Errors *)

(** pep.Error: the closed local reason and the HTTP status, 0 when there is none. *)
Record Error := mkError { e_reason : Reason; e_status : Z }.

(** The error values a Decision can hold. *)
Inductive error := EPep (e : Error) | EInconsistent | ENoDecision | EBadRule.

#[export] Instance Error_eq_dec : EqDecision Error.
Proof. solve_decision. Defined.
#[export] Instance error_eq_dec : EqDecision error.
Proof. solve_decision. Defined.

Definition fail (r : Reason) : Error := mkError r 0.
Definition failStatus (r : Reason) (status : Z) : Error := mkError r status.

(** Error.Reason and Error.Error; None is the nil *Error. *)
Definition Error_Reason (e : option Error) : Reason :=
  match e with None => NoDecision | Some e => e_reason e end.

Definition Error_Error (e : option Error) : string :=
  match e with
  | None => "pep: no decision"
  | Some e =>
      if bool_decide (e_status e <> 0%Z)
      then "pep: denied: " +:+ e_reason e +:+ " (http " +:+ pretty (e_status e) +:+ ")"
      else "pep: denied: " +:+ e_reason e
  end.

(** * Obligations *)

Definition RedactionClass := string.
Definition Assurance := string.
Definition RepositoryScope := string.
Definition ScopeOrganization : RepositoryScope := "organization".

Record Obligations := mkObligations {
  granted : bool;
  tenant : string;
  hasTenant : bool;
  allowlist : list string;
  hasAllowlist : bool;
  scope : RepositoryScope;
  redaction : list RedactionClass;
  assurance : Assurance;
  hasAssurance : bool;
  stepUp : bool;
}.

Definition zero_obligations : Obligations :=
  mkObligations false "" false [] false "" [] "" false false.

#[export] Instance Obligations_eq_dec : EqDecision Obligations.
Proof. solve_decision. Defined.

(** ObligationSpec: a nil Allowlist is None, a non-nil one Some. *)
Record ObligationSpec := mkSpec {
  s_Tenant : string;
  s_Scope : RepositoryScope;
  s_Allowlist : option (list string);
  s_Redaction : list RedactionClass;
  s_Assurance : Assurance;
  s_StepUp : bool;
}.

Definition zero_spec : ObligationSpec := mkSpec "" "" None [] "" false.

Definition NewObligations (s : ObligationSpec) : Obligations :=
  {| granted := true;
     tenant := s_Tenant s; hasTenant := negb (String.eqb (s_Tenant s) "");
     allowlist := default [] (s_Allowlist s); hasAllowlist := bool_decide (is_Some (s_Allowlist s));
     scope := s_Scope s;
     redaction := s_Redaction s;
     assurance := s_Assurance s; hasAssurance := negb (String.eqb (s_Assurance s) "");
     stepUp := s_StepUp s |}.

Definition assuranceRank (a : Assurance) : Z :=
  if String.eqb a "aal1" then 1 else if String.eqb a "aal2" then 2 else if String.eqb a "aal3" then 3 else 0.

Definition TenantScope (o : Obligations) : string * bool := (tenant o, hasTenant o).

Definition TenantAllows (o : Obligations) (org : string) : bool :=
  if negb (granted o) || String.eqb org "" then false
  else negb (hasTenant o) || String.eqb (tenant o) org.

Definition RepositoryRestricted (o : Obligations) : bool := hasAllowlist o.

Definition RepositoryScopeOrganization (o : Obligations) : bool :=
  granted o && String.eqb (scope o) ScopeOrganization.

Definition RepositoryAllowlist (o : Obligations) : list string := allowlist o.

Definition RepositoryAllowed (o : Obligations) (key : string) : bool :=
  if negb (granted o) || negb (RepoKey.ValidSlug key) then false
  else if String.eqb (scope o) ScopeOrganization then true
  else existsb (fun k => String.eqb k "*" || String.eqb k key) (allowlist o).

Definition Redaction (o : Obligations) : list RedactionClass := redaction o.
Definition Redacts (o : Obligations) (c : RedactionClass) : bool := contains (redaction o) c.
Definition MinimumAssurance (o : Obligations) : Assurance * bool := (assurance o, hasAssurance o).

Definition AssuranceSatisfiedBy (o : Obligations) (level : Assurance) : bool :=
  let have := assuranceRank level in
  if negb (granted o) || (have =? 0)%Z then false
  else negb (hasAssurance o) || (assuranceRank (assurance o) <=? have)%Z.

Definition StepUpRequired (o : Obligations) : bool := stepUp o.

(** * Decisions *)

Record Decision := mkDecision {
  allowed : bool;
  reason : Reason;
  err : option error;
  decisionID : string;
  principalID : string;
  organization : string;
  hasOrg : bool;
  policyRevision : Z;
  expiresAt : Time;
  cacheable : bool;
  obligations : Obligations;
}.

#[export] Instance Decision_eq_dec : EqDecision Decision.
Proof. solve_decision. Defined.

Definition zero_decision : Decision :=
  mkDecision false "" None "" "" "" false 0 zero_time false zero_obligations.

Record Wire := mkWire {
  w_Allowed : bool;
  w_Reason : Reason;
  w_DecisionID : string;
  w_PrincipalID : string;
  w_Organization : string;
  w_HasOrg : bool;
  w_PolicyRevision : Z;
  w_ExpiresAt : Time;
  w_Cacheable : bool;
  w_Obligations : Obligations;
}.

Definition allowReason (r : Reason) : bool :=
  String.eqb r AllowedByMembershipDefault || String.eqb r AllowedByRepositoryGrant
  || String.eqb r AllowedByRole || String.eqb r AllowedByPlatformAdmin.

(** Local(r, err): a deny the client made itself. *)
Definition Local (r : Reason) (e : error) : Decision :=
  mkDecision false r (Some e) "" "" "" false 0 zero_time false zero_obligations.

Definition FromWire (w : Wire) : Decision :=
  if negb (Bool.eqb (w_Allowed w) (allowReason (w_Reason w))) then Local Malformed EInconsistent
  else {| allowed := w_Allowed w; reason := w_Reason w; err := None; decisionID := w_DecisionID w;
          principalID := w_PrincipalID w; organization := w_Organization w; hasOrg := w_HasOrg w;
          policyRevision := w_PolicyRevision w; expiresAt := w_ExpiresAt w; cacheable := w_Cacheable w;
          obligations := if w_Allowed w then w_Obligations w else zero_obligations |}.

Definition Allowed (d : Decision) : bool := allowed d.
Definition Decision_Reason (d : Decision) : Reason := if String.eqb (reason d) "" then NoDecision else reason d.
Definition Decision_Local (d : Decision) : bool := Reason_Local (Decision_Reason d).
Definition Decision_Err (d : Decision) : option error := if String.eqb (reason d) "" then Some ENoDecision else err d.
Definition DecisionID (d : Decision) : string := decisionID d.
Definition PrincipalID (d : Decision) : string := principalID d.
Definition OrganizationID (d : Decision) : string * bool := (organization d, hasOrg d).
Definition PolicyRevision (d : Decision) : Z := policyRevision d.
Definition Cacheable (d : Decision) : bool := cacheable d.
Definition ExpiresAt (d : Decision) : Time := expiresAt d.
Definition Decision_Obligations (d : Decision) : Obligations := obligations d.

(** errors.go: deny. *)
Definition deny (e : Error) : Decision := Local (e_reason e) (EPep e).

(** * The reason sets *)

Lemma allowReason_map r : allowReason r = allowReasons r.
Proof.
  unfold allowReason, allowReasons, contains. simpl.
  rewrite orb_false_r, !orb_assoc, !(String.eqb_sym r). reflexivity.
Qed.

(** wireReason reads exactly the closed set and the codes accepted ahead of it, as themselves. *)
Lemma wireReason_spec s r : wireReason s = Some r <-> r = s /\ s ∈ wireReasons ++ acceptAheadReasons.
Proof.
  unfold wireReason. rewrite elem_of_app, <-!contains_spec.
  destruct (contains wireReasons s); [naive_solver|].
  destruct (contains acceptAheadReasons s); [naive_solver|]. split; [discriminate|]. intros (_ & [H|H]); discriminate.
Qed.

(** No PDP reason reads as local, and no reason is empty. *)
Lemma wireReason_not_local s r : wireReason s = Some r -> Reason_Local r = false /\ r <> "".
Proof.
  intros H. apply wireReason_spec in H as [-> H]. apply contains_spec in H.
  assert (Hb : (negb (Reason_Local s) && negb (String.eqb s ""))%bool = true).
  { revert s H. intros s. apply (forallb_contains (fun s => negb (Reason_Local s) && negb (String.eqb s ""))%bool).
    vm_compute. reflexivity. }
  simp_bool. auto.
Qed.

Lemma allowReason_not_local r : allowReason r = true -> Reason_Local r = false /\ r <> "".
Proof.
  rewrite allowReason_map. intros H.
  assert (Hb : (negb (Reason_Local r) && negb (String.eqb r ""))%bool = true).
  { revert H. apply (forallb_contains (fun s => negb (Reason_Local s) && negb (String.eqb s ""))%bool). vm_compute. reflexivity. }
  simp_bool. auto.
Qed.

Lemma localReasons_local r : r ∈ localReasons -> Reason_Local r = true.
Proof.
  intros H. apply contains_spec in H. revert H. apply (forallb_contains Reason_Local). vm_compute. reflexivity.
Qed.

(** * What every Decision satisfies *)

(** An allow carries an allow reason and granted obligations and no error; a deny carries no
    obligations; a local deny carries nothing of a PDP verdict and names its cause. *)
Definition consistent (d : Decision) : Prop :=
  (Allowed d = true -> allowReason (reason d) = true /\ granted (obligations d) = true /\ Decision_Err d = None) /\
  (Allowed d = false -> obligations d = zero_obligations) /\
  (Decision_Local d = true -> Allowed d = false /\ Cacheable d = false /\ is_Some (Decision_Err d)).

Lemma deny_denies e : Allowed (deny e) = false.
Proof. reflexivity. Qed.

Lemma deny_local e : Reason_Local (e_reason e) = true -> Decision_Local (deny e) = true.
Proof.
  unfold Decision_Local, Decision_Reason, deny. simpl. intros H. destruct (String.eqb_spec (e_reason e) "") as [E|]; [|exact H].
  rewrite E in H. discriminate.
Qed.

Lemma Local_consistent r e : consistent (Local r e).
Proof.
  repeat split; try discriminate; try reflexivity. unfold Decision_Err. simpl. destruct (String.eqb r ""); eexists; reflexivity.
Qed.

Lemma zero_consistent : consistent zero_decision.
Proof. repeat split; try discriminate. eexists. reflexivity. Qed.

Lemma FromWire_allowed w :
  Allowed (FromWire w) = true ->
  w_Allowed w = true /\ allowReason (w_Reason w) = true /\ obligations (FromWire w) = w_Obligations w.
Proof.
  unfold FromWire. destruct (w_Allowed w) eqn:Ea, (allowReason (w_Reason w)) eqn:Er; simpl; try discriminate; auto.
Qed.

Lemma FromWire_consistent w :
  (w_Allowed w = true -> granted (w_Obligations w) = true) -> Reason_Local (w_Reason w) = false -> w_Reason w <> "" ->
  consistent (FromWire w).
Proof.
  intros Hg Hl Hne. unfold FromWire.
  destruct (negb _) eqn:E; [apply Local_consistent|]. simp_bool. apply eqb_prop in E.
  unfold consistent, Decision_Local, Decision_Reason, Decision_Err. simpl.
  destruct (String.eqb_spec (w_Reason w) "") as [E0|N0].
  - contradiction.
  - rewrite Hl. destruct (w_Allowed w); repeat split; auto; discriminate.
Qed.

(** * What obligations permit *)

Lemma zero_obligations_grant_nothing key org level :
  RepositoryAllowed zero_obligations key = false /\ TenantAllows zero_obligations org = false /\
  AssuranceSatisfiedBy zero_obligations level = false.
Proof. auto. Qed.

Lemma TenantAllows_spec o org :
  TenantAllows o org = true <-> granted o = true /\ org <> "" /\ (hasTenant o = true -> tenant o = org).
Proof.
  unfold TenantAllows. destruct (granted o); simpl; [|naive_solver].
  destruct (String.eqb_spec org "") as [->|N]; [naive_solver|].
  destruct (hasTenant o); simpl; [rewrite String.eqb_eq|]; naive_solver.
Qed.

(** A repository is allowed only for a canonical path, and only by the organization scope, by "*" or
    by its own name on the list: an obligation set with neither member allows none. *)
Lemma RepositoryAllowed_spec o key :
  RepositoryAllowed o key = true <->
  granted o = true /\ RepoKey.ValidSlug key = true /\
  (scope o = ScopeOrganization \/ "*" ∈ allowlist o \/ key ∈ allowlist o).
Proof.
  unfold RepositoryAllowed. destruct (granted o); simpl; [|naive_solver].
  destruct (RepoKey.ValidSlug key); simpl; [|naive_solver].
  destruct (String.eqb_spec (scope o) ScopeOrganization) as [E|N]; [naive_solver|].
  rewrite existsb_exists. setoid_rewrite orb_true_iff. setoid_rewrite String.eqb_eq.
  setoid_rewrite <-list_elem_of_In. naive_solver.
Qed.

(** A higher assurance level satisfies whatever a lower one does. *)
Lemma AssuranceSatisfiedBy_mono o a b :
  (assuranceRank a <= assuranceRank b)%Z -> AssuranceSatisfiedBy o a = true -> AssuranceSatisfiedBy o b = true.
Proof.
  unfold AssuranceSatisfiedBy. intros Hab. destruct (granted o); simpl; [|discriminate].
  destruct (Z.eqb_spec (assuranceRank a) 0) as [|Na]; simpl; [discriminate|].
  assert (Hr : (0 <= assuranceRank a)%Z) by (unfold assuranceRank; repeat case_match; lia).
  destruct (Z.eqb_spec (assuranceRank b) 0) as [|Nb]; simpl; [lia|].
  destruct (hasAssurance o); simpl; [|auto]. intros H. simp_bool. apply Z.leb_le. lia.
Qed.

End Decision.
