(* ===== verification/PepRequest.v ===== *)
(** The request side of src/pep/request.go: the patterns a request must match, valid, the request id
    mint, the wire documents and their bodies. The random bytes of crypto/rand are an argument. *)
From S2P Require Import Prelude Regex RepoKey Utf8 Json JsonEncode.

Module Request.
Import Json Encode.

Definition MaxBatch : nat := 100.

Definition principalReferenceRE : re := rep (cls "A-Za-z0-9._~-") 16 1000.
Definition actionPattern : re :=
  seqs [cls "a-z"; star (cls "a-z0-9_"); plus (seqs [lit "."; cls "a-z"; star (cls "a-z0-9_")])].
Definition requestIDPattern : re := seqs [lit "req_"; rep (cls "A-Za-z0-9_-") 26 26].
Definition otherKeyRE : re := seqs [cls "a-z0-9"; rep (cls "a-z0-9._:-") 0 255].
Definition requestIDAlphabet : string := "ABCDEFGHIJKLMNOPQRSTUVWXYZabcdefghijklmnopqrstuvwxyz0123456789_-".

Definition resourceTypes : list string :=
  ["organization"; "repository"; "membership"; "service_account"; "grant"; "credential"; "session";
   "signing_key"; "subscription"; "platform"].
Definition clientServices : list string :=
  ["dev-health-ops-api"; "dev-health-ops-billing-edge"; "dev-health-web"; "dev-health-acr-api";
   "dev-health-acr-mcp"; "dev-health-query-api"; "dev-health-auth-service"].

Record Request := mkRequest {
  PrincipalReference : string;
  Action : string;
  ResourceType : string;
  ResourceKey : string;
  OrganizationID : string;
  RequestID : string;
}.

#[export] Instance Request_eq_dec : EqDecision Request.
Proof. solve_decision. Defined.

Definition valid (r : Request) : bool :=
  if negb (matchb principalReferenceRE (PrincipalReference r)) || negb (matchb actionPattern (Action r))
     || negb (contains resourceTypes (ResourceType r)) then false
  else if (if String.eqb (ResourceType r) "repository" then negb (RepoKey.Valid (ResourceKey r))
           else negb (matchb otherKeyRE (ResourceKey r))) then false
  else String.eqb (RequestID r) "" || matchb requestIDPattern (RequestID r).

(** mintRequestID over the 26 bytes [raw] that rand.Read filled: requestIDAlphabet[b&63]. *)
Definition alphabet_at (b : ascii) : ascii :=
  default "A"%char (chars requestIDAlphabet !! N.to_nat (N.land (code b) 63)).

Definition mintRequestID (raw : list ascii) : string :=
  "req_" +:+ of_chars (map alphabet_at raw).

Record wireResource := mkWireResource { wr_Type : string; wr_OrganizationID : string; wr_Key : string }.
Record wireContext := mkWireContext { wc_RequestID : string; wc_ClientService : string }.
Record wireRequest := mkWireRequest {
  wq_SchemaVersion : string;
  wq_PrincipalReference : string;
  wq_Action : string;
  wq_Resource : wireResource;
  wq_Context : wireContext;
}.

(** Client.wire: [service] is the client's, [raw] the bytes a mint would draw. *)
Definition wire (service : string) (raw : list ascii) (r : Request) : wireRequest :=
  let id := if String.eqb (RequestID r) "" then mintRequestID raw else RequestID r in
  {| wq_SchemaVersion := "authorization_request.v1";
     wq_PrincipalReference := PrincipalReference r;
     wq_Action := Action r;
     wq_Resource := mkWireResource (ResourceType r) (OrganizationID r) (ResourceKey r);
     wq_Context := mkWireContext id service |}.

(** The struct tags: organization_id is omitted when empty. *)
Definition resource_json (r : wireResource) : json :=
  JObj ([("type", JStr (wr_Type r))] ++
        (if String.eqb (wr_OrganizationID r) "" then [] else [("organization_id", JStr (wr_OrganizationID r))]) ++
        [("key", JStr (wr_Key r))]).
Definition request_json (w : wireRequest) : json :=
  JObj [("schema_version", JStr (wq_SchemaVersion w));
        ("principal_reference", JStr (wq_PrincipalReference w));
        ("action", JStr (wq_Action w));
        ("resource", resource_json (wq_Resource w));
        ("context", JObj [("request_id", JStr (wc_RequestID (wq_Context w)));
                          ("client_service", JStr (wc_ClientService (wq_Context w)))])].

Definition singleBody (service : string) (raw : list ascii) (r : Request) : string :=
  Marshal (request_json (wire service raw r)).


(** * Requests are ASCII but for the organization *)

Definition is_ascii (c : ascii) : bool := (code c <? 128)%N.

Lemma ascii_clean s : Forall (fun c => is_ascii c = true) (chars s) -> clean_string s = s.
Proof.
  intros H. apply clean_string_valid. apply ascii_valid. eapply Forall_impl; [exact H|].
  intros c Hc. apply N.ltb_lt. exact Hc.
Qed.

Lemma matchb_clean r s : re_within is_ascii r = true -> matchb r s = true -> clean_string s = s.
Proof. intros Hr Hs. apply ascii_clean. eapply matches_within; [exact Hr|]. apply matchb_spec. exact Hs. Qed.

Lemma contains_clean l s :
  forallb (fun x => String.eqb (clean_string x) x) l = true -> contains l s = true -> clean_string s = s.
Proof. intros Hl Hs. apply String.eqb_eq. exact (forallb_contains (fun x => String.eqb (clean_string x) x) l s Hl Hs). Qed.

Lemma valid_inv r :
  valid r = true <->
  matchb principalReferenceRE (PrincipalReference r) = true /\ matchb actionPattern (Action r) = true /\
  contains resourceTypes (ResourceType r) = true /\
  (if String.eqb (ResourceType r) "repository" then RepoKey.Valid (ResourceKey r) else matchb otherKeyRE (ResourceKey r)) = true /\
  (RequestID r = "" \/ matchb requestIDPattern (RequestID r) = true).
Proof.
  unfold valid. rewrite <-String.eqb_eq.
  destruct (matchb principalReferenceRE (PrincipalReference r)); cbn [negb orb]; [|naive_solver].
  destruct (matchb actionPattern (Action r)); cbn [negb orb]; [|naive_solver].
  destruct (contains resourceTypes (ResourceType r)); cbn [negb orb]; [|naive_solver].
  destruct (String.eqb (ResourceType r) "repository").
  - destruct (RepoKey.Valid (ResourceKey r)); cbn [negb]; rewrite ?orb_true_iff; naive_solver.
  - destruct (matchb otherKeyRE (ResourceKey r)); cbn [negb]; rewrite ?orb_true_iff; naive_solver.
Qed.

(** * The mint *)

Lemma alphabet_class b : in_class (cls_ranges "A-Za-z0-9_-" 11) (alphabet_at b) = true.
Proof.
  assert (H : forallb (fun n => in_class (cls_ranges "A-Za-z0-9_-" 11) (alphabet_at (chr (N.of_nat n)))) (seq 0 256) = true)
    by (vm_compute; reflexivity).
  rewrite forallb_forall in H. specialize (H (N.to_nat (code b))). rewrite N2Nat.id, chr_code in H. apply H.
  apply in_seq. pose proof (code_lt b). lia.
Qed.

Lemma mint_matches raw : length raw = 26 -> matchb requestIDPattern (mintRequestID raw) = true.
Proof.
  intros Hlen. apply matchb_spec. unfold requestIDPattern, seqs, mintRequestID, rep. constructor.
  - apply matches_lit. reflexivity.
  - apply matches_rep_cls. rewrite <-(length_chars (of_chars _)), chars_of_chars, length_map, Hlen. split; [|lia].
    apply Forall_forall. intros c Hc. apply list_elem_of_In, in_map_iff in Hc as (b & <- & _). apply alphabet_class.
Qed.

(** The id a wire request carries always has the contract's form. *)
Lemma wire_request_id service raw r :
  valid r = true -> length raw = 26 -> matchb requestIDPattern (wc_RequestID (wq_Context (wire service raw r))) = true.
Proof.
  intros Hv Hlen. apply valid_inv in Hv as (_ & _ & _ & _ & Hid). unfold wire. simpl.
  destruct (String.eqb_spec (RequestID r) "") as [_|N]; [apply mint_matches; exact Hlen|]. destruct Hid; congruence.
Qed.

(** * The bodies *)

Lemma key_clean r :
  (if String.eqb (ResourceType r) "repository" then RepoKey.Valid (ResourceKey r) else matchb otherKeyRE (ResourceKey r)) = true ->
  clean_string (ResourceKey r) = ResourceKey r.
Proof.
  destruct (String.eqb (ResourceType r) "repository").
  - unfold RepoKey.Valid. intros H. apply andb_true_iff in H as [_ H]. revert H. apply matchb_clean. vm_compute. reflexivity.
  - apply matchb_clean. vm_compute. reflexivity.
Qed.

Lemma request_cleaned service raw r :
  valid r = true -> ValidString (OrganizationID r) = true -> contains clientServices service = true -> length raw = 26 ->
  cleaned (request_json (wire service raw r)) = request_json (wire service raw r).
Proof.
  intros Hv Hu Hs Hlen. pose proof (wire_request_id service raw r Hv Hlen) as Hid.
  apply valid_inv in Hv as (Hp & Ha & Ht & Hk & _).
  unfold wire in Hid. simpl in Hid. unfold request_json, resource_json, wire. cbn -[clean_string mintRequestID].
  pose proof (matchb_clean principalReferenceRE _ ltac:(vm_compute; reflexivity) Hp) as Cp.
  pose proof (matchb_clean actionPattern _ ltac:(vm_compute; reflexivity) Ha) as Ca.
  pose proof (matchb_clean requestIDPattern _ ltac:(vm_compute; reflexivity) Hid) as Ci.
  pose proof (contains_clean clientServices service ltac:(vm_compute; reflexivity) Hs) as Cs.
  pose proof (contains_clean resourceTypes _ ltac:(vm_compute; reflexivity) Ht) as Ct.
  pose proof (key_clean r Hk) as Ck. pose proof (clean_string_valid _ Hu) as Co.
  rewrite Cp, Ca, Ci, Cs.
  destruct (String.eqb (OrganizationID r) ""); cbn -[clean_string mintRequestID]; rewrite Ct, Ck, ?Co; reflexivity.
Qed.

Lemma request_no_numbers w : no_numbers (request_json w) = true.
Proof. unfold request_json, resource_json. simpl. destruct (String.eqb _ ""); reflexivity. Qed.

Lemma request_levels w : (levels (request_json w) <= 2)%N.
Proof. unfold request_json, resource_json. simpl. destruct (String.eqb _ ""); vm_compute; discriminate. Qed.


(** What a valid request puts on the wire reads back as its document. *)
Lemma singleBody_roundtrip fl service raw r :
  valid r = true -> ValidString (OrganizationID r) = true -> contains clientServices service = true -> length raw = 26 ->
  parse_document fl (singleBody service raw r) = Some (request_json (wire service raw r)).
Proof.
  intros. unfold singleBody. rewrite parse_Marshal.
  2: apply request_no_numbers.
  2: { apply N.leb_le. etransitivity; [apply request_levels | vm_compute; discriminate]. }
  rewrite request_cleaned by assumption. reflexivity.
Qed.


(** * Properties *)



End Request.
