(* ===== verification/PepDecider.v ===== *)
(** The Decider interface of src/pep/decision.go, and what an implementation promises to the code
    that calls one: every decision is consistent, and a batch answers every request. The argument
    [K] is what one call meets outside the program (context, network, clock). *)
From S2P Require Import Prelude PepDecision PepRequest.

Module Decider.
Import Decision Request.

Class Decider (A K : Type) := {
  Decide : A -> K -> Request -> Decision;
  DecideBatch : A -> K -> list Request -> list Decision;
}.

Class DeciderLaws (A K : Type) `{!Decider A K} := {
  Decide_consistent a k req : consistent (Decide a k req);
  DecideBatch_length a k reqs : length (DecideBatch a k reqs) = length reqs;
  DecideBatch_consistent a k reqs : Forall consistent (DecideBatch a k reqs);
}.

End Decider.
