(* ===== verification/PepStrict.v ===== *)
(** The strict readers of src/pep/strict.go: the duplicate-refusing document walk, the integer
    token of a revision and the timestamp of expires_at. *)
From S2P Require Import Prelude Regex Json JsonDecoder Decimal GoTime.

Module Strict.
Import Json Decoder GoTime Decimal.

Definition maxDepth : nat := 16.

(** walk, with the depth test depth > maxDepth and the map of names seen. *)
Definition too_deep (depth : nat) : bool := maxDepth <? depth.
Definition walk (fuel : nat) (d : decoder) (depth : nat) : wres :=
  Decoder.walk too_deep contains true fuel d depth.

(** rejectDuplicates: true where it returns nil. The fuel covers every body
    ([rejectDuplicates_total]). *)
Definition rejectDuplicates (body : string) : bool :=
  match walk (2 * String.length body + 2) (NewDecoder body) 0 with
  | WDone d => match Token d with TokEOF => true | _ => false end
  | _ => false
  end.

Definition integerToken : re := alts [lit "0"; seqs [cls "1-9"; star (cls "0-9")]].

(** parseRevision: strconv.ParseInt(raw, 10, 64) of an integer token, as a uint64. *)
Definition parseRevision (raw : string) : option Z :=
  if negb (matchb integerToken raw) then None
  else let n := dec raw in
       if (n <=? max_int64)%Z then Some n else None.

Definition d2 : re := rep (cls "0-9") 2 2.
Definition hour_re : re := alts [seqs [cls "01"; cls "0-9"]; seqs [lit "2"; cls "0-3"]].
Definition minute_re : re := seqs [cls "0-5"; cls "0-9"].

Definition expiresAtPattern : re :=
  seqs [ alts [ seqs [rep (cls "0-9") 3 3; cls "1-9"];
                seqs [rep (cls "0-9") 2 2; cls "1-9"; cls "0-9"];
                seqs [cls "0-9"; cls "1-9"; rep (cls "0-9") 2 2];
                seqs [cls "1-9"; rep (cls "0-9") 3 3] ];
         lit "-";
         alts [seqs [lit "0"; cls "1-9"]; seqs [lit "1"; cls "0-2"]];
         lit "-";
         alts [seqs [lit "0"; cls "1-9"]; seqs [cls "12"; cls "0-9"]; seqs [lit "3"; cls "01"]];
         lit "T"; hour_re; lit ":"; minute_re; lit ":"; minute_re;
         opt (seqs [lit "."; rep (cls "0-9") 1 6]);
         alts [lit "Z";
               seqs [cls "+-"; alts [seqs [lit "0"; cls "0-9"]; seqs [lit "1"; cls "0-9"]; seqs [lit "2"; cls "0-3"]];
                     lit ":"; minute_re]] ].

Definition minInstant : Time := at_ns (Date 1 1 1 0 0 0 0).
Definition maxInstant : Time := at_ns (Date 9999 12 31 23 59 59 999999999).

Definition parseExpiry (s : string) : option Time :=
  if negb (matchb expiresAtPattern s) then None
  else match ParseRFC3339 s with
       | None => None
       | Some t =>
           let u := UTC t in
           if Before u minInstant || After u maxInstant then None else Some (UTC t)
       end.

(** * What a strict document is *)

(** No object of the value repeats a member name, at any depth. *)
Fixpoint distinct_names (v : json) : Prop :=
  match v with
  | JArr l => Forall id (map distinct_names l)
  | JObj m => NoDup m.*1 /\ Forall id (map (fun kv => distinct_names kv.2) m)
  | _ => True
  end.

(** The number of containers around the deepest value. *)
Fixpoint nesting (v : json) : nat :=
  match v with
  | JArr l => foldr (fun x acc => Nat.max (S (nesting x)) acc) 0 l
  | JObj m => foldr (fun kv acc => Nat.max (S (nesting kv.2)) acc) 0 m
  | _ => 0
  end.

Definition strict_document (body : string) (v : json) : Prop :=
  text true body v /\ distinct_names v /\ nesting v <= maxDepth.

Lemma names_ok_NoDup seen l : names_ok contains seen l = true <-> NoDup l /\ (forall k, k ∈ l -> k ∉ seen).
Proof.
  revert seen. induction l as [|k l IH]; intros seen; simpl.
  - split; [intros _; split; [constructor | intros k Hk; inversion Hk] | reflexivity].
  - rewrite andb_true_iff, negb_true_iff, contains_false, IH, NoDup_cons.
    setoid_rewrite elem_of_cons. split.
    + intros (Hk & Hn & Hs). repeat split; auto; [intros Hin; apply (Hs k Hin); left; reflexivity|].
      intros x [->|Hx]; [exact Hk|]. intros Hx'. apply (Hs x Hx). right. exact Hx'.
    + intros ([Hk Hn] & Hs). split; [apply Hs; left; reflexivity|]. split; [exact Hn|].
      intros x Hx [->|Hx']; [contradiction|]. apply (Hs x); [right; exact Hx | exact Hx'].
Qed.

(** The walk's own test is the declarative one. *)
Lemma strictb_spec v : forall depth, strictb too_deep contains depth v = true <-> distinct_names v /\ nesting v + depth <= maxDepth.
Proof.
  assert (Hd : forall depth, negb (too_deep depth) = true <-> depth <= maxDepth).
  { intros depth. unfold too_deep. rewrite negb_true_iff, Nat.ltb_ge. reflexivity. }
  induction v using json_deep_ind; intros depth; simpl;
    try (rewrite andb_true_r, Hd; intuition lia).
  - rewrite andb_true_iff, Hd. clear Hd. induction H as [|x l Hx Hl IH]; simpl;
      [split; [intros [? _]; split; [constructor | lia] | intros [_ ?]; split; [lia | reflexivity]]|].
    rewrite andb_true_iff, Hx, Forall_cons. unfold id at 1. split.
    + intros (H1 & [H2 H3] & H4). destruct (proj1 IH (conj H1 H4)). split; [auto | lia].
    + intros [[H1 H2] H3]. destruct (proj2 IH ltac:(split; [exact H2 | lia])) as [_ Hr]. repeat split; auto; lia.
  - rewrite !andb_true_iff, Hd, names_ok_NoDup. clear Hd. change (map fst m) with m.*1.
    assert (He : (forall k, k ∈ m.*1 -> k ∉ []) <-> True) by (split; [auto|]; intros _ k _; apply not_elem_of_nil).
    rewrite He. clear He. generalize (NoDup m.*1). intros P.
    induction H as [|x l Hx Hl IH]; simpl;
      [split; [intros (? & [? _] & _); repeat split; [assumption | constructor | lia] | intros [[? _] ?]; repeat split; try assumption; lia]|].
    rewrite andb_true_iff, Hx, Forall_cons. unfold id at 1. split.
    + intros (H1 & [H2 _] & [H3 H3'] & H4). destruct (proj1 IH (conj H1 (conj (conj H2 I) H4))) as [[_ Hf] Hn]. split; [auto | lia].
    + intros [[H1 [H2 H2']] H3]. destruct (proj2 IH ltac:(split; [auto | lia])) as (_ & _ & Hr). repeat split; auto; lia.
Qed.

Lemma rejectDuplicates_iff body : rejectDuplicates body = true <-> exists v, strict_document body v.
Proof.
  change (rejectDuplicates body) with (walk_document too_deep contains true body 0). rewrite walk_document_iff.
  unfold strict_document. setoid_rewrite strictb_spec. setoid_rewrite Nat.add_0_r. reflexivity.
Qed.

(** A strict document is far from too deep for encoding/json. *)
Lemma levels_nesting v : (levels v <= N.of_nat (S (nesting v)))%N.
Proof.
  induction v using json_deep_ind; try (simpl; lia); cbn [levels nesting].
  - assert (foldr (fun x acc => N.max (levels x) acc) 0%N l <= N.of_nat (foldr (fun x acc => Nat.max (S (nesting x)) acc) 0%nat l))%N; [|lia].
    induction H as [|x l Hx _ IH]; cbn [foldr]; lia.
  - assert (foldr (fun kv acc => N.max (levels kv.2) acc) 0%N m <= N.of_nat (foldr (fun kv acc => Nat.max (S (nesting kv.2)) acc) 0%nat m))%N; [|lia].
    induction H as [|x l Hx _ IH]; cbn [foldr]; lia.
Qed.

Lemma strict_document_shallow body v : strict_document body v -> document true body v.
Proof.
  intros (Ht & _ & Hn). split; [exact Ht|]. apply N.leb_le. pose proof (levels_nesting v) as Hl. unfold maxDepth in Hn. unfold maxNestingDepth. lia.
Qed.

(** The loops end within the fuel whatever the body is. *)
Lemma rejectDuplicates_total body : walk (2 * String.length body + 2) (NewDecoder body) 0 <> WFuel.
Proof. apply walk_document_fuel. Qed.

(** * Revisions *)

Lemma class_1_9 c : in_class (cls_ranges "1-9" 3) c = in_range "1" "9" c.
Proof. unfold in_class. simpl. apply orb_false_r. Qed.
Lemma class_0_9 c : in_class (cls_ranges "0-9" 3) c = is_digit c.
Proof. unfold in_class. simpl. apply orb_false_r. Qed.

Lemma integerToken_canonical raw : matchb integerToken raw = true <-> canonical raw.
Proof.
  rewrite matchb_spec. unfold integerToken, alts, seqs, star. rewrite matches_alt, matches_lit. unfold canonical.
  apply or_iff_compat_l. rewrite matches_seq. split.
  - intros (u & v & -> & Hu & Hv). apply matches_cls in Hu as (c & -> & Hc). rewrite class_1_9 in Hc.
    apply matches_rep_cls in Hv as (Hv & _ & _). exists c, v. rewrite str_app_cons. repeat split; auto.
    eapply Forall_impl; [exact Hv|]. intros d Hd. rewrite <-class_0_9. exact Hd.
  - intros (c & r & -> & Hc & Hr). exists (String c EmptyString), r. split; [reflexivity|]. split.
    + constructor. simpl String.length. rewrite class_1_9. exact Hc.
    + apply matches_rep_cls. split; [|split; [lia | exact I]]. eapply Forall_impl; [exact Hr|].
      intros d Hd. cbv beta in Hd |- *. change (in_class (cls_ranges "0-9" 3) d = true). rewrite class_0_9. exact Hd.
Qed.

Lemma parseRevision_iff raw n :
  parseRevision raw = Some n <-> (0 <= n <= max_int64)%Z /\ raw = pretty (Z.to_N n).
Proof.
  unfold parseRevision. destruct (matchb integerToken raw) eqn:E; cbn [negb].
  - apply integerToken_canonical in E. pose proof (canonical_dec_nonneg raw E) as Hnn.
    destruct (Z.leb_spec (dec raw) max_int64) as [Hle|Hgt].
    + split; [intros [= <-]; split; [lia | symmetry; apply pretty_canonical; exact E]|].
      intros [Hn ->]. rewrite dec_pretty. f_equal. lia.
    + split; [discriminate|]. intros [Hn ->]. rewrite dec_pretty in Hgt. lia.
  - split; [discriminate|]. intros [_ ->]. rewrite (proj2 (integerToken_canonical _)) in E by apply pretty_is_canonical. discriminate.
Qed.

(** * Expiry *)

Lemma parseExpiry_range s t :
  parseExpiry s = Some t -> mono t = None /\ (wall minInstant <= wall t <= wall maxInstant)%Z.
Proof.
  unfold parseExpiry. destruct (negb _); [discriminate|]. destruct (ParseRFC3339 s) as [u|]; [|discriminate].
  destruct (_ || _) eqn:E; [discriminate|]. intros [= <-]. apply orb_false_iff in E as [E1 E2].
  unfold Before, After, readings, UTC in *. simpl in *. simp_bool. split; [reflexivity|]. simpl. lia.
Qed.

(** * Properties *)

(** C11: rejectDuplicates passes exactly the bodies that are one JSON document, with nothing but space
    around it, in which no object repeats a member name at any depth and no value is more than 16
    containers deep; and its walk always ends, within two steps per byte of the body. *)
Theorem rejectDuplicates_decides body :
  (rejectDuplicates body = true <-> exists v, text true body v /\ distinct_names v /\ nesting v <= maxDepth) /\
  walk (2 * String.length body + 2) (NewDecoder body) 0 <> WFuel.
Proof. split; [apply rejectDuplicates_iff | apply rejectDuplicates_total]. Qed.

(** parseRevision reads exactly the canonical decimal spellings of the int64 range that is not
    negative: a token is accepted only when printing its value gives the token back, so no fraction,
    exponent, sign, leading zero or overflow is, and no two tokens give one revision. *)
Theorem parseRevision_exact raw n :
  (parseRevision raw = Some n <-> (0 <= n <= max_int64)%Z /\ raw = pretty (Z.to_N n)) /\
  forall raw', parseRevision raw = Some n -> parseRevision raw' = Some n -> raw = raw'.
Proof. split; [apply parseRevision_iff|]. intros raw' H1 H2. apply parseRevision_iff in H1 as [_ ->], H2 as [_ ->]. reflexivity. Qed.

Example expiry_offset :
  parseExpiry "0001-01-01T00:30:00+01:00" = None /\
  parseExpiry "9999-12-31T23:59:59.999999Z" = Some (at_ns (Date 9999 12 31 23 59 59 999999000)) /\
  parseExpiry "2026-02-29T00:00:00Z" = None /\ parseExpiry "2026-01-01T00:00:00.1234567Z" = None.
Proof. vm_compute. auto. Qed.

Example revision_forms :
  parseRevision "42" = Some 42%Z /\ parseRevision "42.0" = None /\ parseRevision "042" = None /\
  parseRevision "9223372036854775808" = None.
Proof. vm_compute. auto. Qed.

End Strict.
