(* ===== verification/PepWire.v ===== *)
(** The response reader of src/pep/wire.go: members of a strict JSON object, decodeDecision,
    decodeObligations, parseDecision and parseBatch, with what each accepts said declaratively:
    [decision_doc] and [obligations_doc] say what a document that is read as a PDP verdict holds.

    A json.RawMessage is the value it holds, and a missing member (a nil RawMessage) is None. The
    white space bytes.TrimSpace removes is outside the value. An integer token is the text of a
    number; no other value has that form. *)
From S2P Require Import Prelude Regex RepoKey Json JsonDecoder Decimal GoTime PepDecision PepRequest PepStrict.

Module Wire.
Import Json GoTime Decision Request Strict.

Definition decisionSchema : string := "authorization_decision.v1".
Definition batchSchema : string := "authorization_batch_response.v1".
Definition maxRepositoryAllowlist : nat := 256.

Definition decisionIDPattern : re := seqs [lit "dec_"; rep (cls "A-Za-z0-9_-") 26 26].
Definition principalIDPattern : re := seqs [lit "prn_"; Regex.plus (cls "A-Za-z0-9_-")].

Definition obligationNames : list string :=
  ["tenant_scope"; "repository_allowlist"; "repository_scope"; "redaction"; "minimum_assurance"; "step_up"].
Definition redactionClasses : list string := ["personal_identifiers"; "contact_details"; "free_text"].
Definition assuranceLevels : list string := ["aal1"; "aal2"; "aal3"].

(** type object map[string]json.RawMessage: a repeated member keeps its last value. *)
Definition object := gmap string json.
Definition object_of (m : list (string * json)) : object := foldl (fun o kv => <[kv.1 := kv.2]> o) ∅ m.

Definition asObject (raw : option json) : option object :=
  match raw with Some (JObj m) => Some (object_of m) | _ => None end.
Definition asArray (raw : option json) : option (list json) :=
  match raw with Some (JArr a) => Some a | _ => None end.
Definition asString (raw : option json) : option string :=
  match raw with Some (JStr s) => Some s | _ => None end.
Definition asBool (raw : option json) : option bool :=
  match raw with Some (JBool b) => Some b | _ => None end.
(** parseRevision(bytes.TrimSpace(raw)). *)
Definition asRevision (raw : option json) : option Z :=
  match raw with Some (JNum t) => parseRevision t | _ => None end.
(** asObject of a response body, which a strict walk has passed over. *)
Definition bodyObject (body : string) : option object := asObject (parse_document false body).

Definition keysWithin (o : object) (required optional : list string) : bool :=
  if negb (forallb (fun k => bool_decide (is_Some (o !! k))) required) then false
  else forallb (fun k => contains required k || contains optional k) (map_to_list o).*1.

(** ** Obligations *)

(** The loop over repository_allowlist. *)
Fixpoint allow_items (items : list json) (acc : list string) : result Error (list string) :=
  match items with
  | [] => Ok acc
  | item :: rest =>
      match asString (Some item) with
      | None => Err (fail Malformed)
      | Some s =>
          if negb (RepoKey.Valid s) || contains acc s then Err (fail Malformed)
          else allow_items rest (acc ++ [s])
      end
  end.

(** The loop over redaction. *)
Fixpoint redaction_items (items : list json) (seen : list string) : result Error (list string) :=
  match items with
  | [] => Ok seen
  | item :: rest =>
      match asString (Some item) with
      | None => Err (fail Malformed)
      | Some s =>
          if contains seen s then Err (fail Malformed)
          else if negb (contains redactionClasses s) then Err (fail UnknownObligation)
          else redaction_items rest (seen ++ [s])
      end
  end.

Definition decode_tenant (o : object) : result Error string :=
  match o !! "tenant_scope" with
  | None => Ok ""
  | Some v => match asString (Some v) with
              | Some s => if String.eqb s "" then Err (fail Malformed) else Ok s
              | None => Err (fail Malformed)
              end
  end.

Definition decode_scope (o : object) : result Error RepositoryScope :=
  match o !! "repository_scope" with
  | None => Ok ""
  | Some v =>
      match o !! "repository_allowlist" with
      | Some _ => Err (fail Malformed)
      | None => match asString (Some v) with
                | None => Err (fail Malformed)
                | Some s => if String.eqb s ScopeOrganization then Ok ScopeOrganization
                            else Err (fail UnknownObligation)
                end
      end
  end.

Definition decode_allowlist (o : object) : result Error (option (list string)) :=
  match o !! "repository_allowlist" with
  | None => Ok None
  | Some v =>
      match asArray (Some v) with
      | None => Err (fail Malformed)
      | Some items =>
          if maxRepositoryAllowlist <? length items then Err (fail Malformed)
          else try! l := allow_items items [] in Ok (Some l)
      end
  end.

Definition decode_redaction (o : object) : result Error (list RedactionClass) :=
  match o !! "redaction" with
  | None => Ok []
  | Some v => match asArray (Some v) with
              | None => Err (fail Malformed)
              | Some items => redaction_items items []
              end
  end.

Definition decode_assurance (o : object) : result Error Assurance :=
  match o !! "minimum_assurance" with
  | None => Ok ""
  | Some v => match asString (Some v) with
              | None => Err (fail Malformed)
              | Some s => if contains assuranceLevels s then Ok s else Err (fail UnknownObligation)
              end
  end.

Definition decode_step_up (o : object) : result Error bool :=
  match o !! "step_up" with
  | None => Ok false
  | Some v => match asBool (Some v) with Some b => Ok b | None => Err (fail Malformed) end
  end.

Definition decodeObligations (raw : json) : result Error Obligations :=
  match asObject (Some raw) with
  | None => Err (fail Malformed)
  | Some o =>
      if negb (forallb (contains obligationNames) (map_to_list o).*1) then Err (fail UnknownObligation)
      else
        try! tenant := decode_tenant o in
        try! scope := decode_scope o in
        try! allowlist := decode_allowlist o in
        try! redaction := decode_redaction o in
        try! assurance := decode_assurance o in
        try! step_up := decode_step_up o in
        Ok (NewObligations (mkSpec tenant scope allowlist redaction assurance step_up))
  end.

(** ** One decision *)

Definition malformed : Decision := deny (fail Malformed).

Notation "'need!' x ':=' e 'in' k" := (match e with Some x => k | None => malformed end)
  (at level 10, x name, e at level 100, k at level 200).

Definition required : list string :=
  ["schema_version"; "decision_id"; "allowed"; "reason_code"; "principal_id"; "organization_id";
   "policy_revision"; "expires_at"].

(** organization_id: null, or a non-empty string. *)
Definition decode_organization (o : object) : option (string * bool) :=
  match o !! "organization_id" with
  | Some JNull => Some ("", false)
  | v => match asString v with
         | Some s => if String.eqb s "" then None else Some (s, true)
         | None => None
         end
  end.

(** The obligations of an allow, with or without the member; a deny that carries one is malformed. *)
Definition decision_obligations (o : object) (allowed : bool) : result Error Obligations :=
  match o !! "obligations" with
  | Some raw => if negb allowed then Err (fail Malformed) else decodeObligations raw
  | None => if allowed then Ok (NewObligations zero_spec) else Ok zero_obligations
  end.

Definition decodeDecision (o : object) (req : Request) (now : Time) : Decision :=
  if negb (keysWithin o required ["obligations"]) then malformed
  else need! version := asString (o !! "schema_version") in
  if negb (String.eqb version decisionSchema) then malformed
  else need! id := asString (o !! "decision_id") in
  if negb (matchb decisionIDPattern id) then malformed
  else need! allowed := asBool (o !! "allowed") in
  need! code := asString (o !! "reason_code") in
  need! reason := wireReason code in
  if negb (Bool.eqb allowed (allowReasons reason)) then malformed
  else need! principal := asString (o !! "principal_id") in
  if negb (matchb principalIDPattern principal) then malformed
  else need! org := decode_organization o in
  need! revision := asRevision (o !! "policy_revision") in
  need! expires := asString (o !! "expires_at") in
  need! expiresAt := parseExpiry expires in
  match decision_obligations o allowed with
  | Err e => deny e
  | Ok obligations =>
      let '(organization, hasOrg) := org in
      if negb (Bool.eqb hasOrg (negb (String.eqb (OrganizationID req) "")))
         || (hasOrg && negb (String.eqb organization (OrganizationID req))) then deny (fail Mismatch)
      else FromWire (mkWire allowed reason id principal organization hasOrg revision expiresAt
                            (After expiresAt now) obligations)
  end.

Definition parseDecision (body : string) (req : Request) (now : Time) : Decision :=
  if negb (rejectDuplicates body) then malformed
  else need! o := bodyObject body in decodeDecision o req now.

(** ** A batch *)

Definition denyAll (e : Error) (n : nat) : list Decision := repeat (deny e) n.

(** The loop that reads each item's index and inner object. *)
Fixpoint batch_entries (items : list json) : option (list (object * Z)) :=
  match items with
  | [] => Some []
  | item :: rest =>
      match asObject (Some item) with
      | None => None
      | Some entry =>
          if negb (keysWithin entry ["index"; "decision"] []) then None
          else match asRevision (entry !! "index") with
               | None => None
               | Some index =>
                   if (Z.of_nat MaxBatch <=? index)%Z then None
                   else match asObject (entry !! "decision") with
                        | None => None
                        | Some inner =>
                            match batch_entries rest with
                            | Some l => Some ((inner, index) :: l)
                            | None => None
                            end
                        end
               end
      end
  end.

(** for i, index := range indexes: true when every index is its position. *)
Fixpoint indexes_in_order (i : nat) (indexes : list Z) : bool :=
  match indexes with [] => true | x :: r => (x =? Z.of_nat i)%Z && indexes_in_order (S i) r end.

(** The *Error of a local deny, if it is one. *)
Definition local_error (d : Decision) (none : Error) : Error :=
  match Decision_Err d with Some (EPep e) => e | _ => none end.

(** The loop that decodes each item against its request: the first local deny ends it. *)
Fixpoint decode_items (inners : list object) (reqs : list Request) (now : Time) : result Error (list Decision) :=
  match inners, reqs with
  | inner :: inners, req :: reqs =>
      let d := decodeDecision inner req now in
      if Decision_Local d then Err (local_error d (fail Malformed))
      else try! out := decode_items inners reqs now in Ok (d :: out)
  | _, _ => Ok []
  end.

Definition batch_names : list string := ["schema_version"; "decisions"].

Definition parseBatch (body : string) (reqs : list Request) (now : Time) : list Decision :=
  let bad r := denyAll (fail r) (length reqs) in
  if negb (rejectDuplicates body) then bad Malformed
  else match bodyObject body with
  | None => bad Malformed
  | Some o =>
      if negb (keysWithin o batch_names []) then bad Malformed
      else match asString (o !! "schema_version") with
      | None => bad Malformed
      | Some v =>
          if negb (String.eqb v batchSchema) then bad Malformed
          else match asArray (o !! "decisions") with
          | None => bad Malformed
          | Some items =>
              if (length items =? 0) || (MaxBatch <? length items) then bad Malformed
              else match batch_entries items with
              | None => bad Malformed
              | Some entries =>
                  if negb (length items =? length reqs) then bad Mismatch
                  else if negb (indexes_in_order 0 entries.*2) then bad Mismatch
                  else match decode_items entries.*1 reqs now with
                       | Err e => denyAll e (length reqs)
                       | Ok out => out
                       end
              end
          end
      end
  end.

(** * What an obligations member holds *)

Definition tenant_member (o : object) (t : string) : Prop :=
  match o !! "tenant_scope" with None => t = "" | Some v => v = JStr t /\ t <> "" end.
Definition scope_member (o : object) (s : RepositoryScope) : Prop :=
  match o !! "repository_scope" with
  | None => s = ""
  | Some v => v = JStr ScopeOrganization /\ s = ScopeOrganization /\ o !! "repository_allowlist" = None
  end.
Definition allowlist_member (o : object) (a : option (list string)) : Prop :=
  match o !! "repository_allowlist" with
  | None => a = None
  | Some v => exists l, a = Some l /\ v = JArr (map JStr l) /\ length l <= maxRepositoryAllowlist /\
                NoDup l /\ Forall (fun k => RepoKey.Valid k = true) l
  end.
Definition redaction_member (o : object) (l : list RedactionClass) : Prop :=
  match o !! "redaction" with
  | None => l = []
  | Some v => v = JArr (map JStr l) /\ NoDup l /\ l ⊆ redactionClasses
  end.
Definition assurance_member (o : object) (a : Assurance) : Prop :=
  match o !! "minimum_assurance" with None => a = "" | Some v => v = JStr a /\ a ∈ assuranceLevels end.
Definition step_up_member (o : object) (b : bool) : Prop :=
  match o !! "step_up" with None => b = false | Some v => v = JBool b end.

(** The obligations [ob] are those an object with only known members describes. *)
Definition obligations_doc (raw : json) (ob : Obligations) : Prop :=
  exists m s, raw = JObj m /\ ob = NewObligations s /\
    (forall k, is_Some (object_of m !! k) -> k ∈ obligationNames) /\
    tenant_member (object_of m) (s_Tenant s) /\ scope_member (object_of m) (s_Scope s) /\
    allowlist_member (object_of m) (s_Allowlist s) /\ redaction_member (object_of m) (s_Redaction s) /\
    assurance_member (object_of m) (s_Assurance s) /\ step_up_member (object_of m) (s_StepUp s).

(** A test of every key of a map. *)
Lemma keys_forallb (o : object) (P : string -> bool) :
  forallb P (map_to_list o).*1 = true <-> forall k, is_Some (o !! k) -> P k = true.
Proof.
  rewrite forallb_forall. setoid_rewrite <-list_elem_of_In. setoid_rewrite list_elem_of_fmap. split.
  - intros H k [v Hv]. apply H. exists (k, v). split; [reflexivity|]. apply elem_of_map_to_list. exact Hv.
  - intros H k ((k' & v) & -> & Hkv). apply elem_of_map_to_list in Hkv. apply H. eexists. exact Hkv.
Qed.

Lemma asString_Some raw s : asString raw = Some s <-> raw = Some (JStr s).
Proof. destruct raw as [[]|]; simpl; naive_solver. Qed.
Lemma asBool_Some raw b : asBool raw = Some b <-> raw = Some (JBool b).
Proof. destruct raw as [[]|]; simpl; naive_solver. Qed.
Lemma asArray_Some raw l : asArray raw = Some l <-> raw = Some (JArr l).
Proof. destruct raw as [[]|]; simpl; naive_solver. Qed.
Lemma asObject_Some raw o : asObject raw = Some o <-> exists m, raw = Some (JObj m) /\ o = object_of m.
Proof. destruct raw as [[]|]; simpl; naive_solver. Qed.

Lemma allow_items_iff items acc l :
  allow_items items acc = Ok l <->
  exists r, items = map JStr r /\ l = acc ++ r /\ NoDup r /\ Forall (fun k => RepoKey.Valid k = true) r /\ (forall k, k ∈ r -> k ∉ acc).
Proof.
  revert acc. induction items as [|item items IH]; intros acc; simpl.
  - split.
    + intros [= <-]. exists []. rewrite app_nil_r. repeat split; auto using NoDup_nil_2. intros k Hk. inversion Hk.
    + intros (r & Hr & -> & _). destruct r; [|discriminate]. rewrite app_nil_r. reflexivity.
  - split.
    + destruct item; try discriminate. simpl. destruct (negb (RepoKey.Valid s) || contains acc s) eqn:E; [discriminate|].
      simp_bool. rewrite IH. intros (r & -> & -> & Hn & Hv & Hd). exists (s :: r).
      rewrite <-app_assoc. setoid_rewrite elem_of_app in Hd. setoid_rewrite list_elem_of_singleton in Hd.
      repeat split; auto.
      * constructor; [|exact Hn]. intros Hin. apply (Hd s Hin). auto.
      * intros k Hk. apply elem_of_cons in Hk as [->|Hk]; [assumption|]. intros Ha. apply (Hd k Hk). auto.
    + intros (r & Hr & -> & Hn & Hv & Hd). destruct r as [|s r]; [discriminate|]. injection Hr as -> ->. simpl.
      apply NoDup_cons in Hn as [Hs Hn]. apply Forall_cons in Hv as [Hv0 Hv]. rewrite Hv0. simpl.
      rewrite (proj2 (contains_false _ _)) by (apply Hd; left). apply IH. exists r.
      rewrite <-app_assoc. repeat split; auto. intros k Hk. rewrite elem_of_app, list_elem_of_singleton.
      intros [Ha| -> ]; [|contradiction]. apply (Hd k); [right; exact Hk | exact Ha].
Qed.

Lemma redaction_items_iff items seen l :
  redaction_items items seen = Ok l <->
  exists r, items = map JStr r /\ l = seen ++ r /\ NoDup r /\ r ⊆ redactionClasses /\ (forall k, k ∈ r -> k ∉ seen).
Proof.
  revert seen. induction items as [|item items IH]; intros seen; simpl.
  - split.
    + intros [= <-]. exists []. rewrite app_nil_r. repeat split; auto using NoDup_nil_2; [|intros k Hk; inversion Hk].
      intros k Hk. inversion Hk.
    + intros (r & Hr & -> & _). destruct r; [|discriminate]. rewrite app_nil_r. reflexivity.
  - split.
    + destruct item; try discriminate. simpl. destruct (contains seen s) eqn:E; [discriminate|].
      destruct (contains redactionClasses s) eqn:Ec; simpl; [|discriminate].
      simp_bool. rewrite IH. intros (r & -> & -> & Hn & Hv & Hd). exists (s :: r).
      rewrite <-app_assoc. setoid_rewrite elem_of_app in Hd. setoid_rewrite list_elem_of_singleton in Hd.
      repeat split; auto.
      * constructor; [|exact Hn]. intros Hin. apply (Hd s Hin). auto.
      * intros k Hk. apply elem_of_cons in Hk as [->|Hk]; [assumption | apply Hv; exact Hk].
      * intros k Hk. apply elem_of_cons in Hk as [->|Hk]; [assumption|]. intros Ha. apply (Hd k Hk). auto.
    + intros (r & Hr & -> & Hn & Hv & Hd). destruct r as [|s r]; [discriminate|]. injection Hr as -> ->. simpl.
      apply NoDup_cons in Hn as [Hs Hn].
      rewrite (proj2 (contains_false seen s)) by (apply Hd; left).
      rewrite (proj2 (contains_spec redactionClasses s)) by (apply Hv; left). simpl. apply IH. exists r.
      rewrite <-app_assoc. repeat split; auto; [intros k Hk; apply Hv; right; exact Hk|].
      intros k Hk. rewrite elem_of_app, list_elem_of_singleton. intros [Ha| -> ]; [|contradiction].
      apply (Hd k); [right; exact Hk | exact Ha].
Qed.

Lemma decode_tenant_iff o t : decode_tenant o = Ok t <-> tenant_member o t.
Proof.
  unfold decode_tenant, tenant_member. destruct (o !! "tenant_scope") as [[]|]; simpl; try naive_solver.
  destruct (String.eqb_spec s ""); naive_solver.
Qed.

Lemma decode_scope_iff o s : decode_scope o = Ok s <-> scope_member o s.
Proof.
  unfold decode_scope, scope_member. destruct (o !! "repository_scope") as [v|]; [|naive_solver].
  destruct (o !! "repository_allowlist"); [naive_solver|].
  destruct v; simpl; try naive_solver. destruct (String.eqb_spec s0 ScopeOrganization); naive_solver.
Qed.

Lemma decode_allowlist_iff o a : decode_allowlist o = Ok a <-> allowlist_member o a.
Proof.
  unfold decode_allowlist, allowlist_member. destruct (o !! "repository_allowlist") as [v|]; [|naive_solver].
  destruct v; simpl; try naive_solver. split.
  - destruct (Nat.ltb_spec maxRepositoryAllowlist (length l)) as [|Hl]; [discriminate|].
    rewrite rbind_ok. intros (r & Hr & [= <-]). apply allow_items_iff in Hr as (q & -> & -> & Hn & Hv & _).
    rewrite length_map in Hl. exists q. auto.
  - intros (r & -> & [= ->] & Hl & Hn & Hv). rewrite length_map.
    destruct (Nat.ltb_spec maxRepositoryAllowlist (length r)) as [|_]; [lia|].
    rewrite (proj2 (allow_items_iff (map JStr r) [] r)); [reflexivity|]. exists r. repeat split; auto.
    intros k _. apply not_elem_of_nil.
Qed.

Lemma decode_redaction_iff o l : decode_redaction o = Ok l <-> redaction_member o l.
Proof.
  unfold decode_redaction, redaction_member. destruct (o !! "redaction") as [v|]; [|naive_solver].
  destruct v; simpl; try naive_solver. rewrite redaction_items_iff. split.
  - intros (r & -> & -> & Hn & Hv & _). auto.
  - intros ([= ->] & Hn & Hv). exists l. repeat split; auto. intros k _. apply not_elem_of_nil.
Qed.

Lemma decode_assurance_iff o a : decode_assurance o = Ok a <-> assurance_member o a.
Proof.
  unfold decode_assurance, assurance_member. destruct (o !! "minimum_assurance") as [[]|]; simpl; try naive_solver.
  destruct (contains assuranceLevels s) eqn:E; simp_bool; naive_solver.
Qed.

Lemma decode_step_up_iff o b : decode_step_up o = Ok b <-> step_up_member o b.
Proof. unfold decode_step_up, step_up_member. destruct (o !! "step_up") as [[]|]; simpl; naive_solver. Qed.

Lemma decodeObligations_iff raw ob : decodeObligations raw = Ok ob <-> obligations_doc raw ob.
Proof.
  unfold decodeObligations, obligations_doc. destruct raw as [| | | | |m]; simpl; try naive_solver.
  set (o := object_of m). split.
  - destruct (forallb _ _) eqn:E; simpl; [|discriminate]. rewrite keys_forallb in E.
    rewrite rbind_ok. intros (t & Ht & H). revert H. rewrite rbind_ok. intros (s & Hs & H).
    revert H. rewrite rbind_ok. intros (a & Ha & H). revert H. rewrite rbind_ok. intros (r & Hr & H).
    revert H. rewrite rbind_ok. intros (u & Hu & H). revert H. rewrite rbind_ok. intros (b & Hb & [= <-]).
    exists m, (mkSpec t s a r u b). split; [reflexivity|]. split; [reflexivity|]. split; [intros k Hk; apply contains_spec; auto|].
    simpl. rewrite <-decode_tenant_iff, <-decode_scope_iff, <-decode_allowlist_iff, <-decode_redaction_iff,
      <-decode_assurance_iff, <-decode_step_up_iff. auto 10.
  - intros (m' & s & [= <-] & -> & Hk & H). fold o in Hk, H.
    rewrite <-decode_tenant_iff, <-decode_scope_iff, <-decode_allowlist_iff, <-decode_redaction_iff,
      <-decode_assurance_iff, <-decode_step_up_iff in H. destruct H as (Ht & Hs & Ha & Hr & Hu & Hb).
    rewrite (proj2 (keys_forallb o _)) by (intros k Hk'; apply contains_spec; auto). simpl.
    rewrite Ht, Hs, Ha, Hr, Hu, Hb. destruct s. reflexivity.
Qed.

Lemma decodeObligations_granted raw ob : decodeObligations raw = Ok ob -> granted ob = true.
Proof. rewrite decodeObligations_iff. intros (m & s & _ & -> & _). reflexivity. Qed.

(** * What a decision document holds *)

Definition organization_member (o : object) (req : Request) (d : Decision) : Prop :=
  if hasOrg d
  then o !! "organization_id" = Some (JStr (organization d)) /\ organization d <> "" /\ OrganizationID req = organization d
  else o !! "organization_id" = Some JNull /\ organization d = "" /\ OrganizationID req = "".

Definition obligations_member (o : object) (d : Decision) : Prop :=
  match o !! "obligations" with
  | Some raw => allowed d = true /\ obligations_doc raw (obligations d)
  | None => obligations d = if allowed d then NewObligations zero_spec else zero_obligations
  end.

(** The object [o] is an authorization_decision.v1 document that answers [req], and [d] the verdict
    it carries at time [now]. *)
Record decision_doc (o : object) (req : Request) (now : Time) (d : Decision) : Prop := mkDoc {
  dd_required : forall k, k ∈ required -> is_Some (o !! k);
  dd_names : forall k, is_Some (o !! k) -> k ∈ required \/ k = "obligations";
  dd_schema : o !! "schema_version" = Some (JStr decisionSchema);
  dd_id : o !! "decision_id" = Some (JStr (decisionID d)) /\ matches decisionIDPattern (decisionID d);
  dd_allowed : o !! "allowed" = Some (JBool (allowed d));
  dd_reason : o !! "reason_code" = Some (JStr (reason d)) /\ reason d ∈ wireReasons ++ acceptAheadReasons /\
              allowed d = allowReasons (reason d);
  dd_principal : o !! "principal_id" = Some (JStr (principalID d)) /\ matches principalIDPattern (principalID d);
  dd_org : organization_member o req d;
  dd_revision : o !! "policy_revision" = Some (JNum (pretty (Z.to_N (policyRevision d)))) /\
                (0 <= policyRevision d <= max_int64)%Z;
  dd_expiry : exists text, o !! "expires_at" = Some (JStr text) /\ parseExpiry text = Some (expiresAt d);
  dd_cacheable : cacheable d = After (expiresAt d) now;
  dd_obligations : obligations_member o d;
  dd_err : err d = None;
}.

Lemma keysWithin_iff o req opt :
  keysWithin o req opt = true <->
  (forall k, k ∈ req -> is_Some (o !! k)) /\ (forall k, is_Some (o !! k) -> k ∈ req \/ k ∈ opt).
Proof.
  unfold keysWithin. destruct (forallb _ req) eqn:E; simpl.
  - rewrite keys_forallb. setoid_rewrite orb_true_iff. setoid_rewrite contains_spec.
    rewrite forallb_forall in E. split; [|intros [_ H]; exact H]. intros H. split; [|exact H].
    intros k Hk. apply list_elem_of_In in Hk. apply E in Hk. apply bool_decide_eq_true in Hk. exact Hk.
  - split; [discriminate|]. intros [H _]. rewrite <-E. apply forallb_forall. intros k Hk.
    apply bool_decide_eq_true, H, list_elem_of_In. exact Hk.
Qed.

Lemma decode_organization_iff o s h :
  decode_organization o = Some (s, h) <->
  (h = false /\ s = "" /\ o !! "organization_id" = Some JNull) \/
  (h = true /\ s <> "" /\ o !! "organization_id" = Some (JStr s)).
Proof.
  unfold decode_organization. destruct (o !! "organization_id") as [[]|]; simpl; try naive_solver.
  destruct (String.eqb_spec s0 ""); naive_solver.
Qed.

Lemma asRevision_iff raw n :
  asRevision raw = Some n <-> raw = Some (JNum (pretty (Z.to_N n))) /\ (0 <= n <= max_int64)%Z.
Proof.
  destruct raw as [[]|]; simpl; try naive_solver. rewrite parseRevision_iff. naive_solver.
Qed.

Lemma decision_obligations_iff o d :
  decision_obligations o (allowed d) = Ok (obligations d) <-> obligations_member o d.
Proof.
  unfold decision_obligations, obligations_member. destruct (o !! "obligations") as [raw|].
  - destruct (allowed d); simpl; [rewrite decodeObligations_iff; tauto | split; [discriminate | intros [? _]; discriminate]].
  - destruct (allowed d); (split; [intros [= ->]; reflexivity | intros ->; reflexivity]).
Qed.

(** The organization test, in the words of [organization_member]. *)
Lemma organization_test hasOrg organization req :
  (hasOrg = false -> organization = "") -> (hasOrg = true -> organization <> "") ->
  (negb (Bool.eqb hasOrg (negb (String.eqb (OrganizationID req) ""))) ||
   (hasOrg && negb (String.eqb organization (OrganizationID req))))%bool = false <->
  OrganizationID req = organization.
Proof.
  intros H0 H1. destruct hasOrg; destruct (String.eqb_spec (OrganizationID req) "") as [E|N]; simpl.
  - split; [discriminate|]. intros Ho. destruct H1; congruence.
  - rewrite negb_false_iff, String.eqb_eq. split; congruence.
  - split; [|reflexivity]. intros _. rewrite H0; congruence.
  - split; [discriminate|]. intros Ho. rewrite H0 in Ho; congruence.
Qed.

(** The errors of a response that is not a verdict. *)
Definition wire_failures : list Error := [fail Malformed; fail UnknownObligation; fail Mismatch].
Definition wire_failure (e : Error) : bool := bool_decide (e ∈ wire_failures).

Lemma wire_failure_local e : wire_failure e = true -> Reason_Local (e_reason e) = true.
Proof.
  unfold wire_failure, wire_failures. rewrite bool_decide_eq_true, !elem_of_cons. intros [->|[->|[->|H]]]; [reflexivity..|inversion H].
Qed.

Definition local_err {A} (r : result Error A) : Prop :=
  match r with Err e => wire_failure e = true | Ok _ => True end.

Lemma local_rbind {A B} (r : result Error A) (k : A -> result Error B) :
  local_err r -> (forall a, local_err (k a)) -> local_err (rbind r k).
Proof. destruct r; simpl; auto. Qed.

Lemma allow_items_local items acc : local_err (allow_items items acc).
Proof.
  revert acc. induction items as [|[] items IH]; intros acc; simpl; try exact I; try reflexivity.
  destruct (_ || _); [reflexivity | apply IH].
Qed.

Lemma redaction_items_local items acc : local_err (redaction_items items acc).
Proof.
  revert acc. induction items as [|[] items IH]; intros acc; simpl; try exact I; try reflexivity.
  destruct (contains acc s); [reflexivity|]. destruct (contains redactionClasses s); [apply IH | reflexivity].
Qed.

Lemma decodeObligations_local raw : local_err (decodeObligations raw).
Proof.
  unfold decodeObligations. destruct (asObject _) as [o|]; [|reflexivity]. destruct (negb _); [reflexivity|].
  repeat (apply local_rbind; [|intros ?]);
    unfold decode_tenant, decode_scope, decode_allowlist, decode_redaction, decode_assurance, decode_step_up;
    repeat case_match; try reflexivity; try exact I; try apply redaction_items_local.
  apply local_rbind; [apply allow_items_local | intros ?; exact I].
Qed.

Lemma decision_obligations_local o b : local_err (decision_obligations o b).
Proof.
  unfold decision_obligations. destruct (o !! "obligations"); [|destruct b; exact I].
  destruct b; [apply decodeObligations_local | reflexivity].
Qed.

Lemma malformed_local : Decision_Local malformed = true.
Proof. reflexivity. Qed.

(** FromWire on a verdict that agrees with its reason keeps every field. *)
Lemma FromWire_agree w :
  w_Allowed w = allowReasons (w_Reason w) -> (w_Allowed w = false -> w_Obligations w = zero_obligations) ->
  FromWire w = mkDecision (w_Allowed w) (w_Reason w) None (w_DecisionID w) (w_PrincipalID w) (w_Organization w) (w_HasOrg w)
                 (w_PolicyRevision w) (w_ExpiresAt w) (w_Cacheable w) (w_Obligations w).
Proof.
  intros Ha Ho. unfold FromWire. rewrite allowReason_map, <-Ha, eqb_reflx. simpl.
  destruct (w_Allowed w); [reflexivity | rewrite Ho by reflexivity; reflexivity].
Qed.

Lemma decision_obligations_deny o ob : decision_obligations o false = Ok ob -> ob = zero_obligations.
Proof. unfold decision_obligations. destruct (o !! "obligations"); simpl; congruence. Qed.

(** decodeDecision denies locally, or reads a decision document. *)
Lemma decodeDecision_doc o req now :
  Decision_Local (decodeDecision o req now) = false -> decision_doc o req now (decodeDecision o req now).
Proof.
  unfold decodeDecision. intros H.
  repeat match type of H with
  | Decision_Local (if ?b then malformed else _) = _ => destruct b eqn:?; [discriminate H|]
  | Decision_Local (match ?x with Some _ => _ | None => malformed end) = _ => destruct x eqn:?; [|discriminate H]
  end.
  destruct (decision_obligations o b) as [ob|e] eqn:Eob.
  2: { pose proof (decision_obligations_local o b) as Hl. rewrite Eob in Hl. rewrite deny_local in H by (apply wire_failure_local; exact Hl). discriminate. }
  destruct p as [org has]. destruct (_ || _) eqn:Eorg; [discriminate H|]. clear H.
  rename Heqo6 into Horg. apply decode_organization_iff in Horg.
  rewrite organization_test in Eorg by (destruct Horg as [(-> & -> & _)|(-> & ? & _)]; congruence).
  simp_bool. apply eqb_prop in Heqb2. apply wireReason_spec in Heqo4 as [-> Hr]. apply asRevision_iff in Heqo7.
  apply keysWithin_iff in Heqb as [Hreq Hnames]. rewrite matchb_spec in *.
  repeat match goal with E : asString _ = Some _ |- _ => apply asString_Some in E | E : asBool _ = Some _ |- _ => apply asBool_Some in E end.
  rewrite FromWire_agree; [|exact Heqb2 | simpl; intros ->; eapply decision_obligations_deny; exact Eob]. simpl.
  split; simpl; auto; try congruence; eauto.
  - intros k Hk. destruct (Hnames k Hk) as [|Hk']; [auto|]. right. apply list_elem_of_singleton. exact Hk'.
  - unfold organization_member. simpl. destruct Horg as [(-> & -> & E)|(-> & Hne & E)]; auto.
  - apply decision_obligations_iff. exact Eob.
Qed.

(** A document is read as the decision it holds. *)
Lemma decodeDecision_complete o req now d : decision_doc o req now d -> decodeDecision o req now = d.
Proof.
  intros [Hreq Hnames Hs [Hid Hidm] Ha (Hr & Hrin & Hra) [Hp Hpm] Horg [Hrev Hrange] (text & Hx & Hxp) Hc Hob Herr].
  unfold decodeDecision.
  rewrite (proj2 (keysWithin_iff o required ["obligations"])).
  2: { split; [exact Hreq|]. intros k Hk. destruct (Hnames k Hk) as [Hk1|Hk1]; [auto|]. right. rewrite Hk1. left. }
  rewrite Hs, Hid, Ha, Hr, Hp, Hrev, Hx. cbn [asString asBool negb]. rewrite String.eqb_refl. cbn [negb].
  rewrite (proj2 (matchb_spec _ _) Hidm), (proj2 (matchb_spec _ _) Hpm). cbn [negb].
  rewrite (proj2 (wireReason_spec (reason d) (reason d)) (conj eq_refl Hrin)), Hra, eqb_reflx. cbn [negb].
  rewrite (proj2 (decode_organization_iff o (organization d) (hasOrg d))).
  2: { unfold organization_member in Horg. destruct (hasOrg d); [right | left]; tauto. }
  rewrite (proj2 (asRevision_iff _ _)) by (split; [reflexivity | exact Hrange]). rewrite Hxp.
  rewrite <-Hra, (proj2 (decision_obligations_iff o d) Hob).
  assert (Ht : (negb (Bool.eqb (hasOrg d) (negb (String.eqb (OrganizationID req) ""))) ||
                (hasOrg d && negb (String.eqb (organization d) (OrganizationID req))))%bool = false).
  { unfold organization_member in Horg. apply organization_test; destruct (hasOrg d); tauto || (intros; congruence) || intuition congruence. }
  rewrite Ht, FromWire_agree; simpl; [destruct d; simpl in *; congruence | exact Hra |].
  intros E. apply (decision_obligations_deny o). rewrite <-E. apply decision_obligations_iff. exact Hob.
Qed.

Lemma decision_doc_not_local o req now d : decision_doc o req now d -> Decision_Local d = false.
Proof.
  intros H. destruct (dd_reason _ _ _ _ H) as (_ & Hin & _).
  destruct (wireReason_not_local (reason d) (reason d)) as [Hl Hne]; [apply wireReason_spec; auto|].
  unfold Decision_Local, Decision_Reason. destruct (String.eqb_spec (reason d) ""); [contradiction | exact Hl].
Qed.

Lemma decision_doc_consistent o req now d : decision_doc o req now d -> consistent d.
Proof.
  intros H. pose proof (decision_doc_not_local _ _ _ _ H) as Hnl. destruct H.
  destruct dd_reason0 as (_ & Hin & Ha).
  destruct (wireReason_not_local (reason d) (reason d)) as [_ Hne]; [apply wireReason_spec; auto|].
  unfold obligations_member in *. split; [|split; [|congruence]]; unfold Allowed; intros Hd.
  - rewrite allowReason_map. split; [congruence|]. unfold Decision_Err.
    destruct (String.eqb_spec (reason d) ""); [contradiction|]. split; [|assumption].
    destruct (o !! "obligations"); [destruct dd_obligations0 as [_ (? & ? & _ & -> & _)]; reflexivity|].
    rewrite dd_obligations0, Hd. reflexivity.
  - destruct (o !! "obligations"); [destruct dd_obligations0; congruence|]. rewrite dd_obligations0, Hd. reflexivity.
Qed.

(** Otherwise it is a local deny with one of the wire failures. *)
Lemma decodeDecision_cases o req now :
  (exists e, wire_failure e = true /\ decodeDecision o req now = deny e) \/
  decision_doc o req now (decodeDecision o req now).
Proof.
  destruct (Decision_Local (decodeDecision o req now)) eqn:E; [left | right; apply decodeDecision_doc; exact E].
  unfold decodeDecision in *. pose proof (decision_obligations_local o) as Hob.
  repeat match goal with
  | |- context [if ?b then malformed else _] => destruct b eqn:?; [exists (fail Malformed); auto|]
  | |- context [match ?x with Some _ => _ | None => malformed end] => destruct x eqn:?; [|exists (fail Malformed); auto]
  end.
  specialize (Hob b). destruct (decision_obligations o b) as [ob|e] eqn:Eob; [|exists e; auto].
  destruct p as [org has]. destruct (_ || _) eqn:Eorg; [exists (fail Mismatch); auto|]. exfalso.
  simp_bool. apply eqb_prop in Heqb2. rewrite FromWire_agree in E; [|exact Heqb2|simpl; intros ->; eapply decision_obligations_deny; exact Eob].
  destruct (wireReason_not_local _ _ Heqo4) as [Hl Hne]. unfold Decision_Local, Decision_Reason in E. simpl in E.
  destruct (String.eqb_spec r ""); [contradiction | congruence].
Qed.

Lemma decodeDecision_consistent o req now : consistent (decodeDecision o req now).
Proof.
  destruct (decodeDecision_cases o req now) as [(e & _ & ->)|H]; [apply Local_consistent | eapply decision_doc_consistent; exact H].
Qed.

Lemma strict_body body v : strict_document body v -> rejectDuplicates body = true /\ parse_document false body = Some v.
Proof.
  intros H. split; [apply rejectDuplicates_iff; eauto|]. apply parse_iff, document_weaken, strict_document_shallow, H.
Qed.

Lemma body_strict body v :
  rejectDuplicates body = true -> parse_document false body = Some v -> strict_document body v.
Proof.
  intros Hr Hp. apply rejectDuplicates_iff in Hr as [w Hw]. destruct (strict_body body w Hw) as [_ Hq]. congruence.
Qed.

(** * Batches *)

(** [items] answers [reqs] in order from position [i] on: each item holds exactly its position and a
    decision document for the request at it. *)
Inductive batch_items (now : Time) : nat -> list json -> list Request -> list Decision -> Prop :=
| bi_nil i : batch_items now i [] [] []
| bi_cons i m mi items req reqs d out :
    (forall k, is_Some (object_of m !! k) <-> k = "index" \/ k = "decision") ->
    object_of m !! "index" = Some (JNum (pretty (N.of_nat i))) ->
    object_of m !! "decision" = Some (JObj mi) ->
    decision_doc (object_of mi) req now d ->
    batch_items now (S i) items reqs out ->
    batch_items now i (JObj m :: items) (req :: reqs) (d :: out).

Definition batch_response (body : string) (reqs : list Request) (now : Time) (out : list Decision) : Prop :=
  exists m items, strict_document body (JObj m) /\
    (forall k, is_Some (object_of m !! k) <-> k = "schema_version" \/ k = "decisions") /\
    object_of m !! "schema_version" = Some (JStr batchSchema) /\
    object_of m !! "decisions" = Some (JArr items) /\
    1 <= length items <= MaxBatch /\ batch_items now 0 items reqs out.

Lemma keysWithin_two o a b :
  keysWithin o [a; b] [] = true <-> forall k, is_Some (o !! k) <-> k = a \/ k = b.
Proof.
  rewrite keysWithin_iff. setoid_rewrite elem_of_cons. setoid_rewrite list_elem_of_singleton. split.
  - intros [H1 H2] k. split; [|apply H1]. intros Hk. destruct (H2 k Hk) as [|Hn]; [assumption|]. inversion Hn.
  - intros H. split; intros k; [apply H|]. intros Hk. left. apply H. exact Hk.
Qed.

Lemma batch_sound now items : forall i reqs entries out,
  batch_entries items = Some entries -> length items = length reqs -> indexes_in_order i entries.*2 = true ->
  decode_items entries.*1 reqs now = Ok out -> batch_items now i items reqs out.
Proof.
  induction items as [|item items IH]; intros i reqs entries out He Hl Hi Hd; simpl in He.
  - injection He as <-. destruct reqs; [|discriminate]. injection Hd as <-. constructor.
  - destruct reqs as [|req reqs]; [discriminate|]. injection Hl as Hl.
    destruct item as [| | | | |m]; try discriminate He. simpl in He.
    destruct (negb _) eqn:Ek; [discriminate|]. simp_bool. pose proof (proj1 (keysWithin_two _ _ _) Ek) as Hk.
    destruct (asRevision _) as [index|] eqn:Er; [|discriminate]. apply asRevision_iff in Er as [Er Hrange].
    destruct (_ <=? _)%Z; [discriminate|]. destruct (asObject _) as [inner|] eqn:Ein; [|discriminate].
    apply asObject_Some in Ein as (mi & Ein & ->).
    destruct (batch_entries items) as [l|] eqn:Eb; [|discriminate]. injection He as <-. simpl in Hi, Hd. simp_bool. subst index.
    destruct (Decision_Local _) eqn:Eloc; [discriminate|]. apply rbind_ok in Hd as (out' & Hout & [= <-]).
    econstructor; eauto using decodeDecision_doc. rewrite Er. f_equal. f_equal. f_equal. lia.
Qed.

Lemma batch_complete now i items reqs out :
  batch_items now i items reqs out -> i + length items <= MaxBatch ->
  exists entries, batch_entries items = Some entries /\ length items = length reqs /\
    indexes_in_order i entries.*2 = true /\ decode_items entries.*1 reqs now = Ok out.
Proof.
  induction 1 as [i|i m mi items req reqs d out Hk Hi Hin Hdoc Hb IH]; intros Hmax; [exists []; auto|].
  simpl in Hmax. destruct IH as (entries & He & Hl & Hord & Hdec); [lia|].
  exists ((object_of mi, Z.of_nat i) :: entries). cbn [batch_entries asObject length]. rewrite (proj2 (keysWithin_two _ _ _) Hk), Hi, Hin. cbn [negb asObject].
  rewrite (proj2 (asRevision_iff _ (Z.of_nat i))); [|split; [f_equal; f_equal; f_equal; lia | unfold MaxBatch, max_int64 in *; lia]].
  destruct (Z.leb_spec (Z.of_nat MaxBatch) (Z.of_nat i)) as [|_]; [unfold MaxBatch in *; lia|].
  rewrite He. split; [reflexivity|]. split; [congruence|]. rewrite !fmap_cons. cbn [fst snd indexes_in_order decode_items].
  rewrite Z.eqb_refl, Hord, (decodeDecision_complete _ _ _ _ Hdoc), (decision_doc_not_local _ _ _ _ Hdoc), Hdec. auto.
Qed.

Lemma batch_items_verdicts now i items reqs out :
  batch_items now i items reqs out -> Forall (fun d => Decision_Local d = false) out /\ length out = length reqs.
Proof.
  induction 1 as [|i m mi items req reqs d out Hk Hi Hin Hdoc Hb [IH1 IH2]]; [auto|].
  split; [constructor; [eapply decision_doc_not_local; exact Hdoc | exact IH1] | simpl; congruence].
Qed.

Lemma decode_items_local inners reqs now : local_err (decode_items inners reqs now).
Proof.
  revert reqs. induction inners as [|inner inners IH]; intros [|req reqs]; simpl; auto.
  destruct (decodeDecision_cases inner req now) as [(e & He & ->)|Hd].
  - rewrite deny_local by (apply wire_failure_local; exact He). simpl. unfold local_error, Decision_Err. simpl.
    destruct (String.eqb _ ""); [reflexivity | exact He].
  - rewrite (decision_doc_not_local _ _ _ _ Hd). apply local_rbind; [apply IH | intros ?; exact I].
Qed.

(** A batch is denied whole with one local error, or it is a batch response whose every decision is
    read. *)
Lemma parseBatch_cases body reqs now :
  (exists e, wire_failure e = true /\ parseBatch body reqs now = denyAll e (length reqs)) \/
  batch_response body reqs now (parseBatch body reqs now).
Proof.
  unfold parseBatch. destruct (rejectDuplicates body) eqn:Er; simpl; [|left; eexists; split; [|reflexivity]; reflexivity].
  destruct (bodyObject body) as [o|] eqn:Eo; [|left; eexists; split; [|reflexivity]; reflexivity].
  unfold bodyObject in Eo. apply asObject_Some in Eo as (m & Em & ->).
  destruct (keysWithin _ _ _) eqn:Ek; simpl; [|left; eexists; split; [|reflexivity]; reflexivity].
  destruct (asString _) as [v|] eqn:Es; [|left; eexists; split; [|reflexivity]; reflexivity].
  destruct (String.eqb_spec v batchSchema) as [->|]; simpl; [|left; eexists; split; [|reflexivity]; reflexivity].
  destruct (asArray _) as [items|] eqn:Ea; [|left; eexists; split; [|reflexivity]; reflexivity].
  destruct (_ || _) eqn:El; [left; eexists; split; [|reflexivity]; reflexivity|]. simp_bool.
  destruct (batch_entries items) as [entries|] eqn:Eb; [|left; eexists; split; [|reflexivity]; reflexivity].
  destruct (length items =? length reqs)%nat eqn:Elen; simpl; [|left; eexists; split; [|reflexivity]; reflexivity].
  destruct (indexes_in_order 0 _) eqn:Ei; simpl; [|left; eexists; split; [|reflexivity]; reflexivity].
  pose proof (decode_items_local entries.*1 reqs now) as Hl.
  destruct (decode_items _ _ _) as [out|e] eqn:Ed; [|left; eexists; split; [exact Hl | reflexivity]].
  right. simp_bool. apply asString_Some in Es. apply asArray_Some in Ea. exists m, items.
  split; [apply body_strict; assumption|]. split; [apply keysWithin_two; exact Ek|].
  repeat split; auto; [lia|]. eapply batch_sound; eassumption.
Qed.

Lemma parseBatch_complete body reqs now out : batch_response body reqs now out -> parseBatch body reqs now = out.
Proof.
  intros (m & items & Hs & Hk & Hv & Hd & Hlen & Hb). unfold parseBatch, bodyObject.
  destruct (strict_body _ _ Hs) as [Hr Hp]. rewrite Hr, Hp. cbn [negb asObject].
  unfold batch_names. rewrite (proj2 (keysWithin_two _ _ _) Hk), Hv, Hd. cbn [negb asString asArray].
  rewrite String.eqb_refl. cbn [negb].
  destruct (batch_complete _ _ _ _ _ Hb) as (entries & He & Hl & Hi & Hdec); [lia|].
  rewrite (proj2 (Nat.eqb_neq (length items) 0)), (proj2 (Nat.ltb_ge MaxBatch (length items))) by lia. cbn [orb].
  rewrite He, Hl, Nat.eqb_refl, Hi. cbn [negb]. rewrite Hdec. reflexivity.
Qed.

(** The reader of one decision, as an equivalence. *)
Lemma parseDecision_iff body req now d :
  (parseDecision body req now = d /\ Decision_Local d = false) <->
  (exists m, strict_document body (JObj m) /\ decision_doc (object_of m) req now d).
Proof.
  unfold parseDecision. split.
  - intros [<- Hl]. destruct (rejectDuplicates body) eqn:Er; [|discriminate Hl]. cbn [negb] in *.
    destruct (bodyObject body) as [o|] eqn:Eo; [|discriminate Hl]. unfold bodyObject in Eo.
    apply asObject_Some in Eo as (m & Em & ->). exists m. split; [apply body_strict; assumption|].
    apply decodeDecision_doc. exact Hl.
  - intros (m & Hs & Hd). destruct (strict_body _ _ Hs) as [Hr Hp]. rewrite Hr. unfold bodyObject. rewrite Hp. cbn [negb asObject].
    split; [apply decodeDecision_complete; exact Hd | eapply decision_doc_not_local; exact Hd].
Qed.

(** And what it gives otherwise. *)
Lemma parseDecision_outcome body req now :
  let d := parseDecision body req now in
  consistent d /\ (Decision_Local d = true -> exists e, e ∈ wire_failures /\ d = deny e).
Proof.
  intros d. assert (Hc : (exists e, wire_failure e = true /\ d = deny e) \/ exists o, decision_doc o req now d).
  { unfold d, parseDecision. destruct (negb _); [left; exists (fail Malformed); auto|].
    destruct (bodyObject body) as [o|]; [|left; exists (fail Malformed); auto].
    destruct (decodeDecision_cases o req now) as [H|H]; [left; exact H | right; exists o; exact H]. }
  destruct Hc as [(e & He & ->)|(o & Ho)].
  - split; [apply Local_consistent|]. intros _. exists e. split; [|reflexivity]. unfold wire_failure in He. simp_bool. exact He.
  - split; [eapply decision_doc_consistent; exact Ho|]. rewrite (decision_doc_not_local _ _ _ _ Ho). discriminate.
Qed.

Lemma batch_response_verdicts body reqs now ds :
  batch_response body reqs now ds -> Forall (fun d => Decision_Local d = false) ds /\ length ds = length reqs.
Proof. intros (m & items & _ & _ & _ & _ & _ & Hb). eapply batch_items_verdicts. exact Hb. Qed.

Lemma batch_items_consistent now i items reqs out : batch_items now i items reqs out -> Forall consistent out.
Proof. induction 1; constructor; eauto using decision_doc_consistent. Qed.

(** Whatever the body, a batch has one consistent decision per request. *)
Lemma parseBatch_length body reqs now :
  length (parseBatch body reqs now) = length reqs /\ Forall consistent (parseBatch body reqs now).
Proof.
  destruct (parseBatch_cases body reqs now) as [(e & _ & ->)|Hr].
  - unfold denyAll. rewrite repeat_length. split; [reflexivity|]. apply Forall_forall. intros d Hd.
    apply list_elem_of_In, repeat_spec in Hd as ->. apply Local_consistent.
  - split; [eapply batch_response_verdicts; exact Hr|]. destruct Hr as (m & items & _ & _ & _ & _ & _ & Hb).
    eapply batch_items_consistent. exact Hb.
Qed.

(** * Properties *)

(** C3: parseDecision gives a PDP verdict (a decision that is not a local deny) exactly when the body
    is a strict JSON document (one value, no repeated member at any depth, at most 16 deep) whose
    object is an authorization_decision.v1 document answering the request, and the verdict is the one
    the document holds, field by field. In particular an allow needs an allow reason code, the
    request's organization and obligations this client knows in full. *)
Theorem parseDecision_verdict_iff body req now d :
  (parseDecision body req now = d /\ Decision_Local d = false) <->
  (exists m, strict_document body (JObj m) /\ decision_doc (object_of m) req now d).
Proof. apply parseDecision_iff. Qed.

(** Whatever the body, parseDecision gives a consistent decision (an allow has an allow reason,
    granted obligations and no error, a deny has no obligations, a local deny names its cause), and
    unless it is a verdict it is the deny of one of three errors: the response is malformed, is for
    another organization, or holds an obligation this client does not know. *)
Theorem parseDecision_total body req now :
  let d := parseDecision body req now in
  consistent d /\ (Decision_Local d = true -> exists e, e ∈ wire_failures /\ d = deny e).
Proof. apply parseDecision_outcome. Qed.

(** C5: a batch response is used whole or not at all. parseBatch returns one decision per request;
    they are all PDP verdicts exactly when the body is a strict batch response with as many items as
    requests (1 to 100), the i-th of them carrying the integer index i and a decision document that
    answers the i-th request; otherwise every one of them is the same local deny. *)
Theorem parseBatch_all_or_nothing body reqs now :
  reqs <> [] ->
  let out := parseBatch body reqs now in
  length out = length reqs /\
  ((exists e, e ∈ wire_failures /\ out = repeat (deny e) (length reqs)) \/ Forall (fun d => Decision_Local d = false) out) /\
  (forall ds, (out = ds /\ Forall (fun d => Decision_Local d = false) ds) <-> batch_response body reqs now ds).
Proof.
  intros Hne out.
  pose proof (batch_response_verdicts body reqs now) as Hv.
  destruct (parseBatch_cases body reqs now) as [(e & He & Hout)|Hr].
  - unfold denyAll in Hout. unfold out. rewrite Hout. rewrite repeat_length. split; [reflexivity|]. split.
    + left. exists e. split; [unfold wire_failure in He; simp_bool; exact He | reflexivity].
    + intros ds. split; [|intros Hds; split; [rewrite <-Hout; apply parseBatch_complete; exact Hds | apply Hv; exact Hds]].
      intros [<- Hall]. destruct reqs; [congruence|]. simpl in Hall. apply Forall_cons in Hall as [Hl _].
      rewrite deny_local in Hl by (apply wire_failure_local; exact He). discriminate.
  - destruct (Hv _ Hr) as [Hall Hlen]. split; [exact Hlen|]. split; [right; exact Hall|].
    intros ds. split; [intros [<- _]; exact Hr | intros Hds; split; [apply parseBatch_complete; exact Hds | apply Hv; exact Hds]].
Qed.

(** ** Examples *)

Definition example_request : Request :=
  mkRequest "prn-reference-000001" "acr.context.read" "repository" "acme/api" "org_1" "".
Definition example_decision : string :=
  "{'schema_version':'authorization_decision.v1','decision_id':'dec_ABCDEFGHIJKLMNOPQRSTUVWXYZ',"
  +:+ "'allowed':true,'reason_code':'allowed_by_role','principal_id':'prn_1','organization_id':'org_1',"
  +:+ "'policy_revision':42,'expires_at':'2026-01-01T00:00:30Z',"
  +:+ "'obligations':{'repository_allowlist':['acme/api'],'minimum_assurance':'aal2'}}".
Definition example_batch : string :=
  "{'schema_version':'authorization_batch_response.v1','decisions':[{'index':0,'decision':" +:+ example_decision +:+ "}]}".
Definition example_now : Time := at_ns (Date 2026 1 1 0 0 0 0).

Example decision_read :
  let d := parseDecision (quotes example_decision) example_request example_now in
  Allowed d = true /\ Cacheable d = true /\ policyRevision d = 42%Z /\
  RepositoryAllowed (obligations d) "acme/api" = true /\ RepositoryAllowed (obligations d) "acme/web" = false.
Proof. vm_compute. auto 10. Qed.

(** {"allowed":false,"allowed":true} is no verdict. *)
Example decision_repeated_member :
  parseDecision (quotes "{'allowed':false,'allowed':true}") example_request example_now = deny (fail Malformed).
Proof. vm_compute. reflexivity. Qed.

(** The theorem at a batch of one request. *)
Lemma parseBatch_all_or_nothing_witness :
  [example_request] <> [] /\
  map Allowed (parseBatch (quotes example_batch) [example_request] example_now) = [true] /\
  length (parseBatch (quotes example_batch) [example_request] example_now) = 1.
Proof.
  split; [discriminate|]. split; [vm_compute; reflexivity|].
  exact (proj1 (parseBatch_all_or_nothing (quotes example_batch) [example_request] example_now ltac:(discriminate))).
Defined.

End Wire.
