(* ===== verification/PepClient.v ===== *)
(** The PDP client of src/pep/client.go: New's configuration checks, post with its transport
    outcomes, classify, Decide and DecideBatch.

    What the network, the clock and the caller's context do during one call is the argument [call]:
    the context's state, what http.Client.Do gave, and the time c.now() read. url.Parse and
    mime.ParseMediaType are arguments. json.Marshal of the request structs does not fail, so the
    branches on its error are absent. *)
From S2P Require Import Prelude Regex Json GoTime PepDecision PepRequest PepDecider PepStrict PepWire.

Module Client.
Import Json GoTime Decision Request Strict Wire.

Definition PathAuthorize : string := "/v1/authorize".
Definition PathAuthorizeBatch : string := "/v1/authorize:batch".
Definition defaultTimeout : Duration := (2 * Second)%Z.
Definition maxSingleBody : Z := Z.shiftl 256 10.
Definition maxBatchBody : Z := Z.shiftl 4 20.

(** ** Configuration *)

(** What New reads of a *url.URL. *)
Record URL := mkURL {
  u_Scheme : string; u_Opaque : string; u_HasUser : bool; u_Host : string; u_Hostname : string;
  u_Path : string; u_RawQuery : string; u_ForceQuery : bool; u_Fragment : string; u_IsAbs : bool }.

(** Config: [c_HTTPClient] and [c_Now] say whether the pointers are set. *)
Record Config := mkConfig {
  c_BaseURL : string; c_AllowPlainHTTP : bool; c_HTTPClient : bool; c_ClientService : string;
  c_Timeout : Duration; c_Now : bool }.

(** Client: [http] and [now] say whether the pointers are set. *)
Record Client := mkClient {
  single : string; batch : string; http : bool; service : string; timeout : Duration; now : bool }.

Inductive config_error :=
| NoHTTPClient | BadService | BadTimeout | BadBaseURL | NotHTTPS | BaseURLExtra.

(** c.now is time.Now when the configuration gives none, so the field is always set. *)
Definition New (parse : string -> option URL) (cfg : Config) : result config_error Client :=
  if negb (c_HTTPClient cfg) then Err NoHTTPClient
  else if negb (contains clientServices (c_ClientService cfg)) then Err BadService
  else if (c_Timeout cfg <? 0)%Z then Err BadTimeout
  else match parse (c_BaseURL cfg) with
  | None => Err BadBaseURL
  | Some u =>
      if negb (u_IsAbs u) || String.eqb (u_Hostname u) "" || negb (String.eqb (u_Opaque u) "") then Err BadBaseURL
      else if negb (String.eqb (u_Scheme u) "https" || (String.eqb (u_Scheme u) "http" && c_AllowPlainHTTP cfg)) then Err NotHTTPS
      else if u_HasUser u || negb (String.eqb (u_RawQuery u) "") || u_ForceQuery u || negb (String.eqb (u_Fragment u) "")
              || (negb (String.eqb (u_Path u) "") && negb (String.eqb (u_Path u) "/")) then Err BaseURLExtra
      else Ok {| single := u_Scheme u +:+ "://" +:+ u_Host u +:+ PathAuthorize;
                 batch := u_Scheme u +:+ "://" +:+ u_Host u +:+ PathAuthorizeBatch;
                 http := true; service := c_ClientService cfg;
                 timeout := if (c_Timeout cfg =? 0)%Z then defaultTimeout else c_Timeout cfg;
                 now := true |}
  end.

(** A base URL New takes: an absolute https origin (http when the configuration says so), with
    nothing after the host but an optional slash. *)
Definition origin (u : URL) (plain : bool) : Prop :=
  u_IsAbs u = true /\ u_Hostname u <> "" /\ u_Opaque u = "" /\
  (u_Scheme u = "https" \/ (u_Scheme u = "http" /\ plain = true)) /\
  u_HasUser u = false /\ u_RawQuery u = "" /\ u_ForceQuery u = false /\ u_Fragment u = "" /\
  (u_Path u = "" \/ u_Path u = "/").

(** ready; None is the nil *Client and the zero Client has no single URL. *)
Definition ready (c : option Client) : bool :=
  match c with
  | None => false
  | Some c => http c && now c && negb (String.eqb (single c) "")
  end.

(** ** The transport *)

(** ctx.Err(). *)
Inductive ctx_error := CtxCanceled | CtxDeadline.

(** What classify asks of an error: errors.Is of the two context errors, and a net.Error timeout. *)
Record transport_error := mkTErr { is_canceled : bool; is_deadline : bool; is_timeout : bool }.

Definition ctx_is (e : option ctx_error) (k : ctx_error) : bool :=
  match e, k with Some CtxCanceled, CtxCanceled => true | Some CtxDeadline, CtxDeadline => true | _, _ => false end.

Definition classify (ctx : option ctx_error) (err : transport_error) : Error :=
  if ctx_is ctx CtxCanceled || is_canceled err then fail Canceled
  else if ctx_is ctx CtxDeadline || is_deadline err then fail Timeout_
  else if is_timeout err then fail Timeout_
  else fail Unreachable.

(** A response body: the bytes it yields, and the error that ends it, if it does not end well. *)
Record response := mkResponse {
  StatusCode : Z; ContentType : string; ContentLength : Z; body_bytes : string; body_error : option transport_error }.

Inductive exchange := RequestFails | DoFails (e : transport_error) | Responds (r : response).

(** One call: the context before and after, the exchange, the time read after it. [ctx_set] is
    false for a nil context. [media] is mime.ParseMediaType. *)
Record call := mkCall {
  ctx_set : bool; ctx_before : option ctx_error; ctx_after : option ctx_error; exch : exchange; read_at : Time }.

(** The error of a context that is already done is the context's own. *)
Definition ctx_as_error (e : ctx_error) : transport_error :=
  match e with CtxCanceled => mkTErr true false false | CtxDeadline => mkTErr false true true end.

(** io.ReadAll(io.LimitReader(resp.Body, limit+1)). *)
Definition read_limited (r : response) (limit : Z) : result transport_error string :=
  if (limit <? Z.of_nat (String.length (body_bytes r)))%Z
  then Ok (String.substring 0 (Z.to_nat (limit + 1)) (body_bytes r))
  else match body_error r with Some e => Err e | None => Ok (body_bytes r) end.

Section Post.
Variable media : string -> option string.

Definition post (k : call) (limit : Z) : result Error string :=
  match ctx_before k with
  | Some e => Err (classify (ctx_before k) (ctx_as_error e))
  | None =>
      match exch k with
      | RequestFails => Err (fail LocalInvalid)
      | DoFails e => Err (classify (ctx_after k) e)
      | Responds r =>
          let status := StatusCode r in
          if negb (status =? 200)%Z then
            if (status =? 429)%Z then Err (failStatus RateLimited status)
            else if (500 <=? status)%Z then Err (failStatus Unavailable status)
            else Err (failStatus Refused status)
          else if negb (bool_decide (media (ContentType r) = Some "application/json")) then Err (fail Malformed)
          else if (limit <? ContentLength r)%Z then Err (fail TooLarge)
          else match read_limited r limit with
               | Err e => Err (classify (ctx_after k) e)
               | Ok raw => if (limit <? Z.of_nat (String.length raw))%Z then Err (fail TooLarge) else Ok raw
               end
      end
  end.

Definition Decide (c : option Client) (k : call) (req : Request) : Decision :=
  if negb (ready c) then deny (fail NotConfigured)
  else if negb (ctx_set k) || negb (valid req) then deny (fail LocalInvalid)
  else match post k maxSingleBody with
       | Err e => deny e
       | Ok raw => parseDecision raw req (read_at k)
       end.

Definition DecideBatch (c : option Client) (k : call) (reqs : list Request) : list Decision :=
  if (length reqs =? 0) then []
  else if negb (ready c) then denyAll (fail NotConfigured) (length reqs)
  else if negb (ctx_set k) || (MaxBatch <? length reqs) then denyAll (fail LocalInvalid) (length reqs)
  else if negb (forallb valid reqs) then denyAll (fail LocalInvalid) (length reqs)
  else match post k maxBatchBody with
       | Err e => denyAll e (length reqs)
       | Ok raw => parseBatch raw reqs (read_at k)
       end.

(** * What a call that succeeds was *)

(** The response a body was taken from: 200, JSON, complete and within the limit. *)
Definition good_response (k : call) (limit : Z) (raw : string) : Prop :=
  ctx_before k = None /\ exists r, exch k = Responds r /\ StatusCode r = 200%Z /\
    media (ContentType r) = Some "application/json" /\ (ContentLength r <= limit)%Z /\
    body_error r = None /\ body_bytes r = raw /\ (Z.of_nat (String.length raw) <= limit)%Z.

Lemma substring_length n s : String.length (String.substring 0 n s) = Nat.min n (String.length s).
Proof. revert s. induction n as [|n IH]; intros [|c s]; simpl; auto. Qed.

Lemma post_ok k limit raw : (0 <= limit)%Z -> post k limit = Ok raw <-> good_response k limit raw.
Proof.
  intros Hl. unfold post, good_response. destruct (ctx_before k); [naive_solver|].
  destruct (exch k) as [|e|r]; [naive_solver|naive_solver|].
  destruct (Z.eqb_spec (StatusCode r) 200) as [Es|Ns]; cbn [negb].
  2: { split; [|intros (_ & r' & [= <-] & Hr & _); congruence]. repeat case_match; discriminate. }
  destruct (bool_decide_reflect (media (ContentType r) = Some "application/json")) as [Em|Nm]; cbn [negb]; [|naive_solver].
  destruct (Z.ltb_spec limit (ContentLength r)) as [|Hc]; [split; [discriminate | intros (_ & r' & [= <-] & Hr); lia]|].
  unfold read_limited. destruct (Z.ltb_spec limit (Z.of_nat (String.length (body_bytes r)))) as [Hb|Hb].
  - rewrite substring_length. destruct (Z.ltb_spec limit (Z.of_nat (Nat.min (Z.to_nat (limit + 1)) (String.length (body_bytes r))))); [|lia].
    split; [discriminate|]. intros (_ & r' & [= <-] & _ & _ & _ & _ & <- & H'). lia.
  - destruct (body_error r) as [e|] eqn:Ee; [split; [discriminate | intros (_ & r' & [= <-] & Hr); naive_solver]|].
    destruct (Z.ltb_spec limit (Z.of_nat (String.length (body_bytes r)))); [lia|].
    split; [intros [= <-]; eauto 10 | intros (_ & r' & [= <-] & _ & _ & _ & _ & <- & _); reflexivity].
Qed.

(** The reasons of a call that failed. *)
Definition post_reasons : list Reason :=
  [Canceled; Timeout_; Unreachable; LocalInvalid; RateLimited; Unavailable; Refused; Malformed; TooLarge].

Lemma post_err k limit e : post k limit = Err e -> e_reason e ∈ post_reasons.
Proof.
  intros H. apply contains_spec. unfold post, classify in H.
  repeat case_match; simplify_eq; reflexivity.
Qed.

Lemma post_reasons_local r : r ∈ post_reasons -> Reason_Local r = true.
Proof. intros H. apply contains_spec in H. revert H. apply (forallb_contains Reason_Local). vm_compute. reflexivity. Qed.

Lemma Decide_is_consistent c k req : consistent (Decide c k req).
Proof.
  unfold Decide. repeat case_match; try apply Local_consistent. apply parseDecision_outcome.
Qed.

Lemma denyAll_consistent e n : Forall consistent (denyAll e n).
Proof. apply Forall_forall. intros d Hd. apply list_elem_of_In, repeat_spec in Hd as ->. apply Local_consistent. Qed.

Lemma DecideBatch_is_consistent c k reqs :
  length (DecideBatch c k reqs) = length reqs /\ Forall consistent (DecideBatch c k reqs).
Proof.
  unfold DecideBatch. destruct (Nat.eqb_spec (length reqs) 0) as [->|_]; [auto|].
  repeat case_match; try (split; [apply repeat_length | apply denyAll_consistent]). apply parseBatch_length.
Qed.

(** * Properties *)

(** New builds a client exactly from a configuration with an HTTP client, a service of the
    contract's set, a timeout that is not negative and a base URL that is an https origin (http only
    when AllowPlainHTTP); the client is then ready, posts to the two PDP routes of that origin and
    nowhere else, and has a positive timeout. *)
Theorem New_iff parse cfg c :
  New parse cfg = Ok c <->
  c_HTTPClient cfg = true /\ c_ClientService cfg ∈ clientServices /\ (0 <= c_Timeout cfg)%Z /\
  exists u, parse (c_BaseURL cfg) = Some u /\ origin u (c_AllowPlainHTTP cfg) /\
    c = mkClient (u_Scheme u +:+ "://" +:+ u_Host u +:+ PathAuthorize) (u_Scheme u +:+ "://" +:+ u_Host u +:+ PathAuthorizeBatch)
          true (c_ClientService cfg) (if (c_Timeout cfg =? 0)%Z then defaultTimeout else c_Timeout cfg) true /\
    ready (Some c) = true /\ (0 < timeout c)%Z.
Proof.
  unfold New, origin. destruct (c_HTTPClient cfg); cbn [negb]; [|naive_solver].
  destruct (contains clientServices (c_ClientService cfg)) eqn:Es; cbn [negb]; simp_bool; [|naive_solver].
  destruct (Z.ltb_spec (c_Timeout cfg) 0) as [|Ht]; [split; [discriminate | intros (_ & _ & ? & _); lia]|].
  destruct (parse (c_BaseURL cfg)) as [u|]; [|split; [discriminate | intros (_ & _ & _ & u & [=] & _)]].
  assert (Hready : forall a b, ready (Some (mkClient (u_Scheme u +:+ "://" +:+ a) b true (c_ClientService cfg)
    (if (c_Timeout cfg =? 0)%Z then defaultTimeout else c_Timeout cfg) true)) = true /\
    (0 < if (c_Timeout cfg =? 0)%Z then defaultTimeout else c_Timeout cfg)%Z).
  { intros a b. split; [destruct (u_Scheme u); reflexivity|]. destruct (Z.eqb_spec (c_Timeout cfg) 0); [reflexivity | lia]. }
  split.
  - intros H. repeat match type of H with (if ?b then _ else _) = _ => destruct b eqn:?; [discriminate H|] end.
    injection H as <-. simp_bool. repeat split; auto. exists u. split; [reflexivity|].
    rewrite !andb_false_iff, !negb_false_iff, !String.eqb_eq in *.
    rewrite orb_true_iff, andb_true_iff, !String.eqb_eq in *. repeat split; auto; try (apply Hready; exact EmptyString); tauto.
  - intros (_ & _ & _ & u' & [= <-] & (H1 & H2 & H3 & H4 & H5 & H6 & H7 & H8 & H9) & -> & _).
    rewrite H1, H3, H5, H6, H7, H8. rewrite (proj2 (String.eqb_neq _ _) H2). cbn.
    destruct H4 as [->|[-> ->]]; destruct H9 as [->| ->]; reflexivity.
Qed.

(** C4: the client fails closed. Decide gives a PDP verdict exactly when the client is configured, the
    context is set and the request valid, the call returned 200 with an application/json body that
    ended well within 256 KiB, and that body is a strict decision document for the request; the
    verdict is then the document's. Every other call is a consistent local deny: never an allow. *)
Theorem Decide_fails_closed c k req :
  (forall d, (Decide c k req = d /\ Decision_Local d = false) <->
     ready c = true /\ ctx_set k = true /\ valid req = true /\
     exists raw m, good_response k maxSingleBody raw /\ strict_document raw (JObj m) /\
       decision_doc (object_of m) req (read_at k) d) /\
  (Decision_Local (Decide c k req) = true -> Allowed (Decide c k req) = false /\ Cacheable (Decide c k req) = false).
Proof.
  split; [|intros Hl; destruct (Decide_is_consistent c k req) as (_ & _ & H); destruct (H Hl) as (? & ? & _); auto].
  intros d. unfold Decide. destruct (ready c); cbn [negb]; [|split; [intros [<- H]; discriminate H | intros [H _]; discriminate H]].
  destruct (ctx_set k); cbn [negb orb]; [|split; [intros [<- H]; discriminate H | intros (_ & H & _); discriminate H]].
  destruct (valid req); cbn [negb]; [|split; [intros [<- H]; discriminate H | intros (_ & _ & H & _); discriminate H]].
  destruct (post k maxSingleBody) as [raw|e] eqn:Ep.
  - pose proof (proj1 (post_ok k maxSingleBody raw ltac:(vm_compute; discriminate)) Ep) as Hg. rewrite parseDecision_iff. split.
    + intros (m & Hs & Hd). eauto 10.
    + intros (_ & _ & _ & raw' & m & Hg' & Hs & Hd). exists m.
      apply post_ok in Hg'; [|vm_compute; discriminate]. rewrite Ep in Hg'. injection Hg' as <-. auto.
  - split.
    + intros [<- H]. rewrite deny_local in H; [discriminate|]. eapply post_reasons_local, post_err. exact Ep.
    + intros (_ & _ & _ & raw' & m & Hg' & _). apply post_ok in Hg'; [congruence | vm_compute; discriminate].
Qed.

(** DecideBatch answers every request, in order, and only from a whole batch response: a batch
    over 100 requests, one invalid request, a failed call or a response that is not the batch
    response of these requests denies every item with the same local error. *)
Theorem DecideBatch_fails_closed c k reqs :
  reqs <> [] ->
  let out := DecideBatch c k reqs in
  length out = length reqs /\
  ((exists e, Reason_Local (e_reason e) = true /\ out = repeat (deny e) (length reqs)) \/
   (ready c = true /\ ctx_set k = true /\ length reqs <= MaxBatch /\ Forall (fun r => valid r = true) reqs /\
    exists raw, good_response k maxBatchBody raw /\ batch_response raw reqs (read_at k) out)).
Proof.
  intros Hne out. split; [apply DecideBatch_is_consistent|]. unfold out, DecideBatch.
  destruct (Nat.eqb_spec (length reqs) 0) as [E|_]; [destruct reqs; [congruence | discriminate E]|].
  destruct (ready c); cbn [negb]; [|left; exists (fail NotConfigured); auto].
  destruct (ctx_set k); cbn [negb orb]; [|left; exists (fail LocalInvalid); auto].
  destruct (Nat.ltb_spec MaxBatch (length reqs)) as [|Hlen]; [left; exists (fail LocalInvalid); auto|].
  destruct (forallb valid reqs) eqn:Ev; cbn [negb]; [|left; exists (fail LocalInvalid); auto].
  destruct (post k maxBatchBody) as [raw|e] eqn:Ep.
  2: { left. exists e. split; [|reflexivity]. eapply post_reasons_local, post_err. exact Ep. }
  destruct (parseBatch_cases raw reqs (read_at k)) as [(e & He & ->)|Hr]; [left; exists e; split; [apply wire_failure_local; exact He | reflexivity]|].
  right. repeat split; auto.
  - apply Forall_forall. intros r Hin. rewrite forallb_forall in Ev. apply Ev, list_elem_of_In. exact Hin.
  - exists raw. split; [|exact Hr]. apply post_ok; [vm_compute; discriminate | exact Ep].
Qed.

End Post.

(** The theorem on a batch of one whose call is refused. *)
Lemma DecideBatch_fails_closed_witness :
  let media := fun _ => Some "application/json" in
  let k := mkCall true None None (Responds (mkResponse 503 "" 0 "" None)) zero_time in
  let c := Some (mkClient "https://auth/v1/authorize" "" true "dev-health-web" defaultTimeout true) in
  [example_request] <> [] /\ length (DecideBatch media c k [example_request]) = 1 /\
  map Decision_Reason (DecideBatch media c k [example_request]) = [Unavailable].
Proof.
  intros media k c. split; [discriminate|]. split; [|vm_compute; reflexivity].
  exact (proj1 (DecideBatch_fails_closed media c k [example_request] ltac:(discriminate))).
Defined.

(** The client implements the interface, for any mime parser. *)
#[export] Instance client_decider (media : string -> option string) : Decider.Decider (option Client) call :=
  {| Decider.Decide := Decide media; Decider.DecideBatch := DecideBatch media |}.

#[export] Instance client_laws media : @Decider.DeciderLaws (option Client) call (client_decider media).
Proof.
  split; simpl.
  - apply Decide_is_consistent.
  - intros. apply DecideBatch_is_consistent.
  - intros. apply DecideBatch_is_consistent.
Qed.

End Client.
