(* ===== verification/PepFake.v ===== *)
(** The test double of src/pep/pepfake/fake.go: rules, matching and the decisions a Fake gives. *)
From S2P Require Import Prelude Regex RepoKey GoTime PepDecision PepRequest PepDecider.

Module Fake.
Import GoTime Decision Request.

(** Rule; a nil RepositoryAllowlist is None. *)
Record Rule := mkRule {
  r_PrincipalReference : string;
  r_Action : string;
  r_ResourceType : string;
  r_ResourceKey : string;
  r_OrganizationID : string;
  r_TenantScope : string;
  r_RepositoryScope : string;
  r_RepositoryAllowlist : option (list string);
  r_Redaction : list RedactionClass;
  r_MinimumAssurance : Assurance;
  r_StepUp : bool;
}.

Definition Fake := list Rule.

(** New copies the rules; cloneNilable keeps a nil slice nil. *)
Definition cloneNilable {A} (s : option (list A)) : option (list A) :=
  match s with None => None | Some l => Some ([] ++ l) end.
Definition copy_rule (r : Rule) : Rule :=
  mkRule (r_PrincipalReference r) (r_Action r) (r_ResourceType r) (r_ResourceKey r) (r_OrganizationID r)
    (r_TenantScope r) (r_RepositoryScope r) (cloneNilable (r_RepositoryAllowlist r)) (r_Redaction r)
    (r_MinimumAssurance r) (r_StepUp r).
Definition New (rules : list Rule) : Fake := map copy_rule rules.

Definition complete (r : Rule) : bool :=
  negb (String.eqb (r_PrincipalReference r) "") && negb (String.eqb (r_Action r) "")
  && negb (String.eqb (r_ResourceType r) "") && negb (String.eqb (r_ResourceKey r) "").

Definition rule_matches (r : Rule) (q : Request) : bool :=
  complete r && String.eqb (r_PrincipalReference r) (PrincipalReference q) && String.eqb (r_Action r) (Action q)
  && String.eqb (r_ResourceType r) (ResourceType q) && String.eqb (r_ResourceKey r) (ResourceKey q)
  && String.eqb (r_OrganizationID r) (OrganizationID q).

Definition validAssurance (a : Assurance) : bool :=
  String.eqb a "aal1" || String.eqb a "aal2" || String.eqb a "aal3".

Definition allow (r : Rule) (q : Request) : Decision :=
  if negb (String.eqb (r_MinimumAssurance r) "") && negb (validAssurance (r_MinimumAssurance r))
  then Local Malformed EBadRule
  else if negb (String.eqb (r_RepositoryScope r) "") &&
          (negb (String.eqb (r_RepositoryScope r) ScopeOrganization) || bool_decide (is_Some (r_RepositoryAllowlist r)))
  then Local Malformed EBadRule
  else FromWire {|
    w_Allowed := true; w_Reason := AllowedByRole;
    w_DecisionID := "dec_FAKE00000000000000000000000"; w_PrincipalID := "prn_FAKE";
    w_Organization := OrganizationID q; w_HasOrg := negb (String.eqb (OrganizationID q) "");
    w_PolicyRevision := 0; w_ExpiresAt := zero_time; w_Cacheable := false;
    w_Obligations := NewObligations (mkSpec (r_TenantScope r) (r_RepositoryScope r) (r_RepositoryAllowlist r)
                                       (r_Redaction r) (r_MinimumAssurance r) (r_StepUp r)) |}.

(** Decide: None is the nil *Fake; the first rule that matches decides. *)
Fixpoint first_rule (rules : list Rule) (req : Request) : Decision :=
  match rules with
  | [] => zero_decision
  | r :: rest => if rule_matches r req then allow r req else first_rule rest req
  end.
Definition Decide (f : option Fake) (req : Request) : Decision :=
  match f with None => zero_decision | Some rules => first_rule rules req end.

Definition DecideBatch (f : option Fake) (reqs : list Request) : list Decision := map (Decide f) reqs.

Lemma rule_matches_iff r q :
  rule_matches r q = true <->
  complete r = true /\ r_PrincipalReference r = PrincipalReference q /\ r_Action r = Action q /\
  r_ResourceType r = ResourceType q /\ r_ResourceKey r = ResourceKey q /\ r_OrganizationID r = OrganizationID q.
Proof. unfold rule_matches. rewrite !andb_true_iff, !String.eqb_eq. tauto. Qed.

Lemma allow_consistent r q : consistent (allow r q).
Proof.
  unfold allow. destruct (_ && _); [apply Local_consistent|]. destruct (_ && _); [apply Local_consistent|].
  apply FromWire_consistent; [reflexivity | reflexivity | discriminate].
Qed.

Lemma first_rule_consistent rules q : consistent (first_rule rules q).
Proof.
  induction rules as [|r rules IH]; simpl; [apply zero_consistent|]. destruct (rule_matches r q); [apply allow_consistent | exact IH].
Qed.

(** A copied rule is the rule: New changes no field a decision reads. *)
Lemma copy_rule_id r : copy_rule r = r.
Proof. unfold copy_rule. destruct r as [? ? ? ? ? ? ? [] ? ? ?]; reflexivity. Qed.

Lemma first_rule_allowed rules q :
  Allowed (first_rule rules q) = true -> exists r, r ∈ rules /\ rule_matches r q = true /\ first_rule rules q = allow r q.
Proof.
  induction rules as [|r rules IH]; simpl; [discriminate|]. destruct (rule_matches r q) eqn:E.
  - intros _. exists r. split; [left | auto].
  - intros H. destruct (IH H) as (r' & Hin & Hm & Ha). exists r'. split; [right; exact Hin | auto].
Qed.

(** A Fake allows nothing by default: it allows a request only through one of its rules that names
    the request's principal, action, resource type and key, each non-empty, and its organization,
    exactly; an allow carries exactly that rule's obligations, and no allow is cacheable. *)
Theorem fake_allows_only_named rules q :
  Allowed (Decide (Some (New rules)) q) = true ->
  exists r, r ∈ rules /\
    r_PrincipalReference r = PrincipalReference q /\ PrincipalReference q <> "" /\
    r_Action r = Action q /\ Action q <> "" /\ r_ResourceType r = ResourceType q /\ ResourceType q <> "" /\
    r_ResourceKey r = ResourceKey q /\ ResourceKey q <> "" /\ r_OrganizationID r = OrganizationID q /\
    obligations (Decide (Some (New rules)) q) =
      NewObligations (mkSpec (r_TenantScope r) (r_RepositoryScope r) (r_RepositoryAllowlist r) (r_Redaction r)
                        (r_MinimumAssurance r) (r_StepUp r)) /\
    Cacheable (Decide (Some (New rules)) q) = false.
Proof.
  unfold Decide, New. rewrite (map_ext copy_rule id), map_id by apply copy_rule_id. intros H.
  destruct (first_rule_allowed _ _ H) as (r & Hin & Hm & Ha). exists r. rewrite Ha in H |- *.
  apply rule_matches_iff in Hm as (Hc & H1 & H2 & H3 & H4 & H5). unfold complete in Hc. simp_bool.
  unfold allow in *. destruct (_ && _); [discriminate H|]. destruct (_ && _); [discriminate H|].
  repeat split; congruence || reflexivity.
Qed.

(** The theorem at a rule and the request it names. *)
Lemma fake_allows_only_named_witness :
  let r := mkRule "prn-reference-000001" "acr.context.read" "repository" "acme/api" "org_1" "" "organization" None [] "" false in
  let q := mkRequest "prn-reference-000001" "acr.context.read" "repository" "acme/api" "org_1" "" in
  Allowed (Decide (Some (New [r])) q) = true /\ exists r', r' ∈ [r] /\ r_Action r' = Action q.
Proof.
  intros r q. split; [reflexivity|].
  destruct (fake_allows_only_named [r] q eq_refl) as (r' & Hin & _ & _ & Ha & _). exists r'. auto.
Defined.

#[global] Instance fake_decider : Decider.Decider (option Fake) unit :=
  {| Decider.Decide := fun f _ => Decide f; Decider.DecideBatch := fun f _ => DecideBatch f |}.

Lemma fake_consistent f q : consistent (Decide f q).
Proof. destruct f; [apply first_rule_consistent | apply zero_consistent]. Qed.

#[global] Instance fake_laws : Decider.DeciderLaws (option Fake) unit.
Proof.
  split; simpl.
  - intros f _ q. apply fake_consistent.
  - intros f _ reqs. apply length_map.
  - intros f _ reqs. apply Forall_forall. intros d Hd. apply list_elem_of_In, in_map_iff in Hd as (q & <- & _). apply fake_consistent.
Qed.

End Fake.
