(* ===== verification/PepCacheKey.v ===== *)
(** The cache key of src/pep/cache.go: strconv.Quote of the five fields of a question, joined with
    commas and hashed. [IsPrint] stands for strconv.IsPrint's Unicode table and [sha256] for
    sha256.Sum256; no property of either is used. The quoted text determines the fields. *)
From S2P Require Import Prelude Utf8 Json JsonEncode PepRequest.

Module CacheKey.
Import Request.

Section Quote.
Variable IsPrint : N -> bool.

Definition lowerhex (n : N) : ascii := Encode.hex_digit n.

(** The [k] low hexadecimal digits of [r]. *)
Fixpoint hexs (k : nat) (r : N) : list ascii :=
  match k with 0 => [] | S k => hexs k (r / 16) ++ [lowerhex (r mod 16)] end.

Definition bs (c : ascii) (s : string) : string := String backslash (String c s).

(** appendEscapedRune with the double quote as quote. *)
Definition appendEscapedRune (r : N) : string :=
  if (r =? code dquote)%N || (r =? code backslash)%N then bs (chr r) ""
  else if IsPrint r then Utf8.EncodeRune r
  else if (r =? 7)%N then bs "a" ""
  else if (r =? 8)%N then bs "b" ""
  else if (r =? 12)%N then bs "f" ""
  else if (r =? 10)%N then bs "n" ""
  else if (r =? 13)%N then bs "r" ""
  else if (r =? 9)%N then bs "t" ""
  else if (r =? 11)%N then bs "v" ""
  else if (r <? 32)%N || (r =? 127)%N then bs "x" (of_chars (hexs 2 r))
  else let r := if Utf8.ValidRune r then r else Utf8.RuneError in
       if (r <? 65536)%N then bs "u" (of_chars (hexs 4 r))
       else bs "U" (of_chars (hexs 8 r)).

(** One round of appendQuotedWith's loop: the text for the rune at the head, and its width. *)
Definition quote_head (s : string) : string * nat :=
  match s with
  | EmptyString => (EmptyString, 0)
  | String c _ =>
      let '(r, w) := if (code c <? 128)%N then (code c, 1) else Utf8.DecodeRune s in
      if (w =? 1) && (r =? Utf8.RuneError)%N then (bs "x" (of_chars (hexs 2 (code c))), 1)
      else (appendEscapedRune r, w)
  end.

Fixpoint quote_body (fuel : nat) (s : string) : string :=
  match fuel, s with
  | S fuel, String _ _ => let '(t, w) := quote_head s in t +:+ quote_body fuel (Utf8.drop w s)
  | _, _ => EmptyString
  end.

(** strconv.Quote; the loop goes round at most once per byte. *)
Definition Quote (s : string) : string :=
  String dquote (quote_body (String.length s) s +:+ String dquote EmptyString).

(** The fields of cacheKey, quoted and joined. *)
Definition key_fields (r : Request) : list string :=
  [PrincipalReference r; Action r; ResourceType r; ResourceKey r; OrganizationID r].
Definition key_text (r : Request) : string := join "," (map Quote (key_fields r)).

Variable sha256 : string -> string.
Definition cacheKey (r : Request) : string := sha256 (key_text r).

(** * The quoted text determines the string *)

Fixpoint unhex (l : list ascii) (acc : N) : option N :=
  match l with
  | [] => Some acc
  | c :: r => match Json.hex_value c with Some d => unhex r (acc * 16 + d)%N | None => None end
  end.

Definition prepend (x : string) (o : option (string * string)) : option (string * string) :=
  match o with Some (s, r) => Some (x +:+ s, r) | None => None end.

Definition simple (e : ascii) : option ascii :=
  if Ascii.eqb e dquote || Ascii.eqb e backslash then Some e
  else if Ascii.eqb e "a" then Some (chr 7) else if Ascii.eqb e "b" then Some (chr 8)
  else if Ascii.eqb e "f" then Some (chr 12) else if Ascii.eqb e "n" then Some (chr 10)
  else if Ascii.eqb e "r" then Some (chr 13) else if Ascii.eqb e "t" then Some (chr 9)
  else if Ascii.eqb e "v" then Some (chr 11) else None.

(** A reader of quoted text: the string up to the closing quote, and what follows it. *)
Fixpoint unq (s : string) : option (string * string) :=
  match s with
  | EmptyString => None
  | String c r =>
      if Ascii.eqb c dquote then Some (EmptyString, r)
      else if Ascii.eqb c backslash then
        match r with
        | EmptyString => None
        | String e r1 =>
            if Ascii.eqb e "x" then
              match r1 with
              | String h1 (String h2 r2) =>
                  match unhex [h1; h2] 0 with Some n => prepend (String (chr n) EmptyString) (unq r2) | None => None end
              | _ => None
              end
            else if Ascii.eqb e "u" then
              match r1 with
              | String h1 (String h2 (String h3 (String h4 r2))) =>
                  match unhex [h1; h2; h3; h4] 0 with Some n => prepend (Utf8.EncodeRune n) (unq r2) | None => None end
              | _ => None
              end
            else if Ascii.eqb e "U" then
              match r1 with
              | String h1 (String h2 (String h3 (String h4 (String h5 (String h6 (String h7 (String h8 r2))))))) =>
                  match unhex [h1; h2; h3; h4; h5; h6; h7; h8] 0 with Some n => prepend (Utf8.EncodeRune n) (unq r2) | None => None end
              | _ => None
              end
            else match simple e with Some x => prepend (String x EmptyString) (unq r1) | None => None end
        end
      else prepend (String c EmptyString) (unq r)
  end.

(** Text the reader turns into [x], whatever follows. *)
Definition reads (t x : string) : Prop := forall r, unq (t +:+ r) = prepend x (unq r).

Lemma hex_value_digit n : (n < 16)%N -> Json.hex_value (lowerhex n) = Some n.
Proof.
  intros H. assert (Hb : bool_decide (Json.hex_value (lowerhex n) = Some n) = true).
  { revert n H. apply (below_run (fun n => bool_decide (Json.hex_value (lowerhex n) = Some n)) 16). reflexivity. }
  apply bool_decide_eq_true in Hb. exact Hb.
Qed.

Lemma unhex_hexs k r t acc :
  unhex (hexs k r ++ t) acc = unhex t (acc * 16 ^ N.of_nat k + r mod 16 ^ N.of_nat k)%N.
Proof.
  revert r t. induction k as [|k IH]; intros r t.
  - simpl. rewrite N.mod_1_r. f_equal. lia.
  - cbn [hexs]. rewrite <-app_assoc, IH. cbn [app unhex]. rewrite hex_value_digit by (apply N.mod_lt; lia). f_equal.
    rewrite Nat2N.inj_succ, N.pow_succ_r by lia. rewrite (N.Div0.mod_mul_r r 16 (16 ^ N.of_nat k)). lia.
Qed.

Lemma unhex_small k r : (r < 16 ^ N.of_nat k)%N -> unhex (hexs k r) 0 = Some r.
Proof.
  intros H. rewrite <-(app_nil_r (hexs k r)), unhex_hexs. simpl. rewrite N.mod_small by exact H. f_equal.
Qed.

Lemma length_hexs k r : length (hexs k r) = k.
Proof. revert r. induction k as [|k IH]; intros r; simpl; [reflexivity|]. rewrite length_app, IH. simpl. lia. Qed.

Lemma reads_x n : (n < 256)%N -> reads (bs "x" (of_chars (hexs 2 n))) (String (chr n) EmptyString).
Proof.
  intros H r. pose proof (unhex_small 2 n H) as Hu. pose proof (length_hexs 2 n) as Hl.
  destruct (hexs 2 n) as [|h1 [|h2 [|]]]; try discriminate Hl.
  change (match unhex [h1; h2] 0 with Some n => prepend (String (chr n) EmptyString) (unq r) | None => None end
          = prepend (String (chr n) EmptyString) (unq r)). rewrite Hu. reflexivity.
Qed.

Lemma reads_u n : (n < 65536)%N -> reads (bs "u" (of_chars (hexs 4 n))) (Utf8.EncodeRune n).
Proof.
  intros H r. pose proof (unhex_small 4 n H) as Hu. pose proof (length_hexs 4 n) as Hl.
  destruct (hexs 4 n) as [|h1 [|h2 [|h3 [|h4 [|]]]]]; try discriminate Hl.
  change (match unhex [h1; h2; h3; h4] 0 with Some n => prepend (Utf8.EncodeRune n) (unq r) | None => None end
          = prepend (Utf8.EncodeRune n) (unq r)). rewrite Hu. reflexivity.
Qed.

Lemma reads_U n : (n < 4294967296)%N -> reads (bs "U" (of_chars (hexs 8 n))) (Utf8.EncodeRune n).
Proof.
  intros H r. pose proof (unhex_small 8 n H) as Hu. pose proof (length_hexs 8 n) as Hl.
  destruct (hexs 8 n) as [|h1 [|h2 [|h3 [|h4 [|h5 [|h6 [|h7 [|h8 [|]]]]]]]]]; try discriminate Hl.
  change (match unhex [h1; h2; h3; h4; h5; h6; h7; h8] 0 with Some n => prepend (Utf8.EncodeRune n) (unq r) | None => None end
          = prepend (Utf8.EncodeRune n) (unq r)). rewrite Hu. reflexivity.
Qed.

(** Bytes that are no quote and no backslash are read as themselves. *)
Lemma reads_raw t : Forall (fun c => c <> dquote /\ c <> backslash) (chars t) -> reads t t.
Proof.
  intros H r. induction t as [|c t IH]; [rewrite str_app_nil; destruct (unq r) as [[? ?]|]; reflexivity|].
  simpl in H. apply Forall_cons in H as [[Hq Hb] Ht]. rewrite str_app_cons. cbn [unq].
  rewrite (proj2 (Ascii.eqb_neq _ _) Hq), (proj2 (Ascii.eqb_neq _ _) Hb), IH by exact Ht.
  destruct (unq r) as [[? ?]|]; reflexivity.
Qed.

(** Each byte of a list is high by [H]; quotients and remainders are opaque. *)
Ltac high_bytes H :=
  repeat match goal with
  | |- context [N.modulo ?a ?b] => let m := fresh in set (m := N.modulo a b) in *; clearbody m
  | |- context [N.div ?a ?b] => let m := fresh in set (m := N.div a b) in *; clearbody m
  end;
  repeat (apply List.Forall_cons; [apply H; lia|]); apply List.Forall_nil.

Lemma encode_raw r : r <> code dquote -> r <> code backslash -> Utf8.ValidRune r = true ->
  Forall (fun c => c <> dquote /\ c <> backslash) (chars (Utf8.encode r)).
Proof.
  intros Hq Hb Hv. apply Utf8.valid_rune_iff in Hv. unfold Utf8.encode.
  assert (Hhigh : forall n, (128 <= n < 256)%N -> chr n <> dquote /\ chr n <> backslash).
  { intros n Hn. split; intros E; apply (f_equal code) in E; rewrite code_chr in E by lia; vm_compute in E; lia. }
  destruct (N.ltb_spec r 128) as [H1|H1].
  { repeat constructor; intros E; apply (f_equal code) in E; rewrite code_chr in E by lia; congruence. }
  assert (Hmod : forall x, (x mod 64 < 64)%N) by (intros x; apply N.mod_lt; lia).
  destruct (N.ltb_spec r 2048) as [H2|H2]; [|destruct (N.ltb_spec r 65536) as [H3|H3]].
  - assert (r / 64 < 32)%N by (apply N.Div0.div_lt_upper_bound; lia). pose proof (Hmod r).
    rewrite chars_of_chars. high_bytes Hhigh.
  - assert (r / 4096 < 16)%N by (apply N.Div0.div_lt_upper_bound; lia). pose proof (Hmod r). pose proof (Hmod (r / 64)%N).
    rewrite chars_of_chars. high_bytes Hhigh.
  - assert (r / 262144 < 5)%N by (apply N.Div0.div_lt_upper_bound; lia).
    pose proof (Hmod r). pose proof (Hmod (r / 64)%N). pose proof (Hmod (r / 4096)%N).
    rewrite chars_of_chars. high_bytes Hhigh.
Qed.

(** A rune's escape is read back as the rune's bytes. *)
Lemma reads_escaped r : Utf8.ValidRune r = true -> reads (appendEscapedRune r) (Utf8.EncodeRune r).
Proof.
  intros Hv. assert (Hascii : (r < 128)%N -> Utf8.EncodeRune r = String (chr r) EmptyString).
  { intros H. unfold Utf8.EncodeRune. rewrite Hv. apply Utf8.encode_ascii. exact H. }
  unfold appendEscapedRune.
  destruct (N.eqb_spec r (code dquote)) as [->|Nq]; [intros q; rewrite Hascii by reflexivity; reflexivity|].
  destruct (N.eqb_spec r (code backslash)) as [->|Nb]; [intros q; rewrite Hascii by reflexivity; reflexivity|]. cbn [orb].
  destruct (IsPrint r).
  { unfold Utf8.EncodeRune. rewrite Hv. apply reads_raw, encode_raw; assumption. }
  repeat match goal with
  | |- reads (if (r =? ?n)%N then _ else _) _ => destruct (N.eqb_spec r n) as [->|_]; [intros q; reflexivity|]
  end.
  destruct ((r <? 32)%N || (r =? 127)%N) eqn:Ec.
  { assert (Hr : (r < 128)%N) by (apply orb_true_iff in Ec as [Ec|Ec]; [apply N.ltb_lt in Ec | apply N.eqb_eq in Ec]; lia).
    rewrite Hascii by exact Hr. apply reads_x. lia. }
  rewrite Hv. destruct (N.ltb_spec r 65536); [apply reads_u; assumption|].
  apply reads_U. apply Utf8.valid_rune_iff in Hv. lia.
Qed.

Lemma quote_head_low c q : (code c < 128)%N -> quote_head (String c q) = (appendEscapedRune (code c), 1).
Proof.
  intros H. unfold quote_head. rewrite (proj2 (N.ltb_lt _ _) H).
  destruct (N.eqb_spec (code c) Utf8.RuneError) as [E|_]; [rewrite E in H; vm_compute in H; discriminate | reflexivity].
Qed.

Lemma quote_head_high c q : (128 <= code c)%N ->
  quote_head (String c q) =
  let d := Utf8.DecodeRune (String c q) in
  if (d.2 =? 1) && (d.1 =? Utf8.RuneError)%N then (bs "x" (of_chars (hexs 2 (code c))), 1) else (appendEscapedRune d.1, d.2).
Proof.
  intros H. unfold quote_head. rewrite (proj2 (N.ltb_ge _ _) H). destruct (Utf8.DecodeRune (String c q)). reflexivity.
Qed.

Lemma quote_head_reads c q :
  let s := String c q in
  1 <= (quote_head s).2 /\ reads (quote_head s).1 (Utf8.take (quote_head s).2 s).
Proof.
  intros s. destruct (N.lt_ge_cases (code c) 128) as [Hc|Hc].
  - unfold s. rewrite quote_head_low by exact Hc. split; [simpl; lia|].
    assert (Hv : Utf8.ValidRune (code c) = true) by (apply Utf8.valid_rune_iff; lia).
    pose proof (reads_escaped (code c) Hv) as Hr. unfold Utf8.EncodeRune in Hr. rewrite Hv in Hr.
    rewrite Utf8.encode_ascii, chr_code in Hr by exact Hc. exact Hr.
  - assert (Hx : reads (bs "x" (of_chars (hexs 2 (code c)))) (Utf8.take 1 s)).
    { pose proof (reads_x (code c) (code_lt c)) as H. rewrite chr_code in H. exact H. }
    unfold s at 1 2 3. rewrite quote_head_high by exact Hc. fold s.
    pose proof (Utf8.decode_cases s) as Hcase. pose proof (Utf8.decode_width s ltac:(discriminate)) as Hw.
    destruct (Utf8.DecodeRune s) as [r w]. cbn [fst snd] in *.
    destruct ((w =? 1) && (r =? Utf8.RuneError)%N) eqn:E; cbn [fst snd]; [auto|].
    split; [exact Hw|]. destruct Hcase as [[He Hv]|[[= -> ->]|Hs]]; [|discriminate E|discriminate Hs].
    cbn [fst snd] in *. rewrite <-He. pose proof (reads_escaped r Hv) as Hr. unfold Utf8.EncodeRune in Hr. rewrite Hv in Hr. exact Hr.
Qed.

Lemma unq_body fuel s r : String.length s <= fuel -> unq (quote_body fuel s +:+ String dquote r) = Some (s, r).
Proof.
  revert s. induction fuel as [|fuel IH]; intros [|c q] Hf; simpl in Hf; try lia; try reflexivity.
  cbn [quote_body]. destruct (quote_head_reads c q) as [Hw Hr].
  destruct (quote_head (String c q)) as [t w]. cbn [fst snd] in *. rewrite str_app_assoc, Hr.
  rewrite IH by (rewrite Utf8.length_drop; simpl; lia). simpl prepend. rewrite Utf8.take_drop. reflexivity.
Qed.

Lemma Quote_app_inj s t u v : Quote s +:+ u = Quote t +:+ v -> s = t /\ u = v.
Proof.
  unfold Quote. rewrite !str_app_cons, !str_app_assoc. intros [= H]. apply (f_equal unq) in H.
  rewrite !str_app_cons, !str_app_nil, !unq_body in H by lia. injection H as -> ->. auto.
Qed.

Lemma quoted_list_inj l k : length l = length k -> join "," (map Quote l) = join "," (map Quote k) -> l = k.
Proof.
  revert k. induction l as [|x l IH]; intros [|y k] Hl H; try discriminate; [reflexivity|]. injection Hl as Hl.
  destruct l as [|x' l], k as [|y' k]; try discriminate Hl.
  - simpl in H. rewrite <-(str_app_nil_r (Quote x)), <-(str_app_nil_r (Quote y)) in H.
    apply Quote_app_inj in H as [-> _]. reflexivity.
  - rewrite !(map_cons _ _ (_ :: _)), !join_cons in H by discriminate. apply Quote_app_inj in H as [-> H].
    rewrite !str_app_cons, !str_app_nil in H. injection H as H. rewrite (IH (y' :: k)); auto.
Qed.

(** Two requests have the same cache key only if they ask the same question (the same principal
    reference, action, resource type, resource key and organization, whatever their request ids),
    unless their key texts are a collision of the hash; and the same question has the same key. *)
Theorem cacheKey_separates r1 r2 :
  (cacheKey r1 = cacheKey r2 ->
     key_fields r1 = key_fields r2 \/
     (key_text r1 <> key_text r2 /\ sha256 (key_text r1) = sha256 (key_text r2))) /\
  (key_fields r1 = key_fields r2 -> cacheKey r1 = cacheKey r2).
Proof.
  unfold cacheKey, key_text. split; [|intros ->; reflexivity]. intros H.
  destruct (decide (join "," (map Quote (key_fields r1)) = join "," (map Quote (key_fields r2)))) as [E|N]; [|auto].
  left. apply quoted_list_inj; [reflexivity | exact E].
Qed.

End Quote.
End CacheKey.
