(* ===== verification/PepCache.v ===== *)
(** The decision cache of src/pep/cache.go, at the level of its pointers: a map from keys to list
    elements, the elements' values in a heap, the LRU list of elements, and the counters. Each
    critical section under c.mu is a function on [cache]; Decide and DecideBatch are programs over
    critical sections, between which other goroutines may run ([inter]). *)
From S2P Require Import Prelude GoTime PepDecision PepRequest PepDecider PepWire PepCacheKey.

Module Cache.
Import GoTime Decision Request Wire CacheKey.

Definition DefaultCacheEntries : Z := 10000.
Definition DefaultCacheTTL : Duration := (30 * Second)%Z.

Definition key := string.

Record cacheEntry := mkEntry {
  e_key : key; e_live : bool; e_decision : Decision; e_asked : Time; e_guard : Z }.

(** The fields New sets once. *)
Record config := mkCfg { maxEntries : Z; maxTTL : Duration }.

(** The fields under mu. [heap] holds el.Value of each list element, [lru] the elements front to
    back, [next_id] the next element's address. *)
Record cache := mkCache {
  entries : gmap key nat;
  heap : gmap nat cacheEntry;
  lru : list nat;
  next_id : nat;
  allows : Z;
  seq : Z;
  lastFlush : Z;
  floor : Z;
  watermark : Z;
  closed : bool;
}.

Record CacheConfig := mkCacheConfig { cc_MaxEntries : Z; cc_MaxTTL : Duration }.
Inductive cache_config_error := ClientNotReady | NegativeEntries | BadTTL.

Definition empty_cache : cache := mkCache ∅ ∅ [] 0 0 0 0 0 0 false.

(** NewCachedClient: [client_ready] is c.ready(). *)
Definition NewCachedClient (client_ready : bool) (cfg : CacheConfig) : result cache_config_error (config * cache) :=
  if negb client_ready then Err ClientNotReady
  else if (cc_MaxEntries cfg <? 0)%Z then Err NegativeEntries
  else if (cc_MaxTTL cfg <? 0)%Z || (DefaultCacheTTL <? cc_MaxTTL cfg)%Z then Err BadTTL
  else Ok (mkCfg (if (cc_MaxEntries cfg =? 0)%Z then DefaultCacheEntries else cc_MaxEntries cfg)
                 (if (cc_MaxTTL cfg =? 0)%Z then DefaultCacheTTL else cc_MaxTTL cfg), empty_cache).

(** ** Field updates *)

Definition set_heap (h : gmap nat cacheEntry) (c : cache) : cache :=
  mkCache (entries c) h (lru c) (next_id c) (allows c) (seq c) (lastFlush c) (floor c) (watermark c) (closed c).
Definition set_lru (l : list nat) (c : cache) : cache :=
  mkCache (entries c) (heap c) l (next_id c) (allows c) (seq c) (lastFlush c) (floor c) (watermark c) (closed c).
Definition set_allows (n : Z) (c : cache) : cache :=
  mkCache (entries c) (heap c) (lru c) (next_id c) n (seq c) (lastFlush c) (floor c) (watermark c) (closed c).
Definition set_seq (n : Z) (c : cache) : cache :=
  mkCache (entries c) (heap c) (lru c) (next_id c) (allows c) n (lastFlush c) (floor c) (watermark c) (closed c).
Definition set_lastFlush (n : Z) (c : cache) : cache :=
  mkCache (entries c) (heap c) (lru c) (next_id c) (allows c) (seq c) n (floor c) (watermark c) (closed c).
Definition set_floor (n : Z) (c : cache) : cache :=
  mkCache (entries c) (heap c) (lru c) (next_id c) (allows c) (seq c) (lastFlush c) n (watermark c) (closed c).
Definition set_watermark (n : Z) (c : cache) : cache :=
  mkCache (entries c) (heap c) (lru c) (next_id c) (allows c) (seq c) (lastFlush c) (floor c) n (closed c).
Definition set_entries (m : gmap key nat) (c : cache) : cache :=
  mkCache m (heap c) (lru c) (next_id c) (allows c) (seq c) (lastFlush c) (floor c) (watermark c) (closed c).
Definition set_closed (b : bool) (c : cache) : cache :=
  mkCache (entries c) (heap c) (lru c) (next_id c) (allows c) (seq c) (lastFlush c) (floor c) (watermark c) b.

(** ** container/list *)

Definition MoveToFront (id : nat) (c : cache) : cache := set_lru (id :: filter (.≠ id) (lru c)) c.
Definition Remove (id : nat) (c : cache) : cache := set_lru (filter (.≠ id) (lru c)) c.

(** ** The helpers under the lock *)

Definition clear (c : cache) : cache := set_allows 0 (set_lru [] (set_entries ∅ c)).

Definition fresh (cfg : config) (c : cache) (e : cacheEntry) (now : Time) : bool :=
  let age := Sub now (e_asked e) in
  (0 <=? age)%Z && (age <? maxTTL cfg)%Z && Before now (ExpiresAt (e_decision e))
  && (watermark c <=? PolicyRevision (e_decision e))%Z.

Definition dead (e : cacheEntry) : cacheEntry := mkEntry (e_key e) false zero_decision (e_asked e) (e_guard e).

Definition kill (id : nat) (c : cache) : cache :=
  match heap c !! id with
  | Some e => if e_live e then set_allows (allows c - 1)%Z (set_heap (<[id := dead e]> (heap c)) c) else c
  | None => c
  end.

(** insert: the new element's address is the [next_id] of [c]. *)
Definition insert_key (k : key) (c : cache) : cache :=
  let id := next_id c in
  mkCache (<[k := id]> (entries c)) (<[id := mkEntry k false zero_decision zero_time 0]> (heap c)) (id :: lru c) (S id)
    (allows c) (seq c) (lastFlush c) (floor c) (watermark c) (closed c).

(** One round of bound's loop, on the last element. *)
Definition drop_back (id : nat) (c : cache) : cache :=
  match heap c !! id with
  | None => c
  | Some e =>
      let c1 := kill id c in
      let c2 := if (floor c1 <? e_guard e)%Z then set_floor (e_guard e) c1 else c1 in
      let c3 := Remove id c2 in
      set_entries (delete (e_key e) (entries c3)) c3
  end.

(** bound; the loop goes round at most once per element. *)
Fixpoint bound_loop (fuel : nat) (cfg : config) (c : cache) : cache :=
  match fuel with
  | 0 => c
  | S fuel =>
      if (maxEntries cfg <? Z.of_nat (length (lru c)))%Z
      then match last (lru c) with Some id => bound_loop fuel cfg (drop_back id c) | None => c end
      else c
  end.
Definition bound (cfg : config) (c : cache) : cache := bound_loop (length (lru c)) cfg c.

(** ** The critical sections *)

Definition stamp (c : cache) (now : Time) : Z * Time := (seq c, now).

Definition get (cfg : config) (k : key) (now : Time) (c : cache) : option Decision * cache :=
  match entries c !! k with
  | None => (None, c)
  | Some id =>
      if closed c then (None, c)
      else match heap c !! id with
           | None => (None, c)
           | Some e =>
               if negb (e_live e) then (None, c)
               else if negb (fresh cfg c e now) then (None, kill id c)
               else (Some (e_decision e), MoveToFront id c)
           end
  end.

(** The loop that kills the live entries below a new watermark. *)
Definition kill_below (rev : Z) (c : cache) : cache :=
  foldl (fun c id => match heap c !! id with
                     | Some e => if e_live e && (PolicyRevision (e_decision e) <? rev)%Z then kill id c else c
                     | None => c
                     end) c (lru c).

Definition raise_watermark (d : Decision) (c : cache) : cache :=
  let rev := PolicyRevision d in
  if (watermark c <? rev)%Z then kill_below rev (set_watermark rev c) else c.

Definition set_guard (id : nat) (g : Z) (c : cache) : cache :=
  match heap c !! id with
  | Some e => set_heap (<[id := mkEntry (e_key e) (e_live e) (e_decision e) (e_asked e) g]> (heap c)) c
  | None => c
  end.

(** The element of a key, inserted if it has none. *)
Definition element (k : key) (c : cache) : nat * cache :=
  match entries c !! k with Some id => (id, c) | None => (next_id c, insert_key k c) end.

Definition tombstone (cfg : config) (k : key) (c : cache) : cache :=
  let c1 := set_seq (u64 (seq c + 1)) c in
  let '(id, c2) := element k c1 in
  let c3 := kill id c2 in
  bound cfg (MoveToFront id (set_guard id (seq c3) c3)).

Definition store (cfg : config) (k : key) (d : Decision) (asked : Time) (c : cache) : cache :=
  let '(id, c1) := element k c in
  match heap c1 !! id with
  | None => c1
  | Some old =>
      let c2 := if negb (e_live old) then set_allows (allows c1 + 1)%Z c1 else c1 in
      let c3 := set_heap (<[id := mkEntry k true d asked (e_guard old)]> (heap c2)) c2 in
      bound cfg (MoveToFront id c3)
  end.

(** stamp < el.Value.guard, when the key has an element. *)
Definition guarded (k : key) (stamp : Z) (c : cache) : bool :=
  match entries c !! k with
  | Some id => match heap c !! id with Some e => (stamp <? e_guard e)%Z | None => false end
  | None => false
  end.

Definition observe (cfg : config) (k : key) (d : Decision) (stamp : Z) (asked : Time) (now : Time) (c : cache) : cache :=
  if Decision_Local d then c
  else if closed c then c
  else let c1 := raise_watermark d c in
  if negb (Allowed d && Cacheable d) then tombstone cfg k c1
  else if (stamp <? lastFlush c1)%Z || (stamp <? floor c1)%Z then c1
  else if guarded k stamp c1 then c1
  else if negb (fresh cfg c1 (mkEntry k true d asked 0) now) then c1
  else store cfg k d asked c1.

Inductive cache_error := ErrCacheClosed.

Definition InvalidateAll (c : cache) : result cache_error unit * cache :=
  if closed c then (Err ErrCacheClosed, c)
  else let c1 := set_seq (u64 (seq c + 1)) c in (Ok tt, clear (set_lastFlush (seq c1) c1)).

(** Invalidate ignores the aggregate it names. *)
Definition Invalidate (aggregateType aggregateID : string) (revision : Z) (c : cache) : result cache_error unit * cache :=
  InvalidateAll c.

Definition Close (c : cache) : cache := clear (set_closed true c).

Definition Len (c : cache) : Z := allows c.

Definition belowWatermark (out : list Decision) (idx : list nat) (c : cache) : bool :=
  existsb (fun i => match out !! i with Some d => (PolicyRevision d <? watermark c)%Z | None => false end) idx.

(** ** Programs over critical sections *)

Section Programs.
Context {A K : Type} `{!Decider.Decider A K}.
Variable IsPrint : N -> bool.
Variable sha256 : string -> string.
Variable cfg : config.
(** The client, whether it and the cache are ready, and the context given. *)
Variable client : A.
Variable ready : bool.
Variable ctx : bool.
(** What happens around the [n]-th section of the program: the other goroutines' sections before
    it, the clock in it, and what a PDP call made then meets. *)
Variable inter : nat -> cache -> cache.
Variable clock : nat -> Time.
Variable world : nat -> K.

Definition M (B : Type) : Type := nat -> cache -> B * nat * cache.
Definition ret {B} (b : B) : M B := fun n c => (b, n, c).
Definition bind {B C} (m : M B) (f : B -> M C) : M C := fun n c => let '(b, n1, c1) := m n c in f b n1 c1.
(** mu.Lock ... mu.Unlock *)
Definition locked {B} (f : Time -> cache -> B * cache) : M B :=
  fun n c => let '(b, c1) := f (clock n) (inter n c) in (b, S n, c1).
(** A call to the PDP, outside the lock. *)
Definition calling {B} (f : K -> B) : M B := fun n c => (f (world n), S n, c).

Notation "'do!' x ':=' m 'in' k" := (bind m (fun x => k)) (at level 10, x pattern, m at level 100, k at level 200).

Definition do_get (k : key) : M (option Decision) := locked (fun now c => get cfg k now c).
Definition do_stamp : M (Z * Time) := locked (fun now c => (stamp c now, c)).
Definition do_observe (k : key) (d : Decision) (s : Z) (asked : Time) : M unit :=
  if Decision_Local d then ret tt else locked (fun now c => (tt, observe cfg k d s asked now c)).

Definition Decide (req : Request) : M Decision :=
  if negb ready then ret (deny (fail NotConfigured))
  else if negb ctx || negb (valid req) then ret (deny (fail LocalInvalid))
  else
    let k := cacheKey IsPrint sha256 req in
    do! hit := do_get k in
    match hit with
    | Some d => ret d
    | None =>
        do! (s, asked) := do_stamp in
        do! d := calling (fun w => Decider.Decide client w req) in
        do! _ := do_observe k d s asked in
        ret d
    end.

(** The loop over the requests: out, the hits and the misses. *)
Fixpoint lookups (reqs : list Request) : M (list (option Decision)) :=
  match reqs with
  | [] => ret []
  | r :: rest =>
      do! hit := do_get (cacheKey IsPrint sha256 r) in
      do! more := lookups rest in
      ret (hit :: more)
  end.

(** The positions of a list whose lookup hit, and those whose lookup missed. *)
Definition positions (hit : bool) (found : list (option Decision)) : list nat :=
  List.filter (fun i => match found !! i with
                        | Some (Some _) => hit
                        | Some None => negb hit
                        | None => false
                        end) (List.seq 0 (length found)).

(** for j, i := range idx: observe and out[i] = got[j]. *)
Fixpoint record_answers (reqs : list Request) (idx : list nat) (got : list Decision) (s : Z) (asked : Time)
    (out : list Decision) : M (list Decision) :=
  match idx, got with
  | i :: idx, d :: got =>
      match reqs !! i with
      | None => ret out
      | Some r =>
          do! _ := do_observe (cacheKey IsPrint sha256 r) d s asked in
          record_answers reqs idx got s asked (<[i := d]> out)
      end
  | _, _ => ret out
  end.

(** The *Error of a local deny of the client. *)
Definition first_local (got : list Decision) : option Error :=
  match filter (fun d => Decision_Local d = true) got with
  | d :: _ => Some (local_error d (fail NoDecision))
  | [] => None
  end.

Definition ask (reqs : list Request) (idx : list nat) (out : list Decision) : M (result Error (list Decision)) :=
  let sub := omap (fun i => reqs !! i) idx in
  do! (s, asked) := do_stamp in
  do! got := calling (fun w => Decider.DecideBatch client w sub) in
  match first_local got with
  | Some e => ret (Err e)
  | None => do! out := record_answers reqs idx got s asked out in ret (Ok out)
  end.

Definition do_below (out : list Decision) (idx : list nat) : M bool :=
  locked (fun _ c => (belowWatermark out idx c, c)).

Definition DecideBatch (reqs : list Request) : M (list Decision) :=
  if (length reqs =? 0) then ret []
  else if negb ready then ret (denyAll (fail NotConfigured) (length reqs))
  else if negb ctx || (MaxBatch <? length reqs) then ret (denyAll (fail LocalInvalid) (length reqs))
  else if negb (forallb valid reqs) then ret (denyAll (fail LocalInvalid) (length reqs))
  else
    do! found := lookups reqs in
    let out := map (fun o => default zero_decision o) found in
    let hits := positions true found in
    let misses := positions false found in
    do! asked := (if negb (length misses =? 0) then ask reqs misses out else ret (Ok out)) in
    match asked with
    | Err e => ret (denyAll e (length reqs))
    | Ok out =>
        do! below := do_below out hits in
        do! again := (if below : bool then ask reqs hits out else ret (Ok out)) in
        match again with
        | Err e => ret (denyAll e (length reqs))
        | Ok out => ret out
        end
    end.

End Programs.
End Cache.
