(* ===== verification/PepCacheSpec.v ===== *)
(** What the cache promises: an abstract machine over one list of entries, most recently used first,
    and the refinement theorem: every critical section of [Cache] on a well-formed state computes
    what the abstract machine does ([Spec.get_refines] and the like), and keeps the state
    well-formed: the map and the LRU list name the same elements, each once, [allows] counts the
    live ones and no more than maxEntries are held. *)
From S2P Require Import Prelude GoTime PepDecision PepRequest PepCache.

Module Spec.
Import GoTime Decision Cache.

(** * The abstract machine *)

Record acache := mkA {
  a_list : list cacheEntry; a_seq : Z; a_lastFlush : Z; a_floor : Z; a_watermark : Z; a_closed : bool }.

Definition has_key (k : key) (e : cacheEntry) : bool := String.eqb (e_key e) k.
Definition a_find (k : key) (l : list cacheEntry) : option cacheEntry := List.find (has_key k) l.
Definition others (k : key) (l : list cacheEntry) : list cacheEntry := List.filter (fun e => negb (has_key k e)) l.
Definition replace (k : key) (e' : cacheEntry) (l : list cacheEntry) : list cacheEntry :=
  map (fun e => if has_key k e then e' else e) l.

Definition a_fresh (cfg : config) (w : Z) (e : cacheEntry) (now : Time) : bool :=
  let age := Sub now (e_asked e) in
  (0 <=? age)%Z && (age <? maxTTL cfg)%Z && Before now (ExpiresAt (e_decision e))
  && (w <=? PolicyRevision (e_decision e))%Z.

(** Keep the [n] most recent; the stamps of what is dropped raise the floor. *)
Definition a_bound (cfg : config) (l : list cacheEntry) (fl : Z) : list cacheEntry * Z :=
  let n := Z.to_nat (maxEntries cfg) in
  (take n l, foldr (fun e acc => Z.max (e_guard e) acc) fl (drop n l)).

Definition with_list (l : list cacheEntry) (a : acache) : acache :=
  mkA l (a_seq a) (a_lastFlush a) (a_floor a) (a_watermark a) (a_closed a).

Definition a_get (cfg : config) (k : key) (now : Time) (a : acache) : option Decision * acache :=
  match a_find k (a_list a) with
  | None => (None, a)
  | Some e =>
      if a_closed a then (None, a)
      else if negb (e_live e) then (None, a)
      else if negb (a_fresh cfg (a_watermark a) e now) then (None, with_list (replace k (dead e) (a_list a)) a)
      else (Some (e_decision e), with_list (e :: others k (a_list a)) a)
  end.

Definition below (rev : Z) (e : cacheEntry) : cacheEntry :=
  if e_live e && (PolicyRevision (e_decision e) <? rev)%Z then dead e else e.

Definition a_raise (d : Decision) (a : acache) : acache :=
  if (a_watermark a <? PolicyRevision d)%Z
  then mkA (map (below (PolicyRevision d)) (a_list a)) (a_seq a) (a_lastFlush a) (a_floor a) (PolicyRevision d) (a_closed a)
  else a.

(** Put [e] in front of the entries of other keys, then bound. *)
Definition a_put (cfg : config) (e : cacheEntry) (a : acache) : acache :=
  let '(l, fl) := a_bound cfg (e :: others (e_key e) (a_list a)) (a_floor a) in
  mkA l (a_seq a) (a_lastFlush a) fl (a_watermark a) (a_closed a).

Definition old_asked (k : key) (a : acache) : Time := from_option e_asked zero_time (a_find k (a_list a)).
Definition old_guard (k : key) (a : acache) : Z := from_option e_guard 0%Z (a_find k (a_list a)).

Definition a_tombstone (cfg : config) (k : key) (a : acache) : acache :=
  let s := u64 (a_seq a + 1) in
  a_put cfg (mkEntry k false zero_decision (old_asked k a) s)
    (mkA (a_list a) s (a_lastFlush a) (a_floor a) (a_watermark a) (a_closed a)).

Definition a_observe (cfg : config) (k : key) (d : Decision) (stamp : Z) (asked now : Time) (a : acache) : acache :=
  if Decision_Local d then a
  else if a_closed a then a
  else let a1 := a_raise d a in
  if negb (Allowed d && Cacheable d) then a_tombstone cfg k a1
  else if (stamp <? a_lastFlush a1)%Z || (stamp <? a_floor a1)%Z then a1
  else if bool_decide (is_Some (a_find k (a_list a1))) && (stamp <? old_guard k a1)%Z then a1
  else if negb (a_fresh cfg (a_watermark a1) (mkEntry k true d asked 0) now) then a1
  else a_put cfg (mkEntry k true d asked (old_guard k a1)) a1.

Definition a_invalidate (a : acache) : result cache_error unit * acache :=
  if a_closed a then (Err ErrCacheClosed, a)
  else let s := u64 (a_seq a + 1) in (Ok tt, mkA [] s s (a_floor a) (a_watermark a) (a_closed a)).

Definition a_close (a : acache) : acache := mkA [] (a_seq a) (a_lastFlush a) (a_floor a) (a_watermark a) true.

Definition a_len (a : acache) : Z := Z.of_nat (length (List.filter e_live (a_list a))).

(** * The abstraction *)

(** The entries of the elements of a list, in order. *)
Fixpoint values (h : gmap nat cacheEntry) (l : list nat) : list cacheEntry :=
  match l with
  | [] => []
  | id :: l => match h !! id with Some e => e :: values h l | None => values h l end
  end.
Definition view (c : cache) : list cacheEntry := values (heap c) (lru c).
Definition abs (c : cache) : acache :=
  mkA (view c) (seq c) (lastFlush c) (floor c) (watermark c) (closed c).

Record WF (c : cache) : Prop := mkWF {
  wf_nodup : NoDup (lru c);
  wf_elem : forall id, id ∈ lru c -> exists e, heap c !! id = Some e /\ entries c !! e_key e = Some id;
  wf_keys : forall k id, entries c !! k = Some id -> id ∈ lru c /\ exists e, heap c !! id = Some e /\ e_key e = k;
  wf_next : forall id, id ∈ lru c -> id < next_id c;
  wf_allows : allows c = Z.of_nat (length (List.filter e_live (view c)));
  wf_dead : forall e, e ∈ view c -> e_live e = false -> e_decision e = zero_decision;
}.

Lemma values_cons h id e l : h !! id = Some e -> values h (id :: l) = e :: values h l.
Proof. intros H. simpl. rewrite H. reflexivity. Qed.

Lemma values_app h l k : values h (l ++ k) = values h l ++ values h k.
Proof. induction l as [|id l IH]; simpl; [reflexivity|]. rewrite IH. destruct (h !! id); reflexivity. Qed.

Lemma values_ext h h' l : (forall id, id ∈ l -> h' !! id = h !! id) -> values h' l = values h l.
Proof.
  induction l as [|id l IH]; intros H; [reflexivity|]. simpl.
  rewrite (H id) by left. rewrite IH by (intros; apply H; right; assumption). reflexivity.
Qed.

Lemma values_map (g : cacheEntry -> cacheEntry) h h' l :
  (forall id, id ∈ l -> h' !! id = g <$> (h !! id)) -> values h' l = map g (values h l).
Proof.
  induction l as [|id l IH]; intros H; [reflexivity|]. simpl. rewrite (H id) by left.
  rewrite IH by (intros; apply H; right; assumption). destruct (h !! id); reflexivity.
Qed.

Lemma elem_of_values h l e : e ∈ values h l <-> exists id, id ∈ l /\ h !! id = Some e.
Proof.
  induction l as [|x l IH]; simpl; [split; [intros H; inversion H | intros (id & H & _); inversion H]|].
  setoid_rewrite elem_of_cons. destruct (h !! x) as [ex|] eqn:E; [rewrite elem_of_cons|]; rewrite IH; naive_solver.
Qed.

Section Wf.
Context (c : cache) (Hwf : WF c).

(** Elements of the list with the same key are the same element. *)
Lemma wf_same_key id id' e e' :
  id ∈ lru c -> id' ∈ lru c -> heap c !! id = Some e -> heap c !! id' = Some e' -> e_key e = e_key e' -> id = id'.
Proof.
  intros Hi Hi' He He' Hk. destruct (wf_elem c Hwf id Hi) as (x & Hx & Hex). destruct (wf_elem c Hwf id' Hi') as (x' & Hx' & Hex').
  assert (x = e) by congruence. assert (x' = e') by congruence. subst. congruence.
Qed.

Lemma wf_entry k id : entries c !! k = Some id -> exists e, heap c !! id = Some e /\ e_key e = k /\ id ∈ lru c /\ e ∈ view c.
Proof.
  intros H. destruct (wf_keys c Hwf k id H) as (Hi & e & He & Hk). exists e. repeat split; auto.
  unfold view. apply elem_of_values. eauto.
Qed.

(** Looking a key up through the map is finding it in the list. *)
Lemma find_values l k :
  (forall id, id ∈ l -> id ∈ lru c) ->
  a_find k (values (heap c) l) = match entries c !! k with Some id => if bool_decide (id ∈ l) then heap c !! id else None | None => None end.
Proof.
  induction l as [|id l IH]; intros Hl.
  - simpl. destruct (entries c !! k); reflexivity.
  - destruct (wf_elem c Hwf id (Hl id ltac:(left))) as (e & He & Hk). rewrite (values_cons _ _ e) by exact He.
    unfold a_find in *. simpl. unfold has_key at 1. destruct (String.eqb_spec (e_key e) k) as [<-|Nk].
    + rewrite Hk, bool_decide_eq_true_2 by left. symmetry. exact He.
    + rewrite IH by (intros; apply Hl; right; assumption). destruct (entries c !! k) as [id'|] eqn:Ek; [|reflexivity].
      assert (id' <> id). { intros ->. destruct (wf_keys c Hwf k id Ek) as (_ & x & Hx & Hxk). congruence. }
      assert (Hiff : id' ∈ id :: l <-> id' ∈ l) by (rewrite elem_of_cons; naive_solver).
      destruct (decide (id' ∈ l)); [rewrite !bool_decide_eq_true_2 by tauto | rewrite !bool_decide_eq_false_2 by tauto]; reflexivity.
Qed.

Lemma find_view k : a_find k (view c) = match entries c !! k with Some id => heap c !! id | None => None end.
Proof.
  unfold view. rewrite find_values by auto. destruct (entries c !! k) as [id|] eqn:E; [|reflexivity].
  destruct (wf_keys c Hwf k id E) as [Hi _]. rewrite bool_decide_eq_true_2 by exact Hi. reflexivity.
Qed.

Lemma find_elem id e : id ∈ lru c -> heap c !! id = Some e -> a_find (e_key e) (view c) = Some e.
Proof.
  intros Hid He. rewrite find_view. destruct (wf_elem c Hwf id Hid) as (x & Hx & Hex).
  assert (x = e) by congruence. subst. rewrite Hex. exact He.
Qed.

(** The entries of the other elements are the entries of the other keys. *)
Lemma values_others l id e :
  (forall id, id ∈ l -> id ∈ lru c) -> id ∈ lru c -> heap c !! id = Some e ->
  values (heap c) (filter (.≠ id) l) = others (e_key e) (values (heap c) l).
Proof.
  intros Hl Hid He. induction l as [|x l IH]; [reflexivity|].
  destruct (wf_elem c Hwf x (Hl x ltac:(left))) as (ex & Hex & _). rewrite (values_cons (heap c) x ex) by exact Hex.
  unfold others in *. simpl. rewrite filter_cons. unfold has_key at 1.
  destruct (decide (x ≠ id)) as [Nx|Ex].
  - rewrite (values_cons _ _ ex) by exact Hex. rewrite IH by (intros; apply Hl; right; assumption).
    destruct (String.eqb_spec (e_key ex) (e_key e)) as [Ek|_]; [|reflexivity].
    destruct Nx. eapply wf_same_key; eauto. apply Hl. left.
  - assert (x = id) by (destruct (decide (x = id)); [assumption | contradiction]). subst x.
    assert (ex = e) by congruence. subst ex. rewrite String.eqb_refl. simpl. apply IH. intros; apply Hl; right; assumption.
Qed.

(** Writing an element's entry replaces the entry of its key. *)
Lemma values_insert l id e e' :
  (forall id, id ∈ l -> id ∈ lru c) -> id ∈ lru c -> heap c !! id = Some e ->
  values (<[id := e']> (heap c)) l = replace (e_key e) e' (values (heap c) l).
Proof.
  intros Hl Hid He. induction l as [|x l IH]; [reflexivity|].
  destruct (wf_elem c Hwf x (Hl x ltac:(left))) as (ex & Hex & _). rewrite (values_cons (heap c) x ex) by exact Hex.
  unfold replace in *. cbn [map]. unfold has_key at 1. destruct (decide (x = id)) as [->|Nx].
  - assert (ex = e) by congruence. subst ex. rewrite (values_cons (<[id := e']> (heap c)) id e') by apply lookup_insert_eq.
    rewrite String.eqb_refl. f_equal. apply IH. intros; apply Hl; right; assumption.
  - rewrite (values_cons (<[id := e']> (heap c)) x ex) by (rewrite lookup_insert_ne by congruence; exact Hex).
    rewrite IH by (intros; apply Hl; right; assumption).
    destruct (String.eqb_spec (e_key ex) (e_key e)) as [Ek|_]; [|reflexivity].
    destruct Nx. eapply wf_same_key; eauto. apply Hl. left.
Qed.

Lemma view_keys l : NoDup l -> (forall id, id ∈ l -> id ∈ lru c) -> NoDup (map e_key (values (heap c) l)).
Proof.
  induction 1 as [|x l Hx Hl IH]; intros Hin; [constructor|].
  destruct (wf_elem c Hwf x (Hin x ltac:(left))) as (e & He & _). rewrite (values_cons _ _ e) by exact He. simpl.
  constructor; [|apply IH; intros; apply Hin; right; assumption].
  intros Hk. apply list_elem_of_In, in_map_iff in Hk as (e' & Hk & He'). apply list_elem_of_In, elem_of_values in He' as (id & Hid & Hh).
  assert (x = id) by (eapply wf_same_key; eauto; [apply Hin; left | apply Hin; right; assumption]). subst. contradiction.
Qed.

Lemma view_nodup : NoDup (map e_key (view c)).
Proof. apply view_keys; [apply wf_nodup; exact Hwf | auto]. Qed.

End Wf.

(** The map has as many keys as the list has elements. *)
Lemma entries_size c : WF c -> size (entries c) = length (lru c).
Proof.
  intros Hwf.
  assert (Hp : (map_to_list (entries c)).*2 ≡ₚ lru c).
  { apply NoDup_Permutation; [|apply (wf_nodup c Hwf)|].
    - apply NoDup_fmap_2_strong; [|apply NoDup_map_to_list].
      intros [k id] [k' id'] H1 H2 Heq. simpl in Heq. subst id'. apply elem_of_map_to_list in H1, H2.
      destruct (wf_keys c Hwf k id H1) as (_ & e & He & <-). destruct (wf_keys c Hwf k' id H2) as (_ & e' & He' & <-). congruence.
    - intros id. rewrite list_elem_of_fmap. split.
      + intros ((k & id') & -> & H). apply elem_of_map_to_list in H. apply (wf_keys c Hwf k id'). exact H.
      + intros H. destruct (wf_elem c Hwf id H) as (e & _ & He). exists (e_key e, id). split; [reflexivity|]. apply elem_of_map_to_list. exact He. }
  apply Permutation_length in Hp. rewrite length_fmap in Hp. rewrite <-Hp. symmetry. apply length_map_to_list.
Qed.

(** * Lists of entries *)

Definition b2n (b : bool) : nat := if b then 1 else 0.
Definition live_count (l : list cacheEntry) : nat := length (List.filter e_live l).

Lemma live_count_cons e l : live_count (e :: l) = b2n (e_live e) + live_count l.
Proof. unfold live_count. simpl. destruct (e_live e); reflexivity. Qed.

Lemma live_count_app l k : live_count (l ++ k) = live_count l + live_count k.
Proof. unfold live_count. rewrite List.filter_app, length_app. reflexivity. Qed.

Lemma find_some k l e : a_find k l = Some e -> e_key e = k /\ e ∈ l.
Proof.
  unfold a_find. intros H. apply List.find_some in H as [Hin Hk]. apply String.eqb_eq in Hk. split; [exact Hk|]. apply list_elem_of_In. exact Hin.
Qed.

Lemma find_none k l : a_find k l = None <-> k ∉ map e_key l.
Proof.
  induction l as [|e l IH]; simpl; [split; [intros _; apply not_elem_of_nil | reflexivity]|].
  unfold a_find in *. simpl. unfold has_key at 1. rewrite not_elem_of_cons.
  destruct (String.eqb_spec (e_key e) k) as [->|N]; [split; [discriminate | intros [H _]; congruence]|]. rewrite IH. naive_solver.
Qed.

Lemma others_absent k l : k ∉ map e_key l -> others k l = l.
Proof.
  induction l as [|e l IH]; simpl; [reflexivity|]. rewrite not_elem_of_cons. intros [Hk Hl]. unfold has_key.
  destruct (String.eqb_spec (e_key e) k); [congruence|]. simpl. rewrite IH by exact Hl. reflexivity.
Qed.

Lemma replace_absent k e' l : k ∉ map e_key l -> replace k e' l = l.
Proof.
  induction l as [|e l IH]; simpl; [reflexivity|]. rewrite not_elem_of_cons. intros [Hk Hl]. unfold has_key.
  destruct (String.eqb_spec (e_key e) k); [congruence|]. rewrite IH by exact Hl. reflexivity.
Qed.

Lemma find_cons_absent k e l : NoDup (map e_key (e :: l)) -> e_key e = k -> k ∉ map e_key l.
Proof. simpl. rewrite NoDup_cons. intros [H _] <-. exact H. Qed.

Lemma live_count_replace k e e' l :
  NoDup (map e_key l) -> a_find k l = Some e -> live_count (replace k e' l) + b2n (e_live e) = live_count l + b2n (e_live e').
Proof.
  intros Hn. induction l as [|x l IH]; [discriminate|]. unfold a_find in *. simpl.
  destruct (has_key k x) eqn:Hk.
  - intros [= ->]. apply String.eqb_eq in Hk. pose proof (find_cons_absent k e l Hn Hk) as Ha.
    fold (replace k e' l). rewrite replace_absent, !live_count_cons by exact Ha. lia.
  - intros H. simpl in Hn. apply NoDup_cons in Hn as [_ Hn]. specialize (IH Hn H). fold (replace k e' l). rewrite !live_count_cons. lia.
Qed.

Lemma live_count_others k e l :
  NoDup (map e_key l) -> a_find k l = Some e -> live_count (others k l) + b2n (e_live e) = live_count l.
Proof.
  intros Hn. induction l as [|x l IH]; [discriminate|]. unfold a_find in *. simpl.
  destruct (has_key k x) eqn:Hk; simpl.
  - intros [= ->]. apply String.eqb_eq in Hk. pose proof (find_cons_absent k e l Hn Hk) as Ha.
    fold (others k l). rewrite others_absent, live_count_cons by exact Ha. lia.
  - intros H. simpl in Hn. apply NoDup_cons in Hn as [_ Hn]. specialize (IH Hn H). fold (others k l). rewrite !live_count_cons. lia.
Qed.

Lemma replace_self k e l : NoDup (map e_key l) -> a_find k l = Some e -> replace k e l = l.
Proof.
  intros Hn. induction l as [|x l IH]; [reflexivity|]. unfold a_find in *. simpl.
  destruct (has_key k x) eqn:Hk.
  - intros [= ->]. apply String.eqb_eq in Hk. pose proof (find_cons_absent k e l Hn Hk) as Ha.
    fold (replace k e l). rewrite replace_absent by exact Ha. reflexivity.
  - intros H. simpl in Hn. apply NoDup_cons in Hn as [_ Hn]. specialize (IH Hn H). fold (replace k e l). rewrite IH. reflexivity.
Qed.

Lemma others_replace k e' l : e_key e' = k -> others k (replace k e' l) = others k l.
Proof.
  intros He. induction l as [|x l IH]; [reflexivity|]. simpl. unfold has_key at 1. destruct (has_key k x) eqn:Hk; unfold has_key in Hk |- *.
  - rewrite He, String.eqb_refl. simpl. exact IH.
  - rewrite Hk. simpl. fold (others k l). f_equal. exact IH.
Qed.

Lemma others_cons_self k e l : e_key e = k -> others k (e :: l) = others k l.
Proof. intros He. simpl. unfold has_key. rewrite He, String.eqb_refl. reflexivity. Qed.

Lemma elem_of_others k l e : e ∈ others k l <-> e ∈ l /\ e_key e <> k.
Proof.
  unfold others. rewrite !list_elem_of_In, filter_In, negb_true_iff. unfold has_key. rewrite String.eqb_neq. reflexivity.
Qed.

Lemma elem_of_replace k e' l e : e ∈ replace k e' l -> e = e' \/ e ∈ l.
Proof.
  unfold replace. intros H. apply list_elem_of_In, in_map_iff in H as (x & Hx & Hin). apply list_elem_of_In in Hin.
  destruct (has_key k x); subst; auto.
Qed.

(** * The helpers refine *)

Definition b2z (b : bool) : Z := if b then 1 else 0.

(** Overwrite an element's entry by one of the same key, and count the change. *)
Definition write (id : nat) (e e' : cacheEntry) (c : cache) : cache :=
  set_allows (allows c - b2z (e_live e) + b2z (e_live e')) (set_heap (<[id := e']> (heap c)) c).

Lemma write_wf c id e e' :
  WF c -> id ∈ lru c -> heap c !! id = Some e -> e_key e' = e_key e ->
  (e_live e' = false -> e_decision e' = zero_decision) ->
  WF (write id e e' c) /\ view (write id e e' c) = replace (e_key e) e' (view c).
Proof.
  intros Hwf Hid He Hk Hd.
  assert (Hv : view (write id e e' c) = replace (e_key e) e' (view c)) by (unfold view; apply values_insert; auto).
  pose proof (find_elem c Hwf id e Hid He) as Hf.
  split; [|exact Hv]. split.
  - apply (wf_nodup c Hwf).
  - intros id' Hid'. simpl in *. destruct (wf_elem c Hwf id' Hid') as (x & Hx & Hex). destruct (decide (id = id')) as [<-|N].
    + exists e'. rewrite lookup_insert_eq. assert (x = e) by congruence. subst x. rewrite Hk. auto.
    + exists x. rewrite lookup_insert_ne by exact N. auto.
  - intros k id' Hk'. simpl in *. destruct (wf_keys c Hwf k id' Hk') as (Hi & x & Hx & Hxk). split; [exact Hi|].
    destruct (decide (id = id')) as [<-|N].
    + exists e'. rewrite lookup_insert_eq. assert (x = e) by congruence. subst x. split; [reflexivity | congruence].
    + exists x. rewrite lookup_insert_ne by exact N. auto.
  - apply (wf_next c Hwf).
  - rewrite Hv. fold (live_count (replace (e_key e) e' (view c))).
    pose proof (live_count_replace _ _ e' _ (view_nodup c Hwf) Hf) as Hcount. pose proof (wf_allows c Hwf) as Ha.
    fold (live_count (view c)) in Ha. simpl. rewrite Ha. unfold b2z, b2n in *. destruct (e_live e), (e_live e'); lia.
  - intros x Hx Hl. rewrite Hv in Hx. apply elem_of_replace in Hx as [->|Hx]; [auto | eapply wf_dead; eauto].
Qed.

(** The two ways a cache of the same list, map and heap is well-formed again. *)
Lemma wf_scalars c c' :
  WF c -> entries c' = entries c -> heap c' = heap c -> lru c' = lru c -> next_id c' = next_id c -> allows c' = allows c -> WF c'.
Proof. intros [H1 H2 H3 H4 H5 H6] E1 E2 E3 E4 E5. unfold view in *. split; unfold view; rewrite ?E1, ?E2, ?E3, ?E4, ?E5; assumption. Qed.

Lemma kill_refines c id e :
  WF c -> id ∈ lru c -> heap c !! id = Some e ->
  WF (kill id c) /\ abs (kill id c) = with_list (replace (e_key e) (dead e) (view c)) (abs c) /\
  entries (kill id c) = entries c /\ lru (kill id c) = lru c /\ heap (kill id c) !! id = Some (dead e) /\ next_id (kill id c) = next_id c.
Proof.
  intros Hwf Hid He. unfold kill. rewrite He.
  pose proof (find_elem c Hwf id e Hid He) as Hf.
  destruct (e_live e) eqn:El.
  - destruct (write_wf c id e (dead e) Hwf Hid He eq_refl) as [Hw Hv]; [reflexivity|].
    assert (E : write id e (dead e) c = set_allows (allows c - 1) (set_heap (<[id := dead e]> (heap c)) c)).
    { unfold write. rewrite El. simpl. unfold set_allows, set_heap. simpl. f_equal. lia. }
    rewrite E in *. split; [exact Hw|]. split; [unfold abs; rewrite Hv; reflexivity|]. simpl. rewrite lookup_insert_eq. auto.
  - assert (Hdead : dead e = e).
    { destruct (find_some _ _ _ Hf) as [_ Hin]. pose proof (wf_dead c Hwf e Hin El) as Hz. destruct e; simpl in *; subst; reflexivity. }
    rewrite Hdead, replace_self by (try apply view_nodup; assumption). auto 10.
Qed.

Lemma front_refines c id e :
  WF c -> id ∈ lru c -> heap c !! id = Some e ->
  WF (MoveToFront id c) /\ view (MoveToFront id c) = e :: others (e_key e) (view c).
Proof.
  intros Hwf Hid He.
  assert (Hv : view (MoveToFront id c) = e :: others (e_key e) (view c)).
  { unfold view, MoveToFront. simpl. rewrite He. f_equal. apply values_others; auto. }
  pose proof (find_elem c Hwf id e Hid He) as Hf.
  assert (Hin : forall x, x ∈ lru (MoveToFront id c) <-> x ∈ lru c).
  { intros x. simpl. rewrite elem_of_cons, list_elem_of_filter. destruct (decide (x = id)); naive_solver. }
  split; [|exact Hv]. split.
  - simpl. constructor; [rewrite list_elem_of_filter; naive_solver | apply NoDup_filter, (wf_nodup c Hwf)].
  - intros x Hx. apply Hin in Hx. exact (wf_elem c Hwf x Hx).
  - intros k x Hx. destruct (wf_keys c Hwf k x Hx) as [Hi He']. split; [apply Hin; exact Hi | exact He'].
  - intros x Hx. apply Hin in Hx. exact (wf_next c Hwf x Hx).
  - rewrite Hv. fold (live_count (e :: others (e_key e) (view c))). rewrite live_count_cons.
    pose proof (live_count_others _ _ _ (view_nodup c Hwf) Hf) as Hc. simpl. rewrite (wf_allows c Hwf). fold (live_count (view c)). lia.
  - intros x Hx Hl. rewrite Hv in Hx. apply elem_of_cons in Hx as [->|Hx].
    + destruct (find_some _ _ _ Hf) as [_ Hin']. eapply wf_dead; eauto.
    + apply elem_of_others in Hx as [Hx _]. eapply wf_dead; eauto.
Qed.

Definition blank (k : key) : cacheEntry := mkEntry k false zero_decision zero_time 0.

Lemma insert_refines c k :
  WF c -> entries c !! k = None -> WF (insert_key k c) /\ view (insert_key k c) = blank k :: view c.
Proof.
  intros Hwf Hk. assert (Hnew : forall id, id ∈ lru c -> id <> next_id c) by (intros id Hid ->; pose proof (wf_next c Hwf _ Hid); lia).
  assert (Hv : view (insert_key k c) = blank k :: view c).
  { unfold view. simpl. rewrite lookup_insert_eq. f_equal. apply values_ext. intros id Hid. apply lookup_insert_ne. apply not_eq_sym, Hnew, Hid. }
  split; [|exact Hv]. split; simpl.
  - constructor; [intros Hin; exact (Hnew _ Hin eq_refl) | apply (wf_nodup c Hwf)].
  - intros id Hid. apply elem_of_cons in Hid as [->|Hid].
    + eexists. rewrite lookup_insert_eq. split; [reflexivity|]. simpl. apply lookup_insert_eq.
    + destruct (wf_elem c Hwf id Hid) as (x & Hx & Hex). exists x. rewrite lookup_insert_ne by (apply not_eq_sym, Hnew, Hid).
      split; [exact Hx|]. rewrite lookup_insert_ne by congruence. exact Hex.
  - intros k' id Hid. destruct (decide (k = k')) as [<-|N].
    + rewrite lookup_insert_eq in Hid. injection Hid as <-. split; [left|]. eexists. rewrite lookup_insert_eq. split; reflexivity.
    + rewrite lookup_insert_ne in Hid by exact N. destruct (wf_keys c Hwf k' id Hid) as (Hi & x & Hx & Hxk).
      split; [right; exact Hi|]. exists x. rewrite lookup_insert_ne by (apply not_eq_sym, Hnew, Hi). auto.
  - intros id Hid. apply elem_of_cons in Hid as [->|Hid]; [lia|]. pose proof (wf_next c Hwf id Hid). lia.
  - rewrite Hv. simpl. apply (wf_allows c Hwf).
  - intros e He Hl. rewrite Hv in He. apply elem_of_cons in He as [->|He]; [reflexivity | eapply wf_dead; eauto].
Qed.

(** element gives the key's element, whose entry is the one found or a blank one. *)
Lemma element_refines c k :
  WF c -> let '(id, c') := element k c in
  WF c' /\ id ∈ lru c' /\ heap c' !! id = Some (default (blank k) (a_find k (view c))) /\
  e_key (default (blank k) (a_find k (view c))) = k /\
  others k (view c') = others k (view c) /\ seq c' = seq c /\ lastFlush c' = lastFlush c /\ floor c' = floor c /\
  watermark c' = watermark c /\ closed c' = closed c.
Proof.
  intros Hwf. unfold element. rewrite find_view by exact Hwf. destruct (entries c !! k) as [id|] eqn:Ek.
  - destruct (wf_entry c Hwf k id Ek) as (e & He & Hke & Hin & _). rewrite He. simpl. auto 12.
  - destruct (insert_refines c k Hwf Ek) as [Hw Hv]. split; [exact Hw|]. split; [simpl; left|]. simpl.
    rewrite lookup_insert_eq, Hv. repeat split. apply others_cons_self. reflexivity.
Qed.

Lemma filter_snoc (l : list nat) id : id ∉ l -> filter (.≠ id) (l ++ [id]) = l.
Proof.
  intros H. rewrite filter_app, (filter_cons_False _ id []), filter_nil, app_nil_r by (intros Hn; apply Hn; reflexivity).
  induction l as [|x l IH]; [reflexivity|]. rewrite not_elem_of_cons in H. destruct H as [Hx Hl].
  rewrite filter_cons_True by congruence. rewrite IH by exact Hl. reflexivity.
Qed.

(** What drop_back leaves. *)
Lemma drop_back_fields c id e l :
  heap c !! id = Some e -> lru c = l ++ [id] -> id ∉ l ->
  lru (drop_back id c) = l /\ entries (drop_back id c) = delete (e_key e) (entries c) /\
  (forall x, x <> id -> heap (drop_back id c) !! x = heap c !! x) /\ next_id (drop_back id c) = next_id c /\
  allows (drop_back id c) = (allows c - b2z (e_live e))%Z /\ floor (drop_back id c) = Z.max (e_guard e) (floor c) /\
  seq (drop_back id c) = seq c /\ lastFlush (drop_back id c) = lastFlush c /\ watermark (drop_back id c) = watermark c /\
  closed (drop_back id c) = closed c.
Proof.
  intros He Hl Hn. unfold drop_back, kill. rewrite He.
  destruct (e_live e); simpl; destruct (Z.ltb_spec (floor c) (e_guard e)); simpl; rewrite Hl, filter_snoc by exact Hn;
    repeat split; try lia; intros x Hx; try reflexivity; apply lookup_insert_ne; congruence.
Qed.

Lemma drop_back_refines c id l :
  WF c -> lru c = l ++ [id] ->
  exists e, view c = view (drop_back id c) ++ [e] /\ WF (drop_back id c) /\ lru (drop_back id c) = l /\
    floor (drop_back id c) = Z.max (e_guard e) (floor c) /\ seq (drop_back id c) = seq c /\
    lastFlush (drop_back id c) = lastFlush c /\ watermark (drop_back id c) = watermark c /\ closed (drop_back id c) = closed c.
Proof.
  intros Hwf Hl. pose proof (wf_nodup c Hwf) as Hnd. rewrite Hl in Hnd. apply NoDup_app in Hnd as (Hnl & Hdis & _).
  assert (Hn : id ∉ l) by (intros Hin; apply (Hdis id Hin); left).
  assert (Hid : id ∈ lru c) by (rewrite Hl; apply elem_of_app; right; left).
  assert (Hsub : forall x, x ∈ l -> x ∈ lru c /\ x <> id) by (intros x Hx; rewrite Hl, elem_of_app; split; [auto | congruence]).
  destruct (wf_elem c Hwf id Hid) as (e & He & Hek).
  destruct (drop_back_fields c id e l He Hl Hn) as (F1 & F2 & F3 & F4 & F5 & F6 & F7 & F8 & F9 & F10).
  assert (Hv : view (drop_back id c) = values (heap c) l).
  { unfold view. rewrite F1. apply values_ext. intros x Hx. apply F3. apply Hsub. exact Hx. }
  assert (Hvc : view c = view (drop_back id c) ++ [e]).
  { rewrite Hv. unfold view. rewrite Hl, values_app. simpl. rewrite He. reflexivity. }
  exists e. split; [exact Hvc|]. split; [|auto 10]. split.
  - rewrite F1. exact Hnl.
  - intros x Hx. rewrite F1 in Hx. destruct (Hsub x Hx) as [Hx' Nx]. destruct (wf_elem c Hwf x Hx') as (ex & Hex & Hk).
    exists ex. rewrite F3, F2 by exact Nx. split; [exact Hex|]. rewrite lookup_delete_ne; [exact Hk|].
    intros Ek. apply Nx. eapply (wf_same_key c Hwf); eauto.
  - intros k x Hx. rewrite F2 in Hx. apply lookup_delete_Some in Hx as [Nk Hx]. destruct (wf_keys c Hwf k x Hx) as (Hi & ex & Hex & Hkx).
    assert (Nx : x <> id) by (intros ->; congruence). rewrite F1, F3 by exact Nx. split; [|eauto].
    rewrite Hl, elem_of_app, list_elem_of_singleton in Hi. tauto.
  - intros x Hx. rewrite F1 in Hx. rewrite F4. apply (wf_next c Hwf). apply Hsub. exact Hx.
  - rewrite F5, (wf_allows c Hwf). fold (live_count (view c)) (live_count (view (drop_back id c))).
    rewrite Hvc, live_count_app, live_count_cons. unfold b2z, b2n, live_count. simpl. destruct (e_live e); lia.
  - intros x Hx Hlv. apply (wf_dead c Hwf); [|exact Hlv]. rewrite Hvc. apply elem_of_app. left. exact Hx.
Qed.

Lemma view_length c : WF c -> length (view c) = length (lru c).
Proof.
  intros Hwf. unfold view. assert (H : forall l, (forall id, id ∈ l -> id ∈ lru c) -> length (values (heap c) l) = length l).
  { induction l as [|x l IH]; intros Hl; [reflexivity|]. destruct (wf_elem c Hwf x (Hl x ltac:(left))) as (e & He & _).
    rewrite (values_cons _ _ e) by exact He. simpl. rewrite IH by (intros; apply Hl; right; assumption). reflexivity. }
  apply H. auto.
Qed.

(** bound keeps the first maxEntries entries and raises the floor by what it drops. *)
Lemma bound_loop_refines fuel cfg c :
  WF c -> (0 <= maxEntries cfg)%Z -> length (lru c) <= fuel ->
  WF (bound_loop fuel cfg c) /\
  abs (bound_loop fuel cfg c) =
    let '(l, fl) := a_bound cfg (view c) (floor c) in mkA l (seq c) (lastFlush c) fl (watermark c) (closed c).
Proof.
  intros Hwf Hmax. revert c Hwf. induction fuel as [|fuel IH]; intros c Hwf Hf.
  - assert (E : lru c = []) by (destruct (lru c); [reflexivity | simpl in Hf; lia]). simpl. split; [exact Hwf|].
    unfold abs, a_bound. assert (Ev : view c = []) by (unfold view; rewrite E; reflexivity). rewrite Ev, take_nil, drop_nil. reflexivity.
  - cbn [bound_loop]. unfold a_bound. set (n := Z.to_nat (maxEntries cfg)) in *.
    destruct (Z.ltb_spec (maxEntries cfg) (Z.of_nat (length (lru c)))) as [Hlt|Hge].
    + destruct (lru c) as [|x l] eqn:El using rev_ind; [simpl in Hlt; lia|]. clear IHl. rewrite last_snoc.
      destruct (drop_back_refines c x l Hwf El) as (e & Hv & Hw & Hl' & F1 & F2 & F3 & F4 & F5).
      destruct (IH (drop_back x c) Hw) as [IH1 IH2]; [rewrite Hl'; rewrite length_app in Hf; simpl in Hf; lia|].
      split; [exact IH1|]. rewrite IH2. unfold a_bound. fold n. rewrite Hv, F1, F2, F3, F4, F5.
      pose proof (view_length _ Hw) as Hlen. rewrite Hl' in Hlen. rewrite length_app in Hlt. simpl in Hlt.
      rewrite take_app_le, drop_app_le, foldr_app by lia. reflexivity.
    + split; [exact Hwf|]. pose proof (view_length c Hwf) as Hlen. unfold abs. rewrite take_ge, drop_ge by lia. reflexivity.
Qed.

Lemma bound_refines cfg c :
  WF c -> (0 <= maxEntries cfg)%Z ->
  WF (bound cfg c) /\
  abs (bound cfg c) = let '(l, fl) := a_bound cfg (view c) (floor c) in mkA l (seq c) (lastFlush c) fl (watermark c) (closed c).
Proof. intros Hwf Hmax. apply bound_loop_refines; auto. Qed.

(** ** The watermark *)

Lemma kill_other id x c : x <> id -> heap (kill id c) !! x = heap c !! x.
Proof. intros N. unfold kill. destruct (heap c !! id) as [e|]; [|reflexivity]. destruct (e_live e); simpl; [apply lookup_insert_ne; congruence | reflexivity]. Qed.

Lemma kill_scalars id c :
  seq (kill id c) = seq c /\ lastFlush (kill id c) = lastFlush c /\ floor (kill id c) = floor c /\
  watermark (kill id c) = watermark c /\ closed (kill id c) = closed c.
Proof. unfold kill. destruct (heap c !! id) as [e|]; [destruct (e_live e)|]; simpl; auto 10. Qed.

Definition kill_step (rev : Z) (c : cache) (id : nat) : cache :=
  match heap c !! id with
  | Some e => if e_live e && (PolicyRevision (e_decision e) <? rev)%Z then kill id c else c
  | None => c
  end.

Lemma kill_step_refines rev c id :
  WF c -> id ∈ lru c ->
  WF (kill_step rev c id) /\ lru (kill_step rev c id) = lru c /\ entries (kill_step rev c id) = entries c /\
  heap (kill_step rev c id) !! id = below rev <$> (heap c !! id) /\
  (forall x, x <> id -> heap (kill_step rev c id) !! x = heap c !! x) /\
  seq (kill_step rev c id) = seq c /\ lastFlush (kill_step rev c id) = lastFlush c /\ floor (kill_step rev c id) = floor c /\
  watermark (kill_step rev c id) = watermark c /\ closed (kill_step rev c id) = closed c.
Proof.
  intros Hwf Hid. destruct (wf_elem c Hwf id Hid) as (e & He & _). unfold kill_step. rewrite He. simpl. unfold below.
  destruct (e_live e && (PolicyRevision (e_decision e) <? rev)%Z); [|auto 12].
  destruct (kill_refines c id e Hwf Hid He) as (Hw & _ & He' & Hl' & Hh & _).
  split; [exact Hw|]. split; [exact Hl'|]. split; [exact He'|]. split; [exact Hh|]. split; [intros; apply kill_other; assumption|].
  apply kill_scalars.
Qed.

Lemma kill_steps rev l : forall c,
  WF c -> NoDup l -> (forall id, id ∈ l -> id ∈ lru c) ->
  let c' := foldl (kill_step rev) c l in
  WF c' /\ lru c' = lru c /\ (forall id, heap c' !! id = if bool_decide (id ∈ l) then below rev <$> (heap c !! id) else heap c !! id) /\
  seq c' = seq c /\ lastFlush c' = lastFlush c /\ floor c' = floor c /\ watermark c' = watermark c /\ closed c' = closed c.
Proof.
  induction l as [|x l IH]; intros c Hwf Hn Hl; [simpl; auto 12|].
  apply NoDup_cons in Hn as [Hx Hn]. destruct (kill_step_refines rev c x Hwf (Hl x ltac:(left))) as (Hw & Hlru & _ & Hh & Ho & S1 & S2 & S3 & S4 & S5).
  cbn [foldl]. destruct (IH (kill_step rev c x) Hw Hn) as (Hw' & Hlru' & Hh' & T1 & T2 & T3 & T4 & T5).
  { intros id Hid. rewrite Hlru. apply Hl. right. exact Hid. }
  split; [exact Hw'|]. split; [congruence|]. split; [|repeat split; congruence].
  intros id. rewrite Hh'. destruct (decide (id = x)) as [->|N].
  - rewrite bool_decide_eq_false_2 by exact Hx. rewrite bool_decide_eq_true_2 by left. exact Hh.
  - rewrite Ho by exact N. assert (Hiff : id ∈ x :: l <-> id ∈ l) by (rewrite elem_of_cons; naive_solver).
    destruct (decide (id ∈ l)); [rewrite !bool_decide_eq_true_2 by tauto | rewrite !bool_decide_eq_false_2 by tauto]; reflexivity.
Qed.

Lemma raise_refines d c : WF c -> WF (raise_watermark d c) /\ abs (raise_watermark d c) = a_raise d (abs c).
Proof.
  intros Hwf. unfold raise_watermark, a_raise. simpl. destruct (watermark c <? PolicyRevision d)%Z; [|auto].
  set (c0 := set_watermark (PolicyRevision d) c). assert (Hw0 : WF c0) by (eapply wf_scalars; [exact Hwf | reflexivity..]).
  unfold kill_below. fold (kill_step (PolicyRevision d)).
  destruct (kill_steps (PolicyRevision d) (lru c0) c0 Hw0 (wf_nodup c0 Hw0) ltac:(auto)) as (Hw & Hl & Hh & S1 & S2 & S3 & S4 & S5).
  split; [exact Hw|]. unfold abs. rewrite S1, S2, S3, S4, S5. f_equal. unfold view. rewrite Hl. apply values_map.
  intros id Hid. rewrite Hh. rewrite bool_decide_eq_true_2 by exact Hid. reflexivity.
Qed.

(** ** Tombstones and stores *)

Lemma put_front c id e e' cfg :
  WF c -> (0 <= maxEntries cfg)%Z -> id ∈ lru c -> heap c !! id = Some e -> e_key e' = e_key e ->
  (e_live e' = false -> e_decision e' = zero_decision) ->
  WF (bound cfg (MoveToFront id (write id e e' c))) /\
  abs (bound cfg (MoveToFront id (write id e e' c))) =
    let '(l, fl) := a_bound cfg (e' :: others (e_key e') (view c)) (floor c) in mkA l (seq c) (lastFlush c) fl (watermark c) (closed c).
Proof.
  intros Hwf Hmax Hid He Hk Hd. destruct (write_wf c id e e' Hwf Hid He Hk Hd) as [Hw Hv].
  destruct (front_refines (write id e e' c) id e' Hw Hid) as [Hf Hfv]; [simpl; apply lookup_insert_eq|].
  destruct (bound_refines cfg _ Hf Hmax) as [Hb Hbv]. split; [exact Hb|]. rewrite Hbv, Hfv, Hv, <-Hk, others_replace by reflexivity. reflexivity.
Qed.

(** kill and the guard, as one write. *)
Lemma kill_guard c id e :
  WF c -> id ∈ lru c -> heap c !! id = Some e ->
  set_guard id (seq (kill id c)) (kill id c) = write id e (mkEntry (e_key e) false zero_decision (e_asked e) (seq c)) c.
Proof.
  intros Hwf Hid He. destruct (kill_scalars id c) as (-> & _). unfold set_guard, kill, write. rewrite He. destruct (e_live e) eqn:El; simpl.
  - rewrite lookup_insert_eq. simpl. unfold set_heap, set_allows. simpl. rewrite insert_insert_eq. f_equal. lia.
  - rewrite He. assert (Hz : e_decision e = zero_decision).
    { apply (wf_dead c Hwf); [|exact El]. unfold view. apply elem_of_values. eauto. }
    rewrite El, Hz. unfold set_heap, set_allows. simpl. f_equal. lia.
Qed.

Lemma tombstone_refines cfg k c :
  WF c -> (0 <= maxEntries cfg)%Z -> WF (tombstone cfg k c) /\ abs (tombstone cfg k c) = a_tombstone cfg k (abs c).
Proof.
  intros Hwf Hmax. unfold tombstone, a_tombstone, a_put. set (s := u64 (seq c + 1)). set (c1 := set_seq s c).
  assert (Hw1 : WF c1) by (eapply wf_scalars; [exact Hwf | reflexivity..]).
  pose proof (element_refines c1 k Hw1) as He. destruct (element k c1) as [id c2].
  destruct He as (Hw2 & Hid & Hh & Hke & Ho & S1 & S2 & S3 & S4 & S5).
  assert (Ha : e_asked (default (blank k) (a_find k (view c1))) = old_asked k (abs c)).
  { unfold old_asked. change (view c1) with (a_list (abs c)). destruct (a_find k (a_list (abs c))); reflexivity. }
  set (e := default (blank k) (a_find k (view c1))) in *.
  rewrite (kill_guard c2 id e Hw2 Hid Hh), Hke, Ha, S1.
  destruct (put_front c2 id e (mkEntry k false zero_decision (old_asked k (abs c)) s) cfg Hw2 Hmax Hid Hh) as [Hb Hbv];
    [simpl; congruence | reflexivity|]. split; [exact Hb|]. unfold c1 in *. cbn [seq set_seq] in *. rewrite Hbv.
  cbn [e_key a_list abs] in *. rewrite Ho, S1, S2, S3, S4, S5. reflexivity.
Qed.

Lemma store_refines cfg k d asked c :
  WF c -> (0 <= maxEntries cfg)%Z ->
  WF (store cfg k d asked c) /\ abs (store cfg k d asked c) = a_put cfg (mkEntry k true d asked (old_guard k (abs c))) (abs c).
Proof.
  intros Hwf Hmax. unfold store, a_put. pose proof (element_refines c k Hwf) as He. destruct (element k c) as [id c1].
  destruct He as (Hw1 & Hid & Hh & Hke & Ho & S1 & S2 & S3 & S4 & S5). rewrite Hh.
  assert (Hg : e_guard (default (blank k) (a_find k (view c))) = old_guard k (abs c)).
  { unfold old_guard. change (view c) with (a_list (abs c)). destruct (a_find k (a_list (abs c))); reflexivity. }
  set (e := default (blank k) (a_find k (view c))) in *. rewrite Hg.
  set (e' := mkEntry k true d asked (old_guard k (abs c))).
  assert (E : (let c2 := if negb (e_live e) then set_allows (allows c1 + 1) c1 else c1 in set_heap (<[id := e']> (heap c2)) c2) = write id e e' c1).
  { unfold write. destruct (e_live e); simpl; unfold set_heap, set_allows; simpl; f_equal; lia. }
  cbv zeta in E. cbv zeta. rewrite E.
  destruct (put_front c1 id e e' cfg Hw1 Hmax Hid Hh) as [Hb Hbv]; [simpl; congruence | discriminate|].
  split; [exact Hb|]. rewrite Hbv. cbn [e_key e' a_list abs]. rewrite Ho, S1, S2, S3, S4, S5. reflexivity.
Qed.

(** ** The critical sections *)

Lemma get_refines cfg k now c :
  WF c -> WF (get cfg k now c).2 /\ a_get cfg k now (abs c) = ((get cfg k now c).1, abs (get cfg k now c).2).
Proof.
  intros Hwf. unfold get, a_get. cbn [a_list abs a_closed a_watermark]. rewrite find_view by exact Hwf.
  destruct (entries c !! k) as [id|] eqn:Ek; [|auto].
  destruct (wf_entry c Hwf k id Ek) as (e & He & Hke & Hid & _). rewrite He.
  destruct (closed c); [auto|]. destruct (e_live e) eqn:El; cbn [negb]; [|auto].
  change (a_fresh cfg (watermark c) e now) with (fresh cfg c e now). destruct (fresh cfg c e now); cbn [negb fst snd].
  - destruct (front_refines c id e Hwf Hid He) as [Hw Hv]. split; [exact Hw|]. rewrite <-Hke. f_equal. unfold abs, with_list. rewrite Hv. reflexivity.
  - destruct (kill_refines c id e Hwf Hid He) as (Hw & Hv & _). split; [exact Hw|]. rewrite Hv, Hke. reflexivity.
Qed.

Lemma guarded_find k stamp c :
  WF c -> guarded k stamp c = bool_decide (is_Some (a_find k (view c))) && (stamp <? old_guard k (abs c))%Z.
Proof.
  intros Hwf. unfold guarded, old_guard. cbn [abs a_list]. rewrite find_view by exact Hwf.
  destruct (entries c !! k) as [id|] eqn:Ek; [|reflexivity].
  destruct (wf_entry c Hwf k id Ek) as (e & He & _). rewrite He. reflexivity.
Qed.

Lemma observe_refines cfg k d stamp asked now c :
  WF c -> (0 <= maxEntries cfg)%Z ->
  WF (observe cfg k d stamp asked now c) /\
  abs (observe cfg k d stamp asked now c) = a_observe cfg k d stamp asked now (abs c).
Proof.
  intros Hwf Hmax. unfold observe, a_observe. destruct (Decision_Local d); [auto|]. cbn [abs a_closed]. destruct (closed c); [auto|].
  destruct (raise_refines d c Hwf) as [Hw Ha]. rewrite <-Ha. set (c1 := raise_watermark d c) in *. clearbody c1. clear c Hwf Ha.
  destruct (negb (Allowed d && Cacheable d)); [apply tombstone_refines; assumption|].
  cbn [abs a_lastFlush a_floor a_list a_watermark]. destruct ((stamp <? lastFlush c1)%Z || (stamp <? floor c1)%Z); [auto|].
  rewrite <-guarded_find by exact Hw. destruct (guarded k stamp c1); [auto|].
  change (a_fresh cfg (watermark c1) (mkEntry k true d asked 0) now) with (fresh cfg c1 (mkEntry k true d asked 0) now).
  destruct (fresh cfg c1 _ now); cbn [negb]; [|auto]. apply store_refines; assumption.
Qed.

Lemma clear_wf c : WF (clear c) /\ abs (clear c) = mkA [] (seq c) (lastFlush c) (floor c) (watermark c) (closed c).
Proof.
  split; [|reflexivity]. split; simpl; try (intros; set_solver); reflexivity || constructor.
Qed.

Lemma invalidate_refines c :
  WF c -> WF (InvalidateAll c).2 /\ a_invalidate (abs c) = ((InvalidateAll c).1, abs (InvalidateAll c).2).
Proof.
  intros Hwf. unfold InvalidateAll, a_invalidate. cbn [abs a_closed]. destruct (closed c) eqn:E; [auto|]. cbn [fst snd].
  split; [apply clear_wf|]. rewrite (proj2 (clear_wf _)). simpl. rewrite E. reflexivity.
Qed.

Lemma close_refines c : WF (Close c) /\ abs (Close c) = a_close (abs c).
Proof. split; [apply clear_wf | reflexivity]. Qed.

Lemma empty_wf : WF empty_cache.
Proof.
  split; simpl; try (intros; set_solver); reflexivity || constructor.
Qed.

(** * Runs *)

(** The critical sections, as events: a lookup, a stamp with the values it gave, an answer
    recorded, a flush, a close. Len and belowWatermark read only. *)
Inductive event :=
| EGet (k : key) (now : Time)
| EStamp (s : Z) (asked : Time)
| EObserve (k : key) (d : Decision) (s : Z) (asked now : Time)
| EInvalidate
| EClose.

Definition run (cfg : config) (c : cache) (ev : event) : cache :=
  match ev with
  | EGet k now => (get cfg k now c).2
  | EStamp _ _ => c
  | EObserve k d s asked now => observe cfg k d s asked now c
  | EInvalidate => (InvalidateAll c).2
  | EClose => Close c
  end.

Definition a_run (cfg : config) (a : acache) (ev : event) : acache :=
  match ev with
  | EGet k now => (a_get cfg k now a).2
  | EStamp _ _ => a
  | EObserve k d s asked now => a_observe cfg k d s asked now a
  | EInvalidate => (a_invalidate a).2
  | EClose => a_close a
  end.

Lemma run_refines cfg c ev : WF c -> (0 <= maxEntries cfg)%Z -> WF (run cfg c ev) /\ abs (run cfg c ev) = a_run cfg (abs c) ev.
Proof.
  intros Hwf Hmax. destruct ev as [k now|s asked|k d s asked now| |]; simpl.
  - destruct (get_refines cfg k now c Hwf) as [Hw ->]. auto.
  - auto.
  - apply observe_refines; assumption.
  - destruct (invalidate_refines c Hwf) as [Hw ->]. auto.
  - apply close_refines.
Qed.

Definition exec (cfg : config) (tr : list event) : cache := foldl (run cfg) empty_cache tr.
Definition a_exec (cfg : config) (tr : list event) : acache := foldl (a_run cfg) (abs empty_cache) tr.

Lemma foldl_snoc {S E} (f : S -> E -> S) s l x : foldl f s (l ++ [x]) = f (foldl f s l) x.
Proof. rewrite foldl_app. reflexivity. Qed.

Lemma exec_refines cfg tr : (0 <= maxEntries cfg)%Z -> WF (exec cfg tr) /\ abs (exec cfg tr) = a_exec cfg tr.
Proof.
  intros Hmax. unfold exec, a_exec. induction tr as [|ev tr IH] using rev_ind; [split; [apply empty_wf | reflexivity]|].
  rewrite !foldl_snoc. destruct IH as [Hw Ha]. destruct (run_refines cfg _ ev Hw Hmax) as [Hw' Ha']. rewrite Ha', Ha. auto.
Qed.

(** The bound holds after every section. *)
Lemma replace_length k e l : length (replace k e l) = length l.
Proof. apply length_map. Qed.

Lemma others_length k l e : a_find k l = Some e -> length (e :: others k l) <= length l.
Proof.
  induction l as [|x l IH]; [discriminate|]. unfold a_find in *. simpl. destruct (has_key k x) eqn:Hk; simpl.
  - intros _. pose proof (filter_length_le (fun e => negb (has_key k e)) l). unfold others. lia.
  - intros H. specialize (IH H). simpl in IH. fold (others k l). lia.
Qed.

Lemma put_length cfg e a : length (a_list (a_put cfg e a)) <= Z.to_nat (maxEntries cfg).
Proof. unfold a_put, a_bound. simpl. rewrite length_take; lia. Qed.

Lemma a_run_bound cfg a ev :
  length (a_list a) <= Z.to_nat (maxEntries cfg) -> length (a_list (a_run cfg a ev)) <= Z.to_nat (maxEntries cfg).
Proof.
  intros H. assert (Hr : forall d, length (a_list (a_raise d a)) = length (a_list a)).
  { intros d. unfold a_raise. case_match; [apply length_map | reflexivity]. }
  destruct ev as [k now|s asked|k d s asked now| |]; simpl; [|exact H| | |lia].
  - unfold a_get. destruct (a_find k (a_list a)) as [e|] eqn:E; [|exact H]. destruct (a_closed a); [exact H|].
    destruct (negb (e_live e)); [exact H|]. destruct (negb _); cbn [snd with_list a_list]; [rewrite replace_length; exact H|].
    pose proof (others_length _ _ _ E). lia.
  - unfold a_observe. destruct (Decision_Local d); [exact H|]. destruct (a_closed a); [exact H|].
    destruct (negb _); [apply put_length|]. repeat case_match; try (rewrite Hr; exact H). apply put_length.
  - unfold a_invalidate. destruct (a_closed a); simpl; [exact H | lia].
Qed.

Lemma exec_bound cfg tr : (0 <= maxEntries cfg)%Z -> length (a_list (a_exec cfg tr)) <= Z.to_nat (maxEntries cfg).
Proof.
  intros Hmax. unfold a_exec. induction tr as [|ev tr IH] using rev_ind; [simpl; lia|]. rewrite foldl_snoc. apply a_run_bound. exact IH.
Qed.

(** C6: the cache refines the abstract LRU machine. After any sequence of critical sections from a new
    cache, the pointer structure is well-formed (the map and the LRU list name the same elements,
    each once, and every element's entry is of the key that maps to it), its state is the abstract
    machine's, a further lookup gives the abstract machine's answer, Len counts the live entries,
    and the entries, tombstones included, number at most maxEntries. *)
Theorem cache_refines_lru cfg tr k now :
  (0 <= maxEntries cfg)%Z ->
  let c := exec cfg tr in
  WF c /\ abs c = a_exec cfg tr /\
  a_get cfg k now (a_exec cfg tr) = ((get cfg k now c).1, abs (get cfg k now c).2) /\
  Len c = a_len (a_exec cfg tr) /\ size (entries c) = length (lru c) /\ (Z.of_nat (length (lru c)) <= maxEntries cfg)%Z.
Proof.
  intros Hmax c. destruct (exec_refines cfg tr Hmax) as [Hw Ha]. fold c in Hw, Ha. split; [exact Hw|]. split; [exact Ha|].
  rewrite <-Ha. split; [apply get_refines; exact Hw|]. split; [apply (wf_allows c Hw)|].
  pose proof (exec_bound cfg tr Hmax) as Hb. rewrite <-Ha in Hb. cbn [abs a_list] in Hb. rewrite (view_length c Hw) in Hb.
  split; [|lia]. apply entries_size. exact Hw.
Qed.

(** The theorem on a run with an allow, a deny and a lookup. *)
Lemma cache_refines_lru_witness :
  let cfg := mkCfg 2 DefaultCacheTTL in
  let d := mkDecision true AllowedByRole None "" "" "" false 1 (at_ns 100) true (NewObligations zero_spec) in
  let deny_b := mkDecision false GrantAbsent None "" "" "" false 1 (at_ns 100) false zero_obligations in
  let tr := [EStamp 0 (at_ns 5); EObserve "a" d 0 (at_ns 5) (at_ns 6); EObserve "b" deny_b 0 (at_ns 5) (at_ns 6)] in
  (0 <= maxEntries cfg)%Z /\ (get cfg "a" (at_ns 7) (exec cfg tr)).1 = Some d /\ Len (exec cfg tr) = a_len (a_exec cfg tr).
Proof.
  intros cfg d deny_b tr. split; [vm_compute; discriminate|]. split; [vm_compute; reflexivity|].
  apply (cache_refines_lru cfg tr "a" (at_ns 7)). vm_compute. discriminate.
Defined.

End Spec.
