(* ===== verification/PepCacheSafety.v ===== *)
(** What the cache guarantees about the allows it serves, over every interleaving of critical
    sections: an allow that is served was asked for (its stamp was taken) after the last deny of its
    key and after the last flush, is of the newest policy revision any verdict showed, and is
    younger than MaxTTL. The argument follows the source's: stamps, guards, the flush mark and the
    floor that a dropped tombstone leaves ([barrier]). *)
From S2P Require Import Prelude GoTime PepDecision PepRequest PepDecider PepWire PepCacheKey PepCache PepCacheSpec.

Module Safety.
Import GoTime Decision Cache Spec.

(** The smallest stamp an allow of [k] may carry to be stored. *)
Definition barrier (a : acache) (k : key) : Z := Z.max (a_lastFlush a) (Z.max (a_floor a) (old_guard k a)).

(** An event after which no earlier answer for [k] may be stored or served: a flush, a close, or a
    PDP verdict on [k] that is not a cacheable allow. *)
Definition invalidates (k : key) (ev : event) : Prop :=
  match ev with
  | EInvalidate | EClose => True
  | EObserve k' d _ _ _ => k' = k /\ Decision_Local d = false /\ Allowed d && Cacheable d = false
  | _ => False
  end.

Section Safety.
Variable cfg : config.
Hypothesis Hmax : (0 <= maxEntries cfg)%Z.

(** A trace of the program: a stamp gives the counter's value, and an answer is recorded with a
    stamp that was taken, and its time. *)
Inductive valid : list event -> Prop :=
| valid_nil : valid []
| valid_snoc tr ev : valid tr ->
    match ev with
    | EStamp s _ => s = seq (exec cfg tr)
    | EObserve _ _ s asked _ => EStamp s asked ∈ tr
    | _ => True
    end -> valid (tr ++ [ev]).

Lemma valid_last tr ev : valid (tr ++ [ev]) ->
  valid tr /\ match ev with EStamp s _ => s = seq (exec cfg tr) | EObserve _ _ s asked _ => EStamp s asked ∈ tr | _ => True end.
Proof.
  remember (tr ++ [ev]) as l eqn:E. intros H. destruct H as [|tr' ev' Hv He].
  - symmetry in E. apply app_eq_nil in E as [_ [=]].
  - apply app_inj_tail in E as [-> ->]. auto.
Qed.

Lemma valid_prefix t1 t2 : valid (t1 ++ t2) -> valid t1.
Proof.
  induction t2 as [|ev t2 IH] using rev_ind; [rewrite app_nil_r; auto|]. rewrite app_assoc. intros H.
  apply IH. apply valid_last in H as [H _]. exact H.
Qed.

(** ** The counters *)

(** Guards, the flush mark and the floor never pass the counter, which does not wrap. *)
Record counters (n : nat) (a : acache) : Prop := mkCounters {
  c_seq : (0 <= a_seq a <= Z.of_nat n)%Z;
  c_flush : (0 <= a_lastFlush a <= a_seq a)%Z;
  c_floor : (0 <= a_floor a <= a_seq a)%Z;
  c_guard : forall e, e ∈ a_list a -> (0 <= e_guard e <= a_seq a)%Z;
}.

Lemma guard_range n a k : counters n a -> (0 <= old_guard k a <= a_seq a)%Z.
Proof.
  intros H. unfold old_guard. destruct (a_find k (a_list a)) as [e|] eqn:E; simpl; [|pose proof (c_seq n a H); lia].
  apply (c_guard n a H). apply find_some in E as [_ E]. exact E.
Qed.

Lemma find_map k (g : cacheEntry -> cacheEntry) l :
  (forall e, e_key (g e) = e_key e) -> a_find k (map g l) = g <$> a_find k l.
Proof.
  intros Hk. induction l as [|e l IH]; [reflexivity|]. unfold a_find in *. simpl. unfold has_key at 1 3. rewrite Hk.
  destruct (String.eqb (e_key e) k); [reflexivity | exact IH].
Qed.

Lemma below_key rev e : e_key (below rev e) = e_key e.
Proof. unfold below. destruct (_ && _); reflexivity. Qed.
Lemma below_guard rev e : e_guard (below rev e) = e_guard e.
Proof. unfold below. destruct (_ && _); reflexivity. Qed.

Lemma raise_counters n d a : counters n a -> counters n (a_raise d a).
Proof.
  intros [H1 H2 H3 H4]. unfold a_raise. destruct (_ <? _)%Z; [|split; assumption]. split; simpl; auto.
  intros e He. apply list_elem_of_In, in_map_iff in He as (x & <- & Hx). rewrite below_guard. apply H4, list_elem_of_In. exact Hx.
Qed.

Lemma raise_old_guard d a k : old_guard k (a_raise d a) = old_guard k a.
Proof.
  unfold old_guard, a_raise. destruct (_ <? _)%Z; [|reflexivity]. simpl. rewrite find_map by apply below_key.
  destruct (a_find k (a_list a)); simpl; [apply below_guard | reflexivity].
Qed.

Lemma raise_barrier d a k : barrier (a_raise d a) k = barrier a k.
Proof. unfold barrier. rewrite raise_old_guard. unfold a_raise. destruct (_ <? _)%Z; reflexivity. Qed.

Lemma floor_fold fl l : (fl <= foldr (fun e acc => Z.max (e_guard e) acc) fl l)%Z /\
  (forall e, e ∈ l -> (e_guard e <= foldr (fun e acc => Z.max (e_guard e) acc) fl l)%Z).
Proof.
  induction l as [|x l [IH1 IH2]]; simpl; [split; [lia | intros e He; inversion He]|].
  split; [lia|]. intros e He. apply elem_of_cons in He as [->|He]; [lia|]. specialize (IH2 e He). lia.
Qed.

Lemma floor_fold_le fl l b : (fl <= b)%Z -> (forall e, e ∈ l -> (e_guard e <= b)%Z) -> (foldr (fun e acc => Z.max (e_guard e) acc) fl l <= b)%Z.
Proof.
  intros Hb. induction l as [|x l IH]; simpl; intros H; [exact Hb|].
  specialize (IH ltac:(intros; apply H; right; assumption)). specialize (H x ltac:(left)). lia.
Qed.

Lemma put_counters n e a : counters n a -> (0 <= e_guard e <= a_seq a)%Z -> counters n (a_put cfg e a).
Proof.
  intros [H1 H2 H3 H4] He. unfold a_put, a_bound. set (l := e :: others (e_key e) (a_list a)).
  assert (Hl : forall x, x ∈ l -> (0 <= e_guard x <= a_seq a)%Z).
  { intros x Hx. unfold l in Hx. apply elem_of_cons in Hx as [->|Hx]; [exact He|]. apply elem_of_others in Hx as [Hx _]. auto. }
  split; simpl; auto.
  - split; [pose proof (proj1 (floor_fold (a_floor a) (drop (Z.to_nat (maxEntries cfg)) l))); lia|].
    apply floor_fold_le; [lia|]. intros x Hx. apply Hl. eapply subseteq_drop. exact Hx.
  - intros x Hx. apply Hl. eapply subseteq_take. exact Hx.
Qed.

(** ** The barrier only rises *)

Lemma find_others k k' l : k <> k' -> a_find k (others k' l) = a_find k l.
Proof.
  intros N. induction l as [|e l IH]; [reflexivity|]. cbn [others List.filter]. unfold has_key at 1.
  destruct (String.eqb_spec (e_key e) k') as [Ek|N']; cbn [negb]; fold (others k' l).
  - rewrite IH. unfold a_find at 2. simpl. unfold has_key at 1. destruct (String.eqb_spec (e_key e) k); [congruence | reflexivity].
  - unfold a_find in *. simpl. destruct (has_key k e); [reflexivity | exact IH].
Qed.

Lemma find_app k l l' : a_find k (l ++ l') = match a_find k l with Some e => Some e | None => a_find k l' end.
Proof. induction l as [|e l IH]; [reflexivity|]. unfold a_find in *. simpl. destruct (has_key k e); [reflexivity | exact IH]. Qed.

(** A found entry is among the kept ones, or its guard is below the floor. *)
Lemma bound_guard l fl k :
  (from_option e_guard 0 (a_find k l) <= Z.max (a_bound cfg l fl).2 (from_option e_guard 0 (a_find k (a_bound cfg l fl).1)))%Z.
Proof.
  unfold a_bound. set (n := Z.to_nat (maxEntries cfg)). simpl.
  rewrite <-(take_drop n l) at 1. rewrite find_app.
  destruct (a_find k (take n l)) as [e|] eqn:E; simpl; [lia|].
  destruct (a_find k (drop n l)) as [e|] eqn:E2; simpl; [|lia].
  apply find_some in E2 as [_ Hin]. pose proof (proj2 (floor_fold fl (drop n l)) e Hin). lia.
Qed.

Lemma put_barrier e a k :
  (old_guard (e_key e) a <= e_guard e)%Z ->
  (barrier a k <= barrier (a_put cfg e a) k)%Z /\ (k = e_key e -> (e_guard e <= barrier (a_put cfg e a) k)%Z).
Proof.
  intros Hg. pose proof (bound_guard (e :: others (e_key e) (a_list a)) (a_floor a) k) as Hb.
  unfold barrier, a_put, old_guard in *. destruct (a_bound cfg _ _) as [l fl] eqn:E. cbn [fst snd a_lastFlush a_floor a_list] in *.
  assert (Hfl : (a_floor a <= fl)%Z). { unfold a_bound in E. injection E as _ <-. apply floor_fold. }
  assert (Hf : from_option e_guard 0%Z (a_find k (e :: others (e_key e) (a_list a))) =
               if String.eqb (e_key e) k then e_guard e else from_option e_guard 0%Z (a_find k (a_list a))).
  { unfold a_find at 1. simpl. unfold has_key at 1. destruct (String.eqb_spec (e_key e) k) as [|N]; [reflexivity|].
    f_equal. fold (a_find k (others (e_key e) (a_list a))). apply find_others. congruence. }
  rewrite Hf in Hb. split; [|intros ->; rewrite String.eqb_refl in Hb; lia].
  destruct (String.eqb_spec (e_key e) k) as [<-|N]; lia.
Qed.

Lemma has_key_other k k' e : e_key e = k -> k <> k' -> has_key k' e = false.
Proof. intros <- N. apply String.eqb_neq. exact N. Qed.

Lemma find_replace_same k e' l e : e_key e' = k -> a_find k l = Some e -> a_find k (replace k e' l) = Some e'.
Proof.
  intros He. induction l as [|x l IH]; [discriminate|]. unfold a_find, replace in *. simpl. destruct (has_key k x) eqn:Hx.
  - intros _. unfold has_key at 1. rewrite He, String.eqb_refl. reflexivity.
  - rewrite Hx. exact IH.
Qed.

Lemma find_replace_other k k' e' l : e_key e' = k -> k <> k' -> a_find k' (replace k e' l) = a_find k' l.
Proof.
  intros He N. induction l as [|x l IH]; [reflexivity|]. unfold a_find, replace in *. simpl. destruct (has_key k x) eqn:Hx.
  - apply String.eqb_eq in Hx. rewrite (has_key_other k k' e'), (has_key_other k k' x) by assumption. exact IH.
  - destruct (has_key k' x); [reflexivity | exact IH].
Qed.

(** Moving or killing an entry keeps every guard. *)
Lemma get_old_guard k now a k' : old_guard k' (a_get cfg k now a).2 = old_guard k' a.
Proof.
  unfold a_get. destruct (a_find k (a_list a)) as [e|] eqn:E; [|reflexivity]. destruct (a_closed a); [reflexivity|].
  destruct (e_live e); cbn [negb]; [|reflexivity]. destruct (find_some _ _ _ E) as [Hk _].
  destruct (negb _); unfold old_guard; cbn [snd with_list a_list]; destruct (decide (k = k')) as [<-|N].
  - rewrite (find_replace_same k (dead e) _ e), E by assumption. reflexivity.
  - rewrite find_replace_other by assumption. reflexivity.
  - unfold a_find at 1. simpl. unfold has_key at 1. rewrite Hk, String.eqb_refl, E. reflexivity.
  - unfold a_find at 1. simpl. rewrite (has_key_other k k' e) by assumption. fold (a_find k' (others k (a_list a))).
    rewrite find_others by congruence. reflexivity.
Qed.

(** A tombstone's stamp is above every guard. *)
Lemma u64_next n a : counters n a -> (Z.of_nat n + 1 < two64)%Z -> u64 (a_seq a + 1) = (a_seq a + 1)%Z.
Proof. intros H Hn. pose proof (c_seq n a H). apply u64_small. lia. Qed.

Lemma counters_weaken n a : counters n a -> counters (S n) a.
Proof. intros [H1 H2 H3 H4]. split; auto. lia. Qed.

Lemma counters_tick n a :
  counters n a -> counters (S n) (mkA (a_list a) (a_seq a + 1) (a_lastFlush a) (a_floor a) (a_watermark a) (a_closed a)).
Proof. intros [H1 H2 H3 H4]. split; simpl; try lia. intros e He. specialize (H4 e He). lia. Qed.

Lemma run_counters n a ev :
  counters n a -> (Z.of_nat n + 1 < two64)%Z -> NoDup (map e_key (a_list a)) -> counters (S n) (a_run cfg a ev).
Proof.
  intros H Hn Hk. destruct ev as [k now|s asked|k d s asked now| |]; cbn [a_run].
  - unfold a_get. destruct (a_find k (a_list a)) as [e|] eqn:E; [|apply counters_weaken, H].
    destruct (a_closed a); [apply counters_weaken, H|]. destruct (negb (e_live e)); [apply counters_weaken, H|].
    destruct (find_some _ _ _ E) as [_ Hin]. destruct H as [H1 H2 H3 H4].
    destruct (negb _); split; cbn [snd with_list a_list a_seq a_lastFlush a_floor]; auto; try lia; intros x Hx.
    + apply elem_of_replace in Hx as [->|Hx]; [apply (H4 e Hin) | auto].
    + apply elem_of_cons in Hx as [->|Hx]; [auto|]. apply elem_of_others in Hx as [Hx _]. auto.
  - apply counters_weaken, H.
  - unfold a_observe. destruct (Decision_Local d); [apply counters_weaken, H|]. destruct (a_closed a); [apply counters_weaken, H|].
    pose proof (raise_counters n d a H) as Hr. destruct (negb _).
    + unfold a_tombstone. rewrite (u64_next n) by assumption. apply put_counters; [apply counters_tick; exact Hr|]. simpl.
      pose proof (c_seq n _ Hr). lia.
    + repeat case_match; try (apply counters_weaken, Hr). apply counters_weaken. apply put_counters; [exact Hr|].
      simpl. apply (guard_range n). exact Hr.
  - unfold a_invalidate. destruct (a_closed a); [apply counters_weaken, H|]. cbn [snd]. rewrite (u64_next n) by assumption.
    destruct H as [H1 H2 H3 H4]. split; simpl; try lia. intros e He. inversion He.
  - destruct H as [H1 H2 H3 H4]. split; simpl; try lia. intros e He. inversion He.
Qed.

Lemma run_seq n a ev : counters n a -> (Z.of_nat n + 1 < two64)%Z -> (a_seq a <= a_seq (a_run cfg a ev))%Z.
Proof.
  intros H Hn. destruct ev as [k now|s asked|k d s asked now| |]; cbn [a_run]; [|lia| | |simpl; lia].
  - unfold a_get. repeat case_match; simpl; lia.
  - assert (Hr : a_seq (a_raise d a) = a_seq a) by (unfold a_raise; case_match; reflexivity).
    unfold a_observe. destruct (Decision_Local d); [lia|]. destruct (a_closed a); [lia|]. destruct (negb _).
    + unfold a_tombstone, a_put. simpl. rewrite (u64_next n) by (try apply raise_counters; assumption). lia.
    + repeat case_match; rewrite ?Hr; try lia. unfold a_put. simpl. lia.
  - unfold a_invalidate. destruct (a_closed a); simpl; [lia|]. rewrite (u64_next n) by assumption. lia.
Qed.

Lemma run_barrier n a ev k :
  counters n a -> (Z.of_nat n + 1 < two64)%Z -> NoDup (map e_key (a_list a)) ->
  a_closed (a_run cfg a ev) = true \/
  ((barrier a k <= barrier (a_run cfg a ev) k)%Z /\ (invalidates k ev -> (a_seq a < barrier (a_run cfg a ev) k)%Z)).
Proof.
  intros H Hn Hk. pose proof (guard_range n a k H) as Hg. pose proof (c_flush n a H). pose proof (c_floor n a H).
  destruct ev as [k' now|s asked|k' d s asked now| |]; cbn [a_run]; [right|right| | |left; reflexivity].
  - split; [|intros []]. unfold barrier. rewrite get_old_guard. unfold a_get. repeat case_match; simpl; lia.
  - split; [lia | intros []].
  - destruct (a_closed a) eqn:Ec; [left; unfold a_observe; rewrite Ec; destruct (Decision_Local d); exact Ec|]. right.
    unfold a_observe, invalidates. destruct (Decision_Local d); [split; [lia | intros (_ & ? & _); discriminate]|]. rewrite Ec.
    pose proof (raise_counters n d a H) as Hr. rewrite <-(raise_barrier d a k).
    assert (Hs : a_seq a = a_seq (a_raise d a)) by (unfold a_raise; case_match; reflexivity). rewrite Hs.
    destruct (Allowed d && Cacheable d) eqn:Ed; cbn [negb].
    + split; [|intros (_ & _ & ?); discriminate]. repeat case_match; try lia. apply put_barrier. simpl. lia.
    + set (a1 := a_raise d a) in *. pose proof (guard_range n a1 k' Hr) as Hg1.
      unfold a_tombstone. rewrite (u64_next n) by assumption.
      destruct (put_barrier (mkEntry k' false zero_decision (old_asked k' a1) (a_seq a1 + 1))
                  (mkA (a_list a1) (a_seq a1 + 1) (a_lastFlush a1) (a_floor a1) (a_watermark a1) (a_closed a1)) k) as [Hb1 Hb2].
      { simpl. unfold old_guard in *. simpl. lia. }
      split; [exact Hb1|]. intros (-> & _ & _). specialize (Hb2 eq_refl). simpl in Hb2 |- *. lia.
  - unfold a_invalidate. destruct (a_closed a) eqn:Ec; [left; exact Ec|]. right. cbn [snd]. rewrite (u64_next n) by assumption.
    unfold barrier, old_guard in *. simpl. lia.
Qed.

Lemma closed_run a ev : a_closed a = true -> a_closed (a_run cfg a ev) = true.
Proof.
  intros H. destruct ev; simpl; auto.
  - unfold a_get. repeat case_match; simpl; auto; discriminate.
  - unfold a_observe. rewrite H. destruct (Decision_Local d); exact H.
  - unfold a_invalidate. rewrite H. exact H.
Qed.

(** * Traces *)

Lemma a_exec_snoc tr ev : a_exec cfg (tr ++ [ev]) = a_run cfg (a_exec cfg tr) ev.
Proof. unfold a_exec. apply foldl_snoc. Qed.

Lemma a_exec_keys tr : NoDup (map e_key (a_list (a_exec cfg tr))).
Proof. destruct (exec_refines cfg tr Hmax) as [Hw <-]. apply view_nodup. exact Hw. Qed.

Definition short (tr : list event) : Prop := (Z.of_nat (length tr) < two64)%Z.

Lemma short_app t1 t2 : short (t1 ++ t2) -> short t1.
Proof. unfold short. rewrite length_app. lia. Qed.

Lemma exec_counters tr : short tr -> counters (length tr) (a_exec cfg tr).
Proof.
  induction tr as [|ev tr IH] using rev_ind; intros Hs.
  - split; simpl; try lia. intros e He. inversion He.
  - rewrite a_exec_snoc, length_app, Nat.add_1_r. unfold short in Hs. rewrite length_app in Hs. simpl in Hs.
    apply run_counters; [apply IH; unfold short; lia | lia | apply a_exec_keys].
Qed.

Lemma seq_mono t1 t2 : short (t1 ++ t2) -> (a_seq (a_exec cfg t1) <= a_seq (a_exec cfg (t1 ++ t2)))%Z.
Proof.
  induction t2 as [|ev t2 IH] using rev_ind; intros Hs; [rewrite app_nil_r; lia|].
  rewrite app_assoc in *. pose proof (short_app _ _ Hs) as Hs'. rewrite a_exec_snoc.
  etransitivity; [apply IH, Hs'|]. eapply run_seq; [apply exec_counters, Hs'|]. unfold short in Hs. rewrite length_app in Hs. simpl in Hs. lia.
Qed.

(** After an invalidation of [k], the barrier stays above every stamp taken before it. *)
Lemma barrier_invalidated t1 ev t2 k :
  short (t1 ++ ev :: t2) -> invalidates k ev ->
  a_closed (a_exec cfg (t1 ++ ev :: t2)) = true \/ (a_seq (a_exec cfg t1) < barrier (a_exec cfg (t1 ++ ev :: t2)) k)%Z.
Proof.
  intros Hs Hi. assert (Hstep : forall tr x, short (tr ++ [x]) ->
    counters (length tr) (a_exec cfg tr) /\ (Z.of_nat (length tr) + 1 < two64)%Z).
  { intros tr x Hx. split; [apply exec_counters, (short_app _ _ Hx)|]. unfold short in Hx. rewrite length_app in Hx. simpl in Hx. lia. }
  induction t2 as [|x t2 IH] using rev_ind.
  - destruct (Hstep t1 ev Hs) as [Hc Hn]. rewrite a_exec_snoc.
    destruct (run_barrier _ _ ev k Hc Hn (a_exec_keys t1)) as [|[_ Hb]]; auto.
  - change (ev :: t2 ++ [x]) with ((ev :: t2) ++ [x]) in *. rewrite app_assoc in *. pose proof (short_app _ _ Hs) as Hs'.
    rewrite a_exec_snoc. destruct (IH Hs') as [Hcl|Hb]; [left; apply closed_run; exact Hcl|].
    destruct (Hstep _ x Hs) as [Hc Hn]. destruct (run_barrier _ _ x k Hc Hn (a_exec_keys _)) as [|[Hm _]]; [auto|]. right. lia.
Qed.

(** * Where a live entry comes from *)

Definition cacheable_allow (d : Decision) : Prop := Allowed d = true /\ Cacheable d = true /\ Decision_Local d = false.

(** The same allow, in the state before. *)
Definition was_live (a : acache) (e : cacheEntry) : Prop :=
  exists e0, e0 ∈ a_list a /\ e_live e0 = true /\ e_key e0 = e_key e /\ e_decision e0 = e_decision e /\ e_asked e0 = e_asked e.

Lemma live_was a e : e ∈ a_list a -> e_live e = true -> was_live a e.
Proof. intros He Hl. exists e. repeat split; assumption. Qed.

Lemma raise_live d a e :
  e ∈ a_list (a_raise d a) -> e_live e = true ->
  e ∈ a_list a /\ ((a_watermark a <= PolicyRevision (e_decision e))%Z -> (a_watermark (a_raise d a) <= PolicyRevision (e_decision e))%Z).
Proof.
  unfold a_raise. destruct (Z.ltb_spec (a_watermark a) (PolicyRevision d)) as [Hlt|]; [|auto]. simpl. intros He Hl.
  apply list_elem_of_In, in_map_iff in He as (x & Hx & Hin). apply list_elem_of_In in Hin. unfold below in Hx.
  destruct (e_live x && _) eqn:E; subst e; [discriminate Hl|]. split; [exact Hin|]. intros _.
  rewrite Hl in E. simpl in E. simp_bool. lia.
Qed.

Lemma put_live e0 a e :
  e ∈ a_list (a_put cfg e0 a) -> e = e0 \/ (e ∈ a_list a /\ e_key e <> e_key e0).
Proof.
  unfold a_put, a_bound. simpl. intros H. apply subseteq_take in H. apply elem_of_cons in H as [->|H]; [auto|].
  right. apply elem_of_others. exact H.
Qed.

(** What an event leaves live: allows that were live and that it does not invalidate, or the allow it
    stores, whose stamp is not below the barrier. *)
Lemma run_live a ev e :
  (a_closed a = true -> a_list a = []) -> (0 <= a_floor a)%Z ->
  e ∈ a_list (a_run cfg a ev) -> e_live e = true ->
  (was_live a e /\ ~ invalidates (e_key e) ev) \/
  (exists s now, ev = EObserve (e_key e) (e_decision e) s (e_asked e) now /\ cacheable_allow (e_decision e) /\
     a_closed a = false /\ (barrier a (e_key e) <= s)%Z).
Proof.
  intros Hc Hfl He Hl. destruct ev as [k now|s asked|k d s asked now| |]; cbn [a_run] in He.
  - left. split; [|intros []]. unfold a_get in He. destruct (a_find k (a_list a)) as [x|] eqn:E; [|apply live_was; assumption].
    destruct (a_closed a); [apply live_was; assumption|]. destruct (negb (e_live x)); [apply live_was; assumption|].
    destruct (find_some _ _ _ E) as [_ Hx]. destruct (negb _); cbn [snd with_list a_list] in He.
    + apply elem_of_replace in He as [->|He]; [discriminate Hl | apply live_was; assumption].
    + apply elem_of_cons in He as [->|He]; [apply live_was; assumption|]. apply elem_of_others in He as [He _]. apply live_was; assumption.
  - left. split; [apply live_was; assumption | intros []].
  - unfold a_observe in He. destruct (Decision_Local d) eqn:Eloc.
    { left. split; [apply live_was; assumption|]. intros (_ & ? & _). congruence. }
    destruct (a_closed a) eqn:Ecl; [rewrite Hc in He by reflexivity; inversion He|].
    assert (Hold : forall x, x ∈ a_list (a_raise d a) -> e_live x = true -> was_live a x).
    { intros x Hx Hxl. apply live_was; [|exact Hxl]. apply (raise_live d a x Hx Hxl). }
    destruct (Allowed d && Cacheable d) eqn:Ed; cbn [negb] in He.
    + assert (Hni : forall k', ~ invalidates k' (EObserve k d s asked now)) by (intros k' (_ & _ & ?); congruence).
      destruct (_ || _) eqn:E1; [left; split; [apply Hold; assumption | apply Hni]|].
      destruct (_ && (s <? _)%Z) eqn:E2; [left; split; [apply Hold; assumption | apply Hni]|].
      destruct (negb (a_fresh _ _ _ _)); [left; split; [apply Hold; assumption | apply Hni]|].
      apply put_live in He as [->|[He _]]; [|left; split; [apply Hold; assumption | apply Hni]].
      right. exists s, now. cbn [e_key e_decision e_asked] in *. apply andb_true_iff in Ed as [Ea Eca].
      split; [reflexivity|]. split; [split; [exact Ea | split; [exact Eca | exact Eloc]]|]. split; [reflexivity|].
      rewrite <-(raise_barrier d a k). apply orb_false_iff in E1 as [E1 E1']. apply Z.ltb_ge in E1, E1'.
      assert (Hf' : a_floor (a_raise d a) = a_floor a) by (unfold a_raise; case_match; reflexivity).
      unfold barrier. assert (Hg : (old_guard k (a_raise d a) <= s)%Z); [|lia].
      unfold old_guard in *. destruct (a_find k (a_list (a_raise d a))) as [x|]; simpl in *; [apply Z.ltb_ge in E2; exact E2 | lia].
    + left. apply put_live in He as [->|[He Hk]]; [discriminate Hl|]. simpl in Hk. split; [apply Hold; assumption|].
      intros (E & _ & _). congruence.
  - unfold a_invalidate in He. destruct (a_closed a) eqn:E; cbn [snd] in He; [rewrite Hc in He by reflexivity|]; inversion He.
  - inversion He.
Qed.

(** A closed cache is empty. *)
Lemma closed_empty tr : a_closed (a_exec cfg tr) = true -> a_list (a_exec cfg tr) = [].
Proof.
  induction tr as [|ev tr IH] using rev_ind; [discriminate|]. rewrite a_exec_snoc. generalize dependent (a_exec cfg tr). intros a IH.
  destruct ev as [k now|s asked|k d s asked now| |]; simpl; auto.
  - unfold a_get. destruct (a_find k (a_list a)) as [e|] eqn:E; [|auto]. destruct (a_closed a) eqn:Ec; [auto|].
    destruct (negb (e_live e)); [simpl; congruence|]. destruct (negb _); simpl; congruence.
  - unfold a_observe. destruct (Decision_Local d); [auto|]. destruct (a_closed a) eqn:Ec; [intros _; apply IH; reflexivity|].
    assert (Hr : a_closed (a_raise d a) = false) by (unfold a_raise; case_match; assumption).
    repeat case_match; unfold a_tombstone, a_put; simpl; congruence.
  - unfold a_invalidate. destruct (a_closed a) eqn:Ec; simpl; [auto | congruence].
Qed.

(** The allow was asked for, and nothing has invalidated its key since. *)
Definition asked_for (tr : list event) (k : key) (d : Decision) (asked : Time) : Prop :=
  exists t1 s t2, tr = t1 ++ EStamp s asked :: t2 /\ (exists now, EObserve k d s asked now ∈ t2) /\
    forall ev, ev ∈ t2 -> ~ invalidates k ev.

Lemma asked_for_snoc tr k d asked ev : asked_for tr k d asked -> ~ invalidates k ev -> asked_for (tr ++ [ev]) k d asked.
Proof.
  intros (t1 & s & t2 & -> & (now & Hob) & Hno) Hi. exists t1, s, (t2 ++ [ev]). rewrite <-app_assoc. split; [reflexivity|].
  split; [exists now; apply elem_of_app; left; exact Hob|]. intros x Hx. apply elem_of_app in Hx as [Hx|Hx]; [auto|].
  apply list_elem_of_singleton in Hx as ->. exact Hi.
Qed.

Lemma stored_asked_for tr k d s asked now :
  valid tr -> short tr -> EStamp s asked ∈ tr -> a_closed (a_exec cfg tr) = false -> (barrier (a_exec cfg tr) k <= s)%Z ->
  ~ invalidates k (EObserve k d s asked now) -> asked_for (tr ++ [EObserve k d s asked now]) k d asked.
Proof.
  intros Hv Hs Hin Hcl Hb Hni. apply list_elem_of_split in Hin as (t1 & t2 & ->).
  assert (Hseq : s = a_seq (a_exec cfg t1)).
  { change (t1 ++ EStamp s asked :: t2) with (t1 ++ [EStamp s asked] ++ t2) in Hv. rewrite app_assoc in Hv.
    apply valid_prefix, valid_last in Hv as [_ ->]. destruct (exec_refines cfg t1 Hmax) as [_ <-]. reflexivity. }
  exists t1, s, (t2 ++ [EObserve k d s asked now]). rewrite <-app_assoc. split; [reflexivity|]. split.
  { exists now. apply elem_of_app. right. left. }
  intros ev Hev. apply elem_of_app in Hev as [Hev|Hev]; [|apply list_elem_of_singleton in Hev as ->; exact Hni].
  intros Hi. apply list_elem_of_split in Hev as (u1 & u2 & ->).
  assert (E : t1 ++ EStamp s asked :: u1 ++ ev :: u2 = (t1 ++ EStamp s asked :: u1) ++ ev :: u2) by (rewrite <-app_assoc; reflexivity).
  rewrite E in *. destruct (barrier_invalidated _ ev u2 k Hs Hi) as [|Hlt]; [congruence|].
  pose proof (seq_mono t1 (EStamp s asked :: u1) (short_app _ _ Hs)) as Hm. lia.
Qed.

(** Every live entry is a cacheable allow that was asked for after its key was last invalidated. *)
Lemma live_origin tr : valid tr -> short tr -> forall e, e ∈ a_list (a_exec cfg tr) -> e_live e = true ->
  cacheable_allow (e_decision e) /\ asked_for tr (e_key e) (e_decision e) (e_asked e).
Proof.
  induction tr as [|ev tr IH] using rev_ind; intros Hv Hs e He Hl; [inversion He|].
  rewrite a_exec_snoc in He. pose proof (short_app _ _ Hs) as Hs'. apply valid_last in Hv as [Hv Hen].
  destruct (run_live (a_exec cfg tr) ev e (closed_empty tr) (proj1 (c_floor _ _ (exec_counters tr Hs'))) He Hl)
    as [[(e0 & Hin & Hl0 & Hk & Hd & Ha) Hni]|(s & now & -> & Hca & Hcl & Hb)].
  - destruct (IH Hv Hs' e0 Hin Hl0) as [H1 H2]. rewrite Hk, Hd, Ha in *. split; [exact H1 | apply asked_for_snoc; assumption].
  - split; [exact Hca|]. apply stored_asked_for; auto. intros (_ & _ & Hn). destruct Hca as (E1 & E2 & _). rewrite E1, E2 in Hn. discriminate Hn.
Qed.

(** * Revisions *)

Lemma watermark_run a ev : (a_watermark a <= a_watermark (a_run cfg a ev))%Z.
Proof.
  destruct ev as [k now|s asked|k d s asked now| |]; cbn [a_run]; try (simpl; lia).
  - unfold a_get. repeat case_match; simpl; lia.
  - assert (Hr : (a_watermark a <= a_watermark (a_raise d a))%Z) by (unfold a_raise; case_match; simp_bool; simpl; lia).
    unfold a_observe. repeat case_match; unfold a_tombstone, a_put; simpl; lia.
  - unfold a_invalidate. case_match; simpl; lia.
Qed.

(** The watermark is at least the revision of every verdict, until the cache is closed. *)
Lemma watermark_verdict tr k d s asked now :
  EObserve k d s asked now ∈ tr -> Decision_Local d = false ->
  a_closed (a_exec cfg tr) = true \/ (PolicyRevision d <= a_watermark (a_exec cfg tr))%Z.
Proof.
  intros Hin Hl. induction tr as [|ev tr IH] using rev_ind; [inversion Hin|]. rewrite a_exec_snoc.
  apply elem_of_app in Hin as [Hin|Hin].
  - destruct (IH Hin) as [Hc|Hw]; [left; apply closed_run; exact Hc|]. pose proof (watermark_run (a_exec cfg tr) ev). right. lia.
  - apply list_elem_of_singleton in Hin as <-. cbn [a_run]. destruct (a_closed (a_exec cfg tr)) eqn:Ec; [left; unfold a_observe; rewrite Hl, Ec; exact Ec|].
    right. assert (Hr : (PolicyRevision d <= a_watermark (a_raise d (a_exec cfg tr)))%Z).
    { unfold a_raise. destruct (Z.ltb_spec (a_watermark (a_exec cfg tr)) (PolicyRevision d)); simpl; lia. }
    unfold a_observe. rewrite Hl, Ec. repeat case_match; unfold a_tombstone, a_put; simpl; lia.
Qed.

(** What a hit is worth: [d] may be served for [k] after the trace [tr] at the time [now]. *)
Definition current (tr : list event) (k : key) (now : Time) (d : Decision) : Prop :=
  Allowed d = true /\ Cacheable d = true /\ Before now (ExpiresAt d) = true /\
  exists asked, asked_for tr k d asked /\ (0 <= Sub now asked < maxTTL cfg)%Z /\
    forall k' d' s' asked' now', EObserve k' d' s' asked' now' ∈ tr -> Decision_Local d' = false ->
      (PolicyRevision d' <= PolicyRevision d)%Z.

Lemma hit_current tr k now d c' : valid tr -> short tr -> get cfg k now (exec cfg tr) = (Some d, c') -> current tr k now d.
Proof.
  intros Hv Hs Hg. destruct (exec_refines cfg tr Hmax) as [Hw Ha].
  destruct (get_refines cfg k now (exec cfg tr) Hw) as [_ Hag]. rewrite Hg, Ha in Hag. cbn [fst snd] in Hag. clear Hg.
  unfold a_get in Hag. destruct (a_find k (a_list (a_exec cfg tr))) as [e|] eqn:Ef; [|discriminate Hag].
  destruct (a_closed (a_exec cfg tr)) eqn:Ecl; [discriminate Hag|]. destruct (e_live e) eqn:El; [|discriminate Hag].
  destruct (a_fresh cfg _ e now) eqn:Efr; [|discriminate Hag]. injection Hag as Hd _. subst d.
  destruct (find_some _ _ _ Ef) as [Hk Hin]. destruct (live_origin tr Hv Hs e Hin El) as [(Hal & Hca & _) Hask].
  unfold a_fresh in Efr. simp_bool. repeat split; try assumption. exists (e_asked e). rewrite Hk in Hask.
  split; [exact Hask|]. split; [lia|]. intros k' d' s' asked' now' Hob Hl.
  destruct (watermark_verdict tr k' d' s' asked' now' Hob Hl) as [|Hwm]; [congruence|]. lia.
Qed.

(** C2: what a hit is. In every interleaving of critical sections (fewer than 2^64 of them), a lookup that
    hits serves an allow the PDP marked cacheable; it was asked for at some stamp, its answer was
    recorded for this key with that stamp, and since that stamp was taken no PDP deny (or uncacheable
    verdict) of the key was recorded, no flush happened and the cache was not closed; it is younger than
    maxTTL counted from when it was asked, it has not expired, and no verdict of a higher policy revision
    was ever recorded. *)
Theorem hit_is_current tr k now d c' :
  valid tr -> short tr -> get cfg k now (exec cfg tr) = (Some d, c') ->
  Allowed d = true /\ Cacheable d = true /\ Before now (ExpiresAt d) = true /\
  exists asked, asked_for tr k d asked /\ (0 <= Sub now asked < maxTTL cfg)%Z /\
    forall k' d' s' asked' now', EObserve k' d' s' asked' now' ∈ tr -> Decision_Local d' = false ->
      (PolicyRevision d' <= PolicyRevision d)%Z.
Proof. exact (hit_current tr k now d c'). Qed.

End Safety.

(** The theorem on a run: an allow recorded with the stamp it was asked at, then served. *)
Definition sample_allow : Decision :=
  mkDecision true AllowedByRole None "" "" "" false 1 (at_ns 100) true (NewObligations zero_spec).

Lemma hit_is_current_witness :
  let cfg := mkCfg 2 DefaultCacheTTL in
  let tr := [EStamp 0 (at_ns 5); EObserve "a" sample_allow 0 (at_ns 5) (at_ns 6)] in
  exists c', get cfg "a" (at_ns 7) (exec cfg tr) = (Some sample_allow, c') /\ exists asked, asked_for tr "a" sample_allow asked.
Proof.
  intros cfg tr. eexists. split; [vm_compute; reflexivity|].
  destruct (hit_is_current cfg ltac:(vm_compute; discriminate) tr "a" (at_ns 7) sample_allow
              (get cfg "a" (at_ns 7) (exec cfg tr)).2) as (_ & _ & _ & asked & H & _).
  - apply (valid_snoc cfg [EStamp 0 (at_ns 5)]); [apply (valid_snoc cfg []); [apply valid_nil | reflexivity] | left].
  - reflexivity.
  - vm_compute. reflexivity.
  - exists asked. exact H.
Defined.

End Safety.
