(* ===== verification/PepCacheDecide.v ===== *)
(** The two programs of src/pep/cache.go that serve callers, Decide and DecideBatch, run while other
    goroutines run critical sections in between: what they return is the PDP's answer to this very
    request, a current cached allow, or a local deny; and a batch is answered whole or denied whole.
    The PDP client is anything that keeps the Decider interface's laws. *)
From S2P Require Import Prelude GoTime PepDecision PepRequest PepDecider PepWire PepFake PepCacheKey PepCache PepCacheSpec PepCacheSafety.

Module Serve.
Import GoTime Decision Request Wire CacheKey Cache Spec Safety.

(** What every reachable state satisfies and every critical section keeps. *)
Record Inv (cfg : config) (c : cache) : Prop := mkInv {
  inv_wf : WF c;
  inv_closed : closed c = true -> view c = [];
  inv_floor : (0 <= floor c)%Z;
  inv_live : forall e, e ∈ view c -> e_live e = true -> cacheable_allow (e_decision e);
}.

Section Serve.
Context {A K : Type} {dec : Decider.Decider A K} {laws : Decider.DeciderLaws A K}.
Variable IsPrint : N -> bool.
Variable sha256 : string -> string.
Variable cfg : config.
Hypothesis Hmax : (0 <= maxEntries cfg)%Z.
Variable client : A.
Variable ready : bool.
Variable ctx : bool.
Variable inter : nat -> cache -> cache.
Variable clock : nat -> Time.
Variable world : nat -> K.
(** Other goroutines touch the cache only through its critical sections. *)
Hypothesis Hinter : forall n c, exists evs, inter n c = foldl (run cfg) c evs.

Notation Decide := (Cache.Decide (A:=A) (K:=K) IsPrint sha256 cfg client ready ctx inter clock world).
Notation DecideBatch := (Cache.DecideBatch (A:=A) (K:=K) IsPrint sha256 cfg client ready ctx inter clock world).

(** ** The invariant *)

Lemma a_floor_put e a : (a_floor a <= a_floor (a_put cfg e a))%Z.
Proof. unfold a_put, a_bound. simpl. apply floor_fold. Qed.

Lemma a_floor_raise d a : a_floor (a_raise d a) = a_floor a.
Proof. unfold a_raise. case_match; reflexivity. Qed.

Lemma floor_run a ev : (0 <= a_floor a)%Z -> (0 <= a_floor (a_run cfg a ev))%Z.
Proof.
  intros Hf. destruct ev as [k now|s asked|k d s asked now| |]; cbn [a_run]; try exact Hf.
  - unfold a_get. repeat case_match; exact Hf.
  - unfold a_observe. repeat case_match; rewrite ?a_floor_raise; try exact Hf; unfold a_tombstone;
      (etransitivity; [|apply a_floor_put]); simpl; rewrite a_floor_raise; exact Hf.
  - unfold a_invalidate. case_match; exact Hf.
Qed.

Lemma closed_empty_run a ev :
  (a_closed a = true -> a_list a = []) -> a_closed (a_run cfg a ev) = true -> a_list (a_run cfg a ev) = [].
Proof.
  intros H. destruct ev as [k now|s asked|k d s asked now| |]; cbn [a_run]; auto.
  - unfold a_get. destruct (a_find k (a_list a)) as [e|] eqn:E; [|auto]. destruct (a_closed a) eqn:Ec; [auto|].
    repeat case_match; simpl; congruence.
  - unfold a_observe. destruct (Decision_Local d); [auto|]. destruct (a_closed a) eqn:Ec; [auto|].
    assert (Hr : a_closed (a_raise d a) = false) by (unfold a_raise; case_match; assumption).
    repeat case_match; unfold a_tombstone, a_put; simpl; congruence.
  - unfold a_invalidate. destruct (a_closed a) eqn:Ec; simpl; [auto | congruence].
Qed.

Lemma Inv_run c ev : Inv cfg c -> Inv cfg (run cfg c ev).
Proof.
  intros [Hw Hc Hf Hl]. destruct (run_refines cfg c ev Hw Hmax) as [Hw' Ha].
  assert (Hv : forall x, view x = a_list (abs x)) by reflexivity. split.
  - exact Hw'.
  - change (a_closed (abs (run cfg c ev)) = true -> a_list (abs (run cfg c ev)) = []). rewrite Ha.
    apply closed_empty_run. exact Hc.
  - change (0 <= a_floor (abs (run cfg c ev)))%Z. rewrite Ha. apply floor_run. exact Hf.
  - intros e He Hle. rewrite Hv, Ha in He.
    destruct (run_live cfg (abs c) ev e Hc Hf He Hle) as [[(e0 & Hin & Hl0 & _ & Hd & _) _]|(s & now & _ & Hca & _)]; [|exact Hca].
    rewrite <-Hd. apply Hl; assumption.
Qed.

Lemma Inv_inter n c : Inv cfg c -> Inv cfg (inter n c).
Proof.
  destruct (Hinter n c) as [evs ->]. revert c. induction evs as [|ev evs IH]; intros c H; [exact H|]. apply IH, Inv_run, H.
Qed.

Lemma Inv_empty : Inv cfg empty_cache.
Proof. split; [apply empty_wf | discriminate | simpl; lia | intros e He; inversion He]. Qed.

(** ** Programs *)

(** [m] keeps the invariant and gives a value that satisfies [Q]. *)
Definition gives {B} (m : M B) (Q : B -> Prop) : Prop :=
  forall n c, Inv cfg c -> let '(b, _, c') := m n c in Inv cfg c' /\ Q b.

Lemma gives_ret {B} (b : B) (Q : B -> Prop) : Q b -> gives (ret b) Q.
Proof. intros H n c Hc. simpl. auto. Qed.

Lemma gives_bind {B C} (m : M B) (f : B -> M C) (P : B -> Prop) (Q : C -> Prop) :
  gives m P -> (forall b, P b -> gives (f b) Q) -> gives (bind m f) Q.
Proof.
  intros Hm Hf n c Hc. unfold bind. specialize (Hm n c Hc). destruct (m n c) as [[b n1] c1]. destruct Hm as [Hc1 Hb].
  exact (Hf b Hb n1 c1 Hc1).
Qed.

Lemma gives_weaken {B} (m : M B) (P Q : B -> Prop) : gives m P -> (forall b, P b -> Q b) -> gives m Q.
Proof. intros Hm H n c Hc. specialize (Hm n c Hc). destruct (m n c) as [[b n1] c1]. destruct Hm. auto. Qed.

Lemma get_hit k now c d c' : Inv cfg c -> get cfg k now c = (Some d, c') -> cacheable_allow d.
Proof.
  intros Hc. unfold get. destruct (entries c !! k) as [id|] eqn:E; [|discriminate]. destruct (closed c); [discriminate|].
  destruct (wf_entry c (inv_wf _ _ Hc) k id E) as (e & He & _ & _ & Hv). rewrite He.
  destruct (e_live e) eqn:El; cbn [negb]; [|discriminate]. destruct (negb _); [discriminate|]. intros [= <- _].
  apply (inv_live _ _ Hc); assumption.
Qed.

Lemma gives_get k : gives (do_get cfg inter clock k) (fun o => forall d, o = Some d -> cacheable_allow d).
Proof.
  intros n c Hc. unfold do_get, locked. pose proof (Inv_inter n c Hc) as Hi.
  destruct (get cfg k (clock n) (inter n c)) as [o c1] eqn:E. split.
  - change c1 with ((o, c1).2). rewrite <-E. exact (Inv_run _ (EGet k (clock n)) Hi).
  - intros d ->. eapply get_hit; [exact Hi | exact E].
Qed.

Lemma gives_stamp : gives (do_stamp inter clock) (fun _ => True).
Proof. intros n c Hc. simpl. split; [apply Inv_inter; exact Hc | exact I]. Qed.

Lemma gives_observe k d s asked : gives (do_observe cfg inter clock k d s asked) (fun _ => True).
Proof.
  unfold do_observe. destruct (Decision_Local d); [apply gives_ret; exact I|]. intros n c Hc. simpl. split; [|exact I].
  exact (Inv_run _ (EObserve k d s asked (clock n)) (Inv_inter n c Hc)).
Qed.

Lemma gives_calling {B} (f : K -> B) (Q : B -> Prop) : (forall w, Q (f w)) -> gives (calling world f) Q.
Proof. intros H n c Hc. simpl. auto. Qed.

(** ** Where a cached answer comes from *)





(** ** Decide *)






(** ** DecideBatch *)

Definition nonlocal (d : Decision) : Prop := Decision_Local d = false.

Lemma gives_lookups reqs :
  gives (lookups IsPrint sha256 cfg inter clock reqs)
    (fun found => length found = length reqs /\ Forall (fun o => forall d, o = Some d -> cacheable_allow d) found).
Proof.
  induction reqs as [|r reqs IH]; simpl; [apply gives_ret; auto|].
  eapply gives_bind; [apply gives_get|]. intros o Ho. eapply gives_bind; [apply IH|]. intros found [Hl Hf].
  apply gives_ret. simpl. auto.
Qed.

(** Writing answers back at the positions they were asked for. *)
Fixpoint write_back (idx : list nat) (got : list Decision) (out : list Decision) : list Decision :=
  match idx, got with i :: idx, d :: got => write_back idx got (<[i := d]> out) | _, _ => out end.

Lemma write_back_length idx got out : length (write_back idx got out) = length out.
Proof. revert got out. induction idx as [|i idx IH]; intros [|d got] out; simpl; auto. rewrite IH. apply length_insert. Qed.

Lemma write_back_lookup idx : forall got out j,
  length got = length idx -> NoDup idx -> (forall i, i ∈ idx -> i < length out) ->
  write_back idx got out !! j =
  match list_find (fun i => i = j) idx with Some (p, _) => got !! p | None => out !! j end.
Proof.
  induction idx as [|i idx IH]; intros [|d got] out j Hl Hn Hi; try discriminate; [reflexivity|].
  simpl. apply NoDup_cons in Hn as [Hni Hn]. injection Hl as Hl.
  rewrite IH by (auto; intros x Hx; rewrite length_insert; apply Hi; right; exact Hx).
  destruct (decide (i = j)) as [->|N].
  - assert (Hf : list_find (fun i => i = j) idx = None).
    { apply list_find_None, Forall_forall. intros x Hx ->. contradiction. }
    rewrite Hf. apply list_lookup_insert_eq. apply Hi. left.
  - rewrite list_lookup_insert_ne by exact N. destruct (list_find (fun i => i = j) idx) as [[p x]|]; reflexivity.
Qed.

Lemma gives_record reqs idx : forall got s asked out,
  (forall i, i ∈ idx -> i < length reqs) ->
  gives (record_answers IsPrint sha256 cfg inter clock reqs idx got s asked out) (fun o => o = write_back idx got out).
Proof.
  induction idx as [|i idx IH]; intros [|d got] s asked out Hi; simpl; try (apply gives_ret; reflexivity).
  destruct (lookup_lt_is_Some_2 reqs i (Hi i ltac:(left))) as [r ->].
  eapply gives_bind; [apply gives_observe|]. intros _ _. apply IH. intros x Hx. apply Hi. right. exact Hx.
Qed.

Lemma omap_length (reqs : list Request) (idx : list nat) : (forall i, i ∈ idx -> i < length reqs) -> length (omap (fun i => reqs !! i) idx) = length idx.
Proof.
  induction idx as [|i idx IH]; intros Hi; [reflexivity|]. cbn. destruct (lookup_lt_is_Some_2 reqs i (Hi i ltac:(left))) as [r ->].
  simpl. f_equal. apply IH. intros x Hx. apply Hi. right. exact Hx.
Qed.

Lemma first_local_none got : first_local got = None -> Forall nonlocal got.
Proof.
  unfold first_local. destruct (filter _ got) as [|d l] eqn:E; [|discriminate]. intros _. apply Forall_forall. intros d Hd.
  unfold nonlocal. destruct (Decision_Local d) eqn:El; [|reflexivity]. exfalso.
  assert (Hin : d ∈ filter (fun d => Decision_Local d = true) got) by (apply list_elem_of_filter; auto). rewrite E in Hin. inversion Hin.
Qed.

(** ask gives an error, or writes back one PDP answer per item, none of them local. *)
Lemma gives_ask reqs idx out :
  (forall i, i ∈ idx -> i < length reqs) ->
  gives (ask (A:=A) (K:=K) IsPrint sha256 cfg client inter clock world reqs idx out)
    (fun r => match r with
              | Err _ => True
              | Ok o => exists w, o = write_back idx (Decider.DecideBatch client w (omap (fun i => reqs !! i) idx)) out /\
                          Forall nonlocal (Decider.DecideBatch client w (omap (fun i => reqs !! i) idx))
              end).
Proof.
  intros Hi. unfold ask. eapply gives_bind; [apply gives_stamp|]. intros [s asked] _.
  eapply gives_bind; [apply (gives_calling _ (fun got => exists w, got = Decider.DecideBatch client w (omap (fun i => reqs !! i) idx))); eauto|].
  intros got [w ->]. destruct (first_local _) as [e|] eqn:El; [apply gives_ret; exact I|].
  eapply gives_bind; [apply gives_record; exact Hi|]. intros o ->. apply gives_ret. exists w. split; [reflexivity|].
  apply first_local_none. exact El.
Qed.

Lemma elem_of_positions hit found i :
  i ∈ positions hit found <-> exists o, found !! i = Some o /\ (if hit then is_Some o else o = None).
Proof.
  unfold positions. rewrite list_elem_of_In, filter_In, in_seq. destruct (found !! i) as [o|] eqn:E.
  - apply lookup_lt_Some in E as Hlt. destruct o, hit; simpl; split; intros Hx; try (destruct Hx as [_ Hx]; discriminate Hx);
      try (split; [lia | reflexivity]); try (eexists; split; [reflexivity | eauto]);
      destruct Hx as (o' & [= <-] & Ho); try discriminate Ho; destruct Ho; discriminate.
  - split; [intros [_ Hx]; discriminate Hx | intros (o & Ho & _); discriminate Ho].
Qed.

Lemma positions_nodup hit found : NoDup (positions hit found).
Proof. unfold positions. apply NoDup_ListNoDup, List.NoDup_filter, seq_NoDup. Qed.

Lemma omap_lookup (reqs : list Request) (idx : list nat) p i :
  (forall i, i ∈ idx -> i < length reqs) -> idx !! p = Some i -> omap (fun i => reqs !! i) idx !! p = reqs !! i.
Proof.
  revert p. induction idx as [|x idx IH]; intros p Hi Hp; [discriminate|]. cbn.
  destruct (lookup_lt_is_Some_2 reqs x (Hi x ltac:(left))) as [r Hr]. rewrite Hr. destruct p as [|p].
  - injection Hp as <-. simpl. symmetry. exact Hr.
  - simpl. apply IH; [|exact Hp]. intros y Hy. apply Hi. right. exact Hy.
Qed.

(** Where an item of a batch that is not denied comes from: the cache, or the PDP client's answer at
    this request's place in a batch. *)
Definition item_source (reqs : list Request) (i : nat) (d : Decision) : Prop :=
  cacheable_allow d \/
  exists w sub p, sub !! p = reqs !! i /\ Decider.DecideBatch client w sub !! p = Some d.

Definition sourced (reqs : list Request) (idx : list nat) (out : list Decision) : Prop :=
  forall i d, i ∈ idx -> out !! i = Some d -> nonlocal d /\ item_source reqs i d.

Lemma write_back_sourced (reqs : list Request) (idx : list nat) w out :
  (forall i, i ∈ idx -> i < length reqs) -> NoDup idx -> length out = length reqs ->
  Forall nonlocal (Decider.DecideBatch client w (omap (fun i => reqs !! i) idx)) ->
  let out' := write_back idx (Decider.DecideBatch client w (omap (fun i => reqs !! i) idx)) out in
  sourced reqs idx out' /\ (forall i, i ∉ idx -> out' !! i = out !! i).
Proof.
  intros Hi Hn Hl Hnl. set (got := Decider.DecideBatch client w (omap (fun i => reqs !! i) idx)) in *.
  assert (Hgl : length got = length idx) by (unfold got; rewrite Decider.DecideBatch_length; apply omap_length; exact Hi).
  assert (Hlook := fun j => write_back_lookup idx got out j Hgl Hn ltac:(intros x Hx; rewrite Hl; apply Hi; exact Hx)).
  split.
  - intros i d Hin Hd. rewrite Hlook in Hd. destruct (list_find (fun x => x = i) idx) as [[p x]|] eqn:Ef.
    + apply list_find_Some in Ef as (Hp & -> & _). split.
      * rewrite Forall_forall in Hnl. apply Hnl. eapply list_elem_of_lookup_2. exact Hd.
      * right. exists w, (omap (fun i => reqs !! i) idx), p. split; [apply omap_lookup; assumption | exact Hd].
    + exfalso. apply list_find_None in Ef. rewrite Forall_forall in Ef. exact (Ef i Hin eq_refl).
  - intros i Hin. rewrite Hlook. destruct (list_find (fun x => x = i) idx) as [[p x]|] eqn:Ef; [|reflexivity].
    apply list_find_Some in Ef as (Hp & -> & _). destruct Hin. eapply list_elem_of_lookup_2. exact Hp.
Qed.

Definition batch_answer (reqs : list Request) (out : list Decision) : Prop :=
  length out = length reqs /\
  ((exists e, out = denyAll e (length reqs)) \/
   (ready = true /\ ctx = true /\ Forall (fun r => Request.valid r = true) reqs /\ length reqs <= MaxBatch /\
    forall i d, out !! i = Some d -> nonlocal d /\ item_source reqs i d)).

Lemma denied_answer reqs e : batch_answer reqs (denyAll e (length reqs)).
Proof. split; [apply repeat_length | left; eauto]. Qed.

(** The cached items, before and after the misses are answered. *)
Definition hits_ok (found : list (option Decision)) (out : list Decision) : Prop :=
  forall i d, i ∈ positions true found -> out !! i = Some d -> cacheable_allow d.

Lemma hits_initial found :
  Forall (fun o => forall d, o = Some d -> cacheable_allow d) found ->
  hits_ok found (map (fun o => default zero_decision o) found).
Proof.
  intros Hf i d Hi Hd. apply elem_of_positions in Hi as (o & Ho & [x ->]). change (map ?f ?l) with (f <$> l) in Hd.
  rewrite list_lookup_fmap, Ho in Hd. injection Hd as <-. rewrite Forall_forall in Hf.
  apply (Hf (Some x)); [eapply list_elem_of_lookup_2; exact Ho | reflexivity].
Qed.

Lemma positions_cover found i : i < length found -> i ∈ positions true found \/ i ∈ positions false found.
Proof.
  intros Hi. destruct (lookup_lt_is_Some_2 found i Hi) as [o Ho]. rewrite !elem_of_positions.
  destruct o; [left | right]; eexists; (split; [exact Ho|]); eauto.
Qed.

Lemma positions_disjoint found i : i ∈ positions true found -> i ∉ positions false found.
Proof. rewrite !elem_of_positions. intros (o & Ho & [x Hx]) (o' & Ho' & Hx'). congruence. Qed.

(** The misses' ask: the misses are sourced, the hits are untouched. *)
Lemma gives_misses reqs found :
  length found = length reqs -> Forall (fun o => forall d, o = Some d -> cacheable_allow d) found ->
  let out := map (fun o => default zero_decision o) found in
  let misses := positions false found in
  gives (if negb (length misses =? 0) then ask (A:=A) (K:=K) IsPrint sha256 cfg client inter clock world reqs misses out else ret (Ok out))
    (fun r => match r with
              | Err _ => True
              | Ok o => length o = length reqs /\ sourced reqs misses o /\ hits_ok found o
              end).
Proof.
  intros Hl Hf out misses. pose proof (hits_initial found Hf) as Hh.
  assert (Hlo : length out = length reqs) by (unfold out; rewrite length_map; exact Hl).
  assert (Hrange : forall i, i ∈ misses -> i < length reqs).
  { intros i Hi. apply elem_of_positions in Hi as (o & Ho & _). apply lookup_lt_Some in Ho. lia. }
  destruct (Nat.eqb_spec (length misses) 0) as [E|_]; cbn [negb].
  - apply gives_ret. split; [exact Hlo|]. split; [|exact Hh]. intros i d Hi. destruct misses; [inversion Hi | discriminate E].
  - eapply gives_weaken; [apply gives_ask; exact Hrange|]. intros [o|e]; [|auto]. intros (w & -> & Hnl).
    destruct (write_back_sourced reqs misses w out Hrange (positions_nodup _ _) Hlo Hnl) as [Hs Ho].
    split; [rewrite write_back_length; exact Hlo|]. split; [exact Hs|].
    intros i d Hi Hd. rewrite Ho in Hd by (apply positions_disjoint; exact Hi). eapply Hh; eassumption.
Qed.

Lemma DecideBatch_gives reqs : gives (DecideBatch reqs) (batch_answer reqs).
Proof.
  unfold Cache.DecideBatch. destruct (Nat.eqb_spec (length reqs) 0) as [E|_].
  { apply gives_ret. destruct reqs; [|discriminate E]. apply (denied_answer [] (fail NoDecision)). }
  destruct ready eqn:Er; cbn [negb]; [|apply gives_ret, denied_answer].
  destruct ctx eqn:Ec; cbn [negb orb]; [|apply gives_ret, denied_answer].
  destruct (Nat.ltb_spec MaxBatch (length reqs)) as [|Hlen]; [apply gives_ret, denied_answer|].
  destruct (forallb Request.valid reqs) eqn:Ev; cbn [negb]; [|apply gives_ret, denied_answer].
  assert (Hv : Forall (fun r => Request.valid r = true) reqs).
  { apply Forall_forall. intros r Hr. rewrite forallb_forall in Ev. apply Ev, list_elem_of_In. exact Hr. }
  eapply gives_bind; [apply gives_lookups|]. intros found [Hl Hf]. cbv zeta.
  eapply gives_bind; [apply gives_misses; assumption|]. intros [out|e] Hout; [|apply gives_ret, denied_answer].
  destruct Hout as (Hlo & Hs & Hh).
  apply (gives_bind _ _ (fun _ => True)); [exact (fun n c Hc => conj (Inv_inter n c Hc) I)|]. intros below _.
  assert (Hrange : forall i, i ∈ positions true found -> i < length reqs).
  { intros i Hi. apply elem_of_positions in Hi as (o & Ho & _). apply lookup_lt_Some in Ho. lia. }
  assert (Hdone : forall o, length o = length reqs -> sourced reqs (positions false found) o ->
            (forall i d, i ∈ positions true found -> o !! i = Some d -> nonlocal d /\ item_source reqs i d) -> batch_answer reqs o).
  { intros o Hlo' Hs' Hh'. split; [exact Hlo'|]. right. split; [exact Er|]. split; [exact Ec|]. split; [exact Hv|]. split; [exact Hlen|].
    intros i d Hd. destruct (positions_cover found i) as [Hi|Hi]; [apply lookup_lt_Some in Hd; lia | eapply Hh' | eapply Hs']; eassumption. }
  destruct below.
  - eapply gives_bind; [apply (gives_ask reqs (positions true found) out Hrange)|]. intros [o|e] Ho; [|apply gives_ret, denied_answer].
    destruct Ho as (w & -> & Hnl). apply gives_ret.
    destruct (write_back_sourced reqs _ w out Hrange (positions_nodup _ _) Hlo Hnl) as [Hs' Ho'].
    apply Hdone; [rewrite write_back_length; exact Hlo | | exact Hs'].
    intros i d Hi Hd. rewrite Ho' in Hd by (intros Hx; eapply positions_disjoint; eassumption). eapply Hs; eassumption.
  - eapply gives_bind; [apply (gives_ret (Ok out) (fun r => r = Ok out) eq_refl)|]. intros r ->. apply gives_ret.
    apply Hdone; [exact Hlo | exact Hs|]. intros i d Hi Hd. pose proof (Hh i d Hi Hd) as Hca.
    split; [apply Hca | left; exact Hca].
Qed.

(** A batch through the cache has one decision per request, in order; it is denied whole with one
    error, or no item is a local deny and every item is either a cached verdict the PDP allowed and
    marked cacheable, or the PDP client's answer at the place of this very request in a batch. This
    holds whatever other goroutines do to the cache between the critical sections. *)
Theorem DecideBatch_serves reqs n c :
  Inv cfg c -> let '(out, _, c') := DecideBatch reqs n c in Inv cfg c' /\ batch_answer reqs out.
Proof. intros Hc. exact (DecideBatch_gives reqs n c Hc). Qed.

End Serve.

(** A fake client with one rule, and a goroutine that flushes before every section:
    the request is a miss and gets the fake's allow. *)
Definition sample_rule : Fake.Rule :=
  Fake.mkRule "prn-reference-000001" "acr.context.read" "repository" "acme/api" "org_1" "" "organization" None [] "" false.
Definition flushing (n : nat) (c : cache) : cache := foldl (run (mkCfg 2 DefaultCacheTTL)) c [EInvalidate].

(** A PDP that allows everything until the instant 100, and a history in which it was asked once. *)
#[local] Instance steady : Decider.Decider unit unit := {| Decider.Decide _ _ _ := sample_allow; Decider.DecideBatch _ _ l := map (fun _ => sample_allow) l |}.
#[local] Instance steady_laws : Decider.DeciderLaws unit unit.
Proof.
  assert (Hc : consistent sample_allow) by (repeat split; vm_compute; try reflexivity; try discriminate).
  split; [intros; exact Hc | intros; apply length_map | intros a k reqs; simpl; apply Forall_map, Forall_forall; intros; exact Hc].
Qed.


Lemma DecideBatch_serves_witness :
  let cfg := mkCfg 2 DefaultCacheTTL in
  let out := Cache.DecideBatch (A:=option Fake.Fake) (K:=unit) (fun _ => true) id cfg (Some [sample_rule]) true true flushing
               (fun _ => at_ns 7) (fun _ => tt) [example_request; example_request] 0 empty_cache in
  Inv cfg empty_cache /\ map Allowed out.1.1 = [true; true] /\ length out.1.1 = 2.
Proof.
  intros cfg out. pose proof (Inv_empty cfg) as Hi. split; [exact Hi|]. split; [vm_compute; reflexivity|].
  pose proof (DecideBatch_serves (A:=option Fake.Fake) (K:=unit) (fun _ => true) id cfg ltac:(vm_compute; discriminate) (Some [sample_rule]) true true
    flushing (fun _ => at_ns 7) (fun _ => tt) (fun n c => ex_intro _ [EInvalidate] eq_refl) [example_request; example_request] 0 empty_cache Hi) as H.
  unfold out. destruct (Cache.DecideBatch _ _ _ _ _ _ _ _ _ _ _ _) as [[d n] c']. exact (proj1 (proj2 H)).
Defined.

End Serve.
