(* ===== verification/Base64.v ===== *)
(** base64.RawURLEncoding (encoding/base64): the unpadded base64url alphabet, EncodeToString, and
    DecodeString with and without Strict. A decoder skips line breaks wherever they are; a strict
    one refuses a last group whose unused bits are not zero. *)
From S2P Require Import Prelude.

Module Base64.
Local Open Scope N_scope.

Definition sextet_char (v : N) : ascii :=
  if v <? 26 then chr (65 + v)
  else if v <? 52 then chr (71 + v)
  else if v <? 62 then chr (v - 4)
  else if v =? 62 then "-"%char else "_"%char.

Definition sextet (c : ascii) : option N :=
  if in_range "A" "Z" c then Some (code c - 65)
  else if in_range "a" "z" c then Some (code c - 71)
  else if in_range "0" "9" c then Some (code c + 4)
  else if Ascii.eqb c "-" then Some 62
  else if Ascii.eqb c "_" then Some 63 else None.

Fixpoint encode (s : string) : string :=
  match s with
  | EmptyString => EmptyString
  | String a EmptyString => String (sextet_char (code a / 4)) (String (sextet_char (code a mod 4 * 16)) EmptyString)
  | String a (String b EmptyString) =>
      String (sextet_char (code a / 4)) (String (sextet_char (code a mod 4 * 16 + code b / 16))
        (String (sextet_char (code b mod 16 * 4)) EmptyString))
  | String a (String b (String c r)) =>
      String (sextet_char (code a / 4)) (String (sextet_char (code a mod 4 * 16 + code b / 16))
        (String (sextet_char (code b mod 16 * 4 + code c / 64)) (String (sextet_char (code c mod 64)) (encode r))))
  end.

(** The groups of an input without line breaks. *)
Fixpoint quanta (strict : bool) (s : string) : option string :=
  match s with
  | EmptyString => Some EmptyString
  | String _ EmptyString => None
  | String a (String b EmptyString) =>
      match sextet a, sextet b with
      | Some x, Some y =>
          if strict && negb (y mod 16 =? 0) then None else Some (String (chr (x * 4 + y / 16)) EmptyString)
      | _, _ => None
      end
  | String a (String b (String c EmptyString)) =>
      match sextet a, sextet b, sextet c with
      | Some x, Some y, Some z =>
          if strict && negb (z mod 4 =? 0) then None
          else Some (String (chr (x * 4 + y / 16)) (String (chr (y mod 16 * 16 + z / 4)) EmptyString))
      | _, _, _ => None
      end
  | String a (String b (String c (String d r))) =>
      match sextet a, sextet b, sextet c, sextet d, quanta strict r with
      | Some x, Some y, Some z, Some w, Some t =>
          Some (String (chr (x * 4 + y / 16)) (String (chr (y mod 16 * 16 + z / 4)) (String (chr (z mod 4 * 64 + w)) t)))
      | _, _, _, _, _ => None
      end
  end.

Definition line_break (c : ascii) : bool := Ascii.eqb c (chr 10) || Ascii.eqb c (chr 13).
Definition skip_breaks (s : string) : string := of_chars (List.filter (fun c => negb (line_break c)) (chars s)).

Definition DecodeString (strict : bool) (s : string) : option string := quanta strict (skip_breaks s).

(** A text of the alphabet only. *)
Definition url_char (c : ascii) : bool := if sextet c then true else false.
Definition url_text (s : string) : Prop := Forall (fun c => url_char c = true) (chars s).

(** ** Characters and sextets *)

Lemma sextet_sextet_char v : v < 64 -> sextet (sextet_char v) = Some v.
Proof.
  intros H. apply (bool_decide_eq_true (sextet (sextet_char v) = Some v)).
  revert v H. apply (below_run (fun v => bool_decide (sextet (sextet_char v) = Some v)) 64). vm_compute. reflexivity.
Qed.

Lemma sextet_char_sextet c v : sextet c = Some v -> c = sextet_char v /\ v < 64.
Proof.
  assert (H : match sextet c with Some v => Ascii.eqb c (sextet_char v) && (v <? 64) | None => true end = true).
  { rewrite <-(chr_code c). generalize (code c), (code_lt c).
    apply (below_run (fun n => match sextet (chr n) with Some v => Ascii.eqb (chr n) (sextet_char v) && (v <? 64) | None => true end) 256).
    vm_compute. reflexivity. }
  intros E. rewrite E in H. simp_bool. apply N.ltb_lt in H0. auto.
Qed.

Lemma url_char_sextet_char v : v < 64 -> url_char (sextet_char v) = true.
Proof. intros H. unfold url_char. rewrite sextet_sextet_char by exact H. reflexivity. Qed.

Lemma skip_breaks_url s : url_text s -> skip_breaks s = s.
Proof.
  unfold url_text, skip_breaks. induction s as [|c s IH]; intros H; [reflexivity|].
  simpl in H. apply Forall_cons in H as [Hc Hs]. cbn [chars List.filter].
  assert (Hb : line_break c = false).
  { destruct (line_break c) eqn:E; [|reflexivity]. unfold line_break in E. apply orb_true_iff in E as [E|E]; apply Ascii.eqb_eq in E as ->; discriminate Hc. }
  rewrite Hb. cbn [negb of_chars]. rewrite IH by exact Hs. reflexivity.
Qed.

(** ** Groups *)

Ltac bytes :=
  repeat match goal with |- context [code ?c] => let n := fresh "n" in let H := fresh "H" in
    pose proof (code_lt c) as H; set (n := code c) in *; clearbody n end.

Lemma quarter n : n < 256 -> n / 4 < 64. Proof. intros H. apply N.Div0.div_lt_upper_bound. lia. Qed.
Lemma sixteenth n : n < 256 -> n / 16 < 16. Proof. intros H. apply N.Div0.div_lt_upper_bound. lia. Qed.
Lemma sixtyfourth n : n < 256 -> n / 64 < 4. Proof. intros H. apply N.Div0.div_lt_upper_bound. lia. Qed.

Lemma encode_url s : url_text (encode s).
Proof.
  unfold url_text. induction s as [s IH] using (induction_ltof1 _ String.length). unfold ltof in IH.
  assert (Hm : forall n k, k <> 0 -> n mod k < k) by (intros; apply N.mod_lt; assumption).
  destruct s as [|a [|b [|c r]]]; simpl; repeat constructor;
    try (apply url_char_sextet_char;
         pose proof (code_lt a); pose proof (Hm (code a) 4 ltac:(lia)); try (apply quarter; assumption);
         try (pose proof (code_lt b); pose proof (sixteenth (code b) (code_lt b)); pose proof (Hm (code b) 16 ltac:(lia)));
         try (pose proof (sixtyfourth (code c) (code_lt c)); pose proof (Hm (code c) 64 ltac:(lia))); lia).
  apply IH. simpl. lia.
Qed.

Lemma div_pair k p q : q < k -> (p * k + q) / k = p.
Proof. intros H. rewrite N.add_comm, N.div_add by lia. rewrite N.div_small by exact H. reflexivity. Qed.
Lemma mod_pair k p q : q < k -> (p * k + q) mod k = q.
Proof. intros H. rewrite N.add_comm, N.Div0.mod_add. apply N.mod_small. exact H. Qed.
Lemma pair_div_mod k n : k <> 0 -> n / k * k + n mod k = n.
Proof. intros H. rewrite N.mul_comm. symmetry. apply N.div_mod. exact H. Qed.
Lemma mod_lt_pos n k : 0 < k -> n mod k < k.
Proof. intros H. apply N.mod_lt. lia. Qed.

(** Rewrite the quotients and remainders of the sextets of whole bytes. *)
Ltac sextets :=
  rewrite ?sextet_sextet_char by
    (repeat match goal with |- context [code ?c] => lazymatch goal with H : code c < 256 |- _ => fail | _ => pose proof (code_lt c) end end;
     repeat match goal with
     | |- context [?n / 4] => lazymatch goal with H : n / 4 < 64 |- _ => fail | _ => pose proof (quarter n ltac:(assumption)) end
     | |- context [?n / 16] => lazymatch goal with H : n / 16 < 16 |- _ => fail | _ => pose proof (sixteenth n ltac:(assumption)) end
     | |- context [?n / 64] => lazymatch goal with H : n / 64 < 4 |- _ => fail | _ => pose proof (sixtyfourth n ltac:(assumption)) end
     | |- context [?n mod ?k] => lazymatch goal with H : n mod k < k |- _ => fail | _ => pose proof (mod_lt_pos n k ltac:(reflexivity)) end
     end; lia).

Lemma quanta_encode strict s : quanta strict (encode s) = Some s.
Proof.
  induction s as [s IH] using (induction_ltof1 _ String.length). unfold ltof in IH.
  destruct s as [|a [|b [|c r]]]; cbn [encode quanta]; [reflexivity| | |].
  - sextets. rewrite <-(N.add_0_r (code a mod 4 * 16)), mod_pair, div_pair by reflexivity. cbn [negb N.eqb]. rewrite andb_false_r.
    rewrite pair_div_mod by discriminate. rewrite chr_code. reflexivity.
  - sextets. rewrite div_pair by apply sixteenth, code_lt. rewrite mod_pair by apply sixteenth, code_lt.
    rewrite <-(N.add_0_r (code b mod 16 * 4)), mod_pair, div_pair by reflexivity. cbn [negb N.eqb]. rewrite andb_false_r.
    rewrite !pair_div_mod by discriminate. rewrite !chr_code. reflexivity.
  - sextets. rewrite IH by (simpl; lia).
    rewrite div_pair by apply sixteenth, code_lt. rewrite mod_pair by apply sixteenth, code_lt.
    rewrite div_pair by apply sixtyfourth, code_lt. rewrite mod_pair by apply sixtyfourth, code_lt.
    rewrite !pair_div_mod by discriminate. rewrite !chr_code. reflexivity.
Qed.

(** A strict decoding comes from the one text that encodes it. *)
Lemma quanta_strict s t : quanta true s = Some t -> s = encode t.
Proof.
  revert t. induction s as [s IH] using (induction_ltof1 _ String.length). unfold ltof in IH. intros t H.
  destruct s as [|a [|b [|c [|d r]]]]; cbn [quanta] in H; [injection H as <-; reflexivity | discriminate H | | |];
    destruct (sextet a) as [x|] eqn:Ea; [|discriminate H| |discriminate H| |discriminate H];
    apply sextet_char_sextet in Ea as [-> Hx]; (destruct (sextet b) as [y|] eqn:Eb; [|discriminate H]);
    apply sextet_char_sextet in Eb as [-> Hy]; pose proof (N.div_lt_upper_bound y 16 4 ltac:(discriminate) ltac:(lia)) as Hy4.
  - cbn [andb] in H. destruct (N.eqb_spec (y mod 16) 0) as [E|]; [|discriminate H]. injection H as <-. cbn [encode].
    rewrite code_chr by lia. rewrite div_pair, mod_pair by exact Hy4.
    pose proof (pair_div_mod 16 y ltac:(discriminate)) as Hp. rewrite E, N.add_0_r in Hp. rewrite Hp. reflexivity.
  - destruct (sextet c) as [z|] eqn:Ec; [|discriminate H]. apply sextet_char_sextet in Ec as [-> Hz].
    pose proof (N.div_lt_upper_bound z 4 16 ltac:(discriminate) ltac:(lia)) as Hz4.
    pose proof (mod_lt_pos y 16 ltac:(reflexivity)) as Hym.
    cbn [andb] in H. destruct (N.eqb_spec (z mod 4) 0) as [E|]; [|discriminate H]. injection H as <-. cbn [encode].
    rewrite !code_chr by lia. rewrite !div_pair, !mod_pair by assumption.
    pose proof (pair_div_mod 4 z ltac:(discriminate)) as Hp. rewrite E, N.add_0_r in Hp. rewrite Hp, pair_div_mod by discriminate. reflexivity.
  - destruct (sextet c) as [z|] eqn:Ec; [|discriminate H]. apply sextet_char_sextet in Ec as [-> Hz].
    destruct (sextet d) as [w|] eqn:Ed; [|discriminate H]. apply sextet_char_sextet in Ed as [-> Hw].
    destruct (quanta true r) as [u|] eqn:Er; [|discriminate H]. injection H as <-. cbn [encode].
    pose proof (N.div_lt_upper_bound z 4 16 ltac:(discriminate) ltac:(lia)) as Hz4.
    pose proof (mod_lt_pos y 16 ltac:(reflexivity)) as Hym. pose proof (mod_lt_pos z 4 ltac:(reflexivity)) as Hzm.
    rewrite !code_chr by lia. rewrite !div_pair, !mod_pair by assumption.
    rewrite !pair_div_mod by discriminate. rewrite <-(IH r ltac:(simpl; lia) u Er). reflexivity.
Qed.

(** Decoding inverts encoding; and a strict decoder reads a text of the alphabet only as the
    encoding of its bytes, so no two such texts decode to the same bytes. *)
Lemma DecodeString_encode strict s : DecodeString strict (encode s) = Some s.
Proof. unfold DecodeString. rewrite skip_breaks_url by apply encode_url. apply quanta_encode. Qed.

Lemma DecodeString_strict s t : url_text s -> (DecodeString true s = Some t <-> s = encode t).
Proof.
  intros Hs. split; [|intros ->; apply DecodeString_encode].
  unfold DecodeString. rewrite skip_breaks_url by exact Hs. apply quanta_strict.
Qed.

Lemma encode_inj s t : encode s = encode t -> s = t.
Proof. intros H. pose proof (DecodeString_encode true s) as Hs. rewrite H, DecodeString_encode in Hs. congruence. Qed.

Example strict_tail : DecodeString true "QR" = None /\ DecodeString false "QR" = Some "A" /\ DecodeString true "QQ" = Some "A".
Proof. vm_compute. auto. Qed.

End Base64.
