(* ===== verification/GoStrings.v ===== *)
(** The functions of Go's strings package the repository relies on, beyond Split and Join:
    TrimSpace over Unicode white space, and EqualFold over a table of simple case folds. *)
From S2P Require Import Prelude Utf8.

Module GoStrings.
Import Utf8.

(** ** TrimSpace *)

(** unicode.IsSpace (White_Space). *)
Definition space_runes : list N :=
  ([9; 10; 11; 12; 13; 32; 133; 160; 5760] ++ map (fun k => 8192 + N.of_nat k)%N (seq 0 11) ++ [8232; 8233; 8239; 8287; 12288])%N.
Definition spaces : list (list ascii) := map (fun r => chars (encode r)) space_runes.

Fixpoint strip (p l : list ascii) : option (list ascii) :=
  match p, l with
  | [], l => Some l
  | a :: p, b :: l => if Ascii.eqb a b then strip p l else None
  | _ :: _, [] => None
  end.

(** The list after the first of the prefixes it starts with. *)
Fixpoint strip_any (ps : list (list ascii)) (l : list ascii) : option (list ascii) :=
  match ps with
  | [] => None
  | p :: ps => match strip p l with Some r => Some r | None => strip_any ps l end
  end.

Fixpoint trim (ps : list (list ascii)) (fuel : nat) (l : list ascii) : list ascii :=
  match fuel with
  | 0 => l
  | S fuel => match strip_any ps l with Some r => trim ps fuel r | None => l end
  end.

(** A rune at the end of a string is white space exactly when the string ends with its encoding. *)
Definition TrimLeft (s : string) : string := of_chars (trim spaces (String.length s) (chars s)).
Definition TrimRight (s : string) : string :=
  of_chars (rev (trim (map (@rev ascii) spaces) (String.length s) (rev (chars s)))).
Definition TrimSpace (s : string) : string := TrimRight (TrimLeft s).

(** A printable ASCII character other than the space. *)
Definition graphic (c : ascii) : bool := in_range "!" "~" c.

Lemma strip_none ps l :
  (forall c r, l = c :: r -> forallb (fun p => match p with a :: _ => negb (Ascii.eqb a c) | [] => false end) ps = true) ->
  forallb (fun p => match p with [] => false | _ => true end) ps = true -> strip_any ps l = None.
Proof.
  intros H Hne. induction ps as [|p ps IH]; [reflexivity|]. cbn [forallb] in Hne. apply andb_true_iff in Hne as [Hp Hne].
  cbn [strip_any]. destruct p as [|a p]; [discriminate Hp|]. destruct l as [|c r].
  - cbn. apply IH; [discriminate | exact Hne].
  - pose proof (H c r eq_refl) as Hc. cbn [forallb] in Hc. apply andb_true_iff in Hc as [Hc Hps]. cbn [strip].
    apply negb_true_iff in Hc. rewrite Hc. apply IH; [|exact Hne]. intros c' r' [= <- <-]. exact Hps.
Qed.

Lemma trim_none ps fuel l : strip_any ps l = None -> trim ps fuel l = l.
Proof. intros H. destruct fuel; [reflexivity|]. simpl. rewrite H. reflexivity. Qed.

Lemma graphic_starts c ps :
  forallb (fun n => negb (graphic (chr (N.of_nat n))) ||
    forallb (fun p => match p with a :: _ => negb (Ascii.eqb a (chr (N.of_nat n))) | [] => false end) ps) (seq 0 256) = true ->
  graphic c = true -> forallb (fun p => match p with a :: _ => negb (Ascii.eqb a c) | [] => false end) ps = true.
Proof.
  intros H Hc. rewrite forallb_forall in H. specialize (H (N.to_nat (code c))). rewrite N2Nat.id, chr_code, Hc in H.
  apply H. apply in_seq. pose proof (code_lt c). lia.
Qed.

(** A text without white space is its own trim. *)
Lemma TrimSpace_graphic s : Forall (fun c => graphic c = true) (chars s) -> TrimSpace s = s.
Proof.
  intros H. assert (HL : TrimLeft s = s).
  { unfold TrimLeft. rewrite trim_none; [apply of_chars_chars|]. apply strip_none; [|vm_compute; reflexivity].
    intros c r E. rewrite E in H. apply Forall_cons in H as [Hc _]. apply graphic_starts; [vm_compute; reflexivity | exact Hc]. }
  unfold TrimSpace. rewrite HL. unfold TrimRight. rewrite trim_none; [rewrite rev_involutive; apply of_chars_chars|].
  apply strip_none; [|vm_compute; reflexivity]. intros c r E.
  apply graphic_starts; [vm_compute; reflexivity|]. rewrite Forall_forall in H. apply H. apply list_elem_of_In, in_rev. rewrite E. left. reflexivity.
Qed.

Example trims : TrimSpace (String (chr 9) " a b " +:+ encode 8232) = "a b" /\ TrimSpace "  " = "".
Proof. vm_compute. auto. Qed.

(** ** EqualFold *)

Section Fold.
(** unicode.SimpleFold: the next rune of the same letter in other cases, round to the first. No
    letter has more than four. *)
Variable SimpleFold : N -> N.

(** An ASCII upper case letter and its lower case. *)
Definition case_pair (lo hi : N) : bool := (65 <=? lo)%N && (lo <=? 90)%N && (hi =? lo + 32)%N.

(** for r != sr && r < tr { r = SimpleFold(r) }; r == tr *)
Fixpoint orbit (fuel : nat) (sr tr r : N) : bool :=
  match fuel with
  | 0 => false
  | S fuel => if negb (r =? sr)%N && (r <? tr)%N then orbit fuel sr tr (SimpleFold r) else (r =? tr)%N
  end.

Definition fold_pair (a b : N) : bool :=
  if (a =? b)%N then true
  else let sr := N.min a b in let tr := N.max a b in
  if (tr <? 128)%N then case_pair sr tr else orbit 4 sr tr (SimpleFold sr).

(** The loop after the label hasUnicode, over the runes of [s]. *)
Fixpoint fold_runes (fuel : nat) (s t : string) : bool :=
  match fuel with
  | 0 => false
  | S fuel =>
      match s, t with
      | EmptyString, EmptyString => true
      | EmptyString, _ | _, EmptyString => false
      | _, _ => let '(sr, n) := DecodeRune s in let '(tr, m) := DecodeRune t in
                if fold_pair sr tr then fold_runes fuel (drop n s) (drop m t) else false
      end
  end.

(** The loop over the bytes of both while they are ASCII. *)
Fixpoint EqualFold (s t : string) : bool :=
  match s, t with
  | String a s', String b t' =>
      if (128 <=? code a)%N || (128 <=? code b)%N then fold_runes (S (String.length s)) s t
      else if Ascii.eqb a b || case_pair (N.min (code a) (code b)) (N.max (code a) (code b)) then EqualFold s' t'
      else false
  | EmptyString, EmptyString => true
  | _, _ => false
  end.

Lemma fold_runes_refl fuel s : String.length s < fuel -> fold_runes fuel s s = true.
Proof.
  revert s. induction fuel as [|fuel IH]; intros s H; [lia|]. destruct s as [|c s]; [reflexivity|].
  cbn [fold_runes]. pose proof (decode_width (String c s) ltac:(discriminate)) as Hw.
  destruct (DecodeRune (String c s)) as [r n]. simpl in Hw. unfold fold_pair. rewrite N.eqb_refl.
  apply IH. rewrite length_drop. simpl in *. lia.
Qed.

Lemma EqualFold_refl s : EqualFold s s = true.
Proof.
  induction s as [|c s IH]; [reflexivity|]. cbn [EqualFold]. rewrite fold_runes_refl by lia.
  rewrite Ascii.eqb_refl. cbn [orb]. destruct (_ || _); [reflexivity | exact IH].
Qed.

End Fold.

Example folds : EqualFold id "Kid" "kID" = true /\ EqualFold id "kid" "kids" = false /\ EqualFold id "a_b" "A-B" = false.
Proof. vm_compute. auto. Qed.

(** The long s and the Kelvin sign fold to ASCII letters through the table. *)
Definition sample_fold (r : N) : N :=
  if (r =? 75)%N then 107%N else if (r =? 107)%N then 8490%N else if (r =? 8490)%N then 75%N else r.
Example kelvin : EqualFold sample_fold "kid" (encode 8490 +:+ "id") = true /\ EqualFold sample_fold (encode 8490 +:+ "ID") "kid" = true.
Proof. vm_compute. auto. Qed.

End GoStrings.
