(* ===== verification/AuthJson.v ===== *)
(** The readers that every authverify document goes through: the duplicate-member scan of
    src/authverify/jwks.go and the object, member, date and compact-form helpers of
    src/authverify/accesstoken_wire.go. *)
From S2P Require Import Prelude Regex Utf8 Json JsonDecoder Decimal GoStrings Base64.

Module AuthJson.
Import Decimal Json Decoder GoStrings.

Definition maxNumericDate : Z := 253402300799.
Definition maxTokenBytes : nat := 8192.

Definition digitsOnly : re := Regex.plus (cls "0-9").

Section Fold.
Variable SimpleFold : N -> N.

(** The test of scanValue's loop over the names seen so far. *)
Definition seen_fold (seen : list string) (name : string) : bool :=
  existsb (fun previous => EqualFold SimpleFold previous name) seen.

(** scanValue has no depth limit and refuses a closing delimiter. *)
Definition no_limit (depth : nat) : bool := false.
Definition scanValue (fuel : nat) (d : decoder) (depth : nat) : wres := walk no_limit seen_fold false fuel d depth.

Definition singleDocumentWithoutDuplicateMembers (encoded : string) : bool :=
  match scanValue (2 * String.length encoded + 2) (NewDecoder encoded) 0 with
  | WDone d => match Token d with TokEOF => true | _ => false end
  | _ => false
  end.

(** map[string]any *)
Definition object := gmap string json.
Definition object_of (m : list (string * json)) : object := foldl (fun o kv => <[kv.1 := kv.2]> o) ∅ m.

(** Decode into a map with UseNumber: null leaves it nil, any other value than an object is an error. *)
Definition decodeObject (raw : string) : option object :=
  if negb (singleDocumentWithoutDuplicateMembers raw) then None
  else match parse_document false raw with Some (JObj m) => Some (object_of m) | _ => None end.

(** No object of the value holds two names that are equal under case folding, at any depth. *)
Fixpoint distinct_folded (v : json) : Prop :=
  match v with
  | JArr l => Forall id (map distinct_folded l)
  | JObj m => ForallOrdPairs (fun a b => EqualFold SimpleFold a b = false) m.*1 /\ Forall id (map (fun kv => distinct_folded kv.2) m)
  | _ => True
  end.

End Fold.

Definition closedSet (o : object) (allowed required : list string) : bool :=
  forallb (contains allowed) (map_to_list o).*1 && forallb (fun name => bool_decide (is_Some (o !! name))) required.

Definition stringMember (o : object) (name : string) (pattern : option re) : option string :=
  match o !! name with
  | Some (JStr value) =>
      match pattern with
      | Some p => if matchb p value then Some value else None
      | None => Some value
      end
  | _ => None
  end.

(** json.Number.Int64 of at most 12 digits does not overflow. *)
Definition numericDate (o : object) (name : string) : option Z :=
  match o !! name with
  | Some (JNum number) =>
      if negb (matchb digitsOnly number) || (12 <? String.length number) then None
      else let value := dec number in
           if (value <? 1)%Z || (maxNumericDate <? value)%Z then None else Some value
  | _ => None
  end.

Definition base64URLAlphabet (s : string) : bool :=
  forallb (fun c => in_range "A" "Z" c || in_range "a" "z" c || in_range "0" "9" c || Ascii.eqb c "-" || Ascii.eqb c "_") (chars s).

Definition splitCompact (token : string) : option (string * string * string) :=
  if (maxTokenBytes <? String.length token) || negb (String.eqb (TrimSpace token) token) then None
  else match Prelude.split "." token with
       | [header; payload; signature] =>
           if forallb base64URLAlphabet [header; payload; signature] then Some (header, payload, signature) else None
       | _ => None
       end.

(** * The scan *)

Section ScanSpec.
Variable SimpleFold : N -> N.
Notation distinct_folded := (distinct_folded SimpleFold).
Notation seen_fold := (seen_fold SimpleFold).

Lemma seen_fold_false seen k : seen_fold seen k = false <-> forall p, p ∈ seen -> EqualFold SimpleFold p k = false.
Proof.
  unfold AuthJson.seen_fold. induction seen as [|q seen IH]; simpl.
  - split; [intros _ p Hp; inversion Hp | reflexivity].
  - rewrite orb_false_iff, IH. setoid_rewrite elem_of_cons. naive_solver.
Qed.

Lemma names_ok_folded seen l :
  names_ok seen_fold seen l = true <->
  ForallOrdPairs (fun a b => EqualFold SimpleFold a b = false) l /\
  (forall p k, p ∈ seen -> k ∈ l -> EqualFold SimpleFold p k = false).
Proof.
  revert seen. induction l as [|k l IH]; intros seen; simpl.
  - split; [intros _; split; [constructor | intros p k _ Hk; inversion Hk] | reflexivity].
  - rewrite andb_true_iff, negb_true_iff, seen_fold_false, IH. setoid_rewrite elem_of_cons. split.
    + intros (H1 & H2 & H3). split; [constructor; [|exact H2] | naive_solver]. apply Forall_forall. auto.
    + intros (H1 & H2). inversion_clear H1 as [|? ? Hk Hl]. rewrite Forall_forall in Hk. naive_solver.
Qed.

Lemma strictb_folded v : forall depth, strictb no_limit seen_fold depth v = true <-> distinct_folded v.
Proof.
  induction v using json_deep_ind; intros depth; try (simpl; tauto); cbn [strictb no_limit negb andb AuthJson.distinct_folded].
  - induction H as [|x l Hx Hl IH]; simpl; [split; [constructor | reflexivity]|].
    rewrite andb_true_iff, Hx, Forall_cons, IH. reflexivity.
  - rewrite andb_true_iff, names_ok_folded. change (map fst m) with m.*1.
    assert (He : (forall p k, p ∈ [] -> k ∈ m.*1 -> EqualFold SimpleFold p k = false) <-> True).
    { split; [auto|]. intros _ p k Hp. inversion Hp. }
    rewrite He. clear He. transitivity (ForallOrdPairs (fun a b => EqualFold SimpleFold a b = false) m.*1 /\ forallb (fun kv => strictb no_limit seen_fold (S depth) kv.2) m = true); [tauto|]. apply and_iff_compat_l.
    induction H as [|x l Hx Hl IH]; simpl; [split; [constructor | reflexivity]|].
    rewrite andb_true_iff, Hx, Forall_cons, IH. reflexivity.
Qed.

Lemma single_document_iff body :
  singleDocumentWithoutDuplicateMembers SimpleFold body = true <-> exists v, text true body v /\ distinct_folded v.
Proof.
  change (singleDocumentWithoutDuplicateMembers SimpleFold body) with (walk_document no_limit seen_fold false body 0).
  rewrite walk_document_iff. setoid_rewrite strictb_folded. reflexivity.
Qed.

Lemma single_document_total body : scanValue SimpleFold (2 * String.length body + 2) (NewDecoder body) 0 <> WFuel.
Proof. apply walk_document_fuel. Qed.

Lemma decodeObject_iff raw o :
  decodeObject SimpleFold raw = Some o <->
  exists m, document true raw (JObj m) /\ distinct_folded (JObj m) /\ o = object_of m.
Proof.
  unfold decodeObject. destruct (singleDocumentWithoutDuplicateMembers SimpleFold raw) eqn:E; cbn [negb].
  - apply single_document_iff in E as (v & Hv & Hd). split.
    + destruct (parse_document false raw) as [w|] eqn:Ep; [|discriminate]. apply parse_iff in Ep as [Hw Hs].
      rewrite (text_unique _ _ _ _ Hw (text_weaken _ _ Hv)) in *. destruct v as [| | | | |m]; try discriminate.
      intros [= <-]. exists m. split; [split; assumption | auto].
    + intros (m & Hm & _ & ->). rewrite (proj2 (parse_iff false raw _) (document_weaken _ _ Hm)). reflexivity.
  - split; [discriminate|]. intros (m & [Hm _] & Hd & _).
    assert (singleDocumentWithoutDuplicateMembers SimpleFold raw = true) by (apply single_document_iff; eauto). congruence.
Qed.

End ScanSpec.

(** * Members *)

(** The object's names are exactly those of [allowed] that it has, with all of [required]. *)
Definition closed (o : object) (allowed required : list string) : Prop :=
  (forall name, is_Some (o !! name) -> name ∈ allowed) /\ (forall name, name ∈ required -> is_Some (o !! name)).

Lemma closedSet_iff o allowed required : closedSet o allowed required = true <-> closed o allowed required.
Proof.
  unfold closedSet, closed. rewrite andb_true_iff, !forallb_forall. apply Morphisms_Prop.and_iff_morphism.
  - split.
    + intros H name [v Hv]. apply contains_spec, H, list_elem_of_In, list_elem_of_fmap. exists (name, v).
      split; [reflexivity|]. apply elem_of_map_to_list. exact Hv.
    + intros H x Hx. apply contains_spec, H. apply list_elem_of_In, list_elem_of_fmap in Hx as ([k v] & -> & Hkv).
      apply elem_of_map_to_list in Hkv. eauto.
  - setoid_rewrite <-list_elem_of_In. split; intros H x Hx; [eapply bool_decide_eq_true, H, Hx | apply bool_decide_eq_true, H, Hx].
Qed.

(** A string member, of a pattern if there is one. *)
Definition string_member (o : object) (name : string) (pattern : option re) (s : string) : Prop :=
  o !! name = Some (JStr s) /\ match pattern with Some p => matches p s | None => True end.

Lemma stringMember_iff o name pattern s : stringMember o name pattern = Some s <-> string_member o name pattern s.
Proof.
  unfold stringMember, string_member.
  assert (Hno : forall v, (forall x, v <> Some (JStr x)) -> (None = Some s <-> v = Some (JStr s) /\ match pattern with Some p => matches p s | None => True end)).
  { intros v Hv. split; [discriminate|]. intros [H _]. destruct (Hv s H). }
  destruct (o !! name) as [[| | |x| |]|]; try (apply Hno; discriminate).
  destruct pattern as [p|]; [|split; [intros [= <-]; auto | intros [[= <-] _]; reflexivity]].
  rewrite <-matchb_spec. destruct (matchb p x) eqn:E; split; try discriminate.
  - intros [= <-]. auto.
  - intros [[= <-] _]. reflexivity.
  - intros [[= <-] H]. congruence.
Qed.

(** A date: an integer token of at most 12 digits, without fraction, exponent or sign, from 1 to the
    last second of the year 9999. *)
Definition date_member (o : object) (name : string) (n : Z) : Prop :=
  exists text, o !! name = Some (JNum text) /\ Forall (fun c => is_digit c = true) (chars text) /\
    1 <= String.length text <= 12 /\ n = dec text /\ (1 <= n <= maxNumericDate)%Z.

Lemma digitsOnly_iff s : matchb digitsOnly s = true <-> Forall (fun c => is_digit c = true) (chars s) /\ 1 <= String.length s.
Proof.
  rewrite matchb_spec. unfold digitsOnly, Regex.plus. etransitivity; [apply matches_rep_cls|].
  assert (Hc : forall c, in_class (cls_ranges "0-9" (String.length "0-9")) c = is_digit c).
  { intros c. unfold in_class, is_digit. simpl. apply orb_false_r. }
  setoid_rewrite Hc. tauto.
Qed.

Lemma numericDate_iff o name n : numericDate o name = Some n <-> date_member o name n.
Proof.
  unfold numericDate, date_member.
  destruct (o !! name) as [[| |text| | |]|]; try (split; [discriminate | intros (t & Ht & _); discriminate Ht]).
  destruct (matchb digitsOnly text) eqn:E; cbn [negb orb].
  - apply digitsOnly_iff in E as [Hd Hl]. destruct (Nat.ltb_spec 12 (String.length text)) as [|H12].
    { split; [discriminate|]. intros (t & [= <-] & _ & Hx & _). lia. }
    destruct ((_ <? 1)%Z || _) eqn:Er.
    + split; [discriminate|]. intros (t & [= <-] & _ & _ & -> & Hx). apply orb_true_iff in Er as [Er|Er]; apply Z.ltb_lt in Er; lia.
    + simp_bool. split; [intros [= <-]; exists text; auto 10 | intros (t & [= <-] & _ & _ & -> & _); reflexivity].
  - split; [discriminate|]. intros (t & [= <-] & Hd & Hl & _). rewrite (proj2 (digitsOnly_iff text)) in E; [discriminate | split; [exact Hd | lia]].
Qed.

(** * The compact form *)

Lemma url_alphabet c :
  in_range "A" "Z" c || in_range "a" "z" c || in_range "0" "9" c || Ascii.eqb c "-" || Ascii.eqb c "_" = Base64.url_char c.
Proof.
  unfold Base64.url_char, Base64.sextet. destruct (in_range "A" "Z" c), (in_range "a" "z" c), (in_range "0" "9" c); try reflexivity.
  simpl. destruct (Ascii.eqb c "-"); [reflexivity|]. destruct (Ascii.eqb c "_"); reflexivity.
Qed.

Lemma base64URLAlphabet_iff s : base64URLAlphabet s = true <-> Base64.url_text s.
Proof.
  unfold base64URLAlphabet, Base64.url_text. rewrite forallb_forall, Forall_forall. setoid_rewrite url_alphabet.
  setoid_rewrite list_elem_of_In. reflexivity.
Qed.

Lemma url_graphic s : Base64.url_text s -> Forall (fun c => graphic c = true) (chars s) /\ free_of "." s.
Proof.
  intros H. assert (Hc : forall c, Base64.url_char c = true -> graphic c && negb (Ascii.eqb c ".") = true).
  { intros c. rewrite <-(chr_code c). generalize (code c), (code_lt c).
    assert (Hn : forall n, (n < 256)%N -> negb (Base64.url_char (chr n)) || (graphic (chr n) && negb (Ascii.eqb (chr n) ".")) = true)
      by (apply (below_run (fun n => negb (Base64.url_char (chr n)) || (graphic (chr n) && negb (Ascii.eqb (chr n) "."))) 256); vm_compute; reflexivity).
    intros n Hl Hu. specialize (Hn n Hl). rewrite Hu in Hn. exact Hn. }
  split.
  - eapply Forall_impl; [exact H|]. intros c H'. apply Hc in H'. simp_bool. assumption.
  - intros Hin. unfold Base64.url_text in H. rewrite Forall_forall in H. apply H, Hc in Hin. discriminate Hin.
Qed.

(** The three parts of a compact token: base64url texts joined by points, in at most 8192 bytes. *)
Lemma splitCompact_iff token h p s :
  splitCompact token = Some (h, p, s) <->
  token = Prelude.join "." [h; p; s] /\ String.length token <= maxTokenBytes /\ Forall Base64.url_text [h; p; s].
Proof.
  unfold splitCompact. split.
  - destruct (_ || _) eqn:Eg; [discriminate|]. simp_bool. destruct (Prelude.split "." token) as [|a [|b [|c [|]]]] eqn:Es; try discriminate.
    destruct (forallb base64URLAlphabet [a; b; c]) eqn:Eb; [|discriminate]. intros [= <- <- <-].
    rewrite <-Es, join_split. repeat split; [assumption|]. rewrite forallb_forall in Eb. apply Forall_forall. intros x Hx.
    apply base64URLAlphabet_iff, Eb, list_elem_of_In. rewrite Es in Hx. exact Hx.
  - intros (-> & Hl & Hu). rewrite (proj2 (Nat.ltb_ge _ _) Hl). cbn [orb].
    assert (Hg : Forall (fun c => graphic c = true) (chars (Prelude.join "." [h; p; s]))).
    { simpl. rewrite !chars_app. repeat (apply Forall_app; split); try (constructor; [reflexivity | constructor]);
        apply url_graphic; rewrite Forall_forall in Hu; apply Hu; set_solver. }
    rewrite TrimSpace_graphic by exact Hg. rewrite String.eqb_refl. cbn [negb].
    rewrite split_join; [|discriminate|eapply Forall_impl; [exact Hu|]; intros x Hx; apply url_graphic; exact Hx].
    rewrite (proj2 (forallb_forall _ _)); [reflexivity|]. intros x Hx. apply base64URLAlphabet_iff. rewrite Forall_forall in Hu.
    apply Hu, list_elem_of_In. exact Hx.
Qed.

End AuthJson.
