(* ===== verification/AuthToken.v ===== *)
(** The three compact-token verifiers of src/authverify: access-token.v1 (accesstoken.go,
    accesstoken_wire.go), workload-token.v1 (workload_token.go) and service-account-token.v1
    (service_account_token.go). Each has its own header and claims parser; the Verify methods run
    the same steps in the same order, which [Verify] states once over the interface [TokenKind].

    crypto/ed25519.Verify and the Unicode case-folding table are arguments; what the key source
    answers is part of the [KeySource] given. *)
From S2P Require Import Prelude Regex Json GoTime Decimal GoStrings Base64 AuthJson.

Module Token.
Import Json GoTime AuthJson.

(** ** Reasons and errors *)

Definition Reason := string.
Definition ReasonContract : Reason := "contract".
Definition ReasonUnknownKid : Reason := "unknown_kid".
Definition ReasonSignature : Reason := "signature".
Definition ReasonIssuer : Reason := "issuer".
Definition ReasonAudience : Reason := "audience".
Definition ReasonNotYetValid : Reason := "not_yet_valid".
Definition ReasonExpired : Reason := "expired".

(** *RefusalError and *UnavailableError. *)
Inductive verify_error := RefusalError (r : Reason) | UnavailableError.

Definition ReasonOf (e : verify_error) : Reason := match e with RefusalError r => r | UnavailableError => "" end.
Definition refuse {A} (r : Reason) : result verify_error A := Err (RefusalError r).

Definition MaxLeeway : Duration := (60 * Second)%Z.
Definition MaxWorkloadLeeway : Duration := (30 * Second)%Z.
Definition MaxServiceAccountLeeway : Duration := (30 * Second)%Z.
Definition WorkloadTokenLifetimeCeiling : Duration := (300 * Second)%Z.
Definition PublicKeySize : nat := 32.
Definition SignatureSize : nat := 64.

(** ** Key sources *)

(** A KeySource; [ResolveKey] is there when the source is a KeyResolver too, and gives the key, no
    key, or an error. PublicKey's result is the key and whether it is known. *)
Record KeySource := mkKeySource {
  PublicKey : string -> string * bool;
  ResolveKey : option (string -> result unit (option string));
}.

Definition lookupKey (keys : KeySource) (kid : string) : result verify_error (string * bool) :=
  match ResolveKey keys with
  | Some resolve =>
      match resolve kid with
      | Err _ => Err UnavailableError
      | Ok (Some key) => Ok (key, true)
      | Ok None => Ok (EmptyString, false)
      end
  | None => Ok (PublicKey keys kid)
  end.

Definition StaticKeys_PublicKey (s : gmap string string) (kid : string) : string * bool :=
  match s !! kid with
  | Some key => (key, String.length key =? PublicKeySize)
  | None => (EmptyString, false)
  end.
Definition StaticKeys (s : gmap string string) : KeySource := mkKeySource (StaticKeys_PublicKey s) None.

(** ** The contracts' constants *)

Definition typAccessToken : string := "at+jwt".
Definition typWorkloadToken : string := "workload+jwt".
Definition typServiceAccountToken : string := "sa+jwt".
Definition algEdDSA : string := "EdDSA".
Definition lifetimeCeiling : Z := 60 * 60.
Definition workloadLifetimeCeiling : Z := WorkloadTokenLifetimeCeiling / Second.
Definition serviceAccountLifetimeCeiling : Z := WorkloadTokenLifetimeCeiling / Second.
Definition serviceAccountTokenAudience : string := "dev-health-api".

Definition kidPattern : re := rep (cls "!-~") 1 256.
Definition issuerPattern : re :=
  seqs [lit "https://"; cls "a-z0-9"; opt (seqs [rep (cls "a-z0-9.-") 0 251; cls "a-z0-9"]);
        opt (seqs [lit ":"; rep (cls "0-9") 1 5]);
        rep (seqs [lit "/"; cls "A-Za-z0-9_~-"; rep (cls "A-Za-z0-9._~-") 0 63]) 0 8].
Definition subjectPattern : re := seqs [lit "prn_"; Regex.plus (cls "A-Za-z0-9_-")].
Definition sessionPattern : re := seqs [lit "ses_"; rep (cls "A-Za-z0-9_-") 22 64].
Definition jtiPattern : re := rep (cls "A-Za-z0-9_-") 22 64.
Definition hex_run (n : nat) : re := rep (cls "0-9a-f") n n.
Definition orgIDPattern : re :=
  seqs [hex_run 8; lit "-"; hex_run 4; lit "-"; hex_run 4; lit "-"; hex_run 4; lit "-"; hex_run 12].
Definition credentialIDPattern : re := seqs [lit "crd_"; rep (cls "A-Za-z0-9_-") 1 64].

Definition scopeByAudience : list (string * string) :=
  [("dev-health-api", "api:access"); ("auth-service", "auth:session"); ("acr-api", "acr:api"); ("acr-mcp", "acr:mcp")].
Definition scope_of (audience : string) : option string :=
  option_map snd (List.find (fun kv => String.eqb (fst kv) audience) scopeByAudience).
Definition workloadAudiences : list string := ["auth-service"; "dev-health-api"].
Definition serviceAccountVerifierAudiences : list string := ["auth-service"; "dev-health-api"].

Definition headerMembers : list string := ["alg"; "typ"; "kid"].
Definition claimsMembers : list string :=
  ["iss"; "aud"; "sub"; "principal_type"; "sid"; "jti"; "iat"; "nbf"; "exp"; "org_id"; "act"; "scope"].
Definition claimsRequired : list string :=
  ["iss"; "aud"; "sub"; "principal_type"; "sid"; "jti"; "iat"; "nbf"; "exp"; "scope"].
Definition actMembers : list string := ["sub"].
Definition workloadHeaderMembers : list string := ["alg"; "typ"; "kid"].
Definition workloadClaimsMembers : list string := ["iss"; "aud"; "sub"; "principal_type"; "jti"; "iat"; "nbf"; "exp"].
Definition serviceAccountHeaderMembers : list string := ["alg"; "typ"; "kid"].
Definition serviceAccountClaimsMembers : list string :=
  ["iss"; "aud"; "sub"; "principal_type"; "org_id"; "cid"; "jti"; "iat"; "nbf"; "exp"].

(** ** Claims *)

Record AccessClaims := mkAccess {
  a_Issuer : string; a_Audience : string; a_Subject : string; a_SessionID : string; a_TokenID : string;
  a_Scope : string; a_OrgID : option string; a_ActorSubject : option string;
  a_IssuedAt : Z; a_NotBefore : Z; a_ExpiresAt : Z }.

Record WorkloadClaims := mkWorkload {
  w_Issuer : string; w_Audience : string; w_Subject : string; w_TokenID : string;
  w_IssuedAt : Z; w_NotBefore : Z; w_ExpiresAt : Z }.

Record ServiceAccountClaims := mkService {
  s_Issuer : string; s_Audience : string; s_Subject : string; s_OrgID : string; s_CredentialID : string;
  s_TokenID : string; s_IssuedAt : Z; s_NotBefore : Z; s_ExpiresAt : Z }.

Section Parsers.
Variable SimpleFold : N -> N.
Notation decodeObject := (decodeObject SimpleFold).

(** A missing member, or one of another type or pattern, refuses the document. *)
Notation "'need!' x ':=' e 'in' k" := (match e with Some x => k | None => None end)
  (at level 10, x pattern, e at level 100, k at level 200).

Definition parseAccessHeader (raw : string) : option string :=
  need! o := decodeObject raw in
  if negb (closedSet o headerMembers headerMembers) then None
  else need! alg := stringMember o "alg" None in
  if negb (String.eqb alg algEdDSA) then None
  else need! typ := stringMember o "typ" None in
  if negb (String.eqb typ typAccessToken) then None
  else stringMember o "kid" (Some kidPattern).

(** org_id: absent, or a string of its pattern. *)
Definition parse_org (o : object) : option (option string) :=
  match o !! "org_id" with
  | None => Some None
  | Some _ => need! org := stringMember o "org_id" (Some orgIDPattern) in Some (Some org)
  end.

(** act: absent, or one closed object with the actor's sub. *)
Definition parse_act (o : object) : option (option string) :=
  match o !! "act" with
  | None => Some None
  | Some (JObj m) =>
      let act := object_of m in
      if negb (closedSet act actMembers actMembers) then None
      else need! actor := stringMember act "sub" (Some subjectPattern) in Some (Some actor)
  | Some _ => None
  end.

Definition parseAccessClaims (raw : string) : option AccessClaims :=
  need! o := decodeObject raw in
  if negb (closedSet o claimsMembers claimsRequired) then None
  else need! iss := stringMember o "iss" (Some issuerPattern) in
  need! aud := stringMember o "aud" None in
  need! sub := stringMember o "sub" (Some subjectPattern) in
  need! sid := stringMember o "sid" (Some sessionPattern) in
  need! jti := stringMember o "jti" (Some jtiPattern) in
  need! scope := stringMember o "scope" None in
  need! known := scope_of aud in
  if negb (String.eqb scope known) then None
  else need! principal := stringMember o "principal_type" None in
  if negb (String.eqb principal "human") then None
  else need! org := parse_org o in
  need! act := parse_act o in
  need! iat := numericDate o "iat" in
  need! nbf := numericDate o "nbf" in
  need! exp := numericDate o "exp" in
  if (nbf <? iat)%Z || (exp <=? nbf)%Z || (lifetimeCeiling <? exp - iat)%Z then None
  else Some (mkAccess iss aud sub sid jti scope org act iat nbf exp).

Definition parseWorkloadHeader (raw : string) : option string :=
  need! o := decodeObject raw in
  if negb (closedSet o workloadHeaderMembers workloadHeaderMembers) then None
  else need! alg := stringMember o "alg" None in
  if negb (String.eqb alg algEdDSA) then None
  else need! typ := stringMember o "typ" None in
  if negb (String.eqb typ typWorkloadToken) then None
  else stringMember o "kid" (Some kidPattern).

Definition parseWorkloadClaims (raw : string) : option WorkloadClaims :=
  need! o := decodeObject raw in
  if negb (closedSet o workloadClaimsMembers workloadClaimsMembers) then None
  else need! iss := stringMember o "iss" (Some issuerPattern) in
  need! aud := stringMember o "aud" None in
  need! sub := stringMember o "sub" (Some subjectPattern) in
  need! jti := stringMember o "jti" (Some jtiPattern) in
  if negb (contains workloadAudiences aud) then None
  else need! principal := stringMember o "principal_type" None in
  if negb (String.eqb principal "workload") then None
  else need! iat := numericDate o "iat" in
  need! nbf := numericDate o "nbf" in
  need! exp := numericDate o "exp" in
  if (nbf <? iat)%Z || (exp <=? nbf)%Z || (workloadLifetimeCeiling <? exp - iat)%Z then None
  else Some (mkWorkload iss aud sub jti iat nbf exp).

Definition parseServiceAccountHeader (raw : string) : option string :=
  need! o := decodeObject raw in
  if negb (closedSet o serviceAccountHeaderMembers serviceAccountHeaderMembers) then None
  else need! alg := stringMember o "alg" None in
  if negb (String.eqb alg algEdDSA) then None
  else need! typ := stringMember o "typ" None in
  if negb (String.eqb typ typServiceAccountToken) then None
  else stringMember o "kid" (Some kidPattern).

Definition parseServiceAccountClaims (raw : string) : option ServiceAccountClaims :=
  need! o := decodeObject raw in
  if negb (closedSet o serviceAccountClaimsMembers serviceAccountClaimsMembers) then None
  else need! iss := stringMember o "iss" (Some issuerPattern) in
  need! aud := stringMember o "aud" None in
  need! sub := stringMember o "sub" (Some subjectPattern) in
  need! org := stringMember o "org_id" (Some orgIDPattern) in
  need! cid := stringMember o "cid" (Some credentialIDPattern) in
  need! jti := stringMember o "jti" (Some jtiPattern) in
  if negb (String.eqb aud serviceAccountTokenAudience) then None
  else need! principal := stringMember o "principal_type" None in
  if negb (String.eqb principal "service_account") then None
  else need! iat := numericDate o "iat" in
  need! nbf := numericDate o "nbf" in
  need! exp := numericDate o "exp" in
  if (nbf <? iat)%Z || (exp <=? nbf)%Z || (serviceAccountLifetimeCeiling <? exp - iat)%Z then None
  else Some (mkService iss aud sub org cid jti iat nbf exp).

End Parsers.

(** ** Verifiers *)

(** What a Verify method takes from its token class. *)
Class TokenKind (C : Type) := {
  parseHeader : string -> option string;
  parseClaims : string -> option C;
  Issuer : C -> string;
  Audience : C -> string;
  NotBefore : C -> Z;
  ExpiresAt : C -> Z;
}.

Record Verifier := mkVerifier {
  issuer : string; audience : string; keys : KeySource; denied : gset string; leeway : Z }.

(** The three configurations have the same fields; None is a nil KeySource. *)
Record VerifierConfig := mkVerifierConfig {
  c_Issuer : string; c_Audience : string; c_Keys : option KeySource; c_DeniedKids : list string; c_Leeway : Duration }.

Inductive config_error := BadIssuerOrKeys | BadAudience | BadLeeway.

Definition build (audiences : list string) (max : Duration) (cfg : VerifierConfig) : result config_error Verifier :=
  match c_Keys cfg with
  | None => Err BadIssuerOrKeys
  | Some ks =>
      if negb (matchb issuerPattern (c_Issuer cfg)) then Err BadIssuerOrKeys
      else if negb (contains audiences (c_Audience cfg)) then Err BadAudience
      else if (c_Leeway cfg <? 0)%Z || (max <? c_Leeway cfg)%Z || negb (Z.rem (c_Leeway cfg) Second =? 0)%Z then Err BadLeeway
      else Ok (mkVerifier (c_Issuer cfg) (c_Audience cfg) ks (list_to_set (c_DeniedKids cfg)) (Z.quot (c_Leeway cfg) Second))
  end.

Definition NewVerifier : VerifierConfig -> result config_error Verifier := build (map fst scopeByAudience) MaxLeeway.
Definition NewWorkloadVerifier : VerifierConfig -> result config_error Verifier := build workloadAudiences MaxWorkloadLeeway.
Definition NewServiceAccountVerifier (cfg : VerifierConfig) : result config_error Verifier :=
  build serviceAccountVerifierAudiences MaxServiceAccountLeeway
    (mkVerifierConfig (c_Issuer cfg) (if String.eqb (c_Audience cfg) "" then serviceAccountTokenAudience else c_Audience cfg)
       (c_Keys cfg) (c_DeniedKids cfg) (c_Leeway cfg)).

(** now.Unix() *)
Definition unix (t : Time) : Z := (wall t / Second)%Z.

Section Verify.
Variable ed25519_verify : string -> string -> string -> bool.
Context {C : Type} {kind : TokenKind C}.

Definition Verify (v : Verifier) (token : string) (now : Time) : result verify_error C :=
  match splitCompact token with
  | None => refuse ReasonContract
  | Some (headerPart, payloadPart, signaturePart) =>
  match Base64.DecodeString true headerPart, Base64.DecodeString true payloadPart with
  | Some headerRaw, Some payloadRaw =>
  match parseHeader headerRaw with
  | None => refuse ReasonContract
  | Some kid =>
  match parseClaims payloadRaw with
  | None => refuse ReasonContract
  | Some claims =>
      if bool_decide (kid ∈ denied v) then refuse ReasonUnknownKid
      else match lookupKey (keys v) kid with
      | Err e => Err e
      | Ok (key, known) =>
          if negb known || negb (String.length key =? PublicKeySize) then refuse ReasonUnknownKid
          else match Base64.DecodeString true signaturePart with
          | None => refuse ReasonSignature
          | Some signature =>
              if negb (String.length signature =? SignatureSize)
                 || negb (ed25519_verify key (headerPart +:+ "." +:+ payloadPart) signature) then refuse ReasonSignature
              else if negb (String.eqb (Issuer claims) (issuer v)) then refuse ReasonIssuer
              else if negb (String.eqb (Audience claims) (audience v)) then refuse ReasonAudience
              else let seconds := unix now in
              if (i64 (seconds + leeway v) <? NotBefore claims)%Z then refuse ReasonNotYetValid
              else if (ExpiresAt claims <=? i64 (seconds - leeway v))%Z then refuse ReasonExpired
              else Ok claims
          end
      end
  end end
  | _, _ => refuse ReasonContract
  end end.

End Verify.

Section Kinds.
Variable SimpleFold : N -> N.

#[global] Instance access_kind : TokenKind AccessClaims := {|
  parseHeader := parseAccessHeader SimpleFold; parseClaims := parseAccessClaims SimpleFold;
  Issuer := a_Issuer; Audience := a_Audience; NotBefore := a_NotBefore; ExpiresAt := a_ExpiresAt |}.
#[global] Instance workload_kind : TokenKind WorkloadClaims := {|
  parseHeader := parseWorkloadHeader SimpleFold; parseClaims := parseWorkloadClaims SimpleFold;
  Issuer := w_Issuer; Audience := w_Audience; NotBefore := w_NotBefore; ExpiresAt := w_ExpiresAt |}.
#[global] Instance service_account_kind : TokenKind ServiceAccountClaims := {|
  parseHeader := parseServiceAccountHeader SimpleFold; parseClaims := parseServiceAccountClaims SimpleFold;
  Issuer := s_Issuer; Audience := s_Audience; NotBefore := s_NotBefore; ExpiresAt := s_ExpiresAt |}.

Definition Verifier_Verify ed25519_verify : Verifier -> string -> Time -> result verify_error AccessClaims := Verify ed25519_verify.
Definition WorkloadVerifier_Verify ed25519_verify : Verifier -> string -> Time -> result verify_error WorkloadClaims := Verify ed25519_verify.
Definition ServiceAccountVerifier_Verify ed25519_verify : Verifier -> string -> Time -> result verify_error ServiceAccountClaims := Verify ed25519_verify.
End Kinds.

End Token.
