(* ===== verification/AuthTokenSpec.v ===== *)
(** What the three token classes of src/authverify are, and what their verifiers accept: each header
    and claims parser reads exactly its class's documents; Verify accepts exactly the genuine tokens
    of its class, in their canonical encoding, inside their time window; its first refusal wins; and
    no token is accepted as two classes. *)
From S2P Require Import Prelude Regex Json JsonDecoder GoTime Decimal GoStrings Base64 AuthJson AuthToken.

Module TokenSpec.
Import Json GoTime AuthJson Token.

(** ** Early returns *)

Lemma need_some {A B} (e : option A) (k : A -> option B) b :
  (match e with Some x => k x | None => None end) = Some b <-> exists x, e = Some x /\ k x = Some b.
Proof. destruct e; naive_solver. Qed.

Lemma guard_some {B} (t : bool) (e : option B) b : (if t then None else e) = Some b <-> t = false /\ e = Some b.
Proof. destruct t; naive_solver. Qed.

Lemma some_iff {A} (x y : A) : Some x = Some y <-> y = x.
Proof. naive_solver. Qed.

Section Docs.
Variable SimpleFold : N -> N.

(** A strict JSON object: one document, no member name twice under case folding. *)
Definition object_doc (raw : string) (o : object) : Prop :=
  exists m, document true raw (JObj m) /\ distinct_folded SimpleFold (JObj m) /\ o = object_of m.

Lemma decodeObject_doc raw o : decodeObject SimpleFold raw = Some o <-> object_doc raw o.
Proof. apply decodeObject_iff. Qed.

(** ** Headers *)

(** Exactly alg EdDSA, the class's typ, and a key id; no other member. *)
Definition header_doc (typ raw kid : string) : Prop :=
  exists o, object_doc raw o /\ closed o headerMembers headerMembers /\
    o !! "alg" = Some (JStr algEdDSA) /\ o !! "typ" = Some (JStr typ) /\
    o !! "kid" = Some (JStr kid) /\ matches kidPattern kid.

Definition parse_header (typ raw : string) : option string :=
  match decodeObject SimpleFold raw with
  | Some o =>
      if negb (closedSet o headerMembers headerMembers) then None
      else match stringMember o "alg" None with
      | Some alg =>
          if negb (String.eqb alg algEdDSA) then None
          else match stringMember o "typ" None with
          | Some t => if negb (String.eqb t typ) then None else stringMember o "kid" (Some kidPattern)
          | None => None
          end
      | None => None
      end
  | None => None
  end.

Lemma equal_member (o : object) name v {B} (k : option B) b :
  (exists x, stringMember o name None = Some x /\ negb (String.eqb x v) = false /\ k = Some b) <->
  o !! name = Some (JStr v) /\ k = Some b.
Proof.
  setoid_rewrite stringMember_iff. unfold string_member. setoid_rewrite negb_false_iff. setoid_rewrite String.eqb_eq. naive_solver.
Qed.

Lemma parse_header_iff typ raw kid : parse_header typ raw = Some kid <-> header_doc typ raw kid.
Proof.
  unfold parse_header, header_doc. rewrite need_some. apply Morphisms_Prop.ex_iff_morphism. intros o.
  rewrite decodeObject_doc, guard_some, negb_false_iff, closedSet_iff, need_some.
  setoid_rewrite guard_some. rewrite equal_member, need_some. setoid_rewrite guard_some. rewrite equal_member, stringMember_iff.
  reflexivity.
Qed.

(** A header names one class. *)
Lemma header_typ typ typ' raw kid kid' : header_doc typ raw kid -> header_doc typ' raw kid' -> typ = typ'.
Proof.
  intros (o & (m & Hm & _ & ->) & _ & _ & Ht & _) (o' & (m' & Hm' & _ & ->) & _ & _ & Ht' & _).
  pose proof (document_unique _ _ _ _ Hm Hm') as E. injection E as <-. congruence.
Qed.

(** ** Claims *)

(** iat <= nbf < exp, within the class's ceiling. *)
Definition lifetime (o : object) (ceiling iat nbf exp : Z) : Prop :=
  date_member o "iat" iat /\ date_member o "nbf" nbf /\ date_member o "exp" exp /\
  (iat <= nbf < exp)%Z /\ (exp - iat <= ceiling)%Z.

Definition org_member (o : object) (org : option string) : Prop :=
  match org with None => o !! "org_id" = None | Some s => string_member o "org_id" (Some orgIDPattern) s end.

Definition act_member (o : object) (actor : option string) : Prop :=
  match actor with
  | None => o !! "act" = None
  | Some s => exists m, o !! "act" = Some (JObj m) /\ closed (object_of m) actMembers actMembers /\
                string_member (object_of m) "sub" (Some subjectPattern) s
  end.

Definition access_doc (raw : string) (c : AccessClaims) : Prop :=
  exists o, object_doc raw o /\ closed o claimsMembers claimsRequired /\
    string_member o "iss" (Some issuerPattern) (a_Issuer c) /\ string_member o "aud" None (a_Audience c) /\
    string_member o "sub" (Some subjectPattern) (a_Subject c) /\ string_member o "sid" (Some sessionPattern) (a_SessionID c) /\
    string_member o "jti" (Some jtiPattern) (a_TokenID c) /\ string_member o "scope" None (a_Scope c) /\
    scope_of (a_Audience c) = Some (a_Scope c) /\ o !! "principal_type" = Some (JStr "human") /\
    org_member o (a_OrgID c) /\ act_member o (a_ActorSubject c) /\
    lifetime o lifetimeCeiling (a_IssuedAt c) (a_NotBefore c) (a_ExpiresAt c).

Definition workload_doc (raw : string) (c : WorkloadClaims) : Prop :=
  exists o, object_doc raw o /\ closed o workloadClaimsMembers workloadClaimsMembers /\
    string_member o "iss" (Some issuerPattern) (w_Issuer c) /\ string_member o "aud" None (w_Audience c) /\
    string_member o "sub" (Some subjectPattern) (w_Subject c) /\ string_member o "jti" (Some jtiPattern) (w_TokenID c) /\
    w_Audience c ∈ workloadAudiences /\ o !! "principal_type" = Some (JStr "workload") /\
    lifetime o 300 (w_IssuedAt c) (w_NotBefore c) (w_ExpiresAt c).

Definition service_doc (raw : string) (c : ServiceAccountClaims) : Prop :=
  exists o, object_doc raw o /\ closed o serviceAccountClaimsMembers serviceAccountClaimsMembers /\
    string_member o "iss" (Some issuerPattern) (s_Issuer c) /\ o !! "aud" = Some (JStr serviceAccountTokenAudience) /\
    string_member o "sub" (Some subjectPattern) (s_Subject c) /\ string_member o "org_id" (Some orgIDPattern) (s_OrgID c) /\
    string_member o "cid" (Some credentialIDPattern) (s_CredentialID c) /\ string_member o "jti" (Some jtiPattern) (s_TokenID c) /\
    s_Audience c = serviceAccountTokenAudience /\ o !! "principal_type" = Some (JStr "service_account") /\
    lifetime o 300 (s_IssuedAt c) (s_NotBefore c) (s_ExpiresAt c).

Lemma parse_org_iff o org : parse_org o = Some org <-> org_member o org.
Proof.
  unfold parse_org, org_member. destruct (o !! "org_id") as [v|] eqn:E.
  - rewrite need_some. setoid_rewrite stringMember_iff. split.
    + intros (s & Hs & [= <-]). exact Hs.
    + destruct org as [s|]; [eauto | congruence].
  - split; [intros [= <-]; reflexivity|]. destruct org as [s|]; [|reflexivity]. intros [Hs _]. congruence.
Qed.

Lemma parse_act_iff o actor : parse_act o = Some actor <-> act_member o actor.
Proof.
  unfold parse_act, act_member. destruct (o !! "act") as [v|] eqn:E.
  2: { split; [intros [= <-]; reflexivity|]. destruct actor; [|reflexivity]. intros (m & H & _). discriminate H. }
  assert (Hno : (forall m, v <> JObj m) -> (None = Some actor <->
    match actor with None => Some v = None | Some s => exists m, Some v = Some (JObj m) /\ closed (object_of m) actMembers actMembers /\
      string_member (object_of m) "sub" (Some subjectPattern) s end)).
  { intros Hv. split; [discriminate|]. destruct actor; [|discriminate]. intros (m & [= ->] & _). destruct (Hv m). reflexivity. }
  destruct v as [| | | | |m]; try (apply Hno; discriminate). clear Hno.
  rewrite guard_some, negb_false_iff, closedSet_iff, need_some. setoid_rewrite stringMember_iff. split.
  - intros (Hc & s & Hs & [= <-]). eauto.
  - destruct actor as [s|]; [|discriminate]. intros (m' & [= <-] & Hc & Hs). eauto.
Qed.

(** The last test of a claims parser. *)
Lemma window_test (iat nbf exp ceiling : Z) :
  (nbf <? iat)%Z || (exp <=? nbf)%Z || (ceiling <? exp - iat)%Z = false <-> (iat <= nbf < exp)%Z /\ (exp - iat <= ceiling)%Z.
Proof. rewrite !orb_false_iff, !Z.ltb_ge, Z.leb_gt. lia. Qed.

(** From the tests a parser made to what they say, and back. *)
Ltac read_members :=
  repeat match goal with H : (_ <? _)%Z || (_ <=? _)%Z || (_ <? _)%Z = false |- _ => apply window_test in H end;
  simp_bool;
  repeat match goal with
  | H : decodeObject _ _ = Some _ |- _ => apply decodeObject_doc in H
  | H : closedSet _ _ _ = true |- _ => apply closedSet_iff in H
  | H : stringMember _ _ _ = Some _ |- _ => apply stringMember_iff in H
  | H : numericDate _ _ = Some _ |- _ => apply numericDate_iff in H
  | H : parse_org _ = Some _ |- _ => apply parse_org_iff in H
  | H : parse_act _ = Some _ |- _ => apply parse_act_iff in H
  end.

Ltac put_members :=
  repeat match goal with
  | H : object_doc _ ?o |- context [decodeObject _ _] => rewrite (proj2 (decodeObject_doc _ o) H)
  | H : closed ?o ?a ?r |- context [closedSet ?o ?a ?r] => rewrite (proj2 (closedSet_iff o a r) H)
  | H : string_member ?o ?n ?p ?s |- context [stringMember ?o ?n ?p] => rewrite (proj2 (stringMember_iff o n p s) H)
  | H : date_member ?o ?n ?d |- context [numericDate ?o ?n] => rewrite (proj2 (numericDate_iff o n d) H)
  | H : org_member ?o ?x |- context [parse_org ?o] => rewrite (proj2 (parse_org_iff o x) H)
  | H : act_member ?o ?x |- context [parse_act ?o] => rewrite (proj2 (parse_act_iff o x) H)
  | H : ?o !! ?n = Some (JStr ?s) |- context [stringMember ?o ?n None] => rewrite (proj2 (stringMember_iff o n None s) (conj H I))
  end.

Ltac close_members :=
  repeat first [eassumption | reflexivity | split; [first [eassumption | reflexivity | eapply proj1; eassumption]|]].

Lemma access_doc_iff raw c : parseAccessClaims SimpleFold raw = Some c <-> access_doc raw c.
Proof.
  unfold parseAccessClaims, access_doc. split.
  - intros H. walk_returns H. injection H as <-. read_members. subst.
    eexists. cbn. close_members.
  - destruct c. cbn. intros (o & H1 & H2 & H3 & H4 & H5 & H6 & H7 & H8 & H9 & H10 & H11 & H12 & H13 & H14 & H15 & H16 & H17).
    put_members. rewrite H9, !String.eqb_refl. cbn [negb]. rewrite (proj2 (window_test _ _ _ _) (conj H16 H17)). reflexivity.
Qed.

Lemma workload_doc_iff raw c : parseWorkloadClaims SimpleFold raw = Some c <-> workload_doc raw c.
Proof.
  unfold parseWorkloadClaims, workload_doc. change workloadLifetimeCeiling with 300%Z. split.
  - intros H. walk_returns H. injection H as <-. read_members. subst.
    eexists. cbn. close_members.
  - destruct c. cbn. intros (o & H1 & H2 & H3 & H4 & H5 & H6 & H7 & H8 & H9 & H10 & H11 & H12 & H13).
    put_members. rewrite (proj2 (contains_spec _ _) H7), !String.eqb_refl. cbn [negb].
    rewrite (proj2 (window_test _ _ _ _) (conj H12 H13)). reflexivity.
Qed.

Lemma service_doc_iff raw c : parseServiceAccountClaims SimpleFold raw = Some c <-> service_doc raw c.
Proof.
  unfold parseServiceAccountClaims, service_doc. change serviceAccountLifetimeCeiling with 300%Z. split.
  - intros H. walk_returns H. injection H as <-. read_members. subst.
    eexists. cbn. close_members.
  - destruct c. cbn. intros (o & H1 & H2 & H3 & H4 & H5 & H6 & H7 & H8 & H9 & H10 & H11 & H12 & H13 & H14 & H15).
    subst. put_members. rewrite !String.eqb_refl. cbn [negb].
    rewrite (proj2 (window_test _ _ _ _) (conj H14 H15)). reflexivity.
Qed.
End Docs.

(** * Verify *)

Section Verify.
Variable ed25519_verify : string -> string -> string -> bool.
Context {C : Type} {kind : TokenKind C}.
Notation Verify := (Verify ed25519_verify).

(** The token is the compact form of a header and claims of the class, each in its one encoding. *)
Definition parsed (token hr pr sp kid : string) (c : C) : Prop :=
  token = Prelude.join "." [Base64.encode hr; Base64.encode pr; sp] /\ String.length token <= maxTokenBytes /\
  Base64.url_text sp /\ parseHeader hr = Some kid /\ parseClaims pr = Some c.

(** The key that the verifier trusts for the key id. *)
Definition trusted (v : Verifier) (kid key : string) : Prop :=
  kid ∉ denied v /\ lookupKey (keys v) kid = Ok (key, true) /\ String.length key = PublicKeySize.

Definition signed (key hr pr sp : string) : Prop :=
  exists sig, sp = Base64.encode sig /\ String.length sig = SignatureSize /\
    ed25519_verify key (Base64.encode hr +:+ "." +:+ Base64.encode pr) sig = true.

(** The verifier's leeway, and a clock that the sums cannot take out of an int64. *)
Definition sane (v : Verifier) (now : Time) : Prop :=
  (0 <= leeway v <= 60)%Z /\ (min_int64 + 60 <= unix now <= max_int64 - 60)%Z.

(** The steps after the contract, on a token that is parsed. *)
Definition judge (v : Verifier) (hr pr sp kid : string) (c : C) (now : Time) : result verify_error C :=
  if bool_decide (kid ∈ denied v) then refuse ReasonUnknownKid
  else match lookupKey (keys v) kid with
  | Err e => Err e
  | Ok (key, known) =>
      if negb known || negb (String.length key =? PublicKeySize) then refuse ReasonUnknownKid
      else match Base64.DecodeString true sp with
      | None => refuse ReasonSignature
      | Some sig =>
          if negb (String.length sig =? SignatureSize)
             || negb (ed25519_verify key (Base64.encode hr +:+ "." +:+ Base64.encode pr) sig) then refuse ReasonSignature
          else if negb (String.eqb (Issuer c) (issuer v)) then refuse ReasonIssuer
          else if negb (String.eqb (Audience c) (audience v)) then refuse ReasonAudience
          else if (i64 (unix now + leeway v) <? NotBefore c)%Z then refuse ReasonNotYetValid
          else if (ExpiresAt c <=? i64 (unix now - leeway v))%Z then refuse ReasonExpired
          else Ok c
      end
  end.

Lemma Verify_parsed v token now hr pr sp kid c :
  parsed token hr pr sp kid c -> Verify v token now = judge v hr pr sp kid c now.
Proof.
  intros (-> & Hl & Hs & Hh & Hc). unfold Token.Verify.
  rewrite (proj2 (splitCompact_iff _ (Base64.encode hr) (Base64.encode pr) sp)).
  - rewrite !Base64.DecodeString_encode, Hh, Hc. reflexivity.
  - split; [reflexivity|]. split; [exact Hl|]. repeat constructor; try apply Base64.encode_url. exact Hs.
Qed.

Lemma Verify_cases v token now :
  (exists hr pr sp kid c, parsed token hr pr sp kid c) \/
  (Verify v token now = refuse ReasonContract /\ ~ exists hr pr sp kid c, parsed token hr pr sp kid c).
Proof.
  assert (Hno : forall e, Verify v token now = e -> (forall c, e <> Ok c) -> e = refuse ReasonContract ->
    (forall hr pr sp kid c, parsed token hr pr sp kid c -> False) ->
    Verify v token now = refuse ReasonContract /\ ~ exists hr pr sp kid c, parsed token hr pr sp kid c).
  { intros e <- _ -> H. split; [reflexivity|]. intros (hr & pr & sp & kid & c & Hp). eapply H. exact Hp. }
  unfold Token.Verify in *. destruct (splitCompact token) as [[[h p] s]|] eqn:Es.
  2: { right. eapply Hno; [reflexivity | discriminate | reflexivity|]. intros hr pr sp kid c (-> & Hl & Hs & _).
       rewrite (proj2 (splitCompact_iff _ (Base64.encode hr) (Base64.encode pr) sp)) in Es; [discriminate|].
       split; [reflexivity|]. split; [exact Hl|]. repeat constructor; try apply Base64.encode_url. exact Hs. }
  apply splitCompact_iff in Es as (-> & Hl & Hu). pose proof Hu as Hu'. rewrite !Forall_cons in Hu'. destruct Hu' as (Uh & Up & Us & _).
  assert (Hpin : forall hr pr sp kid c, parsed (Prelude.join "." [h; p; s]) hr pr sp kid c -> h = Base64.encode hr /\ p = Base64.encode pr /\ sp = s).
  { intros hr pr sp kid c (E & _ & Hsp & _).
    assert (Hx : splitCompact (Prelude.join "." [h; p; s]) = Some (Base64.encode hr, Base64.encode pr, sp)).
    { apply splitCompact_iff. split; [exact E|]. split; [exact Hl|]. repeat constructor; try apply Base64.encode_url. exact Hsp. }
    rewrite (proj2 (splitCompact_iff _ h p s) (conj eq_refl (conj Hl Hu))) in Hx. injection Hx as -> -> ->. auto. }
  destruct (Base64.DecodeString true h) as [hr|] eqn:Eh.
  2: { right. eapply Hno; [reflexivity | discriminate | reflexivity|]. intros hr pr sp kid c Hp.
       apply Hpin in Hp as (-> & _). rewrite Base64.DecodeString_encode in Eh. discriminate. }
  destruct (Base64.DecodeString true p) as [pr|] eqn:Ep.
  2: { right. eapply Hno; [reflexivity | discriminate | reflexivity|]. intros hr' pr sp kid c Hp.
       apply Hpin in Hp as (_ & -> & _). rewrite Base64.DecodeString_encode in Ep. discriminate. }
  apply (Base64.DecodeString_strict h hr Uh) in Eh as ->. apply (Base64.DecodeString_strict p pr Up) in Ep as ->.
  assert (Hpin' : forall hr' pr' sp kid c, parsed (Prelude.join "." [Base64.encode hr; Base64.encode pr; s]) hr' pr' sp kid c ->
    parseHeader hr = Some kid /\ parseClaims pr = Some c).
  { intros hr' pr' sp kid c Hp. destruct (Hpin _ _ _ _ _ Hp) as (E1 & E2 & _). apply Base64.encode_inj in E1 as <-, E2 as <-. apply Hp. }
  destruct (parseHeader hr) as [kid|] eqn:Ek.
  2: { right. eapply Hno; [reflexivity | discriminate | reflexivity|]. intros hr' pr' sp kid c Hp. apply Hpin' in Hp as [? _]. congruence. }
  destruct (parseClaims pr) as [c|] eqn:Ec.
  2: { right. eapply Hno; [reflexivity | discriminate | reflexivity|]. intros hr' pr' sp kid' c Hp. apply Hpin' in Hp as [_ ?]. congruence. }
  left. exists hr, pr, s, kid, c. repeat split; assumption || reflexivity.
Qed.

Lemma sane_sums v now : sane v now ->
  i64 (unix now + leeway v) = (unix now + leeway v)%Z /\ i64 (unix now - leeway v) = (unix now - leeway v)%Z.
Proof. intros [Hl Hn]. split; apply i64_small; lia. Qed.

Lemma Verify_accepts v token now c :
  sane v now ->
  (Verify v token now = Ok c <->
   exists hr pr sp kid key,
     parsed token hr pr sp kid c /\ trusted v kid key /\ signed key hr pr sp /\
     Issuer c = issuer v /\ Audience c = audience v /\
     (NotBefore c <= unix now + leeway v)%Z /\ (unix now - leeway v < ExpiresAt c)%Z).
Proof.
  intros Hs. pose proof (sane_sums v now Hs) as [S1 S2]. split.
  - intros H. destruct (Verify_cases v token now) as [(hr & pr & sp & kid & c' & Hp)|[H' _]]; [|rewrite H in H'; discriminate].
    rewrite (Verify_parsed _ _ _ _ _ _ _ _ Hp) in H. unfold judge in H. rewrite S1, S2 in H.
    destruct (lookupKey (keys v) kid) as [[key known]|] eqn:Ek; [|walk_returns H].
    walk_returns H. injection H as ->. simp_bool. subst. exists hr, pr, sp, kid, key.
    pose proof Hp as (_ & _ & Hsp & _).
    match goal with E : Base64.DecodeString true sp = Some _ |- _ => apply (Base64.DecodeString_strict _ _ Hsp) in E end.
    split; [exact Hp|]. unfold trusted, signed. rewrite Ek. eauto 20.
  - intros (hr & pr & sp & kid & key & Hp & (H1 & H2 & H3) & (sig & -> & H4 & H5) & H6 & H7 & H8 & H9).
    rewrite (Verify_parsed _ _ _ _ _ _ _ _ Hp). unfold judge. rewrite S1, S2, (bool_decide_eq_false_2 _ H1), H2, H3.
    rewrite Base64.DecodeString_encode, H4, H5, H6, H7, !String.eqb_refl. cbn.
    rewrite (proj2 (Z.ltb_ge _ _) H8), (proj2 (Z.leb_gt _ _) H9). reflexivity.
Qed.

(** C28: Verify accepts exactly the genuine tokens of its class. The token is at most 8192 bytes and is
    the one canonical base64url form of a header and claims of the class; the header's key id is not
    denied and the key source gives a 32-byte key for it, under which the 64-byte signature of the
    first two parts verifies; issuer and audience are the verifier's; and the clock is inside
    [nbf - leeway, exp + leeway). What it returns is the claims of that token. *)
Theorem Verify_accepts_iff v token now c :
  sane v now ->
  (Verify v token now = Ok c <->
   exists hr pr sp kid key,
     parsed token hr pr sp kid c /\ trusted v kid key /\ signed key hr pr sp /\
     Issuer c = issuer v /\ Audience c = audience v /\
     (NotBefore c <= unix now + leeway v)%Z /\ (unix now - leeway v < ExpiresAt c)%Z).
Proof. apply Verify_accepts. Qed.

(** The first failed test names the refusal. A contract refusal means the token is no canonical
    form of a header and claims of the class; an unknown-key refusal that it is, and no trusted key
    has its key id; a signature refusal that there is a trusted key under which it does not verify;
    and issuer, audience, not-yet-valid and expired refusals that the token is signed by the trusted
    key and passed every test before that one. When the key source could not be read the answer is
    unavailable, never a refusal, and only for a token of the contract whose key id is not denied. *)
Theorem Verify_first_refusal v token now e :
  sane v now -> Verify v token now = Err e ->
  (e = RefusalError ReasonContract /\ ~ exists hr pr sp kid c, parsed token hr pr sp kid c) \/
  exists hr pr sp kid c, parsed token hr pr sp kid c /\
    ((e = UnavailableError /\ kid ∉ denied v /\ lookupKey (keys v) kid = Err UnavailableError) \/
     (e = RefusalError ReasonUnknownKid /\ ~ exists key, trusted v kid key) \/
     exists key, trusted v kid key /\
       ((e = RefusalError ReasonSignature /\ ~ signed key hr pr sp) \/
        (signed key hr pr sp /\
         ((e = RefusalError ReasonIssuer /\ Issuer c <> issuer v) \/
          (Issuer c = issuer v /\
           ((e = RefusalError ReasonAudience /\ Audience c <> audience v) \/
            (Audience c = audience v /\
             ((e = RefusalError ReasonNotYetValid /\ (unix now + leeway v < NotBefore c)%Z) \/
              (e = RefusalError ReasonExpired /\ (NotBefore c <= unix now + leeway v)%Z /\
               (ExpiresAt c <= unix now - leeway v)%Z))))))))).
Proof.
  intros Hs H. pose proof (sane_sums v now Hs) as [S1 S2].
  destruct (Verify_cases v token now) as [(hr & pr & sp & kid & c & Hp)|[H' Hn]].
  2: { left. rewrite H in H'. injection H' as ->. auto. }
  right. exists hr, pr, sp, kid, c. split; [exact Hp|]. rewrite (Verify_parsed _ _ _ _ _ _ _ _ Hp) in H.
  unfold judge in H. rewrite S1, S2 in H. unfold trusted.
  destruct (bool_decide_reflect (kid ∈ denied v)) as [Hd|Hd]; [injection H as <-; right; left; split; [reflexivity | intros (k & Hk & _); auto]|].
  destruct (lookupKey (keys v) kid) as [[key known]|e'] eqn:Ek.
  2: { injection H as <-. left. unfold lookupKey in Ek. destruct (ResolveKey _) as [r|]; [|discriminate Ek].
       destruct (r kid) as [[?|]|]; try discriminate Ek. injection Ek as <-. auto. }
  destruct known; cbn [negb orb] in H; [|injection H as <-; right; left; split; [reflexivity | intros (k & _ & E & _); discriminate E]].
  destruct (Nat.eqb_spec (String.length key) PublicKeySize) as [Hk|Hk]; cbn [negb] in H.
  2: { injection H as <-. right. left. split; [reflexivity|]. intros (k & _ & [= <-] & E). auto. }
  right. right. exists key. split; [auto|]. pose proof Hp as (_ & _ & Hsp & _).
  destruct (Base64.DecodeString true sp) as [sig|] eqn:Es.
  2: { injection H as <-. left. split; [reflexivity|]. intros (sig & -> & _). rewrite Base64.DecodeString_encode in Es. discriminate. }
  apply (Base64.DecodeString_strict _ _ Hsp) in Es as ->.
  destruct (Nat.eqb_spec (String.length sig) SignatureSize) as [Hl|Hl]; cbn [negb orb] in H.
  2: { injection H as <-. left. split; [reflexivity|]. intros (sig' & E & Hl' & _). apply Base64.encode_inj in E as <-. auto. }
  destruct (ed25519_verify key _ sig) eqn:Ev; cbn [negb] in H.
  2: { injection H as <-. left. split; [reflexivity|]. intros (sig' & E & _ & Hv). apply Base64.encode_inj in E as <-. congruence. }
  right. split; [exists sig; auto|].
  destruct (String.eqb_spec (Issuer c) (issuer v)); cbn [negb] in H; [|injection H as <-; auto]. right. split; [assumption|].
  destruct (String.eqb_spec (Audience c) (audience v)); cbn [negb] in H; [|injection H as <-; auto]. right. split; [assumption|].
  destruct (Z.ltb_spec (unix now + leeway v) (NotBefore c)); [injection H as <-; auto|].
  destruct (Z.leb_spec (ExpiresAt c) (unix now - leeway v)); [injection H as <-; auto | discriminate H].
Qed.

End Verify.

(** * Classes *)

(** What a token class promises to the code that verifies its tokens: its header parser reads
    exactly the headers of its typ, and its claims live at most its ceiling. *)
Class TokenKindLaws (SimpleFold : N -> N) (C : Type) `{!TokenKind C} := {
  kind_typ : string;
  IssuedAt : C -> Z;
  ceiling : Z;
  header_law raw kid : parseHeader raw = Some kid <-> header_doc SimpleFold kind_typ raw kid;
  claims_law raw c : parseClaims raw = Some c ->
    (1 <= IssuedAt c <= NotBefore c)%Z /\ (NotBefore c < ExpiresAt c <= maxNumericDate)%Z /\ (ExpiresAt c - IssuedAt c <= ceiling)%Z;
}.

Lemma lifetime_bounds o k iat nbf exp : lifetime o k iat nbf exp ->
  (1 <= iat <= nbf)%Z /\ (nbf < exp <= maxNumericDate)%Z /\ (exp - iat <= k)%Z.
Proof.
  intros ((t1 & _ & _ & _ & _ & H1) & (t2 & _ & _ & _ & _ & H2) & (t3 & _ & _ & _ & _ & H3) & H4 & H5). lia.
Qed.

Section Kinds.
Variable SimpleFold : N -> N.

#[global] Instance access_laws : @TokenKindLaws SimpleFold AccessClaims (access_kind SimpleFold).
Proof.
  refine (@Build_TokenKindLaws SimpleFold AccessClaims (access_kind SimpleFold) typAccessToken a_IssuedAt lifetimeCeiling
    (parse_header_iff SimpleFold typAccessToken) _).
  intros raw c H. apply access_doc_iff in H as (o & H). eapply lifetime_bounds, H.
Defined.

#[global] Instance workload_laws : @TokenKindLaws SimpleFold WorkloadClaims (workload_kind SimpleFold).
Proof.
  refine (@Build_TokenKindLaws SimpleFold WorkloadClaims (workload_kind SimpleFold) typWorkloadToken w_IssuedAt 300%Z
    (parse_header_iff SimpleFold typWorkloadToken) _).
  intros raw c H. apply workload_doc_iff in H as (o & H). eapply lifetime_bounds, H.
Defined.

#[global] Instance service_laws : @TokenKindLaws SimpleFold ServiceAccountClaims (service_account_kind SimpleFold).
Proof.
  refine (@Build_TokenKindLaws SimpleFold ServiceAccountClaims (service_account_kind SimpleFold) typServiceAccountToken s_IssuedAt 300%Z
    (parse_header_iff SimpleFold typServiceAccountToken) _).
  intros raw c H. apply service_doc_iff in H as (o & H). eapply lifetime_bounds, H.
Defined.
End Kinds.

(** A token accepted for one class is refused by every verifier of a class with another typ. *)
Lemma other_class {C D} {kc : TokenKind C} {kd : TokenKind D} (SimpleFold : N -> N)
    {lc : TokenKindLaws SimpleFold C} {ld : TokenKindLaws SimpleFold D} ed ed' v v' token now now' c :
  kind_typ (C:=C) <> kind_typ (C:=D) ->
  Verify (kind:=kc) ed v token now = Ok c -> Verify (kind:=kd) ed' v' token now' = refuse ReasonContract.
Proof.
  intros Hne H. destruct (Verify_cases (kind:=kc) ed v token now) as [(hr & pr & sp & kid & c1 & Hp)|[H' _]]; [|rewrite H in H'; discriminate].
  destruct (Verify_cases (kind:=kd) ed' v' token now') as [(hr' & pr' & sp' & kid' & c2 & Hp')|[H' _]]; [|exact H'].
  exfalso. apply Hne. destruct Hp as (E & Hl & Hs & Hh & _), Hp' as (E' & _ & Hs' & Hh' & _).
  assert (Hx : forall h p s, Base64.url_text s -> token = Prelude.join "." [Base64.encode h; Base64.encode p; s] ->
    splitCompact token = Some (Base64.encode h, Base64.encode p, s)).
  { intros h p s Hu Ht. apply splitCompact_iff. split; [exact Ht|]. split; [exact Hl|]. repeat constructor; try apply Base64.encode_url. exact Hu. }
  pose proof (Hx _ _ _ Hs E) as X. rewrite (Hx _ _ _ Hs' E') in X. injection X as X _ _. apply Base64.encode_inj in X as ->.
  apply (header_law (SimpleFold:=SimpleFold)) in Hh, Hh'. eapply header_typ; eassumption.
Qed.

Lemma build_sane audiences max cfg v now :
  (max <= 60 * Second)%Z -> build audiences max cfg = Ok v ->
  (0 <= leeway v)%Z /\ (leeway v * Second <= max)%Z /\ ((min_int64 + 60 <= unix now <= max_int64 - 60)%Z -> sane v now) /\
  matches issuerPattern (issuer v) /\ audience v ∈ audiences.
Proof.
  intros Hmax H. unfold build in H. walk_returns H. injection H as <-. simp_bool. simpl.
  rewrite <-matchb_spec. assert (Hq : (c_Leeway cfg = Second * Z.quot (c_Leeway cfg) Second)%Z).
  { pose proof (Z.quot_rem' (c_Leeway cfg) Second). lia. }
  unfold sane. simpl. unfold Second in *. set (q := Z.quot _ _) in *. clearbody q. repeat split; auto; lia.
Qed.

(** * Properties of the three verifiers *)

(** ParseAccessClaims, parseWorkloadClaims and parseServiceAccountClaims read exactly the claims
    documents of their contracts: a strict object with the closed set of members, each of its type
    and pattern, the audience's own scope, an optional org_id, at most one hop of delegation, and
    integer dates with iat <= nbf < exp at most an hour (300 seconds for the two short-lived
    classes) apart. *)
Theorem claims_parsers_exact SimpleFold raw :
  (forall c, parseAccessClaims SimpleFold raw = Some c <-> access_doc SimpleFold raw c) /\
  (forall c, parseWorkloadClaims SimpleFold raw = Some c <-> workload_doc SimpleFold raw c) /\
  (forall c, parseServiceAccountClaims SimpleFold raw = Some c <-> service_doc SimpleFold raw c).
Proof. split; [|split]; intros c; [apply access_doc_iff | apply workload_doc_iff | apply service_doc_iff]. Qed.

(** C29: the token classes are disjoint. Whatever keys, clocks and configurations the verifiers have, a
    token one of them accepts is refused by the other two with the contract reason: a workload or
    service account token never passes as a user's access token, and the reverse. *)
Theorem token_classes_disjoint SimpleFold ed1 ed2 ed3 v1 v2 v3 token now1 now2 now3 :
  (forall c, Verifier_Verify SimpleFold ed1 v1 token now1 = Ok c ->
     WorkloadVerifier_Verify SimpleFold ed2 v2 token now2 = refuse ReasonContract /\
     ServiceAccountVerifier_Verify SimpleFold ed3 v3 token now3 = refuse ReasonContract) /\
  (forall c, WorkloadVerifier_Verify SimpleFold ed2 v2 token now2 = Ok c ->
     Verifier_Verify SimpleFold ed1 v1 token now1 = refuse ReasonContract /\
     ServiceAccountVerifier_Verify SimpleFold ed3 v3 token now3 = refuse ReasonContract) /\
  (forall c, ServiceAccountVerifier_Verify SimpleFold ed3 v3 token now3 = Ok c ->
     Verifier_Verify SimpleFold ed1 v1 token now1 = refuse ReasonContract /\
     WorkloadVerifier_Verify SimpleFold ed2 v2 token now2 = refuse ReasonContract).
Proof.
  repeat split; revert H; apply other_class with (SimpleFold := SimpleFold) (lc := _) (ld := _); discriminate.
Qed.

Lemma accepted_window {C} {kc : TokenKind C} (SimpleFold : N -> N) {lc : TokenKindLaws SimpleFold C} ed audiences max cfg v token now c :
  (max <= 60 * Second)%Z -> build audiences max cfg = Ok v -> (min_int64 + 60 <= unix now <= max_int64 - 60)%Z ->
  Verify ed v token now = Ok c ->
  (ExpiresAt c - IssuedAt c <= ceiling)%Z /\ (IssuedAt c <= NotBefore c < ExpiresAt c)%Z /\
  (NotBefore c - max / Second <= unix now < ExpiresAt c + max / Second)%Z /\
  Issuer c = issuer v /\ Audience c = audience v /\ audience v ∈ audiences.
Proof.
  intros Hmax Hb Hn H. destruct (build_sane _ _ _ _ now Hmax Hb) as (L0 & L1 & Hs & _ & Ha). specialize (Hs Hn).
  pose proof (sane_sums v now Hs) as [S1 S2].
  destruct (Verify_cases ed v token now) as [(hr & pr & sp & kid & c' & Hp)|[H' _]]; [|rewrite H in H'; discriminate].
  rewrite (Verify_parsed _ _ _ _ _ _ _ _ _ Hp) in H. unfold judge in H. rewrite S1, S2 in H. walk_returns H. injection H as ->.
  destruct Hp as (_ & _ & _ & _ & Hc). apply (claims_law (SimpleFold:=SimpleFold)) in Hc. simp_bool.
  assert (leeway v <= max / Second)%Z by (apply Z.div_le_lower_bound; [reflexivity | lia]).
  repeat split; auto; lia.
Qed.

(** An accepted token is short-lived and current. A verifier built by its constructor accepts only
    tokens of its own issuer and audience, whose lifetime is at most an hour for an access token and
    300 seconds for a workload or service account token, and only at times no earlier than nbf and
    no later than exp by more than the largest leeway (60, 30 and 30 seconds). *)
Theorem accepted_token_is_current SimpleFold ed cfg v token now :
  (min_int64 + 60 <= unix now <= max_int64 - 60)%Z ->
  (forall c, NewVerifier cfg = Ok v -> Verifier_Verify SimpleFold ed v token now = Ok c ->
     (a_ExpiresAt c - a_IssuedAt c <= 3600)%Z /\ (a_IssuedAt c <= a_NotBefore c)%Z /\
     (a_NotBefore c - 60 <= unix now < a_ExpiresAt c + 60)%Z /\ a_Issuer c = issuer v /\ a_Audience c = audience v) /\
  (forall c, NewWorkloadVerifier cfg = Ok v -> WorkloadVerifier_Verify SimpleFold ed v token now = Ok c ->
     (w_ExpiresAt c - w_IssuedAt c <= 300)%Z /\ (w_IssuedAt c <= w_NotBefore c)%Z /\
     (w_NotBefore c - 30 <= unix now < w_ExpiresAt c + 30)%Z /\ w_Issuer c = issuer v /\ w_Audience c = audience v) /\
  (forall c, NewServiceAccountVerifier cfg = Ok v -> ServiceAccountVerifier_Verify SimpleFold ed v token now = Ok c ->
     (s_ExpiresAt c - s_IssuedAt c <= 300)%Z /\ (s_IssuedAt c <= s_NotBefore c)%Z /\
     (s_NotBefore c - 30 <= unix now < s_ExpiresAt c + 30)%Z /\ s_Issuer c = issuer v /\ s_Audience c = "dev-health-api").
Proof.
  intros Hn. split; [|split]; intros c Hb H.
  - destruct (accepted_window (kc:=access_kind SimpleFold) SimpleFold ed _ MaxLeeway cfg v token now c ltac:(discriminate) Hb Hn H)
      as (H1 & H2 & H3 & H4 & H5 & _). cbn in H1, H2, H4, H5. change (MaxLeeway / Second)%Z with 60%Z in H3. cbn in H3. repeat split; auto; lia.
  - destruct (accepted_window (kc:=workload_kind SimpleFold) SimpleFold ed _ MaxWorkloadLeeway cfg v token now c ltac:(discriminate) Hb Hn H)
      as (H1 & H2 & H3 & H4 & H5 & _). cbn in H1, H2, H4, H5. change (MaxWorkloadLeeway / Second)%Z with 30%Z in H3. cbn in H3. repeat split; auto; lia.
  - destruct (accepted_window (kc:=service_account_kind SimpleFold) SimpleFold ed _ MaxServiceAccountLeeway _ v token now c ltac:(discriminate) Hb Hn H)
      as (H1 & H2 & H3 & H4 & H5 & _). cbn in H1, H2, H4, H5. change (MaxServiceAccountLeeway / Second)%Z with 30%Z in H3. cbn in H3.
    destruct (Verify_cases (kind:=service_account_kind SimpleFold) ed v token now) as [(hr & pr & sp & kid & c' & Hp)|[H' _]].
    2: { unfold ServiceAccountVerifier_Verify in H. rewrite H in H'. discriminate. }
    unfold ServiceAccountVerifier_Verify in H. rewrite (Verify_parsed _ _ _ _ _ _ _ _ _ Hp) in H. unfold judge in H. walk_returns H.
    injection H as ->. destruct Hp as (_ & _ & _ & _ & Hc). apply service_doc_iff in Hc as (o & Hd).
    repeat split; try (apply Hd); auto; lia.
Qed.

(** ** A sample access token *)

Definition sample_keys : KeySource := StaticKeys {[ "k1" := of_chars (repeat "k"%char 32) ]}.
Definition sample_signature : string := of_chars (repeat "s"%char 64).
Definition sample_ed25519 (key msg sig : string) : bool := String.eqb sig sample_signature.
Definition sample_header : string := quotes "{'alg':'EdDSA','typ':'at+jwt','kid':'k1'}".
Definition sample_claims : string := quotes
  "{'iss':'https://auth.example','aud':'dev-health-api','sub':'prn_1','principal_type':'human','sid':'ses_abcdefghijklmnopqrstuv','jti':'abcdefghijklmnopqrstuv','iat':1000,'nbf':1000,'exp':2000,'scope':'api:access'}".
Definition sample_token : string :=
  Prelude.join "." [Base64.encode sample_header; Base64.encode sample_claims; Base64.encode sample_signature].
Definition sample_config : VerifierConfig :=
  mkVerifierConfig "https://auth.example" "dev-health-api" (Some sample_keys) [] (5 * Second)%Z.
Definition sample_verifier : Verifier := mkVerifier "https://auth.example" "dev-health-api" sample_keys ∅ 5.
Definition sample_access : AccessClaims :=
  mkAccess "https://auth.example" "dev-health-api" "prn_1" "ses_abcdefghijklmnopqrstuv" "abcdefghijklmnopqrstuv" "api:access" None None 1000 1000 2000.
Definition sample_now : Time := at_ns (1500 * Second)%Z.

Example sample_accepted :
  NewVerifier sample_config = Ok sample_verifier /\
  Verifier_Verify id sample_ed25519 sample_verifier sample_token sample_now = Ok sample_access.
Proof. vm_compute. auto. Qed.

Lemma Verify_accepts_iff_witness :
  sane sample_verifier sample_now /\
  exists key, trusted sample_verifier "k1" key.
Proof.
  assert (Hs : sane sample_verifier sample_now) by (unfold sane; vm_compute; repeat split; discriminate).
  split; [exact Hs|].
  destruct (proj1 (Verify_accepts_iff (kind:=access_kind id) sample_ed25519 sample_verifier sample_token sample_now sample_access Hs)
    ltac:(vm_compute; reflexivity)) as (hr & pr & sp & kid & key & _ & _).
  exists (of_chars (repeat "k"%char 32)). split; [apply not_elem_of_empty|]. split; vm_compute; reflexivity.
Defined.

Lemma Verify_first_refusal_witness :
  sane sample_verifier (at_ns (3000 * Second)%Z) /\
  Verify (kind:=access_kind id) sample_ed25519 sample_verifier sample_token (at_ns (3000 * Second)%Z) = Err (RefusalError ReasonExpired) /\
  exists kid key, trusted sample_verifier kid key.
Proof.
  assert (Hs : sane sample_verifier (at_ns (3000 * Second)%Z)) by (unfold sane; vm_compute; repeat split; discriminate).
  assert (He : Verify (kind:=access_kind id) sample_ed25519 sample_verifier sample_token (at_ns (3000 * Second)%Z) = Err (RefusalError ReasonExpired))
    by (vm_compute; reflexivity).
  split; [exact Hs|]. split; [exact He|].
  destruct (Verify_first_refusal (kind:=access_kind id) sample_ed25519 _ _ _ _ Hs He) as
    [[E _]|(hr & pr & sp & kid & c & _ & [(E & _)|[(E & _)|(key & Ht & _)]])]; try discriminate E.
  exists kid, key. exact Ht.
Defined.

Lemma accepted_token_is_current_witness :
  (min_int64 + 60 <= unix sample_now <= max_int64 - 60)%Z /\ (a_ExpiresAt sample_access - a_IssuedAt sample_access <= 3600)%Z.
Proof.
  assert (Hn : (min_int64 + 60 <= unix sample_now <= max_int64 - 60)%Z) by (vm_compute; split; discriminate).
  split; [exact Hn|].
  apply (proj1 (accepted_token_is_current id sample_ed25519 sample_config sample_verifier sample_token sample_now Hn) sample_access);
    vm_compute; reflexivity.
Defined.

End TokenSpec.
