(* ===== verification/AuthJwks.v ===== *)
(** The strict JWKS reader of src/authverify/jwks.go: binding of the document to its structs
    (encoding/json: a member binds to the field of its name, exactly or by case folding; null leaves
    a field as it is; an unknown member or a value of another type is an error), the retire_after
    member, and the checks on each key. The file path admits retire_after, the HTTP path refuses it. *)
From S2P Require Import Prelude Regex Json JsonDecoder Decimal GoTime GoStrings Base64 AuthJson AuthToken.

Module Jwks.
Import Json GoTime GoStrings AuthJson.

Record retireAfterMember := mkRetire { present : bool; at_ : Time }.

Record jwk := mkJwk {
  KeyType : string; Curve : string; KeyID : string; Use : string; Alg : string; X : string;
  RetireAfter : retireAfterMember }.

(** jwksDocument: the keys; a nil slice is []. *)
Definition jwksDocument := list jwk.

Record JWKSKey := mkKey { Public : string; k_RetireAfter : option Time }.

Definition zero_retire : retireAfterMember := mkRetire false zero_time.
Definition zero_jwk : jwk := mkJwk "" "" "" "" "" "" zero_retire.

(** ** retire_after *)

Definition d2 : re := rep (cls "0-9") 2 2.
Definition retireAfterGrammar : re :=
  seqs [rep (cls "0-9") 4 4; lit "-"; d2; lit "-"; d2; cls "Tt"; d2; lit ":"; d2; lit ":"; d2;
        opt (seqs [lit "."; Regex.plus (cls "0-9")]); alts [cls "Zz"; lit "+00:00"; lit "-00:00"]].

(** The range checks of time.Parse on a text of the layout's shape, then the day of the month. *)
Definition ParseRFC3339Nano (s : string) : option Time :=
  if (1 <=? field 5 2 s)%Z && (field 5 2 s <=? 12)%Z && (field 11 2 s <? 24)%Z && (field 14 2 s <? 60)%Z && (field 17 2 s <? 60)%Z
  then ParseRFC3339 s else None.

(** The parts of a text the grammar matches stand at fixed places. *)
Definition secfrac (text : string) : string :=
  match String.substring 19 (String.length text - 19) text with
  | String c r => if Ascii.eqb c "." then (digits_of r).1 else EmptyString
  | EmptyString => EmptyString
  end.

Definition UnmarshalJSON (data : json) : option retireAfterMember :=
  let text := match data with JStr s => Some s | JNull => Some EmptyString | _ => None end in
  match text with
  | None => None
  | Some text =>
      if negb (matchb retireAfterGrammar text) then None
      else
        let second := String.substring 17 2 text in
        let fraction := secfrac text in
        let fraction := if 9 <? String.length fraction then String.substring 0 9 fraction else fraction in
        let clock := String.substring 11 2 text +:+ ":" +:+ String.substring 14 2 text +:+ ":" +:+ second in
        let clock := if String.eqb fraction "" then clock else clock +:+ "." +:+ fraction in
        if String.eqb second "60" then None
        else match ParseRFC3339Nano (String.substring 0 10 text +:+ "T" +:+ clock +:+ "Z") with
             | Some at_ => Some (mkRetire true (UTC at_))
             | None => None
             end
  end.

Section Bind.
Variable SimpleFold : N -> N.

(** The field a member binds to: its exact name, else its name under case folding. *)
Definition field_for (fields : list string) (name : string) : option string :=
  if contains fields name then Some name
  else List.find (fun f => EqualFold SimpleFold f name) fields.

Definition bind_string (v : json) (old : string) : option string :=
  match v with JStr s => Some s | JNull => Some old | _ => None end.

Definition jwk_fields : list string := ["kty"; "crv"; "kid"; "use"; "alg"; "x"; "retire_after"].

(** One member of a key; None is an error of the decoder, an unknown member included. *)
Definition bind_member (k : jwk) (kv : string * json) : option jwk :=
  let v := kv.2 in
  match field_for jwk_fields kv.1 with
  | None => None
  | Some f =>
      if String.eqb f "kty" then option_map (fun s => mkJwk s (Curve k) (KeyID k) (Use k) (Alg k) (X k) (RetireAfter k)) (bind_string v (KeyType k))
      else if String.eqb f "crv" then option_map (fun s => mkJwk (KeyType k) s (KeyID k) (Use k) (Alg k) (X k) (RetireAfter k)) (bind_string v (Curve k))
      else if String.eqb f "kid" then option_map (fun s => mkJwk (KeyType k) (Curve k) s (Use k) (Alg k) (X k) (RetireAfter k)) (bind_string v (KeyID k))
      else if String.eqb f "use" then option_map (fun s => mkJwk (KeyType k) (Curve k) (KeyID k) s (Alg k) (X k) (RetireAfter k)) (bind_string v (Use k))
      else if String.eqb f "alg" then option_map (fun s => mkJwk (KeyType k) (Curve k) (KeyID k) (Use k) s (X k) (RetireAfter k)) (bind_string v (Alg k))
      else if String.eqb f "x" then option_map (fun s => mkJwk (KeyType k) (Curve k) (KeyID k) (Use k) (Alg k) s (RetireAfter k)) (bind_string v (X k))
      else option_map (fun r => mkJwk (KeyType k) (Curve k) (KeyID k) (Use k) (Alg k) (X k) r) (UnmarshalJSON v)
  end.

Fixpoint bind_members (k : jwk) (m : list (string * json)) : option jwk :=
  match m with
  | [] => Some k
  | kv :: m => match bind_member k kv with Some k => bind_members k m | None => None end
  end.

Definition bind_jwk (v : json) : option jwk :=
  match v with JObj m => bind_members zero_jwk m | JNull => Some zero_jwk | _ => None end.

(** The document: its one member is keys. *)
Fixpoint bind_document (doc : jwksDocument) (m : list (string * json)) : option jwksDocument :=
  match m with
  | [] => Some doc
  | (name, v) :: m =>
      match field_for ["keys"] name with
      | None => None
      | Some _ =>
          match v with
          | JArr l => match mapM bind_jwk l with Some ks => bind_document ks m | None => None end
          | JNull => bind_document [] m
          | _ => None
          end
      end
  end.

Definition Decode (v : json) : option jwksDocument :=
  match v with JObj m => bind_document [] m | JNull => Some [] | _ => None end.

(** ** Keys *)

Definition validKeyID (value : string) : bool :=
  let value := TrimSpace value in
  negb (String.eqb value "") && (String.length value <=? 256).

(** One round of the loop over the document's keys. *)
Definition add_key (admitRetireAfter : bool) (keys : gmap string JWKSKey) (candidate : jwk) : option (gmap string JWKSKey) :=
  match Base64.DecodeString false (X candidate) with
  | None => None
  | Some key =>
      if negb (String.eqb (KeyType candidate) "OKP") || negb (String.eqb (Curve candidate) "Ed25519")
         || negb (String.eqb (Alg candidate) "EdDSA")
         || (negb (String.eqb (Use candidate) "") && negb (String.eqb (Use candidate) "sig"))
         || negb (validKeyID (KeyID candidate)) || negb (String.length key =? Token.PublicKeySize) then None
      else if bool_decide (is_Some (keys !! KeyID candidate)) then None
      else if present (RetireAfter candidate) then
        if negb admitRetireAfter then None
        else Some (<[KeyID candidate := mkKey key (Some (at_ (RetireAfter candidate)))]> keys)
      else Some (<[KeyID candidate := mkKey key None]> keys)
  end.

Fixpoint add_keys (admitRetireAfter : bool) (keys : gmap string JWKSKey) (doc : jwksDocument) : option (gmap string JWKSKey) :=
  match doc with
  | [] => Some keys
  | c :: doc => match add_key admitRetireAfter keys c with Some keys => add_keys admitRetireAfter keys doc | None => None end
  end.

(** None is ErrInvalidJWKS. *)
Definition parseJWKSDocument (encoded : string) (admitRetireAfter : bool) : option (gmap string JWKSKey) :=
  if negb (singleDocumentWithoutDuplicateMembers SimpleFold encoded) then None
  else match parse_document true encoded with
  | None => None
  | Some v =>
      match Decode v with
      | None | Some [] => None
      | Some doc => add_keys admitRetireAfter ∅ doc
      end
  end.

Definition publics (set : gmap string JWKSKey) : gmap string string := Public <$> set.

Definition parseJWKS (encoded : string) : option (gmap string string) := option_map publics (parseJWKSDocument encoded false).

(** KeySet and Keys of the file reader, on what os.ReadFile gave. *)
Inductive file_error := ReadError | ErrInvalidJWKS.
Definition KeySet (file : option string) : result file_error (gmap string JWKSKey) :=
  match file with
  | None => Err ReadError
  | Some encoded => match parseJWKSDocument encoded true with Some set => Ok set | None => Err ErrInvalidJWKS end
  end.
Definition Keys (file : option string) : result file_error (gmap string string) :=
  try! set := KeySet file in Ok (publics set).

End Bind.

(** * Retirement times *)

Example retire_forms :
  UnmarshalJSON (JStr "2026-01-02t03:04:05.1234567899z") = UnmarshalJSON (JStr "2026-01-02T03:04:05.123456789-00:00") /\
  UnmarshalJSON (JStr "2026-01-02T03:04:05+00:00") = Some (mkRetire true (at_ns (Date 2026 1 2 3 4 5 0))) /\
  UnmarshalJSON (JStr "2026-01-02T03:04:05,5Z") = None /\ UnmarshalJSON (JStr "2026-06-30T23:59:60Z") = None /\
  UnmarshalJSON (JStr "2026-02-30T00:00:00Z") = None /\ UnmarshalJSON (JStr "2026-01-02T03:04:05+01:00") = None /\
  UnmarshalJSON JNull = None /\ UnmarshalJSON (JNum "1") = None.
Proof. vm_compute. auto 10. Qed.

Example folded_member :
  bind_jwk id (JObj [("KTY", JStr "OKP"); ("use", JNull)]) = Some (mkJwk "OKP" "" "" "" "" "" zero_retire) /\
  bind_jwk id (JObj [("n", JStr "x")]) = None.
Proof. vm_compute. auto. Qed.

(** The 256 bytes are counted after the trim: a key id of any length passes when the rest is space. *)
Lemma padded_key_id : exists value, 256 < String.length value /\ validKeyID value = true.
Proof.
  exists (of_chars (repeat " "%char 300) +:+ "k"). split; [|vm_compute; reflexivity].
  apply Nat.ltb_lt. vm_compute. reflexivity.
Qed.

(** * What a JWKS document is *)

(** A key the document may hold, and the entry it gives. *)
Definition good_jwk (admitRetireAfter : bool) (c : jwk) (e : JWKSKey) : Prop :=
  Base64.DecodeString false (X c) = Some (Public e) /\ String.length (Public e) = Token.PublicKeySize /\
  KeyType c = "OKP" /\ Curve c = "Ed25519" /\ Alg c = "EdDSA" /\ (Use c = "" \/ Use c = "sig") /\
  validKeyID (KeyID c) = true /\
  k_RetireAfter e = (if present (RetireAfter c) then Some (at_ (RetireAfter c)) else None) /\
  (present (RetireAfter c) = true -> admitRetireAfter = true).

Lemma add_key_iff with_retire keys c keys' :
  add_key with_retire keys c = Some keys' <->
  exists e, good_jwk with_retire c e /\ keys !! KeyID c = None /\ keys' = <[KeyID c := e]> keys.
Proof.
  unfold add_key, good_jwk. split.
  - intros H. destruct (Base64.DecodeString false (X c)) as [key|] eqn:Ex; [|discriminate].
    destruct (_ || _) eqn:Eg in H; [discriminate|]. simp_bool.
    destruct (bool_decide (is_Some (keys !! KeyID c))) eqn:Ed; [discriminate|]. apply bool_decide_eq_false in Ed. rewrite <-eq_None_not_Some in Ed.
    rewrite andb_false_iff, !negb_false_iff, !String.eqb_eq in *.
    exists (mkKey key (if present (RetireAfter c) then Some (at_ (RetireAfter c)) else None)). cbn.
    destruct (present (RetireAfter c)); [destruct with_retire; [|discriminate]|]; injection H as <-;
      (split; [repeat split; auto; discriminate | split; [exact Ed | reflexivity]]).
  - intros ([key ra] & (Hx & Hl & H1 & H2 & H3 & H4 & H5 & H6 & H7) & Hn & ->). cbn in *.
    rewrite Hx, H1, H2, H3, H5, Hl, Hn. rewrite bool_decide_eq_false_2 by (intros [? E]; discriminate E).
    assert (Hu : negb (String.eqb (Use c) "") && negb (String.eqb (Use c) "sig") = false) by (destruct H4 as [->| ->]; reflexivity).
    rewrite Hu. cbn. subst ra. destruct (present (RetireAfter c)); [|reflexivity]. rewrite (H7 eq_refl). reflexivity.
Qed.

Lemma add_keys_iff with_retire doc : forall keys set,
  add_keys with_retire keys doc = Some set <->
  exists es, Forall2 (good_jwk with_retire) doc es /\ NoDup (KeyID <$> doc) /\ (forall c, c ∈ doc -> keys !! KeyID c = None) /\
    set = list_to_map (zip (KeyID <$> doc) es) ∪ keys.
Proof.
  induction doc as [|c doc IH]; intros keys set; cbn [add_keys].
  - split.
    + intros [= <-]. exists []. repeat split; [constructor | constructor | intros c Hc; inversion Hc|]. symmetry. apply map_empty_union.
    + intros (es & Hes & _ & _ & ->). inversion_clear Hes. f_equal. symmetry. apply map_empty_union.
  - split.
    + destruct (add_key with_retire keys c) as [keys'|] eqn:Ek; [|discriminate]. apply add_key_iff in Ek as (e & He & Hn & ->). rewrite IH.
      intros (es & Hes & Hnd & Hfree & ->).
      assert (Hc : KeyID c ∉ KeyID <$> doc).
      { intros Hin. apply list_elem_of_fmap in Hin as (c' & E & Hc'). apply Hfree in Hc'. rewrite <-E, lookup_insert_eq in Hc'. discriminate. }
      exists (e :: es). repeat split; [constructor; assumption | constructor; assumption | |].
      * intros c' Hc'. apply elem_of_cons in Hc' as [->|Hc']; [exact Hn|]. specialize (Hfree c' Hc').
        apply lookup_insert_None in Hfree. apply Hfree.
      * cbn [fmap list_fmap zip_with list_to_map]. cbn. rewrite <-insert_union_l, insert_union_r; [reflexivity|].
        apply not_elem_of_list_to_map_1. rewrite fst_zip; [exact Hc|]. rewrite length_fmap. apply Forall2_length in Hes. lia.
    + intros (es & Hes & Hnd & Hfree & ->). inversion Hes as [|? e ? es' He Hes' E1 E2]; subst. cbn in Hnd. apply NoDup_cons in Hnd as [Hc Hnd].
      rewrite (proj2 (add_key_iff with_retire keys c _) (ex_intro _ e (conj He (conj (Hfree c ltac:(left)) eq_refl)))).
      apply IH. exists es'. repeat split; [exact Hes' | exact Hnd | |].
      * intros c' Hc'. rewrite lookup_insert_ne; [apply Hfree; right; exact Hc'|]. intros E. apply Hc. rewrite E. apply list_elem_of_fmap. eauto.
      * cbn. rewrite <-insert_union_l, insert_union_r; [reflexivity|].
        apply not_elem_of_list_to_map_1. rewrite fst_zip; [exact Hc|]. rewrite length_fmap. apply Forall2_length in Hes'. lia.
Qed.

Section JwksSpec.
Variable SimpleFold : N -> N.

(** The entries of a document's keys. *)
Definition jwks_doc (encoded : string) (with_retire : bool) (set : gmap string JWKSKey) : Prop :=
  exists v doc es, document true encoded v /\ distinct_folded SimpleFold v /\ Decode SimpleFold v = Some doc /\ doc <> [] /\
    NoDup (KeyID <$> doc) /\ Forall2 (good_jwk with_retire) doc es /\ set = list_to_map (zip (KeyID <$> doc) es).

Lemma jwks_doc_iff encoded with_retire set : parseJWKSDocument SimpleFold encoded with_retire = Some set <-> jwks_doc encoded with_retire set.
Proof.
  unfold parseJWKSDocument, jwks_doc. split.
  - destruct (singleDocumentWithoutDuplicateMembers SimpleFold encoded) eqn:Es; [|discriminate]. apply single_document_iff in Es as (v & Hv & Hd).
    cbn [negb]. destruct (parse_document true encoded) as [w|] eqn:Ep; [|discriminate]. apply parse_iff in Ep as [Hw Hsh].
    rewrite (text_unique _ _ _ _ Hw Hv) in *. destruct (Decode SimpleFold v) as [[|c doc]|] eqn:Ed; try discriminate.
    intros H. apply add_keys_iff in H as (es & Hes & Hnd & _ & ->). exists v, (c :: doc), es.
    split; [split; assumption|]. do 2 (split; [assumption|]). split; [discriminate|]. do 2 (split; [assumption|]). apply map_union_empty.
  - intros (v & doc & es & Hv & Hd & Ed & Hne & Hnd & Hes & ->).
    rewrite (proj2 (single_document_iff SimpleFold encoded)) by (exists v; split; [apply Hv | exact Hd]). cbn [negb]. rewrite (proj2 (parse_iff true encoded v) Hv), Ed.
    destruct doc as [|c doc]; [congruence|]. apply add_keys_iff. exists es.
    do 2 (split; [assumption|]). split; [intros; apply lookup_empty|]. symmetry. apply map_union_empty.
Qed.

Lemma entry_of doc es kid (e : JWKSKey) : NoDup (KeyID <$> doc) -> length doc = length es ->
  (list_to_map (zip (KeyID <$> doc) es) : gmap string JWKSKey) !! kid = Some e <->
  exists i c, doc !! i = Some c /\ es !! i = Some e /\ KeyID c = kid.
Proof.
  intros Hnd Hl. rewrite <-elem_of_list_to_map; [|rewrite fst_zip; [exact Hnd | rewrite length_fmap; lia]].
  rewrite list_elem_of_lookup. setoid_rewrite lookup_zip_with_Some. setoid_rewrite list_lookup_fmap_Some. naive_solver.
Qed.

(** C32: parseJWKSDocument is strict. It reads exactly the documents that are one JSON value without
    repeated names, bind to the structs, and hold at least one key, all of them good (OKP, Ed25519,
    EdDSA, use empty or sig, a key id that is not blank, 32 key bytes, retire_after only where it is
    admitted) with distinct key ids; the result is exactly their entries: a key id maps to a key of
    the document with that id. *)
Theorem parseJWKSDocument_exact encoded with_retire set :
  (parseJWKSDocument SimpleFold encoded with_retire = Some set <-> jwks_doc encoded with_retire set) /\
  (parseJWKSDocument SimpleFold encoded with_retire = Some set -> set <> ∅ /\
   forall kid e, set !! kid = Some e -> String.length (Public e) = 32 /\ validKeyID kid = true /\ (with_retire = false -> k_RetireAfter e = None)).
Proof.
  split; [apply jwks_doc_iff|]. intros H. apply jwks_doc_iff in H as (v & doc & es & _ & _ & _ & Hne & Hnd & Hes & ->).
  pose proof (Forall2_length _ _ _ Hes) as Hl. split.
  - destruct doc as [|c doc]; [congruence|]. destruct es as [|e es]; [discriminate|]. cbn. apply insert_non_empty.
  - intros kid e He. apply entry_of in He as (i & c & Hc & He & <-); [|assumption..].
    destruct (Forall2_lookup_lr _ _ _ _ _ _ Hes Hc He) as (_ & H1 & _ & _ & _ & _ & H2 & H3 & H4).
    split; [exact H1|]. split; [exact H2|]. intros ->. rewrite H3. destruct (present (RetireAfter c)); [discriminate H4; reflexivity | reflexivity].
Qed.

Lemma good_weaken c e : good_jwk false c e <-> good_jwk true c e /\ k_RetireAfter e = None.
Proof.
  unfold good_jwk. split.
  - intros (H1 & H2 & H3 & H4 & H5 & H6 & H7 & H8 & H9). repeat split; auto. rewrite H8.
    destruct (present (RetireAfter c)); [discriminate H9; reflexivity | reflexivity].
  - intros ((H1 & H2 & H3 & H4 & H5 & H6 & H7 & H8 & H9) & Hn). repeat split; auto. intros Hp. rewrite Hp, Hn in H8. discriminate.
Qed.

(** The two paths cannot disagree about a document: the HTTP path reads exactly the documents the
    file path reads that carry no retire_after, and gives the same keys. *)
Theorem http_path_is_file_path encoded keys :
  parseJWKS SimpleFold encoded = Some keys <->
  exists set, parseJWKSDocument SimpleFold encoded true = Some set /\
    (forall kid e, set !! kid = Some e -> k_RetireAfter e = None) /\ keys = publics set.
Proof.
  unfold parseJWKS. split.
  - destruct (parseJWKSDocument SimpleFold encoded false) as [set|] eqn:E; [|discriminate]. intros [= <-].
    apply jwks_doc_iff in E as (v & doc & es & Hv & Hd & Ed & Hne & Hnd & Hes & ->). eexists. split; [|split; [|reflexivity]].
    + apply jwks_doc_iff. exists v, doc, es. do 5 (split; [assumption|]). split; [|reflexivity]. eapply Forall2_impl; [exact Hes|].
      intros c e Hg. apply good_weaken in Hg. apply Hg.
    + pose proof (Forall2_length _ _ _ Hes) as Hl. intros kid e He. apply entry_of in He as (i & c & Hc & He & _); [|assumption..].
      apply (Forall2_lookup_lr _ _ _ _ _ _ Hes Hc) in He. apply good_weaken in He. apply He.
  - intros (set & E & Hn & ->). apply jwks_doc_iff in E as (v & doc & es & Hv & Hd & Ed & Hne & Hnd & Hes & ->).
    rewrite (proj2 (jwks_doc_iff encoded false (list_to_map (zip (KeyID <$> doc) es)))); [reflexivity|].
    exists v, doc, es. do 5 (split; [assumption|]). split; [|reflexivity]. pose proof (Forall2_length _ _ _ Hes) as Hl.
    apply Forall2_same_length_lookup_2; [exact Hl|]. intros i c e Hc He. apply good_weaken.
    split; [exact (Forall2_lookup_lr _ _ _ _ _ _ Hes Hc He)|]. apply (Hn (KeyID c)). apply entry_of; eauto.
Qed.

End JwksSpec.

End Jwks.
