(* ===== verification/AuthJwksClient.v ===== *)
(** The JWKS client of src/authverify/jwks_client.go: configuration, one fetch, the cache with its
    lifetime and outage grace, and refresh, which keeps one fetch in flight and a floor between two.

    Each stretch of code under c.mu is a function on [client]. What other goroutines do between the
    stretches of one call is a list of [event]s, given by the call's [schedule] together with the
    clock's readings and what the network answered. *)
From S2P Require Import Prelude Regex Json JsonDecoder GoTime GoStrings Base64 AuthJson AuthToken AuthTokenSpec AuthJwks.

Module JwksClient.
Import Json GoTime AuthJson Token TokenSpec Jwks.

Definition discoveryPath : string := "/.well-known/openid-configuration".
Definition jwksPath : string := "/.well-known/jwks.json".
Definition discoveryMembers : list string := ["issuer"; "jwks_uri"; "id_token_signing_alg_values_supported"].

Record JWKSClientConfig := mkCfg {
  j_Issuer : string; Timeout : Duration; MaxBodyBytes : Z; MaxKeys : Z;
  CacheTTL : Duration; RefreshFloor : Duration; OutageGrace : Duration }.

Inductive jwks_config_error := BadIssuer | BadLimits.

Definition or_default (v d : Z) : Z := if (v =? 0)%Z then d else v.

(** NewJWKSClient: the configuration with its defaults. *)
Definition NewJWKSClient (cfg : JWKSClientConfig) : result jwks_config_error JWKSClientConfig :=
  if negb (matchb issuerPattern (j_Issuer cfg)) then Err BadIssuer
  else
    let cfg := mkCfg (j_Issuer cfg) (or_default (Timeout cfg) (5 * Second)) (or_default (MaxBodyBytes cfg) (Z.shiftl 64 10))
                 (or_default (MaxKeys cfg) 32) (or_default (CacheTTL cfg) (5 * Minute))
                 (or_default (RefreshFloor cfg) (30 * Second)) (or_default (OutageGrace cfg) (10 * Minute)) in
    if (Timeout cfg <? 0)%Z || (30 * Second <? Timeout cfg)%Z || (MaxBodyBytes cfg <? 0)%Z || (MaxKeys cfg <? 0)%Z
       || (CacheTTL cfg <? 0)%Z || (Hour <? CacheTTL cfg)%Z || (RefreshFloor cfg <? 0)%Z || (CacheTTL cfg <? RefreshFloor cfg)%Z
       || (OutageGrace cfg <? 0)%Z || (Hour <? OutageGrace cfg)%Z then Err BadLimits
    else Ok cfg.

(** ** One fetch *)

Inductive refresh_error := ErrJWKSUnavailable | ErrRefreshTooSoon.

(** What the network gives for a URL: no response, or a status and a body, which may end in an error. *)
Inductive http_result := NoResponse | Response (status : Z) (body : string) (read_error : bool).

Definition get (cfg : JWKSClientConfig) (r : http_result) : result refresh_error string :=
  match r with
  | NoResponse => Err ErrJWKSUnavailable
  | Response status body read_error =>
      if negb (status =? 200)%Z then Err ErrJWKSUnavailable
      else if read_error || (MaxBodyBytes cfg <? Z.of_nat (String.length body))%Z then Err ErrJWKSUnavailable
      else Ok body
  end.

Section Fetch.
Variable SimpleFold : N -> N.
Variable cfg : JWKSClientConfig.

Definition discoveryValid (raw : string) : bool :=
  match decodeObject SimpleFold raw with
  | None => false
  | Some o =>
      if negb (closedSet o discoveryMembers discoveryMembers) then false
      else match stringMember o "issuer" None with
      | None => false
      | Some issuer =>
          if negb (String.eqb issuer (j_Issuer cfg)) then false
          else match stringMember o "jwks_uri" None with
          | None => false
          | Some uri =>
              if negb (String.eqb uri (j_Issuer cfg +:+ jwksPath)) then false
              else match o !! "id_token_signing_alg_values_supported" with
              | Some (JArr [JStr alg]) => String.eqb alg algEdDSA
              | _ => false
              end
          end
      end
  end.

Definition fetch (http : string -> http_result) : result refresh_error (gmap string string) :=
  try! discovery := get cfg (http (j_Issuer cfg +:+ discoveryPath)) in
  if negb (discoveryValid discovery) then Err ErrJWKSUnavailable
  else
    try! body := get cfg (http (j_Issuer cfg +:+ jwksPath)) in
    match parseJWKS SimpleFold body with
    | None => Err ErrJWKSUnavailable
    | Some keys => if (MaxKeys cfg <? Z.of_nat (size keys))%Z then Err ErrJWKSUnavailable else Ok keys
    end.

(** ** The state under c.mu *)

(** A flight is named by a number; [done] holds what the finished ones ended with. *)
Record client := mkClient {
  keys : option (gmap string string);
  fetchedAt : Time;
  lastAttempt : Time;
  attempted : bool;
  inflight : option nat;
  lastErr : option refresh_error;
  done : gmap nat (option refresh_error);
  next_flight : nat;
}.

Definition new_client : client := mkClient None zero_time zero_time false None None ∅ 0.

Definition cached (kid : string) (now : Time) (afterRefresh : bool) (c : client) : string * bool :=
  match keys c with
  | None => (EmptyString, false)
  | Some ks =>
      let age := Sub now (fetchedAt c) in
      if (CacheTTL cfg <=? age)%Z && (negb afterRefresh || (CacheTTL cfg + OutageGrace cfg <=? age)%Z) then (EmptyString, false)
      else match ks !! kid with
           | Some key => (key, String.length key =? PublicKeySize)
           | None => (EmptyString, false)
           end
  end.

(** The first stretch of refresh: wait for the flight there is, or too soon, or start one. *)
Inductive begun := Wait (flight : nat) | TooSoon | Start (flight : nat).

Definition begin_refresh (now : Time) (c : client) : begun * client :=
  match inflight c with
  | Some flight => (Wait flight, c)
  | None =>
      if attempted c && (Sub now (lastAttempt c) <? RefreshFloor cfg)%Z then (TooSoon, c)
      else (Start (next_flight c),
            mkClient (keys c) (fetchedAt c) now true (Some (next_flight c)) (lastErr c) (done c) (S (next_flight c)))
  end.

Definition error_of {A} (r : result refresh_error A) : option refresh_error := match r with Ok _ => None | Err e => Some e end.

(** The second stretch, by the goroutine that started the flight, with what its fetch gave. *)
Definition end_refresh (flight : nat) (r : result refresh_error (gmap string string)) (now : Time) (c : client) : client :=
  let '(ks, at_) := match r with Ok ks => (Some ks, now) | Err _ => (keys c, fetchedAt c) end in
  mkClient ks at_ (lastAttempt c) (attempted c) None (error_of r) (<[flight := error_of r]> (done c)) (next_flight c).

(** ** Other goroutines *)

(** A call's first stretch, and the end of the flight there is: its fetch met [http]. *)
Inductive event := Begin (now : Time) | End (http : string -> http_result) (now : Time).

Definition run (c : client) (ev : event) : client :=
  match ev with
  | Begin now => (begin_refresh now c).2
  | End http now => match inflight c with Some flight => end_refresh flight (fetch http) now c | None => c end
  end.

Definition exec (tr : list event) (c : client) : client := foldl run c tr.

(** What surrounds one call: the other goroutines' events before its first look at the cache, after
    it, during its own flight (they can only find that flight), while it waits for theirs, and before
    its last look; the clock's readings; and what its own fetch met. *)
Record schedule := mkSchedule {
  before : list event; look : Time;
  between : list event; begin_at : Time;
  during : list Time; http : string -> http_result; end_at : Time;
  waiting : list event;
  after : list event; look_again : Time }.

(** refresh; None is a call that still waits. *)
Definition refresh (s : schedule) (c : client) : option (option refresh_error) * client :=
  match begin_refresh (begin_at s) c with
  | (Wait flight, c1) => let c2 := exec (waiting s) c1 in (done c2 !! flight, c2)
  | (TooSoon, c1) => (Some (Some ErrRefreshTooSoon), c1)
  | (Start flight, c1) =>
      let c2 := exec (map Begin (during s)) c1 in
      let r := fetch (http s) in
      (Some (error_of r), end_refresh flight r (end_at s) c2)
  end.

Definition PublicKey (kid : string) (s : schedule) (c : client) : option (string * bool) * client :=
  let c1 := exec (before s) c in
  let '(key, ok) := cached kid (look s) false c1 in
  if ok then (Some (key, true), c1)
  else match refresh s (exec (between s) c1) with
       | (None, c2) => (None, c2)
       | (Some _, c2) => let c3 := exec (after s) c2 in (Some (cached kid (look_again s) true c3), c3)
       end.

(** ResolveKey reads lastErr under the lock after a miss; [late] are the others' events before that. *)
Definition resolveKey (kid : string) (s : schedule) (late : list event) (c : client) : option (result unit (option string)) * client :=
  match PublicKey kid s c with
  | (None, c1) => (None, c1)
  | (Some (key, true), c1) => (Some (Ok (Some key)), c1)
  | (Some (_, false), c1) =>
      let c2 := exec late c1 in
      match lastErr c2 with
      | Some _ => (Some (Err tt), c2)
      | None => (Some (Ok None), c2)
      end
  end.

(** * One fetch *)

(** The discovery document of the pinned issuer. *)
Definition discovery_doc (raw : string) : Prop :=
  exists o, object_doc SimpleFold raw o /\ closed o discoveryMembers discoveryMembers /\
    o !! "issuer" = Some (JStr (j_Issuer cfg)) /\ o !! "jwks_uri" = Some (JStr (j_Issuer cfg +:+ jwksPath)) /\
    o !! "id_token_signing_alg_values_supported" = Some (JArr [JStr algEdDSA]).

Lemma discoveryValid_iff raw : discoveryValid raw = true <-> discovery_doc raw.
Proof.
  unfold discoveryValid, discovery_doc. setoid_rewrite <-decodeObject_doc. split.
  - intros H. walk_returns H. simp_bool. repeat match goal with H : stringMember _ _ None = Some _ |- _ => apply stringMember_iff in H as [H _] end.
    apply closedSet_iff in E0. subst. exists o. repeat split; try assumption; apply E0.
  - intros (o & -> & Hc & H1 & H2 & H3). rewrite (proj2 (closedSet_iff _ _ _) Hc). cbn [negb].
    rewrite (proj2 (stringMember_iff o "issuer" None _) (conj H1 I)), (proj2 (stringMember_iff o "jwks_uri" None _) (conj H2 I)).
    rewrite !String.eqb_refl, H3. reflexivity.
Qed.

(** A whole response: status 200 and a body within the cap. *)
Definition whole_response (r : http_result) (body : string) : Prop :=
  r = Response 200 body false /\ (Z.of_nat (String.length body) <= MaxBodyBytes cfg)%Z.

Lemma get_iff r body : get cfg r = Ok body <-> whole_response r body.
Proof.
  unfold get, whole_response. destruct r as [|status b err]; [naive_solver|].
  destruct (Z.eqb_spec status 200) as [->|]; cbn [negb]; [|naive_solver].
  destruct err; cbn [orb]; [naive_solver|]. destruct (Z.ltb_spec (MaxBodyBytes cfg) (Z.of_nat (String.length b))); split.
  - discriminate.
  - intros [[= ->] ?]. lia.
  - intros [= ->]. auto.
  - intros [[= ->] _]. reflexivity.
Qed.

Lemma fetch_good http ks :
  fetch http = Ok ks <->
  exists d b, whole_response (http (j_Issuer cfg +:+ discoveryPath)) d /\ discovery_doc d /\
    whole_response (http (j_Issuer cfg +:+ jwksPath)) b /\ parseJWKS SimpleFold b = Some ks /\ (Z.of_nat (size ks) <= MaxKeys cfg)%Z.
Proof.
  unfold fetch. rewrite rbind_ok. setoid_rewrite get_iff. split.
  - intros (d & Hd & H). destruct (discoveryValid d) eqn:Ev; [|discriminate]. apply discoveryValid_iff in Ev. cbn [negb] in H.
    apply rbind_ok in H as (b & Hb & H). apply get_iff in Hb. destruct (parseJWKS SimpleFold b) as [k|] eqn:Ek; [|discriminate].
    destruct (Z.ltb_spec (MaxKeys cfg) (Z.of_nat (size k))); [discriminate|]. injection H as ->. exists d, b. auto.
  - intros (d & b & Hd & Hv & Hb & Hk & Hs). exists d. split; [exact Hd|]. rewrite (proj2 (discoveryValid_iff d) Hv). cbn [negb].
    apply rbind_ok. exists b. split; [apply get_iff; exact Hb|]. rewrite Hk, (proj2 (Z.ltb_ge _ _) Hs). reflexivity.
Qed.

(** * Histories *)

Lemma exec_snoc tr ev c : exec (tr ++ [ev]) c = run (exec tr c) ev.
Proof. unfold exec. apply foldl_snoc. Qed.
Lemma exec_app tr tr' c : exec (tr ++ tr') c = exec tr' (exec tr c).
Proof. unfold exec. apply foldl_app. Qed.

(** What a history shows of the flights: each start with its time, each end with its outcome. *)
Inductive flight_log := LStart (flight : nat) (now : Time) | LEnd (flight : nat) (outcome : option refresh_error).

Definition log (c : client) (ev : event) : list flight_log :=
  match ev with
  | Begin now => match (begin_refresh now c).1 with Start f => [LStart f now] | _ => [] end
  | End http _ => match inflight c with Some f => [LEnd f (error_of (fetch http))] | None => [] end
  end.
Fixpoint history (c : client) (tr : list event) : list flight_log :=
  match tr with [] => [] | ev :: tr => log c ev ++ history (run c ev) tr end.

(** Flights one after another, each numbered once, whose starts are the floor apart: [now] is the
    flight in the air, [last] the last start, [n] the next number. *)
Inductive one_by_one : option nat -> option Time -> nat -> list flight_log -> Prop :=
| o_nil now last n : one_by_one now last n []
| o_start last n t l :
    (forall t0, last = Some t0 -> RefreshFloor cfg <= Sub t t0)%Z -> one_by_one (Some n) (Some t) (S n) l ->
    one_by_one None last n (LStart n t :: l)
| o_end f last n r l : one_by_one None last n l -> one_by_one (Some f) last n (LEnd f r :: l).

Lemma history_one_by_one tr c :
  one_by_one (inflight c) (if attempted c then Some (lastAttempt c) else None) (next_flight c) (history c tr).
Proof.
  revert c. induction tr as [|ev tr IH]; intros c; [constructor|]. cbn [history]. specialize (IH (run c ev)).
  destruct ev as [now|http now]; cbn [log run] in *.
  - unfold begin_refresh in *. destruct (inflight c) as [f|] eqn:Ei; cbn [fst snd app] in *; [rewrite Ei in IH; exact IH|].
    destruct (attempted c && (Sub now (lastAttempt c) <? RefreshFloor cfg)%Z) eqn:Et; cbn [fst snd app] in *; [rewrite Ei in IH; exact IH|].
    constructor; [|exact IH]. intros t0 Ht. destruct (attempted c); [|discriminate]. injection Ht as <-. simp_bool.
    cbn [andb] in Et. apply Z.ltb_ge in Et. exact Et.
  - destruct (inflight c) as [f|] eqn:Ei; cbn [app]; [|rewrite Ei in IH; exact IH]. unfold end_refresh in IH.
    constructor. destruct (fetch http); exact IH.
Qed.

(** C31: single flight and the floor. Whatever calls come, and whatever the network does, the fetches of
    a client run one after another, never two at once: a flight ends before the next starts, and two
    starts are at least RefreshFloor apart, after a success or a failure. *)
Theorem flights_one_by_one tr : one_by_one None None 0 (history new_client tr).
Proof. exact (history_one_by_one tr new_client). Qed.

(** ** Where the keys come from *)

Definition failed (l : flight_log) : Prop := match l with LEnd _ None => False | _ => True end.
Definition outcome (l : flight_log) : option (option refresh_error) := match l with LEnd _ r => Some r | _ => None end.

(** The last fetch of the history that was good ended at [t] with the keys [ks]. *)
Definition latest_good (tr : list event) (http : string -> http_result) (t : Time) (ks : gmap string string) : Prop :=
  exists tr1 tr2, tr = tr1 ++ End http t :: tr2 /\ inflight (exec tr1 new_client) <> None /\ fetch http = Ok ks /\
    Forall failed (history (exec (tr1 ++ [End http t]) new_client) tr2).

Lemma history_snoc tr ev c : history c (tr ++ [ev]) = history c tr ++ log (exec tr c) ev.
Proof.
  revert c. induction tr as [|e tr IH]; intros c; [apply app_nil_r|]. cbn [app history]. rewrite IH, app_assoc. reflexivity.
Qed.

Lemma latest_good_snoc tr ev http t ks :
  latest_good tr http t ks -> Forall failed (log (exec tr new_client) ev) -> latest_good (tr ++ [ev]) http t ks.
Proof.
  intros (tr1 & tr2 & -> & Hi & Hf & Hl) Hev. exists tr1, (tr2 ++ [ev]). rewrite <-app_assoc. repeat split; try assumption.
  rewrite history_snoc, <-exec_app, <-app_assoc. apply Forall_app. split; [exact Hl | exact Hev].
Qed.

Lemma keys_latest tr ks :
  keys (exec tr new_client) = Some ks -> exists http, latest_good tr http (fetchedAt (exec tr new_client)) ks.
Proof.
  revert ks. induction tr as [|ev tr IH] using rev_ind; intros ks; [discriminate|]. rewrite exec_snoc.
  set (c := exec tr new_client) in *. destruct ev as [now|http now]; cbn [run].
  - intros H. destruct (IH ks) as [http Hh]; [unfold begin_refresh in H; repeat case_match; exact H|]. exists http.
    replace (fetchedAt (begin_refresh now c).2) with (fetchedAt c) by (unfold begin_refresh; repeat case_match; reflexivity).
    apply latest_good_snoc; [exact Hh|]. cbn [log]. destruct (begin_refresh now _).1; repeat constructor.
  - destruct (inflight c) as [f|] eqn:Ei; unfold end_refresh; [destruct (fetch http) as [ks'|e] eqn:Ef|]; cbn [keys fetchedAt].
    + intros [= ->]. exists http, tr, []. repeat split; [fold c; congruence | exact Ef | constructor].
    + intros H. destruct (IH ks H) as [http' Hh]. exists http'. apply latest_good_snoc; [exact Hh|]. cbn [log]. fold c. rewrite Ei, Ef. repeat constructor.
    + intros H. destruct (IH ks H) as [http' Hh]. exists http'. apply latest_good_snoc; [exact Hh|]. cbn [log]. fold c. rewrite Ei. constructor.
Qed.

(** lastErr is the outcome of the last flight that ended. *)
Lemma lastErr_outcome tr : lastErr (exec tr new_client) = default None (last (omap outcome (history new_client tr))).
Proof.
  induction tr as [|ev tr IH] using rev_ind; [reflexivity|]. rewrite exec_snoc, history_snoc, omap_app.
  set (c := exec tr new_client) in *. destruct ev as [now|http now]; cbn [run log].
  - replace (lastErr (begin_refresh now c).2) with (lastErr c) by (unfold begin_refresh; repeat case_match; reflexivity).
    destruct (begin_refresh now c).1; cbn; rewrite app_nil_r; exact IH.
  - destruct (inflight c) as [f|] eqn:Ei; cbn; [|rewrite app_nil_r; exact IH]. rewrite last_snoc. unfold end_refresh.
    destruct (fetch http); reflexivity.
Qed.

(** ** Calls as histories *)

Lemma during_kept ts f c : inflight c = Some f -> exec (map Begin ts) c = c.
Proof.
  intros Hi. induction ts as [|t ts IH]; [reflexivity|]. cbn. replace (begin_refresh t c).2 with c; [exact IH|].
  unfold begin_refresh. rewrite Hi. reflexivity.
Qed.

Lemma refresh_history s c : exists tr, (refresh s c).2 = exec tr c.
Proof.
  unfold refresh. destruct (begin_refresh (begin_at s) c) as [[f| |f] c1] eqn:E; cbn [snd];
    assert (Hc1 : c1 = run c (Begin (begin_at s))) by (cbn [run]; rewrite E; reflexivity).
  - exists (Begin (begin_at s) :: waiting s). rewrite Hc1. reflexivity.
  - exists [Begin (begin_at s)]. exact Hc1.
  - assert (Hi : inflight c1 = Some f). { unfold begin_refresh in E. repeat case_match; try discriminate. injection E as <- <-. reflexivity. }
    exists (Begin (begin_at s) :: map Begin (during s) ++ [End (http s) (end_at s)]).
    cbn [exec foldl]. rewrite <-Hc1. change (foldl run c1 ?l) with (exec l c1). rewrite exec_app, (during_kept _ f) by exact Hi.
    cbn. rewrite Hi. reflexivity.
Qed.

Lemma cached_true kid now afterRefresh c key :
  cached kid now afterRefresh c = (key, true) <->
  exists ks, keys c = Some ks /\ ks !! kid = Some key /\ String.length key = PublicKeySize /\
    ((Sub now (fetchedAt c) < CacheTTL cfg)%Z \/ (afterRefresh = true /\ Sub now (fetchedAt c) < CacheTTL cfg + OutageGrace cfg)%Z).
Proof.
  unfold cached. destruct (keys c) as [ks|]; [|naive_solver].
  destruct ((CacheTTL cfg <=? Sub now (fetchedAt c))%Z && _) eqn:Ea.
  - split; [discriminate|]. intros (ks' & _ & _ & _ & Hage). apply andb_true_iff in Ea as [E1 E2]. apply Z.leb_le in E1.
    destruct Hage as [|[-> ?]]; [lia|]. cbn in E2. apply Z.leb_le in E2. lia.
  - assert (Hage : (Sub now (fetchedAt c) < CacheTTL cfg)%Z \/ (afterRefresh = true /\ Sub now (fetchedAt c) < CacheTTL cfg + OutageGrace cfg)%Z).
    { apply andb_false_iff in Ea as [E|E]; [apply Z.leb_gt in E; auto|]. apply orb_false_iff in E as [E1 E2].
      apply negb_false_iff in E1. apply Z.leb_gt in E2. auto. }
    destruct (ks !! kid) as [k|] eqn:Ek.
    + split; [intros [= -> E]; apply Nat.eqb_eq in E; eauto 10|]. intros (ks' & [= <-] & Hk & Hl & _). rewrite Ek in Hk. injection Hk as ->.
      rewrite Hl. reflexivity.
    + split; [discriminate|]. intros (ks' & [= <-] & Hk & _). congruence.
Qed.

Lemma PublicKey_history kid s c : exists tr, (PublicKey kid s c).2 = exec tr c.
Proof.
  unfold PublicKey. destruct (cached kid (look s) false (exec (before s) c)) as [key []]; [exists (before s); reflexivity|].
  destruct (refresh_history s (exec (between s) (exec (before s) c))) as [tr Htr].
  destruct (refresh s _) as [[r|] c2]; cbn [snd] in *; rewrite Htr.
  - exists (before s ++ between s ++ tr ++ after s). rewrite !exec_app. reflexivity.
  - exists (before s ++ between s ++ tr). rewrite !exec_app. reflexivity.
Qed.

(** A key a call serves: from the last good fetch of the history so far, by key id, and not too old. *)
Definition served (tr : list event) (kid key : string) (s : schedule) : Prop :=
  exists http t ks, latest_good tr http t ks /\ ks !! kid = Some key /\ String.length key = PublicKeySize /\
    ((Sub (look s) t < CacheTTL cfg)%Z \/ (Sub (look_again s) t < CacheTTL cfg)%Z \/ (Sub (look_again s) t < CacheTTL cfg + OutageGrace cfg)%Z).

Lemma PublicKey_served tr kid s key c' :
  PublicKey kid s (exec tr new_client) = (Some (key, true), c') ->
  exists tr', c' = exec (tr ++ tr') new_client /\ served (tr ++ tr') kid key s.
Proof.
  intros H. assert (Hs : exists tr', c' = exec (tr ++ tr') new_client /\
    (cached kid (look s) false c' = (key, true) \/ cached kid (look_again s) true c' = (key, true))).
  { unfold PublicKey in H. destruct (cached kid (look s) false (exec (before s) (exec tr new_client))) as [k []] eqn:Ec.
    - injection H as -> <-. exists (before s). rewrite exec_app. auto.
    - destruct (refresh_history s (exec (between s) (exec (before s) (exec tr new_client)))) as [tr2 Htr].
      destruct (refresh s _) as [[r|] c2]; [|discriminate H]. injection H as E <-. cbn [snd] in Htr. subst c2.
      exists (before s ++ between s ++ tr2 ++ after s). rewrite !exec_app. auto. }
  destruct Hs as (tr' & -> & Hc). exists tr'. split; [reflexivity|].
  assert (Hk : exists ks, keys (exec (tr ++ tr') new_client) = Some ks /\ ks !! kid = Some key /\ String.length key = PublicKeySize /\
    let t := fetchedAt (exec (tr ++ tr') new_client) in
    ((Sub (look s) t < CacheTTL cfg)%Z \/ (Sub (look_again s) t < CacheTTL cfg)%Z \/ (Sub (look_again s) t < CacheTTL cfg + OutageGrace cfg)%Z)).
  { destruct Hc as [Hc|Hc]; apply cached_true in Hc as (ks & H1 & H2 & H3 & H4); exists ks; repeat split; try assumption; cbn.
    - destruct H4 as [|[? _]]; [auto | discriminate].
    - destruct H4 as [|[_ ?]]; auto. }
  destruct Hk as (ks & H1 & H2 & H3 & H4). destruct (keys_latest _ _ H1) as [http Hh]. exists http, (fetchedAt (exec (tr ++ tr') new_client)), ks. auto.
Qed.

(** * Properties *)

(** A fetch is good exactly when both responses are 200 with a body within the cap, the first is
    the discovery document of the pinned issuer (its issuer, its JWKS path, EdDSA and nothing else)
    and the second a strict JWKS, without retire_after, of at most MaxKeys keys. *)
Theorem fetch_exact http ks :
  fetch http = Ok ks <->
  exists d b, whole_response (http (j_Issuer cfg +:+ discoveryPath)) d /\ discovery_doc d /\
    whole_response (http (j_Issuer cfg +:+ jwksPath)) b /\ parseJWKS SimpleFold b = Some ks /\ (Z.of_nat (size ks) <= MaxKeys cfg)%Z.
Proof. apply fetch_good. Qed.

(** PublicKey serves only good and recent keys. Whatever other calls run before, during and after,
    a key it gives for a key id is the 32-byte key of that id in the last good fetch of the client's
    history, which ended less than CacheTTL before the first look, or less than CacheTTL plus
    OutageGrace before the look after a refresh was tried; no failed fetch changes the keys. *)
Theorem PublicKey_serves_last_good tr kid s key c' :
  PublicKey kid s (exec tr new_client) = (Some (key, true), c') ->
  exists tr', c' = exec (tr ++ tr') new_client /\ served (tr ++ tr') kid key s.
Proof. apply PublicKey_served. Qed.

Lemma resolveKey_served tr kid s late key c' :
  resolveKey kid s late (exec tr new_client) = (Some (Ok (Some key)), c') ->
  exists tr', c' = exec (tr ++ tr') new_client /\ served (tr ++ tr') kid key s.
Proof.
  unfold resolveKey. destruct (PublicKey kid s (exec tr new_client)) as [[[k []]|] c1] eqn:E; intros H; [| |discriminate H].
  - injection H as -> ->. apply PublicKey_served in E. exact E.
  - destruct (lastErr _); discriminate H.
Qed.

(** ResolveKey tells an outage from an unknown key. An error means the key was not served and the
    last flight that ended had failed; no key and no error that it was not served and the last flight
    that ended was good; a key is one PublicKey serves. *)
Theorem ResolveKey_tells_outage tr kid s late r c' :
  resolveKey kid s late (exec tr new_client) = (Some r, c') ->
  exists tr', c' = exec (tr ++ tr') new_client /\
    match r with
    | Ok (Some key) => served (tr ++ tr') kid key s
    | Ok None => default None (last (omap outcome (history new_client (tr ++ tr')))) = None
    | Err _ => exists e, last (omap outcome (history new_client (tr ++ tr'))) = Some (Some e)
    end.
Proof.
  intros H. destruct r as [[key|]|e]; [apply resolveKey_served in H; exact H| |];
    unfold resolveKey in H; destruct (PublicKey_history kid s (exec tr new_client)) as [tr1 H1];
    destruct (PublicKey kid s (exec tr new_client)) as [[[k []]|] c1]; try discriminate H; cbn [snd] in H1; subst c1;
    rewrite <-!exec_app in H; pose proof (lastErr_outcome (tr ++ tr1 ++ late)) as Ho;
    destruct (lastErr _) as [e0|] eqn:El in H; try discriminate H; inversion H; subst; clear H; exists (tr1 ++ late);
    (split; [reflexivity|]); rewrite El in Ho; [symmetry; exact Ho|].
  destruct (last _) as [[x|]|]; try discriminate Ho. exists x. reflexivity.
Qed.

End Fetch.

(** The client as a key source, for one call with its surroundings; a call that still waits has given
    nothing, and stands as an outage. *)
Definition source SimpleFold cfg (s : schedule) (late : list event) (c : client) : KeySource :=
  mkKeySource (fun kid => default (EmptyString, false) (PublicKey SimpleFold cfg kid s c).1)
    (Some (fun kid => default (Err tt) (resolveKey SimpleFold cfg kid s late c).1)).

(** C30: end to end, a token accepted by a verifier over the JWKS client was signed under a key that the
    pinned issuer published: the key the token's key id has in the last good fetch, which met a whole
    response with the issuer's discovery document and a strict JWKS, less than CacheTTL plus
    OutageGrace before the look. *)
Theorem accepted_under_published_key {C} {kind : TokenKind C} SimpleFold cfg ed v token now c tr s late :
  sane v now -> (0 <= OutageGrace cfg)%Z -> Token.keys v = source SimpleFold cfg s late (exec SimpleFold cfg tr new_client) ->
  Verify ed v token now = Ok c ->
  exists hr pr sp kid key d b ks http t,
    parsed token hr pr sp kid c /\ signed ed key hr pr sp /\ ks !! kid = Some key /\
    parseJWKS SimpleFold b = Some ks /\ whole_response cfg (http (j_Issuer cfg +:+ jwksPath)) b /\
    discovery_doc SimpleFold cfg d /\ whole_response cfg (http (j_Issuer cfg +:+ discoveryPath)) d /\
    (exists tr', latest_good SimpleFold cfg (tr ++ tr') http t ks) /\
    ((Sub (look s) t < CacheTTL cfg + OutageGrace cfg)%Z \/ (Sub (look_again s) t < CacheTTL cfg + OutageGrace cfg)%Z).
Proof.
  intros Hs Hg Hk H. destruct (proj1 (Verify_accepts ed v token now c Hs) H) as (hr & pr & sp & kid & key & Hp & (_ & Hl & _) & Hsig & _).
  unfold lookupKey in Hl. rewrite Hk in Hl. cbn in Hl.
  destruct (resolveKey SimpleFold cfg kid s late _) as [[[[k|]|e]|] c1] eqn:E; cbn in Hl; try discriminate Hl. injection Hl as ->.
  apply resolveKey_served in E as (tr' & _ & http & t & ks & Hlg & Hks & _ & Hage). pose proof Hlg as (tr1 & tr2 & _ & _ & Hf & _).
  apply fetch_good in Hf as (d & b & H1 & H2 & H3 & H4 & _). exists hr, pr, sp, kid, key, d, b, ks, http, t.
  repeat (split; [assumption || eauto|]). lia.
Qed.

(** ** A sample client *)

Definition sample_cfg : JWKSClientConfig := mkCfg "https://auth.example" 0%Z 0%Z 0%Z 0%Z 0%Z 0%Z.
Definition sample_full : JWKSClientConfig :=
  mkCfg "https://auth.example" (5 * Second)%Z 65536 32 (5 * Minute)%Z (30 * Second)%Z (10 * Minute)%Z.
Definition sample_jwks : string :=
  quotes "{'keys':[{'kty':'OKP','crv':'Ed25519','alg':'EdDSA','kid':'k1','x':'" +:+ Base64.encode (of_chars (repeat "k"%char 32)) +:+ quotes "'}]}".
Definition sample_discovery : string :=
  quotes "{'issuer':'https://auth.example','jwks_uri':'https://auth.example/.well-known/jwks.json','id_token_signing_alg_values_supported':['EdDSA']}".
Definition sample_http (url : string) : http_result :=
  Response 200 (if String.eqb url "https://auth.example/.well-known/jwks.json" then sample_jwks else sample_discovery) false.
Definition at_second (n : Z) : Time := at_ns (n * Second)%Z.
Definition sample_schedule : schedule :=
  mkSchedule [] (at_second 1500) [] (at_second 1500) [at_second 1500] sample_http (at_second 1501) [] [] (at_second 1501).

Example sample_limits : NewJWKSClient sample_cfg = Ok sample_full.
Proof. vm_compute. reflexivity. Qed.

Lemma PublicKey_serves_last_good_witness :
  exists c', PublicKey id sample_full "k1" sample_schedule (exec id sample_full [] new_client) = (Some (of_chars (repeat "k"%char 32), true), c') /\
    exists tr', c' = exec id sample_full ([] ++ tr') new_client.
Proof.
  eexists. split; [vm_compute; reflexivity|].
  destruct (PublicKey_serves_last_good id sample_full [] "k1" sample_schedule (of_chars (repeat "k"%char 32)) _ ltac:(vm_compute; reflexivity))
    as (tr' & E & _).
  exists tr'. exact E.
Defined.

Lemma ResolveKey_tells_outage_witness :
  let s := mkSchedule [] (at_second 1500) [] (at_second 1500) [] (fun _ => NoResponse) (at_second 1501) [] [] (at_second 1501) in
  exists c', resolveKey id sample_full "k1" s [] (exec id sample_full [] new_client) = (Some (Err tt), c') /\
    exists tr', c' = exec id sample_full ([] ++ tr') new_client.
Proof.
  intros s. eexists. split; [vm_compute; reflexivity|].
  destruct (ResolveKey_tells_outage id sample_full [] "k1" s [] (Err tt) _ ltac:(vm_compute; reflexivity)) as (tr' & E & _).
  exists tr'. exact E.
Defined.

Lemma accepted_under_published_key_witness :
  let v := mkVerifier "https://auth.example" "dev-health-api" (source id sample_full sample_schedule [] (exec id sample_full [] new_client)) ∅ 5 in
  Verify (kind:=access_kind id) sample_ed25519 v sample_token sample_now = Ok sample_access /\
  exists ks kid key, (ks : gmap string string) !! kid = Some key.
Proof.
  intros v. assert (H : Verify (kind:=access_kind id) sample_ed25519 v sample_token sample_now = Ok sample_access) by (vm_compute; reflexivity).
  split; [exact H|].
  destruct (accepted_under_published_key (kind:=access_kind id) id sample_full sample_ed25519 v sample_token sample_now sample_access
    [] sample_schedule [] ltac:(unfold sane; vm_compute; repeat split; discriminate) ltac:(vm_compute; discriminate) eq_refl H)
    as (hr & pr & sp & kid & key & d & b & ks & http & t & _ & _ & Hk & _).
  exists ks, kid, key. exact Hk.
Defined.

End JwksClient.
