(* ===== verification/AuthReview.v ===== *)
(** The subject-token validator of src/authverify/k8s_token_review.go: one TokenReview call, whose
    response alone authenticates the subject, and the expiry read from the token itself.

    encoding/json binds the response to nested structs: a member binds by its name or by case
    folding, a repeated member binds again over what is there, null leaves a value as it is (a slice
    becomes nil), an unknown member is skipped and a value of another type is an error. url.Parse and
    net.ParseIP are arguments, as are the reviewer's token and what the API server answers. *)
From S2P Require Import Prelude Utf8 Json Decimal GoTime GoStrings Base64 PepClient AuthJwks.

Module Review.
Import Decimal Json GoTime GoStrings.

Definition tokenReviewPath : string := "/apis/authentication.k8s.io/v1/tokenreviews".
Definition maxTokenReviewResponseBytes : nat := 64 * 1024.

(** The errors Validate's callers tell apart, and the opaque ones. *)
Inductive review_error := ErrSubjectTokenInvalid | Infrastructure.

Record SubjectIdentity := mkIdentity {
  i_TrustDomain : string; i_Namespace : string; i_ServiceAccountName : string; i_ServiceAccountUID : string; i_ExpiresAt : Time }.

(** ** The response *)

(** []string: the elements, and the backing array a later decode writes over. *)
Record strings := mkStrings { s_elems : list string; s_backing : list string }.

Record user := mkUser { Username : string; UID : string }.
Record status := mkStatus { Authenticated : bool; s_Error : string; Audiences : strings; User : user }.
(** tokenReviewResponse has the one field Status. *)
Definition tokenReviewResponse := status.
Definition zero_review : tokenReviewResponse := mkStatus false "" (mkStrings [] []) (mkUser "" "").

Section Bind.
Variable SimpleFold : N -> N.
Notation field_for := (Jwks.field_for SimpleFold).

Definition bind_bool (v : json) (old : bool) : option bool :=
  match v with JBool b => Some b | JNull => Some old | _ => None end.

(** The elements of an array, over the backing array's. *)
Fixpoint bind_elems (l : list json) (backing : list string) : option (list string) :=
  match l with
  | [] => Some []
  | v :: l =>
      match Jwks.bind_string v (default EmptyString (head backing)), bind_elems l (tail backing) with
      | Some s, Some r => Some (s :: r)
      | _, _ => None
      end
  end.
Definition bind_strings (v : json) (old : strings) : option strings :=
  match v with
  | JNull => Some (mkStrings [] [])
  | JArr [] => Some (mkStrings [] [])
  | JArr l => option_map (fun e => mkStrings e (e ++ skipn (length e) (s_backing old))) (bind_elems l (s_backing old))
  | _ => None
  end.

(** A struct: its fields' binder over the members in order. *)
Fixpoint bind_fields {A} (bind : string -> json -> A -> option A) (fields : list string) (m : list (string * json)) (a : A) : option A :=
  match m with
  | [] => Some a
  | (name, v) :: m =>
      match field_for fields name with
      | None => bind_fields bind fields m a
      | Some f => match bind f v a with Some a => bind_fields bind fields m a | None => None end
      end
  end.
Definition bind_struct {A} (bind : string -> json -> A -> option A) (fields : list string) (v : json) (a : A) : option A :=
  match v with JObj m => bind_fields bind fields m a | JNull => Some a | _ => None end.

Definition bind_user : json -> user -> option user :=
  bind_struct (fun f v u => if String.eqb f "username" then option_map (fun s => mkUser s (UID u)) (Jwks.bind_string v (Username u))
                            else option_map (fun s => mkUser (Username u) s) (Jwks.bind_string v (UID u)))
    ["username"; "uid"].

Definition bind_status : json -> status -> option status :=
  bind_struct (fun f v s =>
      if String.eqb f "authenticated" then option_map (fun b => mkStatus b (s_Error s) (Audiences s) (User s)) (bind_bool v (Authenticated s))
      else if String.eqb f "error" then option_map (fun e => mkStatus (Authenticated s) e (Audiences s) (User s)) (Jwks.bind_string v (s_Error s))
      else if String.eqb f "audiences" then option_map (fun a => mkStatus (Authenticated s) (s_Error s) a (User s)) (bind_strings v (Audiences s))
      else option_map (fun u => mkStatus (Authenticated s) (s_Error s) (Audiences s) u) (bind_user v (User s)))
    ["authenticated"; "error"; "audiences"; "user"].

Definition bind_review : json -> tokenReviewResponse -> option tokenReviewResponse :=
  bind_struct (fun _ v s => bind_status v s) ["status"].

Definition Unmarshal_review (body : string) : option tokenReviewResponse :=
  match parse_document false body with Some v => bind_review v zero_review | None => None end.

(** ** The pieces of Validate *)

Definition parseServiceAccountUsername (username : string) : option (string * string) :=
  match Prelude.split ":" username with
  | [system; kind; namespace; name] =>
      if String.eqb system "system" && String.eqb kind "serviceaccount" && negb (String.eqb namespace "") && negb (String.eqb name "")
      then Some (namespace, name) else None
  | _ => None
  end.

(** A json.Number field takes a number, or a string that is one. *)
Definition bind_number (v : json) (old : string) : option string :=
  match v with
  | JNum t => Some t
  | JStr s => match lex_number s with Some (_, EmptyString) => Some s | _ => None end
  | JNull => Some old
  | _ => None
  end.

(** strconv.ParseInt(s, 10, 64) *)
Definition ParseInt (s : string) : option Z :=
  let '(neg, ds) := match s with
                    | String c r => if Ascii.eqb c "-" then (true, r) else if Ascii.eqb c "+" then (false, r) else (false, s)
                    | EmptyString => (false, s)
                    end in
  if String.eqb ds "" || negb (forallb is_digit (chars ds)) then None
  else let n := if neg : bool then (- dec ds)%Z else dec ds in
       if (n <? min_int64)%Z || (max_int64 <? n)%Z then None else Some n.

Definition unverifiedJWTExpiry (token : string) : option Time :=
  match Prelude.split "." token with
  | [_; segment; _] =>
      match Base64.DecodeString false segment with
      | None => None
      | Some payload =>
          match parse_document false payload with
          | None => None
          | Some v =>
              match bind_struct (fun _ v s => bind_number v s) ["exp"] v EmptyString with
              | None => None
              | Some exp => match ParseInt exp with Some seconds => Some (Unix seconds) | None => None end
              end
          end
      end
  | _ => None
  end.

(** ** The validator *)

Record KubernetesTokenReviewOptions := mkOptions {
  HTTPClient : bool; APIServerURL : string; ReviewerToken : bool; o_Audience : string; o_TrustDomain : string }.

Record Validator := mkValidator { apiServerURL : string; audience : string; trustDomain : string; refuses_redirects : bool }.

Inductive options_error := NoURL | BadURL | NotHTTPS | NoReviewerToken | NoAudience | NoTrustDomain.

(** strings.TrimRight(s, "/") *)
Fixpoint drop_slashes (l : list ascii) : list ascii :=
  match l with c :: r => if Ascii.eqb c "/" then drop_slashes r else l | [] => [] end.
Definition TrimRightSlash (s : string) : string := of_chars (rev (drop_slashes (rev (chars s)))).

Definition blank (s : string) : bool := String.eqb (TrimSpace s) "".

Definition NewKubernetesTokenReviewValidator (parse : string -> option Client.URL) (loopback_ip : string -> bool)
    (o : KubernetesTokenReviewOptions) : result options_error Validator :=
  if blank (APIServerURL o) then Err NoURL
  else match parse (APIServerURL o) with
  | None => Err BadURL
  | Some u =>
      if String.eqb (Client.u_Host u) "" then Err BadURL
      else
        let loopback := String.eqb (Client.u_Hostname u) "localhost" || loopback_ip (Client.u_Hostname u) in
        if negb (String.eqb (Client.u_Scheme u) "https") && negb loopback then Err NotHTTPS
        else if negb (ReviewerToken o) then Err NoReviewerToken
        else if blank (o_Audience o) then Err NoAudience
        else if blank (o_TrustDomain o) then Err NoTrustDomain
        else Ok (mkValidator (TrimRightSlash (APIServerURL o)) (o_Audience o) (o_TrustDomain o) (negb (HTTPClient o)))
  end.

(** What one call meets: the reviewer's own token, the API server's answer (a status, a body and
    whether reading it failed; None is a failed request), and the clock. *)
Record review_call := mkCall {
  reviewer : option string; answer : option (Z * string * bool); now : Time }.

Definition Validate (v : Validator) (k : review_call) (subjectToken : string) : result review_error SubjectIdentity :=
  if blank subjectToken then Err ErrSubjectTokenInvalid
  else match reviewer k with
  | None => Err Infrastructure
  | Some reviewerToken =>
  if blank reviewerToken then Err Infrastructure
  else match answer k with
  | None => Err Infrastructure
  | Some (code, body, read_error) =>
      if maxTokenReviewResponseBytes <? String.length body then Err Infrastructure
      else if read_error then Err Infrastructure
      else if negb (code =? 201)%Z && negb (code =? 200)%Z then Err Infrastructure
      else match Unmarshal_review body with
      | None => Err Infrastructure
      | Some review =>
          if negb (Authenticated review) then Err ErrSubjectTokenInvalid
          else if negb (contains (s_elems (Audiences review)) (audience v)) then Err ErrSubjectTokenInvalid
          else match parseServiceAccountUsername (Username (User review)) with
          | None => Err ErrSubjectTokenInvalid
          | Some (namespace, name) =>
              if blank (UID (User review)) then Err ErrSubjectTokenInvalid
              else match unverifiedJWTExpiry subjectToken with
              | None => Err ErrSubjectTokenInvalid
              | Some expiresAt =>
                  if negb (After expiresAt (UTC (now k))) then Err ErrSubjectTokenInvalid
                  else Ok (mkIdentity (trustDomain v) namespace name (UID (User review)) expiresAt)
              end
          end
      end
  end end.

(** * Properties *)

(** The username form system:serviceaccount:<namespace>:<name>. *)
Lemma username_iff u ns name :
  parseServiceAccountUsername u = Some (ns, name) <->
  u = "system:serviceaccount:" +:+ ns +:+ ":" +:+ name /\ ns <> "" /\ name <> "" /\ free_of ":" ns /\ free_of ":" name.
Proof.
  unfold parseServiceAccountUsername. split.
  - intros H. pose proof (join_split ":" u) as Hj. pose proof (split_parts_free ":" u) as Hf.
    destruct (Prelude.split ":" u) as [|a [|b [|c [|d []]]]]; try discriminate H.
    destruct (_ && _) eqn:E in H; [|discriminate]. injection H as -> ->. simp_bool. subst. rewrite !Forall_cons in Hf.
    destruct Hf as (_ & _ & F1 & F2 & _). auto.
  - intros (-> & H1 & H2 & H3 & H4).
    change ("system:serviceaccount:" +:+ ns +:+ ":" +:+ name) with (Prelude.join ":" ["system"; "serviceaccount"; ns; name]).
    rewrite split_join; [|discriminate|].
    + rewrite (proj2 (String.eqb_neq _ _) H1), (proj2 (String.eqb_neq _ _) H2). reflexivity.
    + repeat constructor; try assumption; unfold free_of; simpl; rewrite !not_elem_of_cons; repeat split; try discriminate; apply not_elem_of_nil.
Qed.

(** C33: Validate trusts only the API server. It gives an identity exactly when the review call came
    back whole with status 200 or 201 and its document says the token is authenticated for this
    audience, as a service account with a uid, and the token's own expiry is still to come; the
    namespace, name and uid are the document's, the trust domain the validator's, and only the
    expiry is the token's. *)
Theorem Validate_trusts_review v k token id :
  Validate v k token = Ok id <->
  blank token = false /\ (exists reviewerToken, reviewer k = Some reviewerToken /\ blank reviewerToken = false) /\
  exists code body review,
    answer k = Some (code, body, false) /\ String.length body <= maxTokenReviewResponseBytes /\ (code = 200 \/ code = 201)%Z /\
    Unmarshal_review body = Some review /\ Authenticated review = true /\ audience v ∈ s_elems (Audiences review) /\
    Username (User review) = "system:serviceaccount:" +:+ i_Namespace id +:+ ":" +:+ i_ServiceAccountName id /\
    i_Namespace id <> "" /\ i_ServiceAccountName id <> "" /\ free_of ":" (i_Namespace id) /\ free_of ":" (i_ServiceAccountName id) /\
    UID (User review) = i_ServiceAccountUID id /\ blank (i_ServiceAccountUID id) = false /\ i_TrustDomain id = trustDomain v /\
    unverifiedJWTExpiry token = Some (i_ExpiresAt id) /\ After (i_ExpiresAt id) (UTC (now k)) = true.
Proof.
  unfold Validate. split.
  - intros H. destruct (blank token); [discriminate|]. destruct (reviewer k) as [rt|]; [|discriminate].
    destruct (blank rt) eqn:Er; [discriminate|]. destruct (answer k) as [[[code body] err]|]; [|discriminate].
    destruct (Nat.ltb_spec maxTokenReviewResponseBytes (String.length body)); [discriminate|]. destruct err; [discriminate|].
    destruct (negb (code =? 201)%Z && _) eqn:Ec; [discriminate|]. destruct (Unmarshal_review body) as [rv|] eqn:Eb; [|discriminate].
    destruct (Authenticated rv) eqn:Ea; [|discriminate]. destruct (contains _ (audience v)) eqn:Eu; [|discriminate]. apply contains_spec in Eu.
    destruct (parseServiceAccountUsername _) as [[ns name]|] eqn:En; [|discriminate]. apply username_iff in En as (E1 & E2 & E3 & E4 & E5).
    cbn [negb] in H. destruct (blank (UID (User rv))) eqn:Ei; [discriminate|]. destruct (unverifiedJWTExpiry token) as [t|]; [|discriminate].
    destruct (After t _) eqn:Et; [|discriminate]. injection H as <-. split; [reflexivity|]. split; [eauto|].
    exists code, body, rv. repeat (split; [assumption || reflexivity|]). split; [|repeat (split; [eassumption || reflexivity|]); eassumption].
    apply andb_false_iff in Ec as [Ec|Ec]; apply negb_false_iff, Z.eqb_eq in Ec; auto.
  - intros (H1 & (rt & H2 & H3) & code & body & rv & H4 & H5 & H6 & H7 & H8 & H9 & H10 & H11 & H12 & H13 & H14 & H15 & H16 & H17 & H18 & H19).
    rewrite H1, H2, H3, H4, (proj2 (Nat.ltb_ge _ _) H5). cbn.
    replace (negb (code =? 201)%Z && negb (code =? 200)%Z) with false by (destruct H6 as [-> | ->]; reflexivity).
    rewrite H7, H8, (proj2 (contains_spec _ _) H9), (proj2 (username_iff _ (i_Namespace id) (i_ServiceAccountName id))) by auto.
    cbn. rewrite H15, H16, H18, H19. cbn. rewrite <-H17. destruct id; reflexivity.
Qed.

End Bind.

Example repeated_audiences :
  option_map (fun r => s_elems (Audiences r)) (Unmarshal_review id
    (quotes "{'status':{'audiences':['a','b']},'STATUS':{'Audiences':[null,'c',null],'authenticated':true},'x':1}")) = Some ["a"; "c"; ""].
Proof. vm_compute. reflexivity. Qed.

Example expiry_forms :
  unverifiedJWTExpiry id ("h." +:+ Base64.encode (quotes "{'EXP':'1700000000'}") +:+ ".s") = Some (Unix 1700000000) /\
  unverifiedJWTExpiry id ("h." +:+ Base64.encode (quotes "{'exp':1.5}") +:+ ".s") = None /\
  unverifiedJWTExpiry id ("h." +:+ Base64.encode (quotes "{'exp':null}") +:+ ".s") = None.
Proof. vm_compute. auto. Qed.

End Review.
