(* ===== verification/AuthExchange.v ===== *)
(** The RFC 8693 workload exchange of src/authverify/workload_exchange.go and
    workload_token_exchange_service.go: scope narrowing, the check of an issued token's lifetime, and
    Exchange over its three seams (validator, grant resolver, issuer), which are arguments. *)
From S2P Require Import Prelude Json Decimal GoTime GoStrings Base64 AuthJson AuthToken AuthTokenSpec AuthReview.

Module Exchange.
Import Json GoTime AuthJson Token TokenSpec Review.

Definition WorkloadAccessTokenLifetime : Duration := WorkloadTokenLifetimeCeiling.

(** The errors a caller tells apart; [Opaque] stands for a seam's own error. *)
Inductive exchange_error :=
| SubjectTokenInvalid | WorkloadBindingNotFound | ScopeNotGranted
| IssuedLifetimeExceedsCeiling | IssuedLifetimeUnknown | IssuedLifetimeMismatch
| Opaque (n : nat).

Record WorkloadBinding := mkBinding {
  BindingID : string; OrgID : string; GrantedScopes : list string; RepositoryScopes : list string }.

Record IssuedToken := mkIssued { i_Token : string; i_IssuedAt : option Time; i_ExpiresAt : option Time }.

(** The loop of ResolveRequestedScope: [seen] holds the scopes narrowed so far. *)
Fixpoint narrow (grantedSet : gset string) (requested : list string) (seen : gset string) (narrowed : list string)
    : result exchange_error (list string) :=
  match requested with
  | [] => Ok narrowed
  | scope :: requested =>
      if negb (bool_decide (scope ∈ grantedSet)) then Err ScopeNotGranted
      else if bool_decide (scope ∈ seen) then narrow grantedSet requested seen narrowed
      else narrow grantedSet requested ({[ scope ]} ∪ seen) (narrowed ++ [scope])
  end.

Definition ResolveRequestedScope (binding : WorkloadBinding) (requested : list string) : result exchange_error (list string) :=
  let granted := GrantedScopes binding in
  if (length granted =? 0) then Err WorkloadBindingNotFound
  else if (length requested =? 0) then Ok granted
  else narrow (list_to_set granted) requested ∅ [].

Record WorkloadTokenExchangeResult := mkResult { AccessToken : string; ExpiresIn : Z; Scope : list string }.

Section Exchange.
Variable SimpleFold : N -> N.

Definition tokenLifetimeClaims (payloadPart : string) : option (Z * Z) :=
  match Base64.DecodeString true payloadPart with
  | None => None
  | Some raw =>
      match decodeObject SimpleFold raw with
      | None => None
      | Some o =>
          match numericDate o "iat", numericDate o "exp" with
          | Some iat, Some exp => if (exp <=? iat)%Z then None else Some (iat, exp)
          | _, _ => None
          end
      end
  end.

Definition checkIssuedLifetime (issued : IssuedToken) : result exchange_error unit :=
  match i_IssuedAt issued, i_ExpiresAt issued with
  | Some issuedAt, Some expiresAt =>
      if negb (After expiresAt issuedAt) then Err IssuedLifetimeUnknown
      else
        let lifetime := Sub expiresAt issuedAt in
        match splitCompact (i_Token issued) with
        | Some (_, payload, _) =>
            match tokenLifetimeClaims payload with
            | None => Err IssuedLifetimeUnknown
            | Some (iat, exp) =>
                if (WorkloadTokenLifetimeCeiling / Second <? exp - iat)%Z then Err IssuedLifetimeExceedsCeiling
                else if negb (iat =? unix issuedAt)%Z || negb (exp =? unix expiresAt)%Z then Err IssuedLifetimeMismatch
                else Ok tt
            end
        | None => if (WorkloadTokenLifetimeCeiling <? lifetime)%Z then Err IssuedLifetimeExceedsCeiling else Ok tt
        end
  | _, _ => Err IssuedLifetimeUnknown
  end.

(** The three seams, and time.Now at the end. *)
Variable validate : string -> result exchange_error SubjectIdentity.
Variable resolve : SubjectIdentity -> result exchange_error WorkloadBinding.
Variable issue : WorkloadBinding -> list string -> Time -> result exchange_error IssuedToken.
Variable now : Time.

Definition expires_in (expiresAt : Time) : Z :=
  let remaining := Sub expiresAt now in
  if (0 <? remaining)%Z then Z.quot remaining Second else 0%Z.

Definition Exchange (subjectToken : string) (requestedScope : list string) : result exchange_error WorkloadTokenExchangeResult :=
  try! identity := validate subjectToken in
  try! binding := resolve identity in
  try! scope := ResolveRequestedScope binding requestedScope in
  try! issued := issue binding scope (Review.i_ExpiresAt identity) in
  try! _ := checkIssuedLifetime issued in
  match i_ExpiresAt issued with
  | Some expiresAt => Ok (mkResult (i_Token issued) (expires_in expiresAt) scope)
  | None => Err IssuedLifetimeUnknown
  end.

(** ** Scopes *)

Lemma narrow_ok (g : gset string) requested : forall (seen : gset string) narrowed out,
  (forall x, x ∈ seen <-> x ∈ narrowed) -> NoDup narrowed ->
  narrow g requested seen narrowed = Ok out ->
  NoDup out /\ Forall (.∈ g) requested /\ (forall x, x ∈ out <-> x ∈ narrowed \/ x ∈ requested) /\
  exists added, out = narrowed ++ added /\ added `sublist_of` requested.
Proof.
  induction requested as [|s requested IH]; intros seen narrowed out Hs Hn; cbn [narrow].
  - intros [= <-]. repeat split; [exact Hn | constructor | auto | intros [H|H]; [exact H | inversion H]|]. exists []. rewrite app_nil_r. split; [reflexivity | constructor].
  - destruct (bool_decide_reflect (s ∈ g)) as [Hg|]; [cbn [negb]|discriminate].
    destruct (bool_decide_reflect (s ∈ seen)) as [Hin|Hin]; intros H.
    + destruct (IH seen narrowed out Hs Hn H) as (H1 & H2 & H3 & added & H4 & H5). repeat split.
      * exact H1.
      * constructor; assumption.
      * intros Hx. apply H3 in Hx as [Hx|Hx]; [auto | right; right; exact Hx].
      * intros [Hx|Hx]; apply H3; [auto|]. apply elem_of_cons in Hx as [->|Hx]; [left; apply Hs; exact Hin | auto].
      * exists added. split; [exact H4 | constructor; exact H5].
    + assert (Hs' : forall x, x ∈ {[s]} ∪ seen <-> x ∈ narrowed ++ [s]).
      { intros x. rewrite elem_of_union, elem_of_singleton, elem_of_app, list_elem_of_singleton, Hs. tauto. }
      assert (Hn' : NoDup (narrowed ++ [s])).
      { apply NoDup_app. repeat split; [exact Hn | | apply NoDup_singleton]. intros x Hx Hx'. apply list_elem_of_singleton in Hx' as ->. apply Hin, Hs, Hx. }
      destruct (IH _ _ out Hs' Hn' H) as (H1 & H2 & H3 & added & H4 & H5). repeat split.
      * exact H1.
      * constructor; assumption.
      * intros Hx. apply H3 in Hx. rewrite elem_of_app, list_elem_of_singleton in Hx. rewrite elem_of_cons. tauto.
      * intros Hx. apply H3. rewrite elem_of_app, list_elem_of_singleton. rewrite elem_of_cons in Hx. tauto.
      * exists (s :: added). split; [rewrite H4, <-app_assoc; reflexivity | constructor; exact H5].
Qed.

Lemma narrow_total (g : gset string) requested seen narrowed :
  (exists out, narrow g requested seen narrowed = Ok out) \/
  (narrow g requested seen narrowed = Err ScopeNotGranted /\ exists s, s ∈ requested /\ s ∉ g).
Proof.
  revert seen narrowed. induction requested as [|s requested IH]; intros seen narrowed; cbn [narrow]; [eauto|].
  destruct (bool_decide_reflect (s ∈ g)) as [Hg|Hg]; cbn [negb]; [|right; split; [reflexivity | exists s; split; [left | exact Hg]]].
  destruct (bool_decide (s ∈ seen)).
  - destruct (IH seen narrowed) as [?|[? (x & Hx & ?)]]; [auto | right; split; [assumption | exists x; split; [right|]; assumption]].
  - destruct (IH ({[s]} ∪ seen) (narrowed ++ [s])) as [?|[? (x & Hx & ?)]]; [auto | right; split; [assumption | exists x; split; [right|]; assumption]].
Qed.

(** C34: a requested scope only narrows a grant. Without a grant the binding counts as not found; an empty
    request gets the whole grant; a request is refused exactly when it asks for a scope outside the
    grant; and otherwise the result holds exactly the requested scopes, each once, in the order of
    the request. *)
Theorem requested_scope_only_narrows binding requested :
  let granted := GrantedScopes binding in
  match ResolveRequestedScope binding requested with
  | Err e => (e = WorkloadBindingNotFound /\ granted = []) \/
             (e = ScopeNotGranted /\ granted <> [] /\ exists s, s ∈ requested /\ s ∉ granted)
  | Ok scope =>
      granted <> [] /\ (forall s, s ∈ scope -> s ∈ granted) /\
      ((requested = [] /\ scope = granted) \/
       (requested <> [] /\ NoDup scope /\ (forall s, s ∈ scope <-> s ∈ requested) /\ scope `sublist_of` requested))
  end.
Proof.
  intros granted. unfold ResolveRequestedScope. fold granted. destruct (Nat.eqb_spec (length granted) 0) as [E|Hg].
  { left. split; [reflexivity|]. destruct granted; [reflexivity | discriminate E]. }
  assert (Hne : granted <> []) by (intros ->; apply Hg; reflexivity).
  destruct (Nat.eqb_spec (length requested) 0) as [E|Hr].
  { split; [exact Hne|]. split; [auto|]. left. split; [|reflexivity]. destruct requested; [reflexivity | discriminate E]. }
  destruct (narrow_total (list_to_set granted) requested ∅ []) as [[out Ho]|[Ho (s & Hs & Hn)]]; rewrite Ho.
  - destruct (narrow_ok _ _ _ [] _ ltac:(intros x; split; intros Hx; [apply not_elem_of_empty in Hx; destruct Hx | inversion Hx]) ltac:(constructor) Ho)
      as (H1 & H2 & H3 & added & H4 & H5). cbn in H4. subst added. rewrite Forall_forall in H2.
    assert (H3' : forall s, s ∈ out <-> s ∈ requested) by (intros s; rewrite H3; split; [intros [Hx|]; [inversion Hx | assumption] | auto]).
    split; [exact Hne|]. split; [intros s Hs; apply (elem_of_list_to_set (C:=gset string)), H2, H3', Hs|].
    right. split; [intros ->; apply Hr; reflexivity | auto].
  - right. split; [reflexivity|]. split; [exact Hne|]. exists s. split; [exact Hs|]. rewrite elem_of_list_to_set in Hn. exact Hn.
Qed.

(** ** Lifetimes *)

(** A lifetime the exchange may hand out: for a compact token its own claims', which are the
    issuer's to the second; for an opaque one the issuer's. *)
Definition within_ceiling (issued : IssuedToken) : Prop :=
  exists issuedAt expiresAt, i_IssuedAt issued = Some issuedAt /\ i_ExpiresAt issued = Some expiresAt /\ After expiresAt issuedAt = true /\
  match splitCompact (i_Token issued) with
  | Some (_, payload, _) =>
      exists raw o iat exp, Base64.DecodeString true payload = Some raw /\ object_doc SimpleFold raw o /\
        date_member o "iat" iat /\ date_member o "exp" exp /\ (iat < exp <= iat + 300)%Z /\ iat = unix issuedAt /\ exp = unix expiresAt
  | None => (Sub expiresAt issuedAt <= 300 * Second)%Z
  end.

Lemma claims_read payload iat exp :
  tokenLifetimeClaims payload = Some (iat, exp) <->
  exists raw o, Base64.DecodeString true payload = Some raw /\ object_doc SimpleFold raw o /\
    date_member o "iat" iat /\ date_member o "exp" exp /\ (iat < exp)%Z.
Proof.
  unfold tokenLifetimeClaims. split.
  - intros H. walk_returns H. injection H as -> ->. simp_bool. repeat match goal with H : numericDate _ _ = _ |- _ => apply numericDate_iff in H end.
    match goal with H : decodeObject _ _ = _ |- _ => apply decodeObject_doc in H end. eauto 10.
  - intros (raw & o & -> & Ho & Hi & He & Hlt). rewrite (proj2 (decodeObject_doc SimpleFold raw o) Ho).
    rewrite (proj2 (numericDate_iff o _ _) Hi), (proj2 (numericDate_iff o _ _) He), (proj2 (Z.leb_gt _ _) Hlt). reflexivity.
Qed.

Lemma checkIssuedLifetime_ok issued : checkIssuedLifetime issued = Ok tt <-> within_ceiling issued.
Proof.
  unfold checkIssuedLifetime, within_ceiling. destruct (i_IssuedAt issued) as [i|]; [|split; [discriminate | intros (? & ? & [=] & _)]].
  destruct (i_ExpiresAt issued) as [e|]; [|split; [discriminate | intros (? & ? & _ & [=] & _)]].
  destruct (After e i) eqn:Ea; cbn [negb]; [|split; [discriminate | intros (? & ? & [= <-] & [= <-] & Hx & _); congruence]].
  change (WorkloadTokenLifetimeCeiling / Second)%Z with 300%Z. change WorkloadTokenLifetimeCeiling with (300 * Second)%Z.
  destruct (splitCompact (i_Token issued)) as [[[h p] s]|].
  - split.
    + destruct (tokenLifetimeClaims p) as [[iat exp]|] eqn:Ec; [|discriminate]. apply claims_read in Ec as (raw & o & H1 & H2 & H3 & H4 & H5).
      destruct (Z.ltb_spec 300 (exp - iat)); [discriminate|]. destruct (_ || _) eqn:Em; [discriminate|]. intros _. simp_bool.
      exists i, e. repeat split; [exact Ea|]. exists raw, o, iat, exp. repeat split; auto; lia.
    + intros (i' & e' & [= <-] & [= <-] & _ & raw & o & iat & exp & H1 & H2 & H3 & H4 & H5 & H6 & H7).
      rewrite (proj2 (claims_read p iat exp)) by (exists raw, o; repeat split; auto; lia).
      rewrite (proj2 (Z.ltb_ge _ _)) by lia. rewrite <-H6, <-H7, !Z.eqb_refl. reflexivity.
  - destruct (Z.ltb_spec (300 * Second) (Sub e i)); split; try discriminate; eauto 10.
    intros (i' & e' & [= <-] & [= <-] & _ & H'). lia.
Qed.

(** An exchange hands out only a token that the issuer made for the subject's own binding, with a
    scope narrowed from that binding's grant, and that lives at most 300 seconds: for a compact token
    by the claims it carries itself, which must be the issuer's issue and expiry times to the second.
    Every other outcome is an error and no token. *)
Theorem Exchange_hands_out_short_lived subjectToken requested r :
  Exchange subjectToken requested = Ok r <->
  exists identity binding scope issued expiresAt,
    validate subjectToken = Ok identity /\ resolve identity = Ok binding /\
    ResolveRequestedScope binding requested = Ok scope /\ issue binding scope (Review.i_ExpiresAt identity) = Ok issued /\
    within_ceiling issued /\ i_ExpiresAt issued = Some expiresAt /\
    r = mkResult (i_Token issued) (Z.max 0 (Z.quot (Sub expiresAt now) Second)) scope.
Proof.
  assert (Hmax : forall t, expires_in t = Z.max 0 (Z.quot (Sub t now) Second)).
  { intros t. unfold expires_in. pose proof (Z.quot_pos (Sub t now) Second). pose proof (Z.quot_opp_l (Sub t now) Second).
    pose proof (Z.quot_pos (- Sub t now) Second). destruct (Z.ltb_spec 0 (Sub t now)); unfold Second in *; lia. }
  unfold Exchange. split.
  - intros H. apply rbind_ok in H as (identity & H1 & H). apply rbind_ok in H as (binding & H2 & H).
    apply rbind_ok in H as (scope & H3 & H). apply rbind_ok in H as (issued & H4 & H). apply rbind_ok in H as ([] & H5 & H).
    apply checkIssuedLifetime_ok in H5. destruct (i_ExpiresAt issued) as [e|] eqn:Ee; [|discriminate]. injection H as <-. rewrite Hmax.
    exists identity, binding, scope, issued, e. auto 10.
  - intros (identity & binding & scope & issued & e & H1 & H2 & H3 & H4 & H5 & H6 & ->). rewrite H1. cbn. rewrite H2. cbn. rewrite H3. cbn.
    rewrite H4. cbn. rewrite (proj2 (checkIssuedLifetime_ok issued) H5). cbn. rewrite H6, Hmax. reflexivity.
Qed.

End Exchange.

Example opaque_token :
  checkIssuedLifetime id (mkIssued "opaque" (Some (at_ns 0)) (Some (at_ns (300 * Second)%Z))) = Ok tt /\
  checkIssuedLifetime id (mkIssued "opaque" (Some (at_ns 0)) (Some (at_ns (300 * Second + 1)%Z))) = Err IssuedLifetimeExceedsCeiling /\
  checkIssuedLifetime id (mkIssued "opaque" (Some (at_ns 0)) None) = Err IssuedLifetimeUnknown /\
  checkIssuedLifetime id (mkIssued sample_token (Some (at_ns (1000 * Second)%Z)) (Some (at_ns (1200 * Second)%Z))) = Err IssuedLifetimeExceedsCeiling.
Proof. vm_compute. auto. Qed.

End Exchange.
