(* ===== verification/WtObject.v ===== *)
(** uniqueObject of src/workloadtoken/exchange.go: a JSON object read member by member from a
    json.Decoder, each value left as it stands (json.RawMessage), refusing a repeated name.
    [uniqueObject_iff] says which texts it reads. *)
From S2P Require Import Prelude Utf8 Json JsonDecoder AuthJson.

Module WtObject.
Import Json Decoder.

(** Decoder.Decode into a json.RawMessage: past the ',' or ':' that the state asks for, one value,
    whose numbers stay text. *)
Definition prepare (d : decoder) : option decoder :=
  match d_state d with
  | ArrayComma => match peek (d_in d) with Some (c, t) => if Ascii.eqb c "," then Some (Dec t ArrayValue (d_stack d)) else None | None => None end
  | ObjectColon => match peek (d_in d) with Some (c, t) => if Ascii.eqb c ":" then Some (Dec t ObjectValue (d_stack d)) else None | None => None end
  | _ => Some d
  end.
Definition DecodeRaw (d : decoder) : option (json * decoder) :=
  match prepare d with
  | None => None
  | Some d1 =>
      if negb (value_allowed (d_state d1)) then None
      else match parse_value false (2 * String.length (d_in d1) + 2) (d_in d1) with
           | Some (v, r) => if shallow v then Some (v, Dec r (value_end (d_state d1)) (d_stack d1)) else None
           | None => None
           end
  end.

(** The loop over the members. *)
Fixpoint unique_members (fuel : nat) (d : decoder) (members : gmap string json) : option (gmap string json * decoder) :=
  match fuel with
  | 0 => None
  | S fuel =>
      if negb (More d) then Some (members, d)
      else match Token d with
      | TokOk (TVal (JStr name)) d1 =>
          if bool_decide (is_Some (members !! name)) then None
          else match DecodeRaw d1 with
               | Some (v, d2) => unique_members fuel d2 (<[name := v]> members)
               | None => None
               end
      | _ => None
      end
  end.

Definition uniqueObject (raw : string) : option (gmap string json) :=
  match Token (NewDecoder raw) with
  | TokOk (TDelim c) d =>
      if negb (Ascii.eqb c "{") then None
      else match unique_members (S (String.length raw)) d ∅ with
      | Some (members, d1) =>
          match Token d1 with
          | TokOk (TDelim c) d2 =>
              if negb (Ascii.eqb c "}") then None
              else match Token d2 with TokEOF => Some members | _ => None end
          | _ => None
          end
      | None => None
      end
  | _ => None
  end.

Definition add (o : gmap string json) (kv : string * json) : gmap string json := <[kv.1 := kv.2]> o.
Definition fresh_names (o : gmap string json) (m : list (string * json)) : Prop :=
  NoDup m.*1 /\ forall k, k ∈ m.*1 -> o !! k = None.

Lemma fresh_cons o k v m : o !! k = None -> fresh_names (<[k := v]> o) m <-> fresh_names o ((k, v) :: m).
Proof.
  intros Hk. unfold fresh_names. cbn [fmap list_fmap fst]. rewrite NoDup_cons. setoid_rewrite elem_of_cons. setoid_rewrite lookup_insert_None. split.
  - intros [Hn Hf]. repeat split; [|exact Hn|intros x [->|Hx]; [exact Hk | apply Hf, Hx]]. intros Hin. destruct (Hf k Hin) as [_ H]. congruence.
  - intros [[Hn Hd] Hf]. split; [exact Hd|]. intros x Hx. split; [apply Hf; auto|]. intros ->. contradiction.
Qed.

Lemma eqb_false_ne (c d : ascii) : Ascii.eqb c d = false -> c <> d.
Proof. apply Ascii.eqb_neq. Qed.

(** ** One member *)

Definition at_member (st : tstate) (i s : string) : Prop :=
  st = ObjectStart /\ s = i \/ st = ObjectComma /\ peek i = Some (","%char, s).

(** A name and its value, where the decoder stands at a member. *)
Lemma member_step st i s k t v t1 stk :
  at_member st i s -> key s = Some (k, t) -> parse_value false (2 * String.length t + 2) t = Some (v, t1) -> shallow v = true ->
  More (Dec i st stk) = true /\ exists d1, Token (Dec i st stk) = TokOk (TVal (JStr k)) d1 /\ DecodeRaw d1 = Some (v, Dec t1 ObjectComma stk).
Proof.
  intros Hat Hk Hv Hs. unfold key in Hk. destruct (peek s) as [[c r]|] eqn:Ep; [|discriminate].
  destruct (Ascii.eqb_spec c dquote) as [->|]; [|discriminate]. destruct (lex_string r) as [[k' r1]|] eqn:El; [|discriminate].
  destruct (peek r1) as [[e r2]|] eqn:Ec; [|discriminate]. destruct (Ascii.eqb e ":") eqn:Ee; [|discriminate]. injection Hk as -> ->.
  assert (Hd : DecodeRaw (Dec r1 ObjectColon stk) = Some (v, Dec t1 ObjectComma stk)).
  { unfold DecodeRaw, prepare. cbn [d_state d_in d_stack]. rewrite Ec, Ee. cbn [d_state d_in d_stack value_allowed negb]. rewrite Hv, Hs. reflexivity. }
  destruct Hat as [[-> ->]|[-> Hp]].
  - split; [unfold More; cbn [d_in]; rewrite Ep; reflexivity|]. exists (Dec r1 ObjectColon stk). split; [|exact Hd].
    unfold Token, token_here. cbn [d_in d_state d_stack]. rewrite Ep. cbn. rewrite El. reflexivity.
  - split; [unfold More; cbn [d_in]; rewrite Hp; reflexivity|]. exists (Dec r1 ObjectColon stk). split; [|exact Hd].
    unfold Token, token_next, token_here. cbn [d_in d_state d_stack]. rewrite Hp. cbn. rewrite Ep. cbn. rewrite El. reflexivity.
Qed.

(** The other way: what a name and a value that were read say of the text. *)
Lemma member_inv st i stk k v d1 d2 :
  st = ObjectStart \/ st = ObjectComma -> Token (Dec i st stk) = TokOk (TVal (JStr k)) d1 -> DecodeRaw d1 = Some (v, d2) ->
  exists s t t1, at_member st i s /\ key s = Some (k, t) /\ parse_value false (2 * String.length t + 2) t = Some (v, t1) /\ shallow v = true /\
    d2 = Dec t1 ObjectComma stk.
Proof.
  intros Hst Ht Hd.
  assert (Hkey : exists s r r1, at_member st i s /\ peek s = Some (dquote, r) /\ lex_string r = Some (k, r1) /\ d1 = Dec r1 ObjectColon stk).
  { unfold Token in Ht. cbn [d_in d_state d_stack] in Ht. destruct (peek i) as [[c t]|] eqn:Ep; [|discriminate].
    destruct (Ascii.eqb c ":") eqn:E1; [destruct Hst as [-> | ->]; discriminate Ht|].
    assert (Hhere : forall st' i' c' t', st' = ObjectStart \/ st' = ObjectKey -> peek i' = Some (c', t') ->
      token_here (Dec i' st' stk) c' t' = TokOk (TVal (JStr k)) d1 -> c' = dquote /\ exists r1, lex_string t' = Some (k, r1) /\ d1 = Dec r1 ObjectColon stk).
    { clear. intros st i c t Hst _ H. unfold token_here in H. cbn [d_state d_stack] in H.
      destruct (Ascii.eqb c "["); [destruct Hst as [-> | ->]; discriminate H|]. destruct (Ascii.eqb c "]"); [destruct Hst as [-> | ->]; discriminate H|].
      destruct (Ascii.eqb c "{"); [destruct Hst as [-> | ->]; discriminate H|].
      destruct (Ascii.eqb c "}"); [destruct Hst as [-> | ->]; [destruct stk; discriminate H | discriminate H]|].
      destruct (Ascii.eqb c ":" || Ascii.eqb c ","); [discriminate H|]. destruct (Ascii.eqb_spec c dquote) as [->|].
      - split; [reflexivity|]. destruct Hst as [-> | ->]; cbn in H; destruct (lex_string t) as [[k' r]|]; try discriminate H; injection H as -> <-; eauto.
      - destruct Hst as [-> | ->]; discriminate H. }
    destruct (Ascii.eqb_spec c ",") as [->|Hc].
    - destruct Hst as [-> | ->]; [discriminate Ht|]. unfold token_next in Ht. cbn [d_in] in Ht. destruct (peek t) as [[c' t']|] eqn:Ep'; [|discriminate Ht].
      destruct (Hhere ObjectKey t c' t' (or_intror eq_refl) Ep') as (-> & r1 & Hl & Hd1).
      { exact Ht. } exists t, t', r1. repeat split; try assumption. right. auto.
    - destruct Hst as [-> | ->].
      + destruct (Hhere ObjectStart i c t (or_introl eq_refl) Ep Ht) as (-> & r1 & Hl & Hd1). exists i, t, r1. repeat split; try assumption. left. auto.
      + exfalso. unfold token_here in Ht. cbn [d_state d_stack value_allowed] in Ht.
        change (bool_decide (ObjectComma = ObjectStart) || bool_decide (ObjectComma = ObjectKey)) with false in Ht.
        rewrite andb_false_r in Ht. walk_returns Ht. }
  destruct Hkey as (s & r & r1 & Hat & Hp & Hl & ->). unfold DecodeRaw, prepare in Hd. cbn [d_state d_in d_stack] in Hd.
  destruct (peek r1) as [[c t]|] eqn:Ec; [|discriminate]. destruct (Ascii.eqb c ":") eqn:Ee; [|discriminate].
  cbn [d_state d_in d_stack value_allowed negb value_end] in Hd. destruct (parse_value false _ t) as [[v' t1]|] eqn:Ev; [|discriminate].
  destruct (shallow v') eqn:Es; [|discriminate]. injection Hd as -> <-. exists s, t, t1. repeat split; try assumption. unfold key. rewrite Hp, Ascii.eqb_refl, Hl, Ec, Ee. reflexivity.
Qed.

(** ** The loop *)

(** Where a loop ends: at the closing brace. *)
Lemma close_brace i st stk d :
  st = ObjectStart \/ st = ObjectComma -> More (Dec i st stk) = false -> Token (Dec i st stk) = TokOk (TDelim "}") d ->
  exists r, peek i = Some ("}"%char, r) /\ d_in d = r.
Proof.
  intros Hst Hm Ht. unfold More in Hm. cbn [d_in] in Hm. unfold Token in Ht. cbn [d_in d_state] in Ht.
  destruct (peek i) as [[c t]|]; [|discriminate Ht]. exists t.
  destruct (Ascii.eqb_spec c "}") as [->|]; [|destruct (Ascii.eqb_spec c "]") as [->|]; [|discriminate Hm]].
  - split; [reflexivity|]. unfold token_here in Ht. cbn in Ht. destruct Hst as [-> | ->]; destruct stk; try discriminate Ht; injection Ht as <-; reflexivity.
  - exfalso. unfold token_here in Ht. cbn in Ht. destruct Hst as [-> | ->]; discriminate Ht.
Qed.

Lemma loop_sound fuel : forall st i stk o o' d d' r,
  st = ObjectStart \/ st = ObjectComma -> unique_members fuel (Dec i st stk) o = Some (o', d) -> Token d = TokOk (TDelim "}") d' -> d_in d' = r ->
  (peek i = Some ("}"%char, r) /\ o' = o) \/
  exists s m, at_member st i s /\ members false s m r /\ Forall (fun kv => shallow kv.2 = true) m /\ fresh_names o m /\ o' = foldl add o m.
Proof.
  induction fuel as [|fuel IH]; intros st i stk o o' d d' r Hst H Hd Hr; [discriminate|]. cbn [unique_members] in H.
  destruct (More (Dec i st stk)) eqn:Em; cbn [negb] in H.
  - destruct (Token (Dec i st stk)) as [[c|[| | |k| |]] d1| |] eqn:Et; try discriminate H.
    destruct (bool_decide (is_Some (o !! k))) eqn:Ek; [discriminate|]. apply bool_decide_eq_false in Ek. rewrite <-eq_None_not_Some in Ek.
    destruct (DecodeRaw d1) as [[v d2]|] eqn:Ed; [|discriminate]. right.
    destruct (member_inv st i stk k v d1 d2 Hst Et Ed) as (s & t & t1 & Hat & Hk & Hv & Hs & ->). apply parse_sound in Hv.
    destruct (IH ObjectComma t1 stk _ o' d d' r (or_intror eq_refl) H Hd Hr) as [[Hp ->]|(s' & m & [[? _]|[_ Hp]] & Hm & Hsm & Hf & ->)]; try discriminate.
    + exists s, [(k, v)]. split; [exact Hat|]. split; [eapply m_last; eassumption|]. split; [auto|]. split; [|reflexivity].
      split; [apply NoDup_singleton|]. intros x Hx. apply list_elem_of_singleton in Hx as ->. exact Ek.
    + exists s, ((k, v) :: m). split; [exact Hat|]. split; [eapply m_more; eassumption|]. split; [auto|]. split; [|reflexivity].
      apply (fresh_cons o k v m Ek). exact Hf.
  - injection H as <- <-. left. destruct (close_brace i st stk d' Hst Em Hd) as (r' & Hp & Hr'). split; [|reflexivity]. congruence.
Qed.

Lemma loop_complete m : forall s r fuel st i stk o,
  members false s m r -> Forall (fun kv => shallow kv.2 = true) m -> at_member st i s -> fresh_names o m -> length m < fuel ->
  exists t, unique_members fuel (Dec i st stk) o = Some (foldl add o m, Dec t ObjectComma stk) /\ peek t = Some ("}"%char, r).
Proof.
  induction m as [|[k v] m IH]; intros s r fuel st i stk o Hm Hs Hat Hf Hl; [inversion Hm|]. apply Forall_cons in Hs as [Hsv Hs].
  destruct fuel as [|fuel]; [simpl in Hl; lia|].
  assert (Hstep : forall t t1, key s = Some (k, t) -> value false t v t1 ->
    unique_members (S fuel) (Dec i st stk) o = unique_members fuel (Dec t1 ObjectComma stk) (<[k := v]> o)).
  { intros t t1 Hk Hv. destruct (member_step st i s k t v t1 stk Hat Hk) as (Hmore & d1 & Ht & Hd).
    { apply parse_complete; [exact Hv | lia]. } { exact Hsv. }
    cbn [unique_members]. rewrite Hmore, Ht, Hd. cbn [negb].
    rewrite bool_decide_eq_false_2; [reflexivity|]. rewrite <-eq_None_not_Some. apply Hf. left. }
  assert (Hf' : fresh_names (<[k := v]> o) m) by (apply fresh_cons; [apply Hf; left | exact Hf]).
  simpl in Hl. inversion Hm as [? ? t ? t1 ? Hk Hv Hp|? ? t ? t1 t2 ? ? Hk Hv Hp Hm']; subst.
  - exists t1. split; [|exact Hp]. rewrite (Hstep t t1 Hk Hv). destruct fuel as [|fuel]; [lia|]. cbn [unique_members].
    replace (More (Dec t1 ObjectComma stk)) with false by (unfold More; cbn [d_in]; rewrite Hp; reflexivity). reflexivity.
  - rewrite (Hstep t t1 Hk Hv). apply (IH t2 r fuel ObjectComma t1 stk (<[k := v]> o) Hm' Hs); [right; auto | exact Hf' | lia].
Qed.

(** The loop stays inside its object. *)
Lemma loop_state fuel : forall i st stk o o' d,
  st = ObjectStart \/ st = ObjectComma -> unique_members fuel (Dec i st stk) o = Some (o', d) ->
  exists i' st', d = Dec i' st' stk /\ (st' = ObjectStart \/ st' = ObjectComma).
Proof.
  induction fuel as [|fuel IH]; intros i st stk o o' d Hst H; [discriminate|]. cbn [unique_members] in H.
  destruct (More (Dec i st stk)); cbn [negb] in H; [|injection H as _ <-; eauto].
  destruct (Token (Dec i st stk)) as [[c|[| | |k| |]] d'| |] eqn:Et; try discriminate H. destruct (bool_decide _); [discriminate|].
  destruct (DecodeRaw d') as [[v d2]|] eqn:Ed; [|discriminate]. destruct (member_inv _ _ _ _ _ _ _ Hst Et Ed) as (s & t & t1 & _ & _ & _ & _ & ->).
  eapply IH; [|exact H]. auto.
Qed.

(** ** What uniqueObject reads *)

Lemma members_length fl s m r : members fl s m r -> length m <= String.length s.
Proof.
  revert s. induction m as [|[k v] m IH]; intros s Hm; [inversion Hm|].
  inversion Hm as [? ? t ? t1 ? Hk Hv Hp|? ? t ? t1 t2 ? ? Hk Hv Hp Hm']; subst; simpl; apply key_length in Hk.
  - lia.
  - apply IH in Hm'. apply value_consumes in Hv. apply peek_length in Hp. lia.
Qed.

Lemma token_open raw d c : Token (NewDecoder raw) = TokOk (TDelim c) d -> c = "{"%char ->
  exists t, peek raw = Some ("{"%char, t) /\ d = Dec t ObjectStart [TopValue].
Proof.
  intros H ->. unfold Token, NewDecoder in H. cbn [d_in d_state] in H. destruct (peek raw) as [[c t]|]; [|discriminate]. exists t.
  destruct (Ascii.eqb c ":"); [discriminate H|]. destruct (Ascii.eqb c ","); [discriminate H|]. unfold token_here in H. cbn [d_state d_stack value_allowed] in H.
  destruct (Ascii.eqb c "["); [discriminate H|]. destruct (Ascii.eqb c "]"); [discriminate H|].
  destruct (Ascii.eqb_spec c "{") as [->|]; [injection H as <-; auto|]. walk_returns H.
Qed.

Lemma token_eof_top i stk : Token (Dec i TopValue stk) = TokEOF <-> peek i = None.
Proof.
  split; [intros H; apply (token_eof _ H); reflexivity|]. unfold Token. cbn [d_in]. intros ->. reflexivity.
Qed.

Lemma uniqueObject_iff raw o :
  uniqueObject raw = Some o <-> exists m, text false raw (JObj m) /\ Forall (fun kv => shallow kv.2 = true) m /\ NoDup m.*1 /\ o = AuthJson.object_of m.
Proof.
  change (AuthJson.object_of) with (foldl add (∅ : gmap string json)). unfold uniqueObject. split.
  - intros H. destruct (Token (NewDecoder raw)) as [[c|] d| |] eqn:E; try discriminate.
    destruct (Ascii.eqb_spec c "{") as [->|]; [cbn [negb] in H|discriminate]. destruct (token_open _ _ _ E eq_refl) as (t & Hp & ->).
    destruct (unique_members _ _ _) as [[o' d1]|] eqn:El; [|discriminate]. destruct (Token d1) as [[c|] d2| |] eqn:Ec; try discriminate.
    destruct (Ascii.eqb_spec c "}") as [->|]; [cbn [negb] in H|discriminate]. destruct (Token d2) eqn:Ee; try discriminate. injection H as ->.
    pose proof (loop_state _ _ _ _ _ _ _ (or_introl eq_refl) El) as (i1 & st1 & -> & Hst1).
    assert (Hend : d_state d2 = TopValue).
    { unfold Token, token_next in Ec. cbn [d_in d_state d_stack] in Ec. unfold token_here in Ec. cbn [d_state d_stack] in Ec.
      walk_returns Ec; injection Ec as <-; reflexivity. }
    destruct d2 as [i2 st2 stk2]. cbn in Hend. subst st2. apply token_eof_top in Ee.
    destruct (loop_sound _ _ _ _ _ _ _ _ i2 (or_introl eq_refl) El Ec eq_refl) as [[Hq ->]|(s & m & [[_ ->]|[? _]] & Hm & Hs & Hf & ->)]; try discriminate.
    + exists []. split; [exists i2; split; [eapply v_obj_nil; eassumption | exact Ee]|]. split; [constructor|]. split; [constructor | reflexivity].
    + exists m. split; [exists i2; split; [eapply v_obj; eassumption | exact Ee]|]. split; [exact Hs|]. split; [apply Hf | reflexivity].
  - intros (m & (r & Hv & Hr) & Hsm & Hnd & ->).
    assert (Hopen : forall t, peek raw = Some ("{"%char, t) -> Token (NewDecoder raw) = TokOk (TDelim "{") (Dec t ObjectStart [TopValue])).
    { intros t Hp. unfold Token, NewDecoder, token_here. cbn [d_in d_state d_stack]. rewrite Hp. reflexivity. }
    assert (Hclose : forall i st, st = ObjectStart \/ st = ObjectComma -> peek i = Some ("}"%char, r) ->
      Token (Dec i st [TopValue]) = TokOk (TDelim "}") (Dec r TopValue [])).
    { intros i st Hst Hp. unfold Token, token_here. cbn [d_in d_state d_stack]. rewrite Hp. destruct Hst as [-> | ->]; reflexivity. }
    inversion Hv as [? c t v ? Hp Hc1 Hc2 Hs|? t ? Hp Hq|? t m' ? Hp Hm|? t ? Hp Hq|? t l ? Hp He]; subst.
    + exfalso. unfold scalar in Hs. destruct (lex_scalar _) as [[[x|n] t']|] eqn:El; try discriminate. injection Hs as -> <-.
      unfold lex_scalar in El. walk_returns El; injection El; intros; discriminate.
    + rewrite (Hopen t Hp). cbn [negb Ascii.eqb]. cbn [unique_members].
      replace (More (Dec t ObjectStart [TopValue])) with false by (unfold More; cbn [d_in]; rewrite Hq; reflexivity).
      cbn. rewrite (Hclose t ObjectStart (or_introl eq_refl) Hq). cbn. rewrite (proj2 (token_eof_top r []) Hr). reflexivity.
    + rewrite (Hopen t Hp). cbn [negb Ascii.eqb].
      destruct (loop_complete m t r (S (String.length raw)) ObjectStart t [TopValue] ∅ Hm Hsm) as (i & Hl & Hq).
      * left. auto.
      * split; [exact Hnd|]. intros. apply lookup_empty.
      * apply members_length in Hm. apply peek_length in Hp. lia.
      * rewrite Hl, (Hclose i ObjectComma (or_intror eq_refl) Hq). cbn. rewrite (proj2 (token_eof_top r []) Hr). reflexivity.
Qed.

End WtObject.
