(* ===== verification/WtToken.v ===== *)
(** The client's check of a workload token (src/workloadtoken/exchange.go: tokenClaims,
    workloadTokenShape, checkToken, canonicalBootstrap), and what it promises: a token that passes it
    is accepted by the strictest WorkloadVerifier of authverify at the same instant, if the signature
    is genuine. *)
From Stdlib Require Import SpecFloat.
From S2P Require Import Prelude Regex Json JsonDecoder GoTime Decimal GoStrings Base64 AuthJson AuthToken AuthTokenSpec AuthReview WtObject Utf8.

(** ** float64, as far as the refresh point needs it *)

Module GoFloat.
Definition float64 := spec_float.
Definition of_int64 (n : Z) : float64 := binary_normalize 53 1024 n 0 false.
Definition mul : float64 -> float64 -> float64 := SFmul 53 1024.
Definition ltb : float64 -> float64 -> bool := SFltb.
Definition eqb : float64 -> float64 -> bool := SFeqb.
Definition half : float64 := SFdiv 53 1024 (of_int64 1) (of_int64 2).

(** The conversion to an int64 drops the fraction. What it gives outside the range is the machine's
    choice; amd64 gives the least int64. *)
Definition to_int64 (f : float64) : Z :=
  match f with
  | S754_zero _ => 0
  | S754_finite neg m e =>
      let a := if (0 <=? e)%Z then (Zpos m * 2 ^ e)%Z else (Zpos m / 2 ^ (- e))%Z in
      let n := if neg : bool then (- a)%Z else a in
      if (n <? min_int64)%Z || (max_int64 <? n)%Z then min_int64 else n
  | _ => min_int64
  end.
End GoFloat.

Module WtToken.
Import Json GoTime AuthJson.

Definition MaxLifetime : Duration := (300 * Second)%Z.
Definition maxAccessTokenBytes : nat := 8192.

(** The error classes of errors.go; [IndexPanic] stands for a run-time panic. *)
Inductive wt_error :=
| ErrExchangeRefused
| ErrExchangeInvalidRequest
| unavailable (class : string)
| ErrSubjectUnreadable (class : string)
| IndexPanic.

#[export] Instance wt_error_eq_dec : EqDecision wt_error.
Proof. solve_decision. Defined.

Definition errNotYetValid : wt_error := unavailable "token not yet valid".
Definition errClaimsShape : wt_error := unavailable "token claims break the workload-token contract".
Definition errDates : wt_error := unavailable "token dates break the workload-token contract".

Definition claimMembers : list string := ["iss"; "aud"; "sub"; "principal_type"; "jti"; "iat"; "nbf"; "exp"].
Definition issuerShape : re :=
  seqs [lit "https://"; cls "a-z0-9"; opt (seqs [rep (cls "a-z0-9.-") 0 251; cls "a-z0-9"]);
        opt (seqs [lit ":"; rep (cls "0-9") 1 5]);
        rep (seqs [lit "/"; cls "A-Za-z0-9_~-"; rep (cls "A-Za-z0-9._~-") 0 63]) 0 8].
Definition subjectShape : re := seqs [lit "prn_"; Regex.plus (cls "A-Za-z0-9_-")].
Definition tokenIDShape : re := rep (cls "A-Za-z0-9_-") 22 64.
Definition kidShape : re := rep (cls "!-~") 1 256.
Definition maxNumericDate : Z := 253402300799.

(** json.Unmarshal of a raw member into a string: null leaves it empty. *)
Definition text_of (v : json) : option string :=
  match v with JStr s => Some s | JNull => Some EmptyString | _ => None end.

(** strconv.ParseInt of a raw member: only a number's text can be digits. *)
Definition int_of (v : json) : option Z :=
  match v with JNum t => Review.ParseInt t | _ => None end.

(** The closure text of tokenClaims. *)
Definition text (members : gmap string json) (name : string) (shape : option re) (want : string) : bool :=
  match members !! name with
  | Some v => match text_of v with
              | Some value => match shape with Some p => matchb p value | None => String.eqb value want end
              | None => false
              end
  | None => false
  end.

(** One turn of the loop over iat, nbf, exp. *)
Definition date (members : gmap string json) (name : string) : result wt_error Z :=
  match match members !! name with Some v => int_of v | None => None end with
  | None => Err (unavailable ("token " +:+ name +:+ " is not an integer"))
  | Some value => if (value <? 1)%Z || (maxNumericDate <? value)%Z then Err errDates else Ok value
  end.

Definition tokenClaims (token issuer audience : string) : result wt_error (Time * Time) :=
  match Prelude.split "." token !! 1 with
  | None => Err IndexPanic
  | Some part =>
  match Base64.DecodeString true part with
  | None => Err (unavailable "token payload is not base64url")
  | Some payload =>
  match WtObject.uniqueObject payload with
  | None => Err errClaimsShape
  | Some members =>
      if negb (size members =? length claimMembers) then Err errClaimsShape
      else if negb (forallb (fun name => bool_decide (is_Some (members !! name))) claimMembers) then Err errClaimsShape
      else if negb (text members "aud" None audience) || negb (text members "principal_type" None "workload")
              || negb (text members "iss" None issuer) || negb (text members "sub" (Some subjectShape) "")
              || negb (text members "jti" (Some tokenIDShape) "") then Err errClaimsShape
      else
        try! iat := date members "iat" in
        try! nbf := date members "nbf" in
        try! exp := date members "exp" in
        if (nbf <? iat)%Z || (MaxLifetime / Second <? exp - iat)%Z then Err errDates
        else Ok (Unix nbf, Unix exp)
  end end end.

(** A rune outside ASCII is in no class, and neither is a byte of it. *)
Definition compactJWS (value : string) : bool :=
  match Prelude.split "." value with
  | [_; _; _] as parts =>
      forallb (fun part => negb (String.eqb part "") && base64URLAlphabet part
                           && match Base64.DecodeString false part with Some _ => true | None => false end) parts
  | _ => false
  end.

Definition workloadTokenShape (token : string) : bool :=
  if negb (compactJWS token) then false
  else match Prelude.split "." token with
  | header :: _ :: sig :: _ =>
      match Base64.DecodeString true header with
      | None => false
      | Some rawHeader =>
      match WtObject.uniqueObject rawHeader with
      | None => false
      | Some members =>
          if negb (size members =? 3) then false
          else match match members !! "alg" with Some v => text_of v | None => None end,
                     match members !! "typ" with Some v => text_of v | None => None end,
                     match members !! "kid" with Some v => text_of v | None => None end with
          | Some alg, Some typ, Some kid =>
              if negb (String.eqb alg "EdDSA") || negb (String.eqb typ "workload+jwt") || negb (matchb kidShape kid) then false
              else match Base64.DecodeString true sig with
                   | Some signature => String.length signature =? Token.SignatureSize
                   | None => false
                   end
          | _, _, _ => false
          end
      end end
  | _ => false
  end.

(** ** checkToken *)

Record entry := mkEntry {
  e_token : string; e_audience : string; sent : Time; lifetime : Duration;
  notBefore : Time; refreshAt : Time; usableUntil : Time }.

(** The fields of the Client that do not change. *)
Record config := mkConfig {
  issuer : string; refreshFraction : GoFloat.float64; margin : Duration; backoffFloor : Duration; backoffCeiling : Duration }.

(** time.Duration(float64(e.lifetime) * c.refreshFraction) *)
Definition refresh_delay (c : config) (e : entry) : Duration :=
  GoFloat.to_int64 (GoFloat.mul (GoFloat.of_int64 (lifetime e)) (refreshFraction c)).

(** min(exp, sent + lifetime) - margin *)
Definition window_end (c : config) (e : entry) (expires : Time) : Time :=
  let full := Add (sent e) (lifetime e) in
  Add (if Before expires full then expires else full) (- margin c)%Z.

(** The error, None for nil, and the entry with its window filled in where the code got that far. *)
Definition checkToken (c : config) (e : option entry) (now : Time) : option wt_error * option entry :=
  match e with
  | None => (Some (unavailable "access_token is not a workload token"), None)
  | Some e =>
      if (maxAccessTokenBytes <? String.length (e_token e)) || negb (workloadTokenShape (e_token e))
      then (Some (unavailable "access_token is not a workload token"), Some e)
      else match tokenClaims (e_token e) (issuer c) (e_audience e) with
      | Err x => (Some x, Some e)
      | Ok (notBefore, expires) =>
          let usableUntil := window_end c e expires in
          let at_ := Add (sent e) (refresh_delay c e) in
          let refreshAt := if After at_ usableUntil then usableUntil else at_ in
          let e := mkEntry (e_token e) (e_audience e) (sent e) (lifetime e) notBefore refreshAt usableUntil in
          if Before now notBefore then (Some errNotYetValid, Some e)
          else if negb (Before now usableUntil) then (Some (unavailable "token outside its usable window"), Some e)
          else (None, Some e)
      end
  end.

(** ** canonicalBootstrap *)

Definition BootstrapPrefix : string := "fcwlb_".
Definition bootstrapPattern : re := seqs [lit BootstrapPrefix; rep (cls "A-Za-z0-9_-") 43 43].
Definition TrimPrefix (s p : string) : string := if String.prefix p s then Utf8.drop (String.length p) s else s.
Definition canonicalBootstrap (value : string) : bool :=
  if negb (matchb bootstrapPattern value) then false
  else match Base64.DecodeString true (TrimPrefix value BootstrapPrefix) with
       | Some raw => String.length raw =? 32
       | None => false
       end.

End WtToken.
