(* ===== verification/WtTokenSpec.v ===== *)
(** What the client's token check accepts, and the agreement with authverify's WorkloadVerifier. *)
From S2P Require Import Prelude Regex Json JsonDecoder GoTime Decimal GoStrings Base64 AuthJson AuthToken AuthTokenSpec AuthReview WtObject WtToken.

Module WtTokenSpec.
Import Json GoTime GoStrings AuthJson Token TokenSpec WtToken.

(** ** Positive integers in JSON *)

Lemma dec_value_dec s : dec_value s = Decimal.dec s.
Proof.
  unfold dec_value, Decimal.dec. generalize 0%Z. induction s as [|c s IH]; intros a; [reflexivity|].
  cbn [chars foldl Decimal.dec_acc]. rewrite IH. reflexivity.
Qed.

Lemma dec_acc_low s a : (0 <= a)%Z -> Forall (fun c => is_digit c = true) (chars s) ->
  (a * 10 ^ Z.of_nat (String.length s) <= Decimal.dec_acc a s)%Z.
Proof.
  revert a. induction s as [|c s IH]; intros a Ha H; cbn [chars Decimal.dec_acc String.length] in *; [simpl; lia|].
  apply Forall_cons in H as [Hc Hs]. apply Decimal.digit_range in Hc. etransitivity; [|apply IH; [lia | exact Hs]].
  rewrite Nat2Z.inj_succ, Z.pow_succ_r by lia. nia.
Qed.

Lemma digits_head s : Forall (fun c => is_digit c = true) (chars (digits s).1).
Proof.
  induction s as [|c s IH]; [constructor|]. cbn [digits]. destruct (is_digit c) eqn:E; [|constructor].
  destruct (digits s) as [d t]. cbn in *. constructor; assumption.
Qed.

Lemma lex_int_shape s i r : lex_int s = Some (i, r) -> Decimal.canonical i.
Proof.
  unfold lex_int. destruct s as [|c s]; [discriminate|]. destruct (Ascii.eqb_spec c "0") as [->|Hc]; [intros [= <- _]; left; reflexivity|].
  destruct (is_digit c) eqn:Ed; [|discriminate]. intros [= E]. cbn [digits] in E. rewrite Ed in E. destruct (digits s) as [d t] eqn:Es.
  injection E as <- _. right. exists c, d. split; [reflexivity|]. split.
  - unfold is_digit in Ed. apply Decimal.in_range_code in Ed. apply Decimal.in_range_code. change (code "0") with 48%N in Ed. change (code "1") with 49%N.
    assert (code c <> 48%N) by (intros E; apply Hc, code_inj; exact E). lia.
  - pose proof (digits_head s) as H. rewrite Es in H. exact H.
Qed.

(** ParseInt of a text without a sign is its value. *)
Lemma ParseInt_digits s k : Review.ParseInt s = Some k -> (1 <= k)%Z ->
  exists t, (s = t \/ s = String "+" t) /\ Forall (fun c => is_digit c = true) (chars t) /\ t <> "" /\ k = Decimal.dec t.
Proof.
  unfold Review.ParseInt. intros H Hk.
  assert (Hd : forall ds n, (if String.eqb ds "" || negb (forallb is_digit (chars ds)) then None
      else if (n <? min_int64)%Z || (max_int64 <? n)%Z then None else Some n) = Some k ->
      Forall (fun c => is_digit c = true) (chars ds) /\ ds <> "" /\ n = k).
  { intros ds n E. destruct (String.eqb_spec ds ""); [discriminate|]. destruct (forallb is_digit (chars ds)) eqn:Ef; [|discriminate].
    cbn [negb orb] in E. destruct (_ || _) in E; [discriminate|]. injection E as <-. split; [|auto].
    rewrite forallb_forall in Ef. apply Forall_forall. intros x Hx. apply Ef, list_elem_of_In, Hx. }
  assert (Hpos : forall ds, Forall (fun c => is_digit c = true) (chars ds) -> (0 <= Decimal.dec ds)%Z).
  { intros ds Hf. pose proof (dec_acc_low ds 0 ltac:(lia) Hf). unfold Decimal.dec. lia. }
  destruct s as [|c r]; [discriminate H|]. destruct (Ascii.eqb_spec c "-") as [->|].
  - apply Hd in H as (Hf & Hne & Hv). apply Hpos in Hf. lia.
  - destruct (Ascii.eqb_spec c "+") as [->|]; apply Hd in H as (Hf & Hne & <-); eauto 10.
Qed.

Lemma lex_exp_head s e t : lex_exp s = Some (Some e, t) -> exists c x, e.1.1 = String c x /\ is_digit c = false.
Proof.
  unfold lex_exp. destruct s as [|c r]; [discriminate|]. destruct (Ascii.eqb c "e" || Ascii.eqb c "E") eqn:E; [|discriminate].
  assert (Hc : is_digit c = false) by (apply orb_true_iff in E as [E|E]; apply Ascii.eqb_eq in E as ->; reflexivity).
  intros H. repeat case_match; try discriminate; injection H as <- _; cbn; eauto.
Qed.

(** A JSON number that ParseInt reads as a positive integer is a plain numeral. *)
Lemma plain_number s n r k :
  lex_number s = Some (n, r) -> Review.ParseInt (number_text n) = Some k -> (1 <= k <= maxNumericDate)%Z ->
  Forall (fun c => is_digit c = true) (chars (number_text n)) /\ 1 <= String.length (number_text n) <= 12 /\
  k = Decimal.dec (number_text n) /\ overflows n = false.
Proof.
  intros Hl Hp Hk. unfold lex_number in Hl.
  destruct (match s with String c r => if Ascii.eqb c "-" then (true, r) else (false, s) | EmptyString => (false, s) end) as [neg s1].
  destruct (lex_int s1) as [[i s2]|] eqn:Ei; [|discriminate]. destruct (lex_frac s2) as [[f s3]|]; [|discriminate].
  destruct (lex_exp s3) as [[e s4]|] eqn:Ee; [|discriminate]. injection Hl as <- _. apply lex_int_shape in Ei.
  apply ParseInt_digits in Hp as (t & Ht & Hd & Hne & ->); [|lia]. unfold number_text in *. cbn [n_neg n_int n_frac n_exp] in *.
  assert (Hi : exists c i', i = String c i' /\ c <> "+"%char).
  { destruct Ei as [->|(c & i' & -> & Hc & _)]; [exists "0"%char, EmptyString; split; [reflexivity | discriminate]|].
    exists c, i'. split; [reflexivity|]. intros ->. discriminate Hc. }
  destruct Hi as (c0 & i' & Ei' & Hplus). destruct neg.
  { exfalso. destruct Ht as [<-|Ht]; [|discriminate Ht]. apply Forall_cons in Hd as [Hd _]. discriminate Hd. }
  rewrite str_app_nil in *. destruct Ht as [<-|Ht]; [|subst i; rewrite str_app_cons in Ht; injection Ht as -> _; contradiction].
  rewrite chars_app, Forall_app in Hd. destruct Hd as [Hdi Hd]. destruct f as [f|]; [exfalso; rewrite str_app_cons in Hd; apply Forall_cons in Hd as [Hd _]; discriminate Hd|].
  rewrite str_app_nil in *. destruct e as [e|].
  { exfalso. apply lex_exp_head in Ee as (c & x & E & Hc). destruct e as [[e1 e2] e3]. cbn in E. subst e1. rewrite str_app_cons in Hd.
    apply Forall_cons in Hd as [Hd _]. congruence. }
  rewrite str_app_nil_r in *. split; [exact Hdi|]. split; [|split; [reflexivity|]].
  - subst i. split; [simpl; lia|]. destruct (Nat.le_gt_cases (String.length (String c0 i')) 12) as [|Hlen]; [assumption|]. exfalso.
    destruct Ei as [E|(c & j & [= -> ->] & Hc & Hj)]; [injection E as -> ->; simpl in Hlen; lia|].
    pose proof (dec_acc_low j (Decimal.digit c) ltac:(apply Decimal.in_range_code in Hc; unfold Decimal.digit; change (code "1") with 49%N in Hc; lia) Hj) as Hlow.
    assert (1 <= Decimal.digit c)%Z by (apply Decimal.in_range_code in Hc; unfold Decimal.digit; change (code "1") with 49%N in Hc; lia).
    cbn [String.length] in Hlen. assert (10 ^ 12 <= 10 ^ Z.of_nat (String.length j))%Z by (apply Z.pow_le_mono_r; lia).
    unfold Decimal.dec in Hk. cbn [Decimal.dec_acc] in Hk. rewrite Z.mul_0_l, Z.add_0_l in Hk. unfold maxNumericDate in Hk.
    change (10 ^ 12)%Z with 1000000000000%Z in *. nia.
  - unfold overflows. cbn [n_frac n_exp n_int String.length]. rewrite str_app_nil_r, dec_value_dec.
    destruct (Decimal.dec i =? 0)%Z; [reflexivity|]. change (0 - Z.of_nat 0)%Z with 0%Z. change (0 <? 0)%Z with false. change (400 <? 0)%Z with false.
    cbv iota. rewrite Z.pow_0_r, Z.mul_1_r. apply Z.leb_gt.
    eapply Z.le_lt_trans; [apply Hk|]. reflexivity.
Qed.

(** ** From texts with numbers kept to values with float64 numbers *)

(** A value read with its numbers kept, whose numbers ParseInt reads as dates, is read the same with
    them as float64. *)
Definition dated (v : json) : Prop :=
  match v with
  | JNum t => exists k, Review.ParseInt t = Some k /\ (1 <= k <= maxNumericDate)%Z
  | JStr _ => True
  | _ => False
  end.

(** A date as the verifier asks for it: at most 12 digits and nothing else. *)
Definition plain_date (t : string) : Prop :=
  Forall (fun c => is_digit c = true) (chars t) /\ 1 <= String.length t <= 12 /\ Review.ParseInt t = Some (Decimal.dec t).

Lemma value_dated s v r : value false s v r -> dated v ->
  value true s v r /\ forall t, v = JNum t -> plain_date t.
Proof.
  intros Hv Hd. inversion Hv as [? c t ? ? Hp H1 H2 Hs| | | |]; subst; try contradiction.
  unfold scalar in Hs. destruct (lex_scalar (String c t)) as [[[x|n] u]|] eqn:El; [| |discriminate].
  - injection Hs as -> ->. split; [eapply v_scalar; try eassumption; unfold scalar; rewrite El; reflexivity|].
    intros y ->. exfalso. unfold lex_scalar in El. walk_returns El; injection El; intros; discriminate.
  - cbn [andb] in Hs. injection Hs as <- ->. destruct Hd as (k & Hk & Hr).
    assert (Hn : lex_number (String c t) = Some (n, r)) by (unfold lex_scalar in El; walk_returns El; injection El as -> ->; assumption || reflexivity).
    destruct (plain_number _ _ _ _ Hn Hk Hr) as (F1 & F2 & -> & F4).
    split; [eapply v_scalar; try eassumption; unfold scalar; rewrite El; cbn [andb]; rewrite F4; reflexivity|].
    intros y [= <-]. repeat split; first [assumption | apply F2].
Qed.

Lemma members_dated s m r : members false s m r -> Forall (fun kv => dated kv.2) m ->
  members true s m r /\ Forall (fun kv => forall t, kv.2 = JNum t ->
    plain_date t) m.
Proof.
  revert s. induction m as [|[k v] m IH]; intros s Hm Hd; [inversion Hm|]. apply Forall_cons in Hd as [Hv Hd].
  inversion Hm as [? ? t ? t1 ? Hk Hval Hp|? ? t ? t1 t2 ? ? Hk Hval Hp Hm']; subst; destruct (value_dated _ _ _ Hval Hv) as [Hval' Hn].
  - split; [eapply m_last; eassumption | apply Forall_cons; split; [exact Hn | constructor]].
  - destruct (IH _ Hm' Hd) as [IH1 IH2]. split; [eapply m_more; eassumption | constructor; assumption].
Qed.

Lemma dated_levels m : Forall (fun kv => dated kv.2) m -> (levels (JObj m) <= 1)%N.
Proof.
  intros H. cbn [levels]. assert (foldr (fun kv acc => N.max (levels kv.2) acc) 0%N m = 0%N) as ->; [|lia].
  induction H as [|[k v] m Hv _ IH]; [reflexivity|]. cbn [foldr]. rewrite IH. destruct v; try contradiction; reflexivity.
Qed.

Lemma text_dated raw m : Json.text false raw (JObj m) -> Forall (fun kv => dated kv.2) m ->
  document true raw (JObj m) /\ Forall (fun kv => forall t, kv.2 = JNum t ->
    plain_date t) m.
Proof.
  intros (r & Hv & Hr) Hd.
  assert (Hs : shallow (JObj m) = true).
  { apply N.leb_le. etransitivity; [apply dated_levels, Hd|]. discriminate. }
  inversion Hv as [? c t ? ? Hp H1 H2 Hsc|? ? ? Hp Hq|? t ? ? Hp Hm| |]; subst.
  - exfalso. unfold scalar in Hsc. destruct (lex_scalar _) as [[[x|n] u]|] eqn:El; try discriminate. injection Hsc as -> _.
    unfold lex_scalar in El. walk_returns El; injection El; intros; discriminate.
  - split; [split; [exists r; split; [eapply v_obj_nil; eassumption | exact Hr] | exact Hs] | constructor].
  - destruct (members_dated _ _ _ Hm Hd) as [Hm' Hn]. split; [|exact Hn].
    split; [exists r; split; [eapply v_obj; eassumption | exact Hr] | exact Hs].
Qed.

(** ** Objects with a fixed set of members *)

Lemma object_of_map m : NoDup m.*1 -> object_of m = (list_to_map m : gmap string json).
Proof.
  intros Hnd. enough (H : forall o : gmap string json, (forall k, k ∈ m.*1 -> o !! k = None) -> foldl WtObject.add o m = o ∪ (list_to_map m : gmap string json)).
  { change (object_of m) with (foldl WtObject.add ∅ m). rewrite H by (intros; apply lookup_empty). apply map_empty_union. }
  induction m as [|[k v] m IH]; intros o Ho; [symmetry; apply map_union_empty|]. cbn [fmap list_fmap fst] in Hnd. apply NoDup_cons in Hnd as [Hk Hnd].
  cbn [foldl]. rewrite (IH Hnd). change (list_to_map ((k, v) :: m)) with (<[k := v]> (list_to_map m) : gmap string json).
  - change (<[k := v]> o ∪ list_to_map m = o ∪ <[k := v]> (list_to_map m)). rewrite <-insert_union_l, insert_union_r; [reflexivity | apply Ho; left].
  - intros j Hj. unfold WtObject.add. cbn [fst snd]. rewrite lookup_insert_ne; [apply Ho; right; exact Hj | congruence].
Qed.

Lemma object_of_lookup m k v : NoDup m.*1 -> object_of m !! k = Some v <-> (k, v) ∈ m.
Proof. intros Hnd. rewrite object_of_map by exact Hnd. symmetry. apply elem_of_list_to_map, Hnd. Qed.

(** As many members as the names, and all of them there: exactly them. *)
Lemma size_closed (o : gmap string json) names : NoDup names ->
  (size o = length names /\ forall name, name ∈ names -> is_Some (o !! name)) <-> closed o names names.
Proof.
  intros Hnd. assert (Hs : size (list_to_set names : gset string) = length names) by (apply size_list_to_set; exact Hnd).
  split; [intros [Hsz Hall]|intros [H1 H2]; split; [|exact H2]].
  - assert (E : list_to_set names = dom o).
    { apply set_subseteq_size_eq; [|rewrite size_dom; lia]. intros x Hx. apply elem_of_list_to_set in Hx. apply elem_of_dom. auto. }
    split; [|exact Hall]. intros name Hn. apply elem_of_dom in Hn. rewrite <-E in Hn. apply elem_of_list_to_set in Hn. exact Hn.
  - rewrite <-(size_dom (D := gset string)), <-Hs. f_equal. apply set_eq. intros x. rewrite elem_of_dom, elem_of_list_to_set. split; auto.
Qed.

(** Names of which no two fold together make an object that authverify's scan passes. *)
Definition unfolded (names : list string) : Prop := forall SimpleFold a b, a ∈ names -> b ∈ names -> a <> b -> EqualFold SimpleFold a b = false.

Lemma unfolded_run names :
  (forall SimpleFold, forallb (fun a => forallb (fun b => String.eqb a b || negb (EqualFold SimpleFold a b)) names) names = true) -> unfolded names.
Proof.
  intros H SF a b Ha Hb Hne. specialize (H SF). rewrite forallb_forall in H. apply list_elem_of_In in Ha, Hb. apply H in Ha.
  rewrite forallb_forall in Ha. apply Ha in Hb. apply orb_true_iff in Hb as [E|E]; [apply String.eqb_eq in E; contradiction | apply negb_true_iff in E; exact E].
Qed.

Lemma claimMembers_NoDup : NoDup claimMembers.
Proof. apply (bool_decide_unpack (NoDup claimMembers)). vm_compute. exact I. Qed.
Lemma headerMembers_NoDup : NoDup ["alg"; "typ"; "kid"].
Proof. apply (bool_decide_unpack (NoDup ["alg"; "typ"; "kid"])). vm_compute. exact I. Qed.

Lemma claimMembers_unfolded : unfolded claimMembers.
Proof. apply unfolded_run. intros SF. vm_compute. reflexivity. Qed.
Lemma headerMembers_unfolded : unfolded ["alg"; "typ"; "kid"].
Proof. apply unfolded_run. intros SF. vm_compute. reflexivity. Qed.

Lemma distinct_flat SimpleFold m names :
  NoDup m.*1 -> (forall k, k ∈ m.*1 -> k ∈ names) -> unfolded names -> Forall (fun kv => dated kv.2) m -> distinct_folded SimpleFold (JObj m).
Proof.
  intros Hnd Hin Hu Hd. cbn [distinct_folded]. split.
  - induction (m.*1) as [|k l IH]; [constructor|]. apply NoDup_cons in Hnd as [Hk Hnd]. constructor.
    + apply Forall_forall. intros x Hx. apply Hu; [apply Hin; left | apply Hin; right; exact Hx | intros ->; contradiction].
    + apply IH; [exact Hnd | intros x Hx; apply Hin; right; exact Hx].
  - apply Forall_map. eapply Forall_impl; [exact Hd|]. intros [k v] Hv. destruct v; try contradiction; exact I.
Qed.

(** What uniqueObject read, with flat members of fixed names, authverify reads as the same object. *)
Lemma object_agrees SimpleFold raw o names :
  WtObject.uniqueObject raw = Some o -> closed o names names -> unfolded names -> (forall k v, o !! k = Some v -> dated v) ->
  object_doc SimpleFold raw o /\ forall k t, o !! k = Some (JNum t) -> plain_date t.
Proof.
  intros Hu Hc Hf Hd. apply WtObject.uniqueObject_iff in Hu as (m & Ht & _ & Hnd & ->).
  assert (Hm : Forall (fun kv => dated kv.2) m).
  { apply Forall_forall. intros [k v] Hkv. apply (Hd k). apply object_of_lookup; assumption. }
  destruct (text_dated raw m Ht Hm) as [Hdoc Hn]. split.
  - exists m. split; [exact Hdoc|]. split; [|reflexivity]. apply distinct_flat with names; try assumption. intros k Hk. apply Hc.
    apply list_elem_of_fmap in Hk as ([k' v] & -> & Hkv). exists v. apply object_of_lookup; assumption.
  - intros k t Hk. apply object_of_lookup in Hk; [|exact Hnd]. rewrite Forall_forall in Hn. apply (Hn _ Hk). reflexivity.
Qed.

(** ** The header and the claims *)

(** A member that json.Unmarshal reads as the string [s]. *)
Definition text_member (o : gmap string json) (name s : string) : Prop := exists v, o !! name = Some v /\ text_of v = Some s.

Lemma text_member_str o name s : s <> "" -> text_member o name s <-> o !! name = Some (JStr s).
Proof.
  intros Hs. unfold text_member. split; [|eauto]. intros (v & Hv & E). destruct v; try discriminate E; cbn in E; congruence.
Qed.

Lemma text_equal o name s : text o name None s = true <-> text_member o name s.
Proof.
  unfold text, text_member. destruct (o !! name) as [v|]; [|naive_solver]. split.
  - destruct (text_of v) as [x|] eqn:E; [|discriminate]. intros ->%String.eqb_eq. eauto.
  - intros (v' & [= <-] & ->). apply String.eqb_refl.
Qed.

Lemma text_shape o name p : matchb p "" = false ->
  text o name (Some p) "" = true <-> exists s, o !! name = Some (JStr s) /\ matches p s.
Proof.
  intros Hp. unfold text. destruct (o !! name) as [v|]; [|naive_solver]. setoid_rewrite <-matchb_spec.
  destruct v as [| | |x| |]; cbn [text_of]; try naive_solver. rewrite Hp. naive_solver.
Qed.

Definition int_member (o : gmap string json) (name : string) (k : Z) : Prop :=
  exists t, o !! name = Some (JNum t) /\ Review.ParseInt t = Some k /\ (1 <= k <= WtToken.maxNumericDate)%Z.

Lemma date_iff o name k : date o name = Ok k <-> int_member o name k.
Proof.
  unfold date, int_member.
  destruct (o !! name) as [[| |t| | |]|]; cbn [int_of]; try (split; [discriminate | intros (t' & E & _); discriminate E]).
  destruct (Review.ParseInt t) as [n|] eqn:Ep; [|split; [discriminate | intros (t' & [= <-] & E & _); congruence]]. destruct (_ || _) eqn:E.
  - split; [discriminate|]. intros (t' & [= <-] & E' & H). rewrite Ep in E'. injection E' as ->. apply orb_true_iff in E as [E|E]; apply Z.ltb_lt in E; lia.
  - simp_bool. split; [intros [= <-]; eauto | intros (t' & [= <-] & E' & _); congruence].
Qed.

Definition wt_header (raw kid : string) : Prop :=
  exists o, WtObject.uniqueObject raw = Some o /\ closed o ["alg"; "typ"; "kid"] ["alg"; "typ"; "kid"] /\
    o !! "alg" = Some (JStr "EdDSA") /\ o !! "typ" = Some (JStr "workload+jwt") /\ o !! "kid" = Some (JStr kid) /\ matches kidShape kid.

Record wt_claims := mkClaims { t_sub : string; t_jti : string; t_iat : Z; t_nbf : Z; t_exp : Z }.

Definition claims_doc (raw issuer audience : string) (c : wt_claims) : Prop :=
  exists o, WtObject.uniqueObject raw = Some o /\ closed o claimMembers claimMembers /\
    text_member o "aud" audience /\ o !! "principal_type" = Some (JStr "workload") /\ text_member o "iss" issuer /\
    o !! "sub" = Some (JStr (t_sub c)) /\ matches subjectShape (t_sub c) /\
    o !! "jti" = Some (JStr (t_jti c)) /\ matches tokenIDShape (t_jti c) /\
    int_member o "iat" (t_iat c) /\ int_member o "nbf" (t_nbf c) /\ int_member o "exp" (t_exp c) /\
    (t_iat c <= t_nbf c)%Z /\ (t_exp c - t_iat c <= 300)%Z.

Lemma three_parts h p s : Forall Base64.url_text [h; p; s] -> Prelude.split "." (Prelude.join "." [h; p; s]) = [h; p; s].
Proof.
  intros H. apply split_join; [discriminate|]. eapply Forall_impl; [exact H|]. intros x Hx. apply url_graphic. exact Hx.
Qed.

Lemma claims_iff h p s issuer audience a b : Forall Base64.url_text [h; p; s] ->
  tokenClaims (Prelude.join "." [h; p; s]) issuer audience = Ok (a, b) <->
  exists pr c, p = Base64.encode pr /\ claims_doc pr issuer audience c /\ a = Unix (t_nbf c) /\ b = Unix (t_exp c).
Proof.
  intros Hu. unfold tokenClaims. rewrite three_parts by exact Hu. cbn [lookup list_lookup].
  change (MaxLifetime / Second)%Z with 300%Z. change ([h; p; s] !! 1) with (Some p). cbv iota.
  assert (Hp : Base64.url_text p) by (rewrite !Forall_cons in Hu; apply Hu). split.
  - destruct (Base64.DecodeString true p) as [pr|] eqn:Ed; [|discriminate]. apply (Base64.DecodeString_strict _ _ Hp) in Ed.
    destruct (WtObject.uniqueObject pr) as [o|] eqn:Eo; [|discriminate].
    destruct (Nat.eqb_spec (size o) (length claimMembers)) as [Hsz|]; cbn [negb]; [|discriminate].
    destruct (forallb _ claimMembers) eqn:Ef; cbn [negb]; [|discriminate]. destruct (_ || _) eqn:Et; [discriminate|]. simp_bool.
    intros Hok. apply rbind_ok in Hok as (iat & D1 & Hok). apply rbind_ok in Hok as (nbf & D2 & Hok). apply rbind_ok in Hok as (exp & D3 & Hok).
    destruct (_ || _) eqn:Er in Hok; [discriminate|]. simp_bool. injection Hok as <- <-.
    repeat match goal with
    | E : date _ _ = Ok _ |- _ => apply date_iff in E
    | E : text _ _ None _ = true |- _ => apply text_equal in E
    | E : text _ _ (Some _) _ = true |- _ => apply text_shape in E as (? & ? & ?); [|reflexivity]
    | E : text_member _ "principal_type" _ |- _ => apply text_member_str in E; [|discriminate]
    end.
    match goal with H1 : o !! "sub" = Some (JStr ?x), H2 : o !! "jti" = Some (JStr ?y) |- _ => exists pr, (mkClaims x y iat nbf exp) end.
    split; [exact Ed|]. split; [|auto]. exists o. split; [exact Eo|]. split; [|cbn; auto 20].
    apply size_closed; [exact claimMembers_NoDup|]. split; [exact Hsz|]. intros name Hn. rewrite forallb_forall in Ef.
    apply list_elem_of_In, Ef, bool_decide_eq_true in Hn. exact Hn.
  - intros (pr & c & -> & (o & Eo & Hc & H1 & H2 & H3 & H4 & H5 & H6 & H7 & H8 & H9 & H10 & H11 & H12) & -> & ->).
    rewrite Base64.DecodeString_encode, Eo. pose proof Hc as [Hsz Hall]%size_closed; [|exact claimMembers_NoDup].
    rewrite Hsz, Nat.eqb_refl. cbn [negb]. rewrite (proj2 (forallb_forall _ _)).
    2: { intros x Hx. apply bool_decide_eq_true, Hall, list_elem_of_In, Hx. }
    rewrite (proj2 (text_equal o "aud" _) H1), (proj2 (text_equal o "iss" _) H3).
    rewrite (proj2 (text_equal o "principal_type" "workload")) by (apply text_member_str; [discriminate | exact H2]).
    rewrite (proj2 (text_shape o "sub" subjectShape eq_refl)), (proj2 (text_shape o "jti" tokenIDShape eq_refl)) by eauto.
    cbn [negb orb]. rewrite (proj2 (date_iff o "iat" _) H8), (proj2 (date_iff o "nbf" _) H9), (proj2 (date_iff o "exp" _) H10). cbn [rbind].
    rewrite (proj2 (Z.ltb_ge _ _) H11), (proj2 (Z.ltb_ge _ _) H12). reflexivity.
Qed.

Lemma header_object raw o kid :
  WtObject.uniqueObject raw = Some o ->
  (size o = 3 /\ text_member o "alg" "EdDSA" /\ text_member o "typ" "workload+jwt" /\ text_member o "kid" kid /\ matches kidShape kid) <->
  (closed o ["alg"; "typ"; "kid"] ["alg"; "typ"; "kid"] /\ o !! "alg" = Some (JStr "EdDSA") /\ o !! "typ" = Some (JStr "workload+jwt") /\
   o !! "kid" = Some (JStr kid) /\ matches kidShape kid).
Proof.
  intros _. rewrite !text_member_str by discriminate. split.
  - intros (Hsz & Ha & Ht & Hk & Hm). rewrite text_member_str in Hk by (intros ->; apply matchb_spec in Hm; discriminate Hm).
    split; [|auto]. apply (size_closed o _ headerMembers_NoDup). split; [exact Hsz|].
    intros name Hn. rewrite !elem_of_cons, elem_of_nil in Hn. destruct Hn as [-> | [-> | [-> | []]]]; eauto.
  - intros (Hc & Ha & Ht & Hk & Hm). rewrite text_member_str by (intros ->; apply matchb_spec in Hm; discriminate Hm).
    apply (size_closed o _ headerMembers_NoDup) in Hc as [Hsz _]. auto.
Qed.

Definition part_ok (part : string) : Prop :=
  part <> "" /\ Base64.url_text part /\ Base64.DecodeString false part <> None.

Lemma compactJWS_iff value : compactJWS value = true <-> exists a b c, value = Prelude.join "." [a; b; c] /\ Forall part_ok [a; b; c].
Proof.
  assert (Hp : forall part, negb (String.eqb part "") && base64URLAlphabet part && match Base64.DecodeString false part with Some _ => true | None => false end = true <-> part_ok part).
  { intros part. unfold part_ok. rewrite !andb_true_iff, negb_true_iff, String.eqb_neq, base64URLAlphabet_iff.
    destruct (Base64.DecodeString false part); naive_solver. }
  unfold compactJWS. split.
  - destruct (Prelude.split "." value) as [|a [|b [|c [|]]]] eqn:E; try discriminate. intros H. exists a, b, c. rewrite <-E, join_split. split; [reflexivity|].
    rewrite E. rewrite forallb_forall in H. apply Forall_forall. intros x Hx. apply Hp, H, list_elem_of_In, Hx.
  - intros (a & b & c & -> & H). rewrite three_parts by (eapply Forall_impl; [exact H | intros x Hx; apply Hx]).
    apply forallb_forall. intros x Hx. apply Hp. rewrite Forall_forall in H. apply H, list_elem_of_In, Hx.
Qed.

Lemma encode_part raw : raw <> "" -> part_ok (Base64.encode raw).
Proof.
  intros H. split; [|split; [apply Base64.encode_url | rewrite Base64.DecodeString_encode; discriminate]].
  intros E. apply H, Base64.encode_inj. rewrite E. reflexivity.
Qed.

Lemma shape_iff token : workloadTokenShape token = true <->
  exists hr p sig kid, token = Prelude.join "." [Base64.encode hr; p; Base64.encode sig] /\ part_ok p /\ wt_header hr kid /\
    String.length sig = Token.SignatureSize.
Proof.
  unfold workloadTokenShape. split.
  - destruct (compactJWS token) eqn:Ej; cbn [negb]; [|discriminate]. apply compactJWS_iff in Ej as (a & b & c & -> & Hf).
    rewrite three_parts by (eapply Forall_impl; [exact Hf | intros x Hx; apply Hx]). rewrite !Forall_cons in Hf. destruct Hf as ((Na & Ua & _) & Hb & (Nc & Uc & _) & _).
    destruct (Base64.DecodeString true a) as [hr|] eqn:Ea; [|discriminate]. apply (Base64.DecodeString_strict _ _ Ua) in Ea as ->.
    destruct (WtObject.uniqueObject hr) as [o|] eqn:Eo; [|discriminate]. destruct (Nat.eqb_spec (size o) 3) as [Hsz|]; cbn [negb]; [|discriminate].
    destruct (o !! "alg") as [va|] eqn:Eva; [|discriminate]. destruct (text_of va) as [alg|] eqn:Ta; [|discriminate].
    destruct (o !! "typ") as [vt|] eqn:Evt; [|discriminate]. destruct (text_of vt) as [typ|] eqn:Tt; [|discriminate].
    destruct (o !! "kid") as [vk|] eqn:Evk; [|discriminate]. destruct (text_of vk) as [kid|] eqn:Tk; [|discriminate].
    destruct (_ || _) eqn:Et; [discriminate|]. simp_bool. subst. destruct (Base64.DecodeString true c) as [sig|] eqn:Ec; [|discriminate].
    apply (Base64.DecodeString_strict _ _ Uc) in Ec as ->. intros Hl%Nat.eqb_eq. exists hr, b, sig, kid. repeat (split; [reflexivity || assumption|]).
    split; [|exact Hl]. exists o. split; [exact Eo|]. apply (header_object _ _ _ Eo). unfold text_member. rewrite <-matchb_spec. repeat split; eauto.
  - intros (hr & p & sig & kid & -> & Hp & (o & Eo & Ho) & Hl). apply (header_object _ _ _ Eo) in Ho as (Hsz & (va & Ea & Ta) & (vt & Et & Tt) & (vk & Ek & Tk) & Hm).
    assert (Hf : Forall part_ok [Base64.encode hr; p; Base64.encode sig]).
    { rewrite !Forall_cons. split; [|split; [exact Hp|split; [|constructor]]]; apply encode_part; intros ->; [vm_compute in Eo; discriminate Eo | discriminate Hl]. }
    rewrite (proj2 (compactJWS_iff _)) by eauto 10. cbn [negb]. rewrite three_parts by (eapply Forall_impl; [exact Hf | intros x Hx; apply Hx]).
    rewrite !Base64.DecodeString_encode, Eo, Hsz, Ea, Ta, Et, Tt, Ek, Tk. cbn [negb Nat.eqb]. rewrite (proj2 (matchb_spec _ _) Hm). cbn.
    apply Nat.eqb_eq. exact Hl.
Qed.

(** A token of the contract, as far as it can be told without its key: the canonical compact form of
    a header and claims for the issuer and audience. *)
Definition contract_token (token issuer audience kid : string) (c : wt_claims) : Prop :=
  exists hr pr sig, token = Prelude.join "." [Base64.encode hr; Base64.encode pr; Base64.encode sig] /\
    String.length token <= maxAccessTokenBytes /\ String.length sig = Token.SignatureSize /\
    wt_header hr kid /\ claims_doc pr issuer audience c.

(** The entry with its window filled in. *)
Definition windowed (cfg : config) (e : entry) (c : wt_claims) : entry :=
  let until := window_end cfg e (Unix (t_exp c)) in
  let at_ := Add (sent e) (refresh_delay cfg e) in
  mkEntry (e_token e) (e_audience e) (sent e) (lifetime e) (Unix (t_nbf c)) (if After at_ until then until else at_) until.

Lemma token_gate token issuer audience :
  (String.length token <= maxAccessTokenBytes /\ workloadTokenShape token = true /\ exists a b, tokenClaims token issuer audience = Ok (a, b)) <->
  exists kid c, contract_token token issuer audience kid c.
Proof.
  unfold contract_token. split.
  - intros (Hl & Hs & a & b & H). apply shape_iff in Hs as (hr & p & sig & kid & -> & Hp & Hh & Hsig).
    apply claims_iff in H as (pr & c & -> & Hc & _); [|repeat constructor; try apply Base64.encode_url; apply Hp].
    exists kid, c, hr, pr, sig. auto.
  - intros (kid & c & hr & pr & sig & -> & Hl & Hsig & Hh & Hc). split; [exact Hl|]. split.
    + apply shape_iff. exists hr, (Base64.encode pr), sig, kid. split; [reflexivity|]. split; [|auto]. apply encode_part. intros ->.
      destruct Hc as (o & Eo & _). vm_compute in Eo. discriminate Eo.
    + exists (Unix (t_nbf c)), (Unix (t_exp c)). apply claims_iff; [repeat constructor; apply Base64.encode_url | eauto 10].
Qed.

Definition in_window (cfg : config) (e : entry) (c : wt_claims) (now : Time) : Prop :=
  Before now (Unix (t_nbf c)) = false /\ Before now (window_end cfg e (Unix (t_exp c))) = true.

Lemma tokenClaims_windowed cfg e a b : (exists c, a = Unix (t_nbf c) /\ b = Unix (t_exp c)) ->
  forall now e', checkToken cfg (Some e) now = (None, Some e') -> workloadTokenShape (e_token e) = true ->
  tokenClaims (e_token e) (issuer cfg) (e_audience e) = Ok (a, b) ->
  Before now a = false /\ Before now (window_end cfg e b) = true /\
  e' = let until := window_end cfg e b in let at_ := Add (sent e) (refresh_delay cfg e) in
       mkEntry (e_token e) (e_audience e) (sent e) (lifetime e) a (if After at_ until then until else at_) until.
Proof.
  intros _ now e' H Hs Hc. unfold checkToken in H. rewrite Hs, Hc in H. cbn [negb] in H. rewrite orb_false_r in H.
  destruct (_ <? _) in H; [discriminate|]. destruct (Before now a); [discriminate|]. destruct (Before now (window_end cfg e b)); [|discriminate].
  injection H as <-. auto.
Qed.

Lemma checkToken_accepts cfg e now e' :
  checkToken cfg (Some e) now = (None, Some e') <->
  exists kid c, contract_token (e_token e) (issuer cfg) (e_audience e) kid c /\ in_window cfg e c now /\ e' = windowed cfg e c.
Proof.
  split.
  - intros H. assert (Hg : String.length (e_token e) <= maxAccessTokenBytes /\ workloadTokenShape (e_token e) = true /\
      exists a b, tokenClaims (e_token e) (issuer cfg) (e_audience e) = Ok (a, b)).
    { unfold checkToken in H. destruct (_ || _) eqn:E in H; [discriminate|]. simp_bool. split; [assumption|]. split; [assumption|].
      destruct (tokenClaims _ _ _) as [[a b]|]; [eauto | discriminate]. }
    destruct (proj1 (token_gate _ _ _) Hg) as (kid & c & Ht). exists kid, c. split; [exact Ht|].
    destruct Hg as (_ & Hs & _). pose proof Ht as (hr & pr & sig & E & _ & _ & _ & Hc).
    assert (Htc : tokenClaims (e_token e) (issuer cfg) (e_audience e) = Ok (Unix (t_nbf c), Unix (t_exp c))).
    { rewrite E. apply claims_iff; [repeat constructor; apply Base64.encode_url | eauto 10]. }
    destruct (tokenClaims_windowed cfg e _ _ ltac:(eauto) now e' H Hs Htc) as (H1 & H2 & H3). split; [split; assumption | exact H3].
  - intros (kid & c & Ht & [H1 H2] & ->). destruct (proj2 (token_gate _ _ _) (ex_intro _ kid (ex_intro _ c Ht))) as (Hl & Hs & _).
    pose proof Ht as (hr & pr & sig & E & _ & _ & _ & Hc).
    assert (Htc : tokenClaims (e_token e) (issuer cfg) (e_audience e) = Ok (Unix (t_nbf c), Unix (t_exp c))).
    { rewrite E. apply claims_iff; [repeat constructor; apply Base64.encode_url | eauto 10]. }
    unfold checkToken. rewrite Hs, (proj2 (Nat.ltb_ge _ _) Hl), Htc, H1, H2. reflexivity.
Qed.

Lemma tokenClaims_no_panic token issuer audience x :
  Prelude.split "." token !! 1 <> None -> tokenClaims token issuer audience = Err x -> x <> IndexPanic.
Proof.
  unfold tokenClaims. destruct (Prelude.split "." token !! 1) as [p|]; [intros _|congruence].
  assert (Hd : forall o n {B} (k : Z -> result wt_error B), rbind (date o n) k = Err x -> x <> IndexPanic \/ exists z, k z = Err x).
  { intros o n B k. unfold date. destruct (match o !! n with Some v => int_of v | None => None end); [|intros [= <-]; left; discriminate].
    destruct (_ || _); [intros [= <-]; left; discriminate | cbn; eauto]. }
  intros H. destruct (Base64.DecodeString true p); [|injection H as <-; discriminate]. destruct (WtObject.uniqueObject _); [|injection H as <-; discriminate].
  do 3 (match type of H with (if ?b then _ else _) = _ => destruct b; [injection H as <-; discriminate|] end).
  do 3 (apply Hd in H as [H|[? H]]; [exact H|]). destruct (_ || _) in H; [injection H as <-; discriminate | discriminate H].
Qed.

Lemma checkToken_no_panic cfg e now x e' : checkToken cfg e now = (Some x, e') -> x <> IndexPanic.
Proof.
  unfold checkToken. destruct e as [e|]; [|intros [= <- _]; discriminate]. destruct (_ || _) eqn:E; [intros [= <- _]; discriminate|]. simp_bool.
  match goal with H : workloadTokenShape _ = true |- _ => apply shape_iff in H as (hr & p & sig & kid & Et & Hp & _) end. rewrite Et.
  intros Hr. destruct (tokenClaims _ _ _) as [[a b]|y] eqn:Ec; [repeat case_match; simplify_eq; discriminate|]. injection Hr as <- _.
  apply tokenClaims_no_panic in Ec; [exact Ec|]. rewrite three_parts by (repeat constructor; try apply Base64.encode_url; apply Hp). discriminate.
Qed.

(** ** The window on the wall clock *)

(** Since [sent], the wall clock has not gained on the monotonic clock: no step forward, no suspend. *)
Definition steady (sent now : Time) : Prop :=
  match mono sent, mono now with Some a, Some b => (wall now - wall sent <= b - a)%Z | _, _ => True end.

Lemma steady_Add t now d : steady t now -> steady (Add t d) now.
Proof. unfold steady, Add. destruct (mono t) as [a|]; [|auto]. cbn. destruct (_ && _); [|auto]. destruct (mono now); lia. Qed.

Lemma steady_before t now : steady t now -> Before now t = true -> (wall now < wall t)%Z.
Proof. unfold steady, Before, readings. destruct (mono t), (mono now); intros Hs H%Z.ltb_lt; lia. Qed.

Lemma window_wall cfg e x now : steady (sent e) now -> (0 <= margin cfg)%Z -> Before now (window_end cfg e (Unix x)) = true ->
  (wall now < x * Second)%Z.
Proof.
  intros Hst Hm. unfold window_end. destruct (Before (Unix x) (Add (sent e) (lifetime e))) eqn:Eb.
  - rewrite Before_wall by reflexivity. cbn. intros H%Z.ltb_lt. lia.
  - assert (Hx : (wall (sent e) + lifetime e <= x * Second)%Z) by (unfold Before, readings in Eb; cbn in Eb; apply Z.ltb_ge in Eb; exact Eb).
    intros H. apply steady_before in H; [cbn in H; lia|]. do 2 apply steady_Add. exact Hst.
Qed.

(** * Properties *)

Lemma int_date o name k : (forall n t, o !! n = Some (JNum t) -> plain_date t) -> int_member o name k -> date_member o name k.
Proof.
  intros Hp (t & Ht & Hk & Hr). destruct (Hp _ _ Ht) as (H1 & H2 & H3). exists t. rewrite H3 in Hk. injection Hk as <-. auto 10.
Qed.

Lemma header_agrees SimpleFold raw kid : wt_header raw kid -> header_doc SimpleFold typWorkloadToken raw kid.
Proof.
  intros (o & Eo & Hc & Ha & Ht & Hk & Hm). exists o. split; [|auto].
  apply (object_agrees SimpleFold raw o _ Eo Hc headerMembers_unfolded). intros k v Hv.
  assert (Hin : k ∈ ["alg"; "typ"; "kid"]) by (apply Hc; eauto). rewrite !elem_of_cons, elem_of_nil in Hin.
  destruct Hin as [-> | [-> | [-> | []]]]; simplify_eq; exact I.
Qed.

Definition as_claims (issuer audience : string) (c : wt_claims) : WorkloadClaims :=
  mkWorkload issuer audience (t_sub c) (t_jti c) (t_iat c) (t_nbf c) (t_exp c).

Lemma claims_agree SimpleFold raw issuer audience c :
  matches issuerPattern issuer -> audience ∈ workloadAudiences -> (t_nbf c < t_exp c)%Z ->
  claims_doc raw issuer audience c -> workload_doc SimpleFold raw (as_claims issuer audience c).
Proof.
  intros Hi Ha Hlt (o & Eo & Hc & H1 & H2 & H3 & H4 & H5 & H6 & H7 & H8 & H9 & H10 & H11 & H12).
  assert (Na : audience <> "") by (intros ->; apply contains_spec in Ha; discriminate Ha).
  assert (Ni : issuer <> "") by (intros ->; apply matchb_spec in Hi; discriminate Hi).
  rewrite text_member_str in H1 by exact Na. rewrite text_member_str in H3 by exact Ni.
  destruct (object_agrees SimpleFold raw o _ Eo Hc claimMembers_unfolded) as [Hdoc Hp].
  { intros k v Hv. assert (Hin : k ∈ claimMembers) by (apply Hc; eauto). unfold claimMembers in Hin. rewrite !elem_of_cons, elem_of_nil in Hin.
    destruct H8 as (t1 & E1 & P1 & R1), H9 as (t2 & E2 & P2 & R2), H10 as (t3 & E3 & P3 & R3).
    repeat (destruct Hin as [-> | Hin]; [simplify_eq; first [exact I | unfold dated; eauto]|]). destruct Hin. }
  exists o. split; [exact Hdoc|]. split; [exact Hc|]. unfold string_member, lifetime. cbn.
  repeat (split; [first [assumption | split; [assumption | first [assumption | exact I]]]|]).
  repeat split; try (eapply int_date; eassumption); lia.
Qed.

Lemma seconds_below now n : (wall now < n * Second)%Z <-> (unix now < n)%Z.
Proof. unfold unix, Second. split; intros H; [apply Z.div_lt_upper_bound; lia|]. pose proof (Z.mul_div_le (wall now) 1000000000). pose proof (Z.mod_pos_bound (wall now) 1000000000). pose proof (Z.div_mod (wall now) 1000000000). lia. Qed.

(** checkToken accepts exactly the tokens of the contract inside their window: the canonical compact
    form, of at most 8192 bytes, of a header (EdDSA, workload+jwt, a key id) and the eight claims for
    this issuer and the requested audience, each member once, with a signature of 64 bytes; at a time
    from nbf on and before min(exp, sent + expires_in) - margin. The entry then holds that window, and
    its refresh point is never after its end. No token makes the check panic. *)
Theorem checkToken_iff cfg e now :
  (forall e', checkToken cfg (Some e) now = (None, Some e') <->
     exists kid c, contract_token (e_token e) (issuer cfg) (e_audience e) kid c /\ in_window cfg e c now /\ e' = windowed cfg e c) /\
  (forall e', checkToken cfg (Some e) now = (None, Some e') -> After (refreshAt e') (usableUntil e') = false) /\
  (forall x e', checkToken cfg (Some e) now = (Some x, e') -> x <> IndexPanic).
Proof.
  split; [apply checkToken_accepts|]. split; [|apply checkToken_no_panic].
  intros e' (kid & c & _ & _ & ->)%checkToken_accepts. cbn. destruct (After (Add (sent e) _) _) eqn:E; [|exact E].
  rewrite <-Before_After. apply Before_irrefl.
Qed.

Lemma checked_verifies SimpleFold ed cfg e now e' v :
  checkToken cfg (Some e) now = (None, Some e') ->
  matches issuerPattern (issuer cfg) -> e_audience e ∈ workloadAudiences -> (0 <= margin cfg)%Z -> steady (sent e) now -> sane v now ->
  Token.issuer v = issuer cfg -> Token.audience v = e_audience e ->
  exists kid c hr pr sp, parsed (kind := workload_kind SimpleFold) (e_token e) hr pr sp kid c /\
    forall key, trusted v kid key -> signed ed key hr pr sp -> WorkloadVerifier_Verify SimpleFold ed v (e_token e) now = Ok c.
Proof.
  intros H Hi Ha Hm Hst Hs Ei Ea. apply checkToken_accepts in H as (kid & c & (hr & pr & sig & Et & Hl & Hsig & Hh & Hc) & [Hb Hw] & _).
  apply (window_wall _ _ _ _ Hst Hm) in Hw. rewrite seconds_below in Hw.
  rewrite Before_wall in Hb by reflexivity. cbn in Hb. apply Z.ltb_ge in Hb.
  assert (Hnbf : (t_nbf c <= unix now)%Z) by (apply Z.nlt_ge; rewrite <-seconds_below; lia).
  assert (Hp : parsed (kind := workload_kind SimpleFold) (e_token e) hr pr (Base64.encode sig) kid (as_claims (issuer cfg) (e_audience e) c)).
  { split; [exact Et|]. split; [exact Hl|]. split; [apply Base64.encode_url|]. split.
    - apply (parse_header_iff SimpleFold typWorkloadToken), header_agrees, Hh.
    - apply workload_doc_iff, claims_agree; try assumption. lia. }
  exists kid, (as_claims (issuer cfg) (e_audience e) c), hr, pr, (Base64.encode sig). split; [exact Hp|]. intros key Htr Hsg.
  apply (Verify_accepts (kind := workload_kind SimpleFold) ed v _ _ _ Hs). exists hr, pr, (Base64.encode sig), kid, key.
  destruct Hs as [Hlee _]. cbn. repeat (split; [assumption || congruence|]). lia.
Qed.

(** C36: the client's check is as strict as the verifier. A token that checkToken accepts is, at the same
    instant, accepted by a WorkloadVerifier of the same issuer and audience whatever its leeway, if
    the verifier trusts the token's key id and the signature verifies under that key: the client never
    sends a token that such a verifier refuses for its form, its claims or its dates. The wall clock
    must not have gained on the monotonic clock since the request was sent. *)
Theorem checked_token_verifies SimpleFold ed cfg e now e' v :
  checkToken cfg (Some e) now = (None, Some e') ->
  matches issuerPattern (issuer cfg) -> e_audience e ∈ workloadAudiences -> (0 <= margin cfg)%Z -> steady (sent e) now -> sane v now ->
  Token.issuer v = issuer cfg -> Token.audience v = e_audience e ->
  exists kid c hr pr sp, parsed (kind := workload_kind SimpleFold) (e_token e) hr pr sp kid c /\
    forall key, trusted v kid key -> signed ed key hr pr sp -> WorkloadVerifier_Verify SimpleFold ed v (e_token e) now = Ok c.
Proof. apply checked_verifies. Qed.

(** ** A sample token *)

Definition wt_header_text : string := quotes "{'alg':'EdDSA','typ':'workload+jwt','kid':'k1'}".
Definition wt_claims_text : string := quotes
  "{'iss':'https://auth.example','aud':'dev-health-api','sub':'prn_1','principal_type':'workload','jti':'abcdefghijklmnopqrstuv','iat':1000,'nbf':1000,'exp':1300}".
Definition wt_token : string :=
  Prelude.join "." [Base64.encode wt_header_text; Base64.encode wt_claims_text; Base64.encode sample_signature].
Definition wt_config : config := mkConfig "https://auth.example" GoFloat.half (30 * Second)%Z Second (30 * Second)%Z.
Definition seconds (n : Z) : Time := at_ns (n * Second)%Z.
Definition wt_entry (sent : Time) : entry := mkEntry wt_token "dev-health-api" sent (300 * Second)%Z zero_time zero_time zero_time.
Definition wt_checked : entry :=
  mkEntry wt_token "dev-health-api" (seconds 1000) (300 * Second)%Z (seconds 1000) (seconds 1150) (seconds 1270).

Example wt_accepted :
  checkToken wt_config (Some (wt_entry (seconds 1000))) (seconds 1269) = (None, Some wt_checked) /\
  (checkToken wt_config (Some (wt_entry (seconds 1000))) (seconds 1270)).1 = Some (unavailable "token outside its usable window") /\
  (checkToken wt_config (Some (wt_entry (seconds 1000))) (seconds 999)).1 = Some errNotYetValid.
Proof. vm_compute. auto. Qed.

(** Where the wall clock gains on the monotonic one (a suspend, a step), the check passes a token
    that has expired on this host's clock. *)
Example suspended_host :
  (checkToken wt_config (Some (wt_entry (mkTime (1000 * Second) (Some 0%Z)))) (mkTime (5000 * Second) (Some (100 * Second)%Z))).1 = None /\
  unix (mkTime (5000 * Second) (Some (100 * Second)%Z)) = 5000%Z.
Proof. vm_compute. auto. Qed.

Lemma checked_token_verifies_witness :
  let v := mkVerifier "https://auth.example" "dev-health-api" sample_keys ∅ 0 in
  checkToken wt_config (Some (wt_entry (seconds 1000))) (seconds 1200) = (None, Some wt_checked) /\
  exists kid c hr pr sp, parsed (kind := workload_kind id) wt_token hr pr sp kid c.
Proof.
  intros v. assert (H : checkToken wt_config (Some (wt_entry (seconds 1000))) (seconds 1200) = (None, Some wt_checked)) by (vm_compute; reflexivity).
  split; [exact H|].
  destruct (checked_token_verifies id sample_ed25519 wt_config (wt_entry (seconds 1000)) (seconds 1200) wt_checked v H
    ltac:(apply matchb_spec; vm_compute; reflexivity) ltac:(apply contains_spec; vm_compute; reflexivity) ltac:(vm_compute; discriminate) I
    ltac:(unfold sane; vm_compute; repeat split; discriminate) eq_refl eq_refl) as (kid & c & hr & pr & sp & Hp & _).
  exists kid, c, hr, pr, sp. exact Hp.
Defined.

End WtTokenSpec.
