(* ===== verification/WtExchange.v ===== *)
(** One token exchange of src/workloadtoken (exchange.go: subject, form, answer; client.go: requestKey):
    what is sent, and which answers give a token.

    The secret file, the network and the clock are the argument [call]; mime.ParseMediaType and the
    case-folding table are arguments. *)
From stdpp Require Import sorting.
From S2P Require Import Prelude Utf8 Json JsonDecoder Decimal GoTime GoStrings Base64 AuthJson AuthJwks AuthReview WtObject WtToken WtTokenSpec.

Module WtExchange.
Import Utf8 Json GoTime GoStrings AuthJson WtToken.

Definition GrantTypeTokenExchange : string := "urn:ietf:params:oauth:grant-type:token-exchange".
Definition TokenTypeJWT : string := "urn:ietf:params:oauth:token-type:jwt".
Definition TokenTypeWorkloadBootstrap : string := "urn:dev-health:params:oauth:token-type:workload-bootstrap".
Definition maxSubjectBytes : nat := 4096.
Definition bootstrapValueBytes : nat := String.length BootstrapPrefix + 43.
Definition maxAnswerBytes : nat := 16384.
Definition maxAudienceBytes : nat := 64.
Definition maxScopeActions : nat := 64.
Definition maxActionBytes : nat := 128.

(** ** What is asked for *)

(** The runes of a string, for i, r := range s. *)
Fixpoint range_runes (fuel : nat) (s : string) : list N :=
  match fuel, s with
  | S fuel, String _ _ => let '(r, w) := DecodeRune s in r :: range_runes fuel (drop w s)
  | _, _ => []
  end.
Definition printable (value : string) : bool :=
  forallb (fun r => negb ((r <=? 32)%N || (127 <=? r)%N)) (range_runes (String.length value) value).

(** slices.Sort and slices.Compact *)
Definition Sort (l : list string) : list string := merge_sort String.le l.
Fixpoint Compact (l : list string) : list string :=
  match l with
  | x :: (y :: _) as r => if String.eqb x y then Compact r else x :: Compact r
  | l => l
  end.

Inductive request_error := BadAudience | TooManyActions | BadAction.

Definition requestKey (audience : string) (scope : list string) : result request_error (string * list string) :=
  if String.eqb audience "" || (maxAudienceBytes <? String.length audience) || negb (printable audience) then Err BadAudience
  else if maxScopeActions <? length scope then Err TooManyActions
  else if negb (forallb (fun action => negb (String.eqb action "" || (maxActionBytes <? String.length action) || negb (printable action))) scope)
  then Err BadAction
  else let actions := Compact (Sort scope) in Ok (audience +:+ " " +:+ Prelude.join " " actions, actions).

(** url.Values.Encode: the keys in order, each name and value escaped. *)
Definition hexDigit (n : N) : ascii := if (n <? 10)%N then chr (48 + n) else chr (55 + n).
Definition unreserved (c : ascii) : bool :=
  in_range "A" "Z" c || in_range "a" "z" c || in_range "0" "9" c || Ascii.eqb c "-" || Ascii.eqb c "_" || Ascii.eqb c "." || Ascii.eqb c "~".
Fixpoint QueryEscape (s : string) : string :=
  match s with
  | EmptyString => EmptyString
  | String c r =>
      if unreserved c then String c (QueryEscape r)
      else if Ascii.eqb c " " then String "+" (QueryEscape r)
      else String "%" (String (hexDigit (code c / 16)) (String (hexDigit (code c mod 16)) (QueryEscape r)))
  end.
Definition pair_text (kv : string * string) : string := QueryEscape kv.1 +:+ "=" +:+ QueryEscape kv.2.
Definition Encode (form : gmap string string) : string :=
  Prelude.join "&" (map (fun k => pair_text (k, default EmptyString (form !! k))) (Sort (map_to_list form).*1)).

Definition exchange_form (subject subjectType audience : string) (actions : list string) : gmap string string :=
  let form := <["grant_type" := GrantTypeTokenExchange]> (<["subject_token" := subject]> (<["subject_token_type" := subjectType]> {["audience" := audience]})) in
  match actions with [] => form | _ => <["scope" := Prelude.join " " actions]> form end.

(** ** The subject *)

Inductive subjectKind := subjectNone | subjectKubernetes | subjectBootstrap.
Record Subject := mkSubject { kind : subjectKind; path : string }.

(** What readSubjectFile meets at the path: opened, its mode and owner, whether the mount is read-only,
    whether the reader fails, and the bytes. [owner] is None where the system does not tell it. *)
Record secret_file := mkFile {
  opened : bool; is_regular : option bool; perm : N; owners_reported : bool; owner : option Z; process_uid : Z;
  read_only_mount : bool; read_fails : bool; content : string }.

Definition TrimSuffixNewline (s : string) : string :=
  match rev (chars s) with c :: r => if Ascii.eqb c (chr 10) then of_chars (rev r) else s | [] => s end.

Definition readSubjectFile (f : secret_file) (maxBytes : nat) : result wt_error string :=
  if negb (opened f) then Err (ErrSubjectUnreadable "open")
  else if negb (default false (is_regular f)) then Err (ErrSubjectUnreadable "not a regular file")
  else if negb (N.land (perm f) 18 =? 0)%N then Err (ErrSubjectUnreadable "writable by group or other")
  else if owners_reported f
          && match owner f with Some uid => negb (uid =? process_uid f)%Z && negb (uid =? 0)%Z | None => true end
          && negb (read_only_mount f) then Err (ErrSubjectUnreadable "owned by another user on a writable mount")
  else if read_fails f then Err (ErrSubjectUnreadable "read")
  else let value := TrimSuffixNewline (take (maxBytes + 2) (content f)) in
       if String.eqb value "" || (maxBytes <? String.length value) then Err (ErrSubjectUnreadable "size") else Ok value.

Definition read (s : Subject) (files : string -> secret_file) : result wt_error (string * string) :=
  match kind s with
  | subjectKubernetes =>
      try! value := readSubjectFile (files (path s)) maxSubjectBytes in
      if negb (compactJWS value) then Err (ErrSubjectUnreadable "shape") else Ok (value, TokenTypeJWT)
  | subjectBootstrap =>
      try! value := readSubjectFile (files (path s)) bootstrapValueBytes in
      if negb (canonicalBootstrap value) then Err (ErrSubjectUnreadable "shape") else Ok (value, TokenTypeWorkloadBootstrap)
  | subjectNone => Err (ErrSubjectUnreadable "")
  end.

(** ** The answer *)

Section Answer.
Variable SimpleFold : N -> N.
Variable ParseMediaType : string -> option string.

Definition isJSON (contentType : string) : bool :=
  match ParseMediaType contentType with Some mediaType => String.eqb mediaType "application/json" | None => false end.

Definition refusal (contentType body : string) : wt_error :=
  if negb (isJSON contentType) then unavailable "400 without a JSON answer"
  else match match parse_document false body with
             | Some v => Review.bind_struct SimpleFold (fun _ v s => Jwks.bind_string v s) ["error"] v EmptyString
             | None => None
             end with
  | None => unavailable "400 with a malformed answer"
  | Some error =>
      if String.eqb error "invalid_grant" then ErrExchangeRefused
      else if String.eqb error "invalid_request" then ErrExchangeInvalidRequest
      else unavailable "400 with an unknown error code"
  end.

(** The range over a map of three targets: [order] is the order it takes. *)
Fixpoint fill (members : gmap string json) (order : list string) (targets : gmap string string) : result wt_error (gmap string string) :=
  match order with
  | [] => Ok targets
  | name :: order =>
      match match members !! name with Some v => text_of v | None => None end with
      | None => Err (unavailable ("answer lacks " +:+ name))
      | Some s => fill members order (<[name := s]> targets)
      end
  end.

Definition parseAnswer (order : list string) (contentType body : string) : result wt_error (string * Duration) :=
  if negb (isJSON contentType) then Err (unavailable "answer is not JSON")
  else match parse_document false body with
  | Some (JObj m) =>
      let members := object_of m in
      try! targets := fill members order ∅ in
      let target name := default EmptyString (targets !! name) in
      if negb (EqualFold SimpleFold (target "token_type") "Bearer") then Err (unavailable "token_type is not Bearer")
      else if negb (String.eqb (target "issued_token_type") TokenTypeJWT) then Err (unavailable "issued_token_type is not a JWT")
      else match members !! "expires_in" with
      | None => Err (unavailable "answer lacks expires_in")
      | Some raw =>
          match int_of raw with
          | None => Err (unavailable "expires_in is not an integer in 1..300")
          | Some seconds =>
              if (seconds <? 1)%Z || (MaxLifetime / Second <? seconds)%Z then Err (unavailable "expires_in is not an integer in 1..300")
              else Ok (target "access_token", (seconds * Second)%Z)
          end
      end
  | _ => Err (unavailable "malformed answer")
  end.

(** ** One exchange *)

(** What http.Client.Do gives: an error, which may be a timeout, or a status, a content type and the
    body's bytes, which may end in an error. *)
Inductive http_answer :=
| DoError (timeout : bool)
| Answer (status : Z) (contentType body : string) (read_error : bool).

Record call := mkCall {
  files : string -> secret_file; request_made : bool; http : string -> http_answer; start : Time; order : list string }.

(** The entry of the answer, unchecked. *)
Definition exchange (s : Subject) (audience : string) (actions : list string) (k : call) : result wt_error entry :=
  try! subject := read s (files k) in
  if negb (request_made k) then Err (unavailable "request")
  else match http k (Encode (exchange_form subject.1 subject.2 audience actions)) with
  | DoError timeout => Err (unavailable (if timeout : bool then "timeout" else "transport"))
  | Answer status contentType body read_error =>
      if maxAnswerBytes <? String.length body then Err (unavailable "answer too large")
      else if read_error then Err (unavailable "read")
      else if (status =? 200)%Z then
        try! answer := parseAnswer (order k) contentType body in
        Ok (mkEntry answer.1 audience (start k) answer.2 zero_time zero_time zero_time)
      else if (status =? 400)%Z then Err (refusal contentType body)
      else Err (unavailable ("status " +:+ pretty status))
  end.
End Answer.


(** * Keys *)

Lemma decode_high c s : (128 <= code c)%N -> (128 <= (DecodeRune (String c s)).1)%N.
Proof.
  intros Hc. cbn [DecodeRune]. rewrite (proj2 (N.ltb_ge _ _) Hc). unfold low6, RuneError.
  repeat case_match; cbn [fst]; simplify_eq; try lia;
    repeat match goal with
    | H : _ && _ = true |- _ => apply andb_true_iff in H; destruct H
    | H : between _ _ _ = true |- _ => apply between_code in H
    | H : cont _ = true |- _ => apply cont_code in H
    | H : (code c =? _)%N = true |- _ => apply N.eqb_eq in H
    | H : (code c =? _)%N = false |- _ => apply N.eqb_neq in H
    end; lia.
Qed.

(** The runes are graphic ASCII exactly when the bytes are. *)
Lemma printable_iff s : printable s = true <-> Forall (fun c => graphic c = true) (chars s).
Proof.
  unfold printable. set (n := String.length s). assert (Hn : String.length s <= n) by lia. clearbody n. revert n Hn.
  induction s as [|c s IH]; intros n Hn; [destruct n; (split; [intros _; constructor | reflexivity])|]. destruct n as [|n]; [simpl in Hn; lia|].
  cbn [range_runes chars]. rewrite Forall_cons.
  assert (Hg : graphic c = true <-> (32 < code c < 127)%N).
  { unfold graphic. rewrite Decimal.in_range_code. change (code "!") with 33%N. change (code "~") with 126%N. lia. }
  destruct (N.lt_ge_cases (code c) 128) as [Ha|Ha].
  - rewrite decode_ascii by exact Ha. cbn [forallb drop]. rewrite andb_true_iff, negb_true_iff, orb_false_iff, N.leb_gt, N.leb_gt, Hg.
    rewrite (IH n) by (simpl in Hn; lia). tauto.
  - pose proof (decode_high c s Ha) as Hr. destruct (DecodeRune (String c s)) as [r w]. cbn [fst] in Hr. cbn [forallb].
    rewrite andb_true_iff, negb_true_iff, orb_false_iff, !N.leb_gt, Hg. lia.
Qed.

Lemma printable_free s : printable s = true -> free_of " " s.
Proof. intros H%printable_iff Hin. rewrite Forall_forall in H. apply H in Hin. discriminate Hin. Qed.

Lemma Compact_elem l x : x ∈ Compact l <-> x ∈ l.
Proof.
  induction l as [|a [|b l] IH]; [reflexivity|reflexivity|]. cbn [Compact] in *. destruct (String.eqb_spec a b) as [->|].
  - rewrite IH. rewrite !elem_of_cons. tauto.
  - rewrite !elem_of_cons, IH, elem_of_cons. reflexivity.
Qed.

Lemma Compact_sorted l : StronglySorted String.le l -> StronglySorted String.le (Compact l) /\ NoDup (Compact l).
Proof.
  induction l as [|a [|b l] IH]; intros H; [split; constructor|split; [exact H | apply NoDup_singleton]|].
  inversion_clear H as [|? ? Hs Ha]. destruct (IH Hs) as [IH1 IH2]. cbn [Compact]. destruct (String.eqb_spec a b) as [->|Hne]; [auto|].
  assert (Hall : forall x, x ∈ Compact (b :: l) -> String.le a x /\ x <> a).
  { intros x Hx. apply (proj1 (Compact_elem _ _)) in Hx. rewrite Forall_forall in Ha. split; [apply Ha, Hx|]. intros ->. inversion_clear Hs as [|? ? _ Hb].
    apply elem_of_cons in Hx as [->|Hx]; [congruence|]. rewrite Forall_forall in Hb. apply Hne.
    apply (anti_symm String.le); [apply Ha; left | apply Hb; exact Hx]. }
  split; constructor; auto; [apply Forall_forall; intros x Hx; apply Hall, Hx | intros Hin; apply Hall in Hin as [_ Hx]; congruence].
Qed.

(** The actions sent: those asked for, in order, each once. *)
Definition actions_of (scope : list string) : list string := Compact (Sort scope).

Lemma actions_spec scope : StronglySorted String.le (actions_of scope) /\ NoDup (actions_of scope) /\ forall x, x ∈ actions_of scope <-> x ∈ scope.
Proof.
  pose proof (StronglySorted_merge_sort String.le scope) as Hs. destruct (Compact_sorted _ Hs) as [H1 H2]. split; [exact H1|]. split; [exact H2|].
  intros x. unfold actions_of. rewrite Compact_elem. unfold Sort. rewrite merge_sort_Permutation. reflexivity.
Qed.

Lemma actions_elem scope x : x ∈ actions_of scope -> x ∈ scope.
Proof. apply actions_spec. Qed.

Lemma actions_equal s t : actions_of s = actions_of t <-> forall x, x ∈ s <-> x ∈ t.
Proof.
  destruct (actions_spec s) as (S1 & N1 & E1), (actions_spec t) as (S2 & N2 & E2). split.
  - intros E x. rewrite <-E1, <-E2, E. reflexivity.
  - intros H. apply (StronglySorted_unique String.le); [exact S1 | exact S2|]. apply NoDup_Permutation; [exact N1 | exact N2|].
    intros x. rewrite E1, E2. apply H.
Qed.

Definition good_action (a : string) : Prop := a <> "" /\ String.length a <= maxActionBytes /\ printable a = true.
Definition good_request (audience : string) (scope : list string) : Prop :=
  audience <> "" /\ String.length audience <= maxAudienceBytes /\ printable audience = true /\ length scope <= maxScopeActions /\
  Forall good_action scope.

Lemma requestKey_iff audience scope key actions : requestKey audience scope = Ok (key, actions) <->
  good_request audience scope /\ actions = actions_of scope /\ key = audience +:+ " " +:+ Prelude.join " " actions.
Proof.
  unfold requestKey, good_request. split.
  - intros H. destruct (_ || _) eqn:E1 in H; [discriminate|]. destruct (_ <? _) eqn:E2 in H; [discriminate|].
    destruct (forallb _ scope) eqn:E3 in H; [|discriminate]. injection H as <- <-. simp_bool. split; [|auto].
    repeat split; try assumption. rewrite forallb_forall in E3. apply Forall_forall. intros x Hx.
    apply list_elem_of_In, E3 in Hx. simp_bool. repeat split; assumption.
  - intros ((H1 & H2 & H3 & H4 & H5) & -> & ->). rewrite (proj2 (String.eqb_neq _ _) H1), (proj2 (Nat.ltb_ge _ _) H2), H3, (proj2 (Nat.ltb_ge _ _) H4).
    cbn [negb orb]. rewrite (proj2 (forallb_forall _ _)); [reflexivity|]. intros x Hx. apply list_elem_of_In in Hx.
    rewrite Forall_forall in H5. destruct (H5 x Hx) as (A1 & A2 & A3).
    rewrite (proj2 (String.eqb_neq _ _) A1), (proj2 (Nat.ltb_ge _ _) A2), A3. reflexivity.
Qed.

Lemma key_parts audience scope : good_request audience scope ->
  Prelude.split " " (audience +:+ " " +:+ Prelude.join " " (actions_of scope)) =
  audience :: match actions_of scope with [] => [EmptyString] | l => l end.
Proof.
  intros (_ & _ & Hp & _ & Hs). change (" " +:+ ?x) with (String " " x). rewrite split_app_sep by (apply printable_free; exact Hp). f_equal.
  destruct (actions_of scope) as [|a l] eqn:E; [reflexivity|]. rewrite <-E. apply split_join; [rewrite E; discriminate|].
  apply Forall_forall. intros x Hx. apply actions_elem in Hx. rewrite Forall_forall in Hs. apply printable_free, (Hs x Hx).
Qed.

Lemma key_inj audience scope audience' scope' key actions actions' :
  requestKey audience scope = Ok (key, actions) -> requestKey audience' scope' = Ok (key, actions') -> audience = audience' /\ actions = actions'.
Proof.
  intros (G & -> & ->)%requestKey_iff (G' & -> & E)%requestKey_iff. pose proof (key_parts _ _ G) as K. rewrite E, (key_parts _ _ G') in K.
  assert (Hn : forall s, Forall good_action s -> actions_of s <> [EmptyString]).
  { intros s Hs He. assert (Hin : EmptyString ∈ actions_of s) by (rewrite He; left). apply actions_elem in Hin. rewrite Forall_forall in Hs.
    destruct (Hs _ Hin) as [Hne _]. congruence. }
  injection K as <- K. split; [reflexivity|]. destruct G as (_ & _ & _ & _ & G), G' as (_ & _ & _ & _ & G').
  pose proof (Hn scope G) as H1. pose proof (Hn scope' G') as H2.
  destruct (actions_of scope) as [|a l], (actions_of scope') as [|a' l']; congruence.
Qed.

(** A cache slot is one question. Two requests that pass the checks have the same slot exactly when
    they name the same audience and the same set of actions, whatever the order and repetitions; and
    what is sent is that set, sorted, each action once. *)
Theorem requestKey_separates audience scope key actions audience' scope' key' actions' :
  requestKey audience scope = Ok (key, actions) -> requestKey audience' scope' = Ok (key', actions') ->
  (key = key' <-> audience = audience' /\ forall x, x ∈ scope <-> x ∈ scope') /\
  StronglySorted String.le actions /\ NoDup actions /\ forall x, x ∈ actions <-> x ∈ scope.
Proof.
  intros H H'. split.
  - split.
    + intros <-. destruct (key_inj _ _ _ _ _ _ _ H H') as [Ea Eb]. split; [exact Ea|]. apply requestKey_iff in H as (_ & -> & _), H' as (_ & -> & _).
      apply actions_equal. exact Eb.
    + intros [<- Hs]. apply requestKey_iff in H as (_ & -> & ->), H' as (_ & -> & ->). apply actions_equal in Hs. rewrite Hs. reflexivity.
  - apply requestKey_iff in H as (_ & -> & _). apply actions_spec.
Qed.

Lemma requestKey_separates_witness :
  requestKey "dev-health-api" ["b"; "a"; "b"] = Ok ("dev-health-api a b", ["a"; "b"]) /\ NoDup ["a"; "b"].
Proof.
  assert (H : requestKey "dev-health-api" ["b"; "a"; "b"] = Ok ("dev-health-api a b", ["a"; "b"])) by (vm_compute; reflexivity).
  split; [exact H|]. apply (requestKey_separates _ _ _ _ _ _ _ _ H H).
Defined.

(** * Answers *)

Section AnswerSpec.
Variable SimpleFold : N -> N.
Variable ParseMediaType : string -> option string.
Notation text_member := WtTokenSpec.text_member.
Notation parseAnswer := (parseAnswer SimpleFold ParseMediaType).
Notation exchange := (exchange SimpleFold ParseMediaType).

Definition targets : list string := ["access_token"; "token_type"; "issued_token_type"].

Lemma fill_step (members : gmap string json) name s : text_member members name s <->
  match members !! name with Some v => text_of v | None => None end = Some s.
Proof. unfold WtTokenSpec.text_member. destruct (members !! name); naive_solver. Qed.

Lemma fill_ok members order t0 :
  (forall t, fill members order t0 = Ok t -> forall name, (name ∈ order -> exists s, text_member members name s /\ t !! name = Some s) /\ (name ∉ order -> t !! name = t0 !! name)) /\
  ((forall name, name ∈ order -> exists s, text_member members name s) -> exists t, fill members order t0 = Ok t).
Proof.
  revert t0. induction order as [|n order IH]; intros t0; cbn [fill].
  - split; [intros t [= <-] name; split; [intros H; inversion H | reflexivity] | eauto].
  - split.
    + intros t H name. destruct (match members !! n with Some v => text_of v | None => None end) as [s|] eqn:E; [|discriminate].
      apply fill_step in E. destruct (IH (<[n := s]> t0)) as [IH1 _]. destruct (IH1 t H name) as [H1 H2].
      destruct (decide (name ∈ order)) as [Hin|Hin].
      * split; [auto|]. intros Hn. exfalso. apply Hn. right. exact Hin.
      * rewrite elem_of_cons. destruct (decide (name = n)) as [->|Hne].
        -- split; [|intros Hn; exfalso; auto]. intros _. exists s. split; [exact E|]. rewrite H2 by exact Hin. apply lookup_insert_eq.
        -- split; [intros [?|?]; contradiction|]. intros _. rewrite H2 by exact Hin. apply lookup_insert_ne. congruence.
    + intros H. destruct (H n ltac:(left)) as (s & Hs). apply fill_step in Hs as ->. apply IH. intros name Hn. apply H. right. exact Hn.
Qed.

(** The answer of a good exchange. *)
Definition answer_doc (contentType body token : string) (seconds : Z) : Prop :=
  isJSON ParseMediaType contentType = true /\ exists m, document false body (JObj m) /\
    text_member (object_of m) "access_token" token /\
    (exists tokenType, text_member (object_of m) "token_type" tokenType /\ EqualFold SimpleFold tokenType "Bearer" = true) /\
    object_of m !! "issued_token_type" = Some (JStr TokenTypeJWT) /\
    (exists t, object_of m !! "expires_in" = Some (JNum t) /\ Review.ParseInt t = Some seconds) /\ (1 <= seconds <= 300)%Z.

Lemma text_member_fun (o : gmap string json) name s s' : text_member o name s -> text_member o name s' -> s = s'.
Proof. intros (v & Hv & E) (v' & Hv' & E'). congruence. Qed.

Lemma parseAnswer_iff order contentType body token d : order ≡ₚ targets ->
  parseAnswer order contentType body = Ok (token, d) <-> exists seconds, d = (seconds * Second)%Z /\ answer_doc contentType body token seconds.
Proof.
  intros Ho. assert (Hin : forall n, n ∈ order <-> n ∈ targets) by (intros n; rewrite Ho; reflexivity).
  unfold WtExchange.parseAnswer, answer_doc. change (MaxLifetime / Second)%Z with 300%Z.
  destruct (isJSON ParseMediaType contentType); cbn [negb]; [|naive_solver].
  destruct (parse_document false body) as [v|] eqn:Ep.
  2: { split; [discriminate|]. intros (n & _ & _ & m & Hm & _). apply parse_iff in Hm. congruence. }
  assert (Hv : forall m, v <> JObj m -> document false body (JObj m) -> False).
  { intros m Hne Hm. apply parse_iff in Hm. congruence. }
  destruct v as [| | | | |m]; try (split; [discriminate | intros (n & _ & _ & m & Hm & _); exfalso; eapply Hv; [|exact Hm]; discriminate]).
  apply parse_iff in Ep. destruct (fill_ok (object_of m) order ∅) as [F1 F2]. split.
  - intros H. apply rbind_ok in H as (ts & Hf & H). destruct (EqualFold _ _ _) eqn:Ee in H; [|discriminate]. cbn [negb] in H.
    destruct (String.eqb_spec (default EmptyString (ts !! "issued_token_type")) TokenTypeJWT) as [Ei|]; cbn [negb] in H; [|discriminate].
    destruct (object_of m !! "expires_in") as [raw|] eqn:Er; [|discriminate]. destruct (int_of raw) as [n|] eqn:En; [|discriminate].
    destruct (_ || _) eqn:Eb in H; [discriminate|]. injection H as <- <-. simp_bool.
    destruct (proj1 (F1 ts Hf "access_token") ltac:(apply Hin; set_solver)) as (s1 & M1 & L1).
    destruct (proj1 (F1 ts Hf "token_type") ltac:(apply Hin; set_solver)) as (s2 & M2 & L2).
    destruct (proj1 (F1 ts Hf "issued_token_type") ltac:(apply Hin; set_solver)) as (s3 & M3 & L3).
    rewrite L1. rewrite L2 in Ee. rewrite L3 in Ei. cbn in Ei. subst s3. exists n. split; [reflexivity|]. split; [reflexivity|]. exists m.
    apply WtTokenSpec.text_member_str in M3; [|discriminate]. destruct raw as [| |t| | |]; try discriminate En. eauto 15.
  - intros (n & -> & _ & m' & Hm & M1 & (tt' & M2 & Ee) & M3 & (t & Er & En) & Hn). pose proof (document_unique _ _ _ _ Hm Ep) as E. injection E as ->.
    destruct F2 as [ts Hf].
    { intros name Hname. apply Hin in Hname. unfold targets in Hname. rewrite !elem_of_cons, elem_of_nil in Hname.
      destruct Hname as [-> | [-> | [-> | []]]]; [eauto | eauto |]. exists TokenTypeJWT. apply WtTokenSpec.text_member_str; [discriminate | exact M3]. }
    rewrite Hf. cbn [rbind].
    destruct (proj1 (F1 ts Hf "access_token") ltac:(apply Hin; set_solver)) as (s1 & N1 & L1).
    destruct (proj1 (F1 ts Hf "token_type") ltac:(apply Hin; set_solver)) as (s2 & N2 & L2).
    destruct (proj1 (F1 ts Hf "issued_token_type") ltac:(apply Hin; set_solver)) as (s3 & N3 & L3).
    apply WtTokenSpec.text_member_str in M3; [|discriminate].
    rewrite (text_member_fun _ _ _ _ N1 M1) in L1. rewrite (text_member_fun _ _ _ _ N2 M2) in L2. rewrite (text_member_fun _ _ _ _ N3 M3) in L3.
    rewrite L1, L2, L3. cbn [from_option id]. rewrite Ee, String.eqb_refl, Er. cbn [negb int_of]. rewrite En.
    replace ((n <? 1)%Z || (300 <? n)%Z) with false; [reflexivity|]. symmetry. apply orb_false_iff. rewrite !Z.ltb_ge. lia.
Qed.

(** ** The exchange *)

Definition asked (s : Subject) (audience : string) (actions : list string) (k : call) (a : http_answer) : Prop :=
  exists subject, read s (files k) = Ok subject /\ request_made k = true /\
    a = http k (Encode (exchange_form subject.1 subject.2 audience actions)).

Lemma exchange_ok s audience actions k e : order k ≡ₚ targets ->
  exchange s audience actions k = Ok e <->
  exists contentType body token seconds, asked s audience actions k (Answer 200 contentType body false) /\
    String.length body <= maxAnswerBytes /\ answer_doc contentType body token seconds /\
    e = mkEntry token audience (start k) (seconds * Second)%Z zero_time zero_time zero_time.
Proof.
  intros Ho. unfold WtExchange.exchange, asked. rewrite rbind_ok. split.
  - intros (subject & Hs & H). destruct (request_made k); cbn [negb] in H; [|discriminate].
    destruct (http k _) as [timeout|status ct body err] eqn:Eh; [destruct timeout; discriminate H|].
    destruct (Nat.ltb_spec maxAnswerBytes (String.length body)); [discriminate|]. destruct err; [discriminate|].
    destruct (Z.eqb_spec status 200) as [->|]; [|destruct (status =? 400)%Z; discriminate H].
    apply rbind_ok in H as ([token d] & Ha & [= <-]). apply parseAnswer_iff in Ha as (n & -> & Ha); [|exact Ho].
    exists ct, body, token, n. split; [exists subject; rewrite Eh; auto|]. auto.
  - intros (ct & body & token & n & (subject & Hs & Hr & Eh) & Hl & Ha & ->). exists subject. split; [exact Hs|]. rewrite Hr, <-Eh. cbn [negb].
    rewrite (proj2 (Nat.ltb_ge _ _) Hl). cbn. rewrite (proj2 (parseAnswer_iff (order k) ct body token (n * Second)%Z Ho)) by eauto. reflexivity.
Qed.

Lemma fill_err members ord t0 x : fill members ord t0 = Err x -> exists c, x = unavailable c.
Proof.
  revert t0. induction ord as [|n ord IH]; intros t0; cbn [fill]; [discriminate|].
  destruct (match members !! n with Some v => text_of v | None => None end); [apply IH | intros [= <-]; eauto].
Qed.

Lemma parseAnswer_err ord ct body x : parseAnswer ord ct body = Err x -> exists c, x = unavailable c.
Proof.
  unfold WtExchange.parseAnswer. intros H. destruct (isJSON _ ct); cbn [negb] in H; [|injection H as <-; eauto].
  destruct (parse_document false body) as [[| | | | |m]|]; try (injection H as <-; eauto).
  destruct (fill (object_of m) ord ∅) as [ts|y] eqn:Ef; cbn [rbind] in H; [|injection H as <-; eapply fill_err; exact Ef].
  repeat case_match; simplify_eq; eauto.
Qed.

Lemma readSubjectFile_err f n x : readSubjectFile f n = Err x -> exists c, x = ErrSubjectUnreadable c.
Proof. unfold readSubjectFile. intros H. repeat case_match; simplify_eq; eauto. Qed.

Lemma read_err s fs x : read s fs = Err x -> exists c, x = ErrSubjectUnreadable c.
Proof.
  unfold read. destruct (kind s); [intros [= <-]; eauto| |].
  all: destruct (readSubjectFile _ _) as [y|y] eqn:E; cbn [rbind]; [|intros [= <-]; eapply readSubjectFile_err; exact E].
  all: destruct (negb _); intros [= <-]; eauto.
Qed.

Lemma exchange_refused s audience actions k :
  exchange s audience actions k = Err ErrExchangeRefused <->
  exists contentType body v, asked s audience actions k (Answer 400 contentType body false) /\
    String.length body <= maxAnswerBytes /\ isJSON ParseMediaType contentType = true /\ document false body v /\
    Review.bind_struct SimpleFold (fun _ v s => Jwks.bind_string v s) ["error"] v EmptyString = Some "invalid_grant".
Proof.
  unfold WtExchange.exchange, asked. split.
  - destruct (read s (files k)) as [subject|y] eqn:Er; cbn [rbind]; [|intros [= ->]; apply read_err in Er as (c & ?); discriminate].
    destruct (request_made k); cbn [negb]; [|discriminate]. destruct (http k _) as [timeout|status ct body err] eqn:Eh; [destruct timeout; discriminate|].
    destruct (Nat.ltb_spec maxAnswerBytes (String.length body)); [discriminate|]. destruct err; [discriminate|].
    destruct (Z.eqb_spec status 200) as [->|].
    { destruct (parseAnswer (order k) ct body) as [[t d]|y] eqn:Ea; cbn [rbind]; [discriminate|]. intros [= ->]. apply parseAnswer_err in Ea as (c & ?). discriminate. }
    destruct (Z.eqb_spec status 400) as [->|]; [|discriminate]. unfold refusal. destruct (isJSON _ ct) eqn:Ej; cbn [negb]; [|discriminate].
    destruct (parse_document false body) as [v|] eqn:Ep; [|discriminate]. apply parse_iff in Ep.
    destruct (Review.bind_struct _ _ _ _ _) as [x|] eqn:Eb; [|discriminate].
    destruct (String.eqb_spec x "invalid_grant") as [->|]; [|destruct (String.eqb x "invalid_request"); discriminate].
    intros _. exists ct, body, v. split; [exists subject; rewrite Eh; auto | auto].
  - intros (ct & body & v & (subject & Hs & Hr & Eh) & Hl & Hj & Hd & Hb). rewrite Hs. cbn [rbind]. rewrite Hr, <-Eh. cbn [negb].
    rewrite (proj2 (Nat.ltb_ge _ _) Hl). cbn. unfold refusal. rewrite Hj. cbn [negb]. apply parse_iff in Hd. rewrite Hd, Hb. reflexivity.
Qed.

(** An exchange gives an entry exactly when the deployment's one subject was read from its file and
    the endpoint answered 200 with a whole JSON body of at most 16 KiB holding an access token, the
    type Bearer in any case, the issued type of a JWT and an integer expires_in in 1..300; the entry
    carries that token for the requested audience, a lifetime of expires_in seconds and the clock
    reading taken before the request was sent. The subject counts as refused only on a 400 answer in
    JSON whose error is invalid_grant. Nothing depends on the order a map is ranged in. *)
Theorem exchange_exact s audience actions k :
  order k ≡ₚ targets ->
  (forall e, exchange s audience actions k = Ok e <->
     exists contentType body token seconds, asked s audience actions k (Answer 200 contentType body false) /\
       String.length body <= maxAnswerBytes /\ answer_doc contentType body token seconds /\
       e = mkEntry token audience (start k) (seconds * Second)%Z zero_time zero_time zero_time) /\
  (exchange s audience actions k = Err ErrExchangeRefused <->
     exists contentType body v, asked s audience actions k (Answer 400 contentType body false) /\
       String.length body <= maxAnswerBytes /\ isJSON ParseMediaType contentType = true /\ document false body v /\
       Review.bind_struct SimpleFold (fun _ v s => Jwks.bind_string v s) ["error"] v EmptyString = Some "invalid_grant").
Proof.
  intros Ho. split; [intros e; apply exchange_ok; exact Ho|]. apply exchange_refused.
Qed.
End AnswerSpec.

End WtExchange.
