(* ===== verification/WtClient.v ===== *)
(** The client of src/workloadtoken/client.go: New with its checks (config.go), the slots under c.mu,
    Token and Invalidate.

    Each stretch of code under c.mu is a function on [state]. What other goroutines do between the
    stretches of one call is a list of [event]s, given by the call's [round]s together with the clock's
    readings and what the exchange met. A slot is never removed from the map, so the slot a call holds
    is the one the map has at its key. *)
From S2P Require Import Prelude Regex Json GoTime GoStrings PepClient AuthToken AuthTokenSpec WtObject WtToken WtTokenSpec WtExchange.

Module WtClient.
Import GoTime WtToken WtExchange.

(** ** Configuration *)

Inductive ConfigField :=
| FieldSubject | FieldTransport | FieldIssuer | FieldExchangeURL | FieldTimeout | FieldRefreshFraction
| FieldSafetyMargin | FieldBackoffFloor | FieldBackoffCeiling.

(** What CheckTransport looks at: nil, or an interface of a nil value; http.DefaultTransport itself; an
    *http.Transport whose Proxy is set. *)
Record transport := mkTransport { is_nil : bool; is_default : bool; has_proxy : bool }.

Definition CheckTransport (rt : transport) : bool := negb (is_nil rt) && negb (is_default rt) && negb (has_proxy rt).

Record Config := mkCfg {
  ExchangeURL : string; AllowPlainHTTP : bool; c_Subject : Subject; c_Transport : transport;
  c_Timeout : Duration; RefreshFraction : GoFloat.float64; SafetyMargin : Duration;
  BackoffFloor : Duration; BackoffCeiling : Duration; c_Issuer : string }.

Definition ExchangePath : string := "/internal/v1/token/exchange".
Definition DefaultTimeout : Duration := (5 * Second)%Z.
Definition MaxTimeout : Duration := (30 * Second)%Z.
Definition minTimeout : Duration := 10000000%Z.
Definition DefaultSafetyMargin : Duration := (30 * Second)%Z.
Definition MaxSafetyMargin : Duration := (120 * Second)%Z.
Definition DefaultBackoffFloor : Duration := Second.
Definition DefaultBackoffCeiling : Duration := (30 * Second)%Z.
Definition maxBackoff : Duration := (5 * Minute)%Z.

(** baseURL; [parse] is url.Parse. *)
Definition baseURL (parse : string -> option Client.URL) (raw : string) (allowPlainHTTP : bool) : option Client.URL :=
  match parse raw with
  | None => None
  | Some u =>
      if negb (Client.u_IsAbs u) || String.eqb (Client.u_Hostname u) "" || negb (String.eqb (Client.u_Opaque u) "") then None
      else if negb (String.eqb (Client.u_Scheme u) "https" || (String.eqb (Client.u_Scheme u) "http" && allowPlainHTTP)) then None
      else if Client.u_HasUser u || negb (String.eqb (Client.u_RawQuery u) "") || Client.u_ForceQuery u || negb (String.eqb (Client.u_Fragment u) "")
              || (negb (String.eqb (Client.u_Path u) "") && negb (String.eqb (Client.u_Path u) "/")) then None
      else Some u
  end.

(** endpointFor, as the scheme, the host and the path of the endpoint. *)
Definition endpointFor (parse : string -> option Client.URL) (raw : string) (allowPlainHTTP : bool) : option (string * string * string) :=
  match baseURL parse raw allowPlainHTTP with
  | Some base => Some (Client.u_Scheme base, Client.u_Host base, ExchangePath)
  | None => None
  end.

Record client := mkClient {
  endpoint : string * string * string; allowPlainHTTP : bool; subject : Subject; timeout : Duration; cfg : config }.

Definition or_default (v d : Z) : Z := if (v =? 0)%Z then d else v.

Definition New (parse : string -> option Client.URL) (c : Config) : result ConfigField client :=
  if match kind (c_Subject c) with subjectNone => true | _ => false end || String.eqb (path (c_Subject c)) "" then Err FieldSubject
  else if negb (CheckTransport (c_Transport c)) then Err FieldTransport
  else if negb (matchb issuerShape (c_Issuer c)) then Err FieldIssuer
  else match endpointFor parse (ExchangeURL c) (AllowPlainHTTP c) with
  | None => Err FieldExchangeURL
  | Some endpoint =>
      let timeout := or_default (c_Timeout c) DefaultTimeout in
      if (timeout <? minTimeout)%Z || (MaxTimeout <? timeout)%Z then Err FieldTimeout
      else
        let zero := GoFloat.of_int64 0 in
        let fraction := if GoFloat.eqb (RefreshFraction c) zero then GoFloat.half else RefreshFraction c in
        if negb (GoFloat.ltb zero fraction && GoFloat.ltb fraction (GoFloat.of_int64 1)) then Err FieldRefreshFraction
        else
          let margin := or_default (SafetyMargin c) DefaultSafetyMargin in
          if (margin <? 0)%Z || (MaxSafetyMargin <? margin)%Z then Err FieldSafetyMargin
          else
            let floor := or_default (BackoffFloor c) DefaultBackoffFloor in
            let ceiling := or_default (BackoffCeiling c) DefaultBackoffCeiling in
            if (floor <? 0)%Z || (maxBackoff <? floor)%Z then Err FieldBackoffFloor
            else if (ceiling <? floor)%Z || (maxBackoff <? ceiling)%Z then Err FieldBackoffCeiling
            else Ok (mkClient endpoint (AllowPlainHTTP c) (c_Subject c) timeout (mkConfig (c_Issuer c) fraction margin floor ceiling))
  end.

(** ** The slots *)

(** A flight is named by a number; [landed] are those whose channel is closed. *)
Record slot := mkSlot { s_entry : option entry; flight : option nat; retryAt : Time; failures : nat; lastErr : option wt_error }.
Record state := mkState { slots : gmap string slot; landed : gset nat; next_flight : nat }.

Definition new_slot : slot := mkSlot None None zero_time 0 None.
Definition new_state : state := mkState ∅ ∅ 0.
Definition slot_at (key : string) (st : state) : slot := default new_slot (slots st !! key).
Definition put (key : string) (s : slot) (st : state) : state := mkState (<[key := s]> (slots st)) (landed st) (next_flight st).

Definition noUsable := option wt_error.

(** The first stretch of Token's loop: a token, a flight to wait for, no token, or a flight to make. *)
Inductive look_result := Serve (token : string) | WaitFor (f : nat) | Refuse (cause : noUsable) | Start (f : nat).

Section Client.
Variable SimpleFold : N -> N.
Variable ParseMediaType : string -> option string.
Variable subject : Subject.
Variable cfg : config.

Fixpoint doubled (n : nat) (wait : Duration) : Duration :=
  match n with 0 => wait | S n => if (wait <? backoffCeiling cfg)%Z then doubled n (i64 (wait * 2)) else wait end.
Definition backoff (failures : nat) : Duration := Z.min (doubled (failures - 1) (backoffFloor cfg)) (backoffCeiling cfg).

(** The entry that is still there after the check at the head of the loop. *)
Definition still_usable (e : option entry) (now : Time) : option entry :=
  match e with
  | Some _ => match checkToken cfg e now with (None, e) => e | _ => None end
  | None => None
  end.

Definition look (key : string) (now : Time) (st : state) : look_result * state :=
  let s := slot_at key st in
  let e := still_usable (s_entry s) now in
  let st := put key (mkSlot e (flight s) (retryAt s) (failures s) (lastErr s)) st in
  let kept := match e with Some e => Serve (e_token e) | None => Refuse (lastErr s) end in
  if match e with Some e => Before now (refreshAt e) | None => false end then (kept, st)
  else match flight s with
  | Some f => (match e with Some e => Serve (e_token e) | None => WaitFor f end, st)
  | None =>
      if Before now (retryAt s) then (kept, st)
      else
        let f := next_flight st in
        let st := put key (mkSlot e (Some f) (retryAt s) (failures s) (lastErr s)) st in
        (Start f, mkState (slots st) (landed st) (S f))
  end.

(** The check of a fresh entry, before it is cached or returned. *)
Definition settle (outcome : result wt_error entry) (check_at : Time) : result wt_error entry :=
  match outcome with
  | Err x => Err x
  | Ok fresh =>
      match checkToken cfg (Some fresh) check_at with
      | (None, Some e) => Ok e
      | (Some x, _) => Err x
      | (None, None) => Err IndexPanic
      end
  end.

(** The second stretch: the flight is over with [outcome]; three clock readings, in order. *)
Definition finish (key : string) (f : nat) (outcome : result wt_error entry) (check_at retry_at again_at : Time) (st : state) :
    result wt_error string * state :=
  let s := slot_at key st in
  let st := mkState (slots st) ({[f]} ∪ landed st) (next_flight st) in
  match settle outcome check_at with
  | Ok e => (Ok (e_token e), put key (mkSlot (Some e) None zero_time 0 None) st)
  | Err x =>
      let n := S (failures s) in
      let e := still_usable (s_entry s) again_at in
      (match e with Some e => Ok (e_token e) | None => Err x end,
       put key (mkSlot e None (Add retry_at (backoff n)) n (Some x)) st)
  end.

Definition Invalidate (audience : string) (scope : list string) (st : state) : state :=
  match requestKey audience scope with
  | Err _ => st
  | Ok (key, _) =>
      match slots st !! key with
      | Some s => put key (mkSlot None (flight s) zero_time 0 None) st
      | None => st
      end
  end.
(** ** Calls *)

(** What a goroutine does to the slots: a first stretch, the end of the flight [f] that it made, or
    an Invalidate. *)
Inductive event :=
| Look (audience : string) (scope : list string) (now : Time)
| Finish (audience : string) (scope : list string) (f : nat) (k : call) (check_at retry_at again_at : Time)
| Drop (audience : string) (scope : list string).

Definition run (st : state) (ev : event) : state :=
  match ev with
  | Look audience scope now =>
      match requestKey audience scope with Ok (key, _) => (look key now st).2 | Err _ => st end
  | Finish audience scope f k t1 t2 t3 =>
      match requestKey audience scope with
      | Ok (key, actions) =>
          if bool_decide (flight (slot_at key st) = Some f)
          then (finish key f (exchange SimpleFold ParseMediaType subject audience actions k) t1 t2 t3 st).2
          else st
      | Err _ => st
      end
  | Drop audience scope => Invalidate audience scope st
  end.
Definition exec (tr : list event) (st : state) : state := foldl run st tr.

(** One turn of the loop: the others' events before it, its clock reading; if it waits, whether the
    context ends first, and the others' events meanwhile; if it makes the flight, the others' events
    during it, what the exchange met and the three readings after it. *)
Record round := mkRound {
  before : list event; now : Time; cancelled : bool; meanwhile : list event;
  during : list event; met : call; check_at : Time; retry_at : Time; again_at : Time }.

(** Only its own goroutine ends a flight. *)
Definition of_others (f : nat) (ev : event) : Prop := match ev with Finish _ _ g _ _ _ _ => g <> f | _ => True end.
#[global] Instance of_others_dec f ev : Decision (of_others f ev).
Proof. destruct ev; cbn; apply _. Defined.

Inductive token_error := ErrNoUsableToken (cause : noUsable) | ErrContext | ErrNotConfigured | ErrNoContext | ErrRequest (e : request_error).

(** Token; None is a call that still waits. *)
Fixpoint Token_loop (audience : string) (key : string) (scope actions : list string) (rounds : list round) (st : state) :
    option (result token_error string) * state :=
  match rounds with
  | [] => (None, st)
  | r :: rounds =>
      match look key (now r) (exec (before r) st) with
      | (Serve token, st) => (Some (Ok token), st)
      | (Refuse cause, st) => (Some (Err (ErrNoUsableToken cause)), st)
      | (WaitFor f, st) =>
          if cancelled r then (Some (Err ErrContext), st)
          else let st := exec (meanwhile r) st in
               if bool_decide (f ∈ landed st) then Token_loop audience key scope actions rounds st else (None, st)
      | (Start f, st) =>
          let st := exec (filter (of_others f) (during r)) st in
          match finish key f (exchange SimpleFold ParseMediaType subject audience actions (met r)) (check_at r) (retry_at r) (again_at r) st with
          | (Ok token, st) => (Some (Ok token), st)
          | (Err x, st) => (Some (Err (ErrNoUsableToken (Some x))), st)
          end
      end
  end.

(** [ready] is false for a nil client or one not made by New, [has_ctx] for a nil context. *)
Definition Token (ready has_ctx : bool) (audience : string) (scope : list string) (rounds : list round) (st : state) :
    option (result token_error string) * state :=
  if negb ready then (Some (Err ErrNotConfigured), st)
  else if negb has_ctx then (Some (Err ErrNoContext), st)
  else match requestKey audience scope with
  | Err e => (Some (Err (ErrRequest e)), st)
  | Ok (key, actions) => Token_loop audience key scope actions rounds st
  end.
End Client.

End WtClient.
