(* ===== verification/WtClientSpec.v ===== *)
(** What the workload token client promises: Token serves only tokens that pass the check at that
    moment and that an exchange for the same question gave; the exchanges of one slot run one after
    another, backing off after failures; and no call waits for a flight that has landed. *)
From S2P Require Import Prelude Regex GoTime PepClient AuthToken WtToken WtTokenSpec WtExchange WtClient.

Module WtClientSpec.
Import GoTime WtToken WtTokenSpec WtExchange WtClient.

(** * Slots *)

Lemma slot_at_put key s st : slot_at key (put key s st) = s.
Proof. unfold slot_at, put. cbn. rewrite lookup_insert_eq. reflexivity. Qed.
Lemma slot_at_put_ne key k s st : k <> key -> slot_at k (put key s st) = slot_at k st.
Proof. intros H. unfold slot_at, put. cbn. rewrite lookup_insert_ne by congruence. reflexivity. Qed.
Lemma slot_at_slots key st st' : slots st = slots st' -> slot_at key st = slot_at key st'.
Proof. unfold slot_at. intros ->. reflexivity. Qed.

(** The part of an entry that its window does not touch. *)
Definition same_token (e e0 : entry) : Prop :=
  e_token e = e_token e0 /\ e_audience e = e_audience e0 /\ sent e = sent e0 /\ lifetime e = lifetime e0.

Lemma same_token_refl e : same_token e e.
Proof. repeat split. Qed.
Lemma same_token_trans e1 e2 e3 : same_token e1 e2 -> same_token e2 e3 -> same_token e1 e3.
Proof. unfold same_token. intuition congruence. Qed.
#[local] Hint Resolve same_token_refl same_token_trans : go.

(** ** Backoff *)

Lemma doubled_closed cfg n w : (0 <= w)%Z -> (backoffCeiling cfg <= maxBackoff)%Z ->
  Z.min (doubled cfg n w) (backoffCeiling cfg) = Z.min (w * 2 ^ Z.of_nat n) (backoffCeiling cfg).
Proof.
  intros Hw Hc. revert w Hw. induction n as [|n IH]; intros w Hw; cbn [doubled]; [f_equal; lia|].
  rewrite Nat2Z.inj_succ, Z.pow_succ_r by lia. destruct (Z.ltb_spec w (backoffCeiling cfg)) as [Hlt|Hge].
  - unfold maxBackoff, Minute, Second in Hc. rewrite i64_small by (unfold min_int64, max_int64; lia). rewrite IH by lia. f_equal. lia.
  - pose proof (Z.pow_pos_nonneg 2 (Z.of_nat n)). nia.
Qed.

(** n failures in a row: the floor doubled n - 1 times, at most the ceiling. *)
Lemma backoff_closed cfg n : (0 <= backoffFloor cfg)%Z -> (backoffCeiling cfg <= maxBackoff)%Z ->
  backoff cfg (S n) = Z.min (backoffFloor cfg * 2 ^ Z.of_nat n) (backoffCeiling cfg).
Proof. intros H1 H2. unfold backoff. replace (S n - 1) with n by lia. apply doubled_closed; assumption. Qed.

Lemma New_config parse c cl : New parse c = Ok cl ->
  matches issuerShape (issuer (cfg cl)) /\ (0 <= margin (cfg cl) <= MaxSafetyMargin)%Z /\
  (0 <= backoffFloor (cfg cl) <= backoffCeiling (cfg cl))%Z /\ (backoffCeiling (cfg cl) <= maxBackoff)%Z /\
  (minTimeout <= timeout cl <= MaxTimeout)%Z /\ CheckTransport (c_Transport c) = true /\ kind (subject cl) <> subjectNone.
Proof.
  intros H. unfold New in H. destruct (match kind (c_Subject c) with subjectNone => true | _ => false end || _) eqn:Ek; [discriminate|].
  destruct (CheckTransport _) eqn:Et; [|discriminate]. destruct (matchb issuerShape _) eqn:Ei; [|discriminate]. cbn [negb] in H.
  destruct (endpointFor _ _ _) as [ep|]; [|discriminate]. cbv zeta in H.
  do 5 (match type of H with (if ?b then _ else _) = _ => destruct b eqn:?; [discriminate|] end). injection H as <-.
  apply orb_false_iff in Ek as [Ek _]. simp_bool. cbn. apply matchb_spec in Ei. repeat split; try assumption; try lia.
  intros Hn. rewrite Hn in Ek. discriminate.
Qed.

Section Client.
Variable SimpleFold : N -> N.
Variable ParseMediaType : string -> option string.
Variable subject : Subject.
Variable cfg : config.
Notation exchange := (exchange SimpleFold ParseMediaType subject).
Notation run := (run SimpleFold ParseMediaType subject cfg).
Notation exec := (exec SimpleFold ParseMediaType subject cfg).
Notation look := (look cfg).
Notation finish := (finish cfg).

Lemma calls_app tr tr' st : exec (tr ++ tr') st = exec tr' (exec tr st).
Proof. unfold WtClient.exec. apply foldl_app. Qed.
Lemma calls_snoc tr ev st : exec (tr ++ [ev]) st = run (exec tr st) ev.
Proof. apply calls_app. Qed.

(** ** One stretch *)

Lemma still_usable_some e now e' : still_usable cfg e now = Some e' -> exists e0, e = Some e0 /\ checkToken cfg (Some e0) now = (None, Some e') /\ same_token e' e0.
Proof.
  unfold still_usable. destruct e as [e0|]; [|discriminate]. destruct (checkToken cfg (Some e0) now) as [[x|] e1] eqn:E; [discriminate|].
  intros ->. exists e0. split; [reflexivity|]. split; [exact E|]. apply checkToken_accepts in E as (kid & c & _ & _ & ->). repeat split.
Qed.

Lemma settle_ok outcome t e : settle cfg outcome t = Ok e -> exists e0, outcome = Ok e0 /\ checkToken cfg (Some e0) t = (None, Some e) /\ same_token e e0.
Proof.
  unfold settle. destruct outcome as [e0|]; [|discriminate]. destruct (checkToken cfg (Some e0) t) as [[x|] [e1|]] eqn:E; try discriminate.
  intros [= ->]. exists e0. split; [reflexivity|]. split; [exact E|]. apply checkToken_accepts in E as (kid & c & _ & _ & ->). repeat split.
Qed.

(** The slots after a look: the entry that is still usable, and maybe a flight. *)
Lemma look_slot key now st : let s := slot_at key st in let '(r, st') := look key now st in
  slot_at key st' = mkSlot (still_usable cfg (s_entry s) now) (match r with Start f => Some f | _ => flight s end) (retryAt s) (failures s) (lastErr s) /\
  (forall k, k <> key -> slot_at k st' = slot_at k st) /\ landed st' = landed st /\
  match r with
  | Start f => f = next_flight st /\ next_flight st' = S f /\ flight s = None /\ Before now (retryAt s) = false
  | WaitFor f => next_flight st' = next_flight st /\ flight s = Some f
  | Serve token => next_flight st' = next_flight st /\ exists e, still_usable cfg (s_entry s) now = Some e /\ token = e_token e
  | Refuse _ => next_flight st' = next_flight st /\ flight s = None
  end.
Proof.
  cbv zeta. unfold WtClient.look. set (s := slot_at key st). set (e := still_usable cfg (s_entry s) now).
  assert (Hput : forall s', slot_at key (put key s' st) = s' /\ forall k, k <> key -> slot_at k (put key s' st) = slot_at k st).
  { intros s'. split; [apply slot_at_put | intros k Hk; apply slot_at_put_ne, Hk]. }
  destruct (Hput (mkSlot e (flight s) (retryAt s) (failures s) (lastErr s))) as [H1 H2].
  destruct (match e with Some e => Before now (refreshAt e) | None => false end) eqn:Ef.
  { destruct e as [en|]; [|discriminate]. eauto 10. }
  destruct (flight s) as [f|] eqn:Efl; [destruct e as [en|]; eauto 10|].
  destruct (Before now (retryAt s)) eqn:Eb; [destruct e as [en|]; eauto 10|].
  assert (E : forall x y, slots (put key y (put key x st)) = slots (put key y st)) by (intros x y; apply insert_insert_eq).
  destruct (Hput (mkSlot e (Some (next_flight st)) (retryAt s) (failures s) (lastErr s))) as [H3 H4].
  split; [etransitivity; [eapply slot_at_slots, E | exact H3]|]. split; [intros k Hk; etransitivity; [eapply slot_at_slots, E | exact (H4 k Hk)]|]. auto.
Qed.

Lemma finish_slot key f outcome t1 t2 t3 st : let s := slot_at key st in let '(r, st') := finish key f outcome t1 t2 t3 st in
  slot_at key st' =
    match settle cfg outcome t1 with
    | Ok e => mkSlot (Some e) None zero_time 0 None
    | Err x => mkSlot (still_usable cfg (s_entry s) t3) None (Add t2 (backoff cfg (S (failures s)))) (S (failures s)) (Some x)
    end /\
  (forall k, k <> key -> slot_at k st' = slot_at k st) /\ landed st' = {[f]} ∪ landed st /\ next_flight st' = next_flight st /\
  r = match settle cfg outcome t1 with
      | Ok e => Ok (e_token e)
      | Err x => match still_usable cfg (s_entry s) t3 with Some e => Ok (e_token e) | None => Err x end
      end.
Proof.
  cbv zeta. unfold WtClient.finish.
  assert (Hput : forall s', slot_at key (put key s' (mkState (slots st) ({[f]} ∪ landed st) (next_flight st))) = s' /\
    forall k, k <> key -> slot_at k (put key s' (mkState (slots st) ({[f]} ∪ landed st) (next_flight st))) = slot_at k st).
  { intros s'. split; [apply slot_at_put|]. intros k Hk. rewrite slot_at_put_ne by exact Hk. apply slot_at_slots. reflexivity. }
  destruct (settle cfg outcome t1) as [e|x].
  - destruct (Hput (mkSlot (Some e) None zero_time 0 None)) as [H1 H2]. auto.
  - destruct (Hput (mkSlot (still_usable cfg (s_entry (slot_at key st)) t3) None (Add t2 (backoff cfg (S (failures (slot_at key st))))) (S (failures (slot_at key st))) (Some x))) as [H1 H2]. auto.
Qed.

Lemma Invalidate_slot audience scope key actions st : requestKey audience scope = Ok (key, actions) ->
  let st' := Invalidate audience scope st in
  slot_at key st' = mkSlot None (flight (slot_at key st)) zero_time 0 None /\ (forall k, k <> key -> slot_at k st' = slot_at k st) /\
  landed st' = landed st /\ next_flight st' = next_flight st.
Proof.
  intros Hk. cbv zeta. unfold Invalidate. rewrite Hk. destruct (slots st !! key) as [s|] eqn:E.
  - rewrite slot_at_put. unfold slot_at at 1. rewrite E. split; [reflexivity|]. split; [intros k Hne; apply slot_at_put_ne, Hne | auto].
  - unfold slot_at. rewrite E. auto.
Qed.

(** ** Where a cached token comes from *)

(** An exchange of the history [tr] for the question of this slot gave the entry. *)
Definition came_from (tr : list event) (key : string) (e : entry) : Prop :=
  exists audience scope actions f k t1 t2 t3 e0, Finish audience scope f k t1 t2 t3 ∈ tr /\
    requestKey audience scope = Ok (key, actions) /\ exchange audience actions k = Ok e0 /\ same_token e e0.

Lemma came_from_more tr tr' key e : came_from tr key e -> came_from (tr ++ tr') key e.
Proof. intros (a & s & ac & f & k & t1 & t2 & t3 & e0 & Hin & H). exists a, s, ac, f, k, t1, t2, t3, e0. split; [apply elem_of_app; auto | exact H]. Qed.

Lemma came_from_same tr key e e' : same_token e' e -> came_from tr key e -> came_from tr key e'.
Proof.
  intros Hs (a & s & ac & f & k & t1 & t2 & t3 & e0 & H1 & H2 & H3 & H4). exists a, s, ac, f, k, t1, t2, t3, e0.
  do 3 (split; [assumption|]). eapply same_token_trans; eassumption.
Qed.

Lemma run_entry st ev key e : s_entry (slot_at key (run st ev)) = Some e ->
  (exists e0, s_entry (slot_at key st) = Some e0 /\ same_token e e0) \/ came_from [ev] key e.
Proof.
  destruct ev as [audience scope now|audience scope f k t1 t2 t3|audience scope]; cbn [WtClient.run].
  - destruct (requestKey audience scope) as [[key' actions]|] eqn:Ek; [|left; eauto with go].
    pose proof (look_slot key' now st) as Hl. cbv zeta in Hl. destruct (look key' now st) as [r st']. cbn [snd]. destruct Hl as (H1 & H2 & _).
    destruct (decide (key = key')) as [->|Hne]; [|rewrite H2 by exact Hne; left; eauto with go].
    rewrite H1. cbn. intros (e0 & He0 & _ & Hs)%still_usable_some. left. eauto.
  - destruct (requestKey audience scope) as [[key' actions]|] eqn:Ek; [|left; eauto with go]. destruct (bool_decide _); [|left; eauto with go].
    pose proof (finish_slot key' f (exchange audience actions k) t1 t2 t3 st) as Hf. cbv zeta in Hf. destruct (finish key' f _ t1 t2 t3 st) as [r st'].
    cbn [snd]. destruct Hf as (H1 & H2 & _). destruct (decide (key = key')) as [->|Hne]; [|rewrite H2 by exact Hne; left; eauto with go].
    rewrite H1. destruct (settle cfg _ t1) as [e1|x] eqn:Es; cbn.
    + intros [= ->]. right. apply settle_ok in Es as (e0 & He & _ & Hs). exists audience, scope, actions, f, k, t1, t2, t3, e0.
      split; [left | auto].
    + intros (e0 & He0 & _ & Hs)%still_usable_some. left. eauto.
  - destruct (requestKey audience scope) as [[key' actions]|] eqn:Ek; [|unfold Invalidate; rewrite Ek; left; eauto with go].
    destruct (Invalidate_slot audience scope key' actions st Ek) as (H1 & H2 & _).
    destruct (decide (key = key')) as [->|Hne]; [rewrite H1; discriminate | rewrite H2 by exact Hne; left; eauto with go].
Qed.

Lemma cached_from tr key e : s_entry (slot_at key (exec tr new_state)) = Some e -> came_from tr key e.
Proof.
  revert e. induction tr as [|ev tr IH] using rev_ind; intros e; [discriminate|]. rewrite calls_snoc. intros [(e0 & He & Hs)|H]%run_entry.
  - apply came_from_more. eapply came_from_same; [exact Hs | apply IH, He].
  - destruct H as (a & s & ac & f & k & t1 & t2 & t3 & e0 & Hin & H). exists a, s, ac, f, k, t1, t2, t3, e0. split; [apply elem_of_app; auto | exact H].
Qed.

Lemma exchange_audience audience actions k e : exchange audience actions k = Ok e -> e_audience e = audience.
Proof.
  unfold WtExchange.exchange. intros H. apply rbind_ok in H as (s & _ & H). destruct (negb _); [discriminate|].
  destruct (http k _) as [|status ct body err]; [discriminate|]. destruct (_ <? _) in H; [discriminate|]. destruct err; [discriminate|].
  destruct (status =? 200)%Z; [|destruct (status =? 400)%Z; discriminate]. apply rbind_ok in H as (a & _ & [= <-]). reflexivity.
Qed.

Lemma came_audience tr key e audience scope actions : requestKey audience scope = Ok (key, actions) -> came_from tr key e -> e_audience e = audience.
Proof.
  intros Hk (a & s & ac & f & k & t1 & t2 & t3 & e0 & _ & Hk' & Hx & (_ & Ha & _)). rewrite Ha, (exchange_audience _ _ _ _ Hx).
  eapply key_inj; eassumption.
Qed.

(** ** A call is a history *)

Lemma kept_flight f key tr st : flight (slot_at key st) = Some f -> Forall (of_others f) tr -> flight (slot_at key (exec tr st)) = Some f.
Proof.
  intros Hf Htr. revert st Hf. induction Htr as [|ev tr Hev Htr IH]; intros st Hf; [exact Hf|]. cbn [WtClient.exec foldl]. apply IH. clear IH Htr.
  destruct ev as [audience scope now|audience scope g k t1 t2 t3|audience scope]; cbn [WtClient.run of_others] in *.
  - destruct (requestKey audience scope) as [[key' actions]|]; [|exact Hf]. pose proof (look_slot key' now st) as Hl. cbv zeta in Hl.
    destruct (look key' now st) as [r st']. cbn [snd]. destruct Hl as (H1 & H2 & _ & H3). destruct (decide (key = key')) as [->|Hne]; [|rewrite H2 by exact Hne; exact Hf].
    rewrite H1. cbn. destruct r as [| | |g]; try exact Hf. destruct H3 as (_ & _ & H3 & _). congruence.
  - destruct (requestKey audience scope) as [[key' actions]|]; [|exact Hf]. destruct (bool_decide_reflect (flight (slot_at key' st) = Some g)) as [Hg|]; [|exact Hf].
    pose proof (finish_slot key' g (exchange audience actions k) t1 t2 t3 st) as Hl. cbv zeta in Hl. destruct (finish key' g _ t1 t2 t3 st) as [r st'].
    cbn [snd]. destruct Hl as (_ & H2 & _). rewrite H2; [exact Hf|]. intros ->. congruence.
  - destruct (requestKey audience scope) as [[key' actions]|] eqn:Ek; [|unfold Invalidate; rewrite Ek; exact Hf].
    destruct (Invalidate_slot audience scope key' actions st Ek) as (H1 & H2 & _).
    destruct (decide (key = key')) as [->|Hne]; [rewrite H1; exact Hf | rewrite H2 by exact Hne; exact Hf].
Qed.

(** The token a call served: a check of it passed at a reading of the call, on an entry of the slot. *)
Definition served (tr : list event) (key token : string) (rounds : list round) : Prop :=
  exists e0 e t, checkToken cfg (Some e0) t = (None, Some e) /\ e_token e0 = token /\ came_from tr key e0 /\
    exists r, r ∈ rounds /\ (t = now r \/ t = check_at r \/ t = again_at r).

(** The rest of a turn that made the flight [f]. *)
Lemma own_flight audience scope key actions r f tr a st' : requestKey audience scope = Ok (key, actions) ->
  flight (slot_at key (exec tr new_state)) = Some f ->
  (let st := exec (filter (of_others f) (during r)) (exec tr new_state) in
   match finish key f (exchange audience actions (met r)) (check_at r) (retry_at r) (again_at r) st with
   | (Ok token, st) => (Some (Ok token), st)
   | (Err x, st) => (Some (Err (ErrNoUsableToken (Some x))), st)
   end) = (a, st') ->
  exists tr', st' = exec (tr ++ tr') new_state /\ forall token, a = Some (Ok token) ->
    exists e0 e t, checkToken cfg (Some e0) t = (None, Some e) /\ e_token e0 = token /\ came_from (tr ++ tr') key e0 /\ (t = check_at r \/ t = again_at r).
Proof.
  cbv zeta. intros Hk Hf0 H. rewrite <-calls_app in H. set (tr2 := tr ++ filter (of_others f) (during r)) in *.
  assert (Hf : flight (slot_at key (exec tr2 new_state)) = Some f).
  { unfold tr2. rewrite calls_app. apply kept_flight; [exact Hf0|]. apply Forall_forall. intros ev Hev. apply list_elem_of_filter in Hev. apply Hev. }
  pose proof (finish_slot key f (exchange audience actions (met r)) (check_at r) (retry_at r) (again_at r) (exec tr2 new_state)) as Hfin. cbv zeta in Hfin.
  set (ev := Finish audience scope f (met r) (check_at r) (retry_at r) (again_at r)).
  assert (Hrun : (finish key f (exchange audience actions (met r)) (check_at r) (retry_at r) (again_at r) (exec tr2 new_state)).2 = exec (tr2 ++ [ev]) new_state).
  { rewrite calls_snoc. cbn [WtClient.run ev]. rewrite Hk, bool_decide_eq_true_2 by exact Hf. reflexivity. }
  destruct (finish key f _ _ _ _ _) as [res st2]. cbn [snd] in Hrun. subst st2. destruct Hfin as (_ & _ & _ & _ & Hres').
  exists (filter (of_others f) (during r) ++ [ev]). rewrite app_assoc. fold tr2.
  destruct res as [token|x]; injection H as <- <-; (split; [reflexivity|]); [|discriminate]. intros t [= <-].
  destruct (settle cfg _ (check_at r)) as [e|x] eqn:Es.
  - injection Hres' as ->. apply settle_ok in Es as (e0 & He & Hc & Hs). exists e0, e, (check_at r). split; [exact Hc|]. split; [symmetry; apply Hs|].
    split; [|auto]. exists audience, scope, actions, f, (met r), (check_at r), (retry_at r), (again_at r), e0.
    split; [apply elem_of_app; right; left | auto with go].
  - destruct (still_usable cfg _ (again_at r)) as [e|] eqn:Eu; [|discriminate Hres']. injection Hres' as ->.
    apply still_usable_some in Eu as (e0 & He0 & Hc & Hs). exists e0, e, (again_at r). split; [exact Hc|]. split; [symmetry; apply Hs|].
    split; [apply came_from_more, cached_from, He0 | auto].
Qed.

Lemma served_more tr tr' key token r rounds : served tr key token rounds -> served (tr ++ tr') key token (r :: rounds).
Proof.
  intros (e0 & e & t & H1 & H2 & H3 & r' & Hr & Ht). exists e0, e, t. split; [exact H1|]. split; [exact H2|]. split; [apply came_from_more, H3|].
  exists r'. split; [right; exact Hr | exact Ht].
Qed.

Lemma Token_loop_history audience scope key actions rounds : requestKey audience scope = Ok (key, actions) -> forall tr a st',
  Token_loop SimpleFold ParseMediaType subject cfg audience key scope actions rounds (exec tr new_state) = (a, st') ->
  exists tr', st' = exec (tr ++ tr') new_state /\ forall token, a = Some (Ok token) -> served (tr ++ tr') key token rounds.
Proof.
  intros Hk. induction rounds as [|r rounds IH]; intros tr a st' H; cbn [Token_loop] in H.
  { injection H as <- <-. exists []. rewrite app_nil_r. split; [reflexivity | discriminate]. }
  rewrite <-calls_app in H. set (tr1 := tr ++ before r) in *. pose proof (look_slot key (now r) (exec tr1 new_state)) as Hl. cbv zeta in Hl.
  assert (Hrun : (look key (now r) (exec tr1 new_state)).2 = exec (tr1 ++ [Look audience scope (now r)]) new_state).
  { rewrite calls_snoc. cbn [WtClient.run]. rewrite Hk. reflexivity. }
  destruct (look key (now r) (exec tr1 new_state)) as [res st1] eqn:El. cbn [snd] in Hrun. subst st1. destruct Hl as (Hsl & _ & _ & Hres).
  destruct res as [token|f|cause|f].
  - injection H as <- <-. exists (before r ++ [Look audience scope (now r)]). rewrite app_assoc. split; [reflexivity|]. intros t [= <-].
    destruct Hres as (_ & e & (e0 & He0 & Hc & Hs)%still_usable_some & ->). exists e0, e, (now r). split; [exact Hc|]. split; [symmetry; apply Hs|].
    split; [apply came_from_more, cached_from, He0 | exists r; split; [left | auto]].
  - destruct (cancelled r); [injection H as <- <-; exists (before r ++ [Look audience scope (now r)]); rewrite app_assoc; split; [reflexivity | discriminate]|].
    rewrite <-calls_app in H. destruct (bool_decide _).
    + apply IH in H as (tr' & -> & Hserved). exists (before r ++ [Look audience scope (now r)] ++ meanwhile r ++ tr').
      unfold tr1 in *. rewrite <-!app_assoc in *. split; [reflexivity|]. intros token ->. specialize (Hserved token eq_refl).
      rewrite <-(app_nil_r (tr ++ _)). apply served_more, Hserved.
    + injection H as <- <-. exists (before r ++ [Look audience scope (now r)] ++ meanwhile r). unfold tr1. rewrite <-!app_assoc. split; [reflexivity | discriminate].
  - injection H as <- <-. exists (before r ++ [Look audience scope (now r)]). rewrite app_assoc. split; [reflexivity | discriminate].
  - eapply own_flight in H as (tr' & -> & Hserved); [|exact Hk|rewrite Hsl; reflexivity].
    exists (before r ++ [Look audience scope (now r)] ++ tr'). unfold tr1 in *. rewrite <-!app_assoc in *. split; [reflexivity|].
    intros token ->. destruct (Hserved token eq_refl) as (e0 & e & t & H1 & H2 & H3 & Ht). exists e0, e, t.
    split; [exact H1|]. split; [exact H2|]. split; [exact H3|]. exists r. split; [left | auto].
Qed.

(** ** The flights of a slot *)

Inductive slot_log := LStart (f : nat) (now : Time) | LGood (f : nat) | LBad (f : nat) (at_ : Time) | LReset.

Definition log (key : string) (st : state) (ev : event) : list slot_log :=
  match ev with
  | Look audience scope now =>
      match requestKey audience scope with
      | Ok (k, _) => if String.eqb k key then match (look k now st).1 with Start f => [LStart f now] | _ => [] end else []
      | Err _ => []
      end
  | Finish audience scope f k t1 t2 _ =>
      match requestKey audience scope with
      | Ok (k', actions) =>
          if String.eqb k' key && bool_decide (flight (slot_at key st) = Some f)
          then match settle cfg (exchange audience actions k) t1 with Ok _ => [LGood f] | Err _ => [LBad f t2] end else []
      | Err _ => []
      end
  | Drop audience scope => match requestKey audience scope with Ok (k, _) => if String.eqb k key then [LReset] else [] | Err _ => [] end
  end.
Fixpoint history (key : string) (st : state) (tr : list event) : list slot_log :=
  match tr with [] => [] | ev :: tr => log key st ev ++ history key (run st ev) tr end.

(** One flight at a time; after [n] failures in a row none starts before [t]. *)
Inductive paced : option nat -> nat -> Time -> list slot_log -> Prop :=
| p_nil fl n t : paced fl n t []
| p_start f n t now l : Before now t = false -> paced (Some f) n t l -> paced None n t (LStart f now :: l)
| p_good f n t l : paced None 0 zero_time l -> paced (Some f) n t (LGood f :: l)
| p_bad f n t at_ l :
    paced None (S n) (Add at_ (Z.min (backoffFloor cfg * 2 ^ Z.of_nat n) (backoffCeiling cfg))) l -> paced (Some f) n t (LBad f at_ :: l)
| p_reset fl n t l : paced fl 0 zero_time l -> paced fl n t (LReset :: l).

Definition slot_paced (s : slot) (l : list slot_log) : Prop := paced (flight s) (failures s) (retryAt s) l.

Lemma log_paced key st ev l : (0 <= backoffFloor cfg)%Z -> (backoffCeiling cfg <= maxBackoff)%Z ->
  slot_paced (slot_at key (run st ev)) l -> slot_paced (slot_at key st) (log key st ev ++ l).
Proof.
  intros Hfl Hce. unfold slot_paced. destruct ev as [audience scope now|audience scope f k t1 t2 t3|audience scope]; cbn [WtClient.run log].
  - destruct (requestKey audience scope) as [[key' actions]|]; [|auto]. pose proof (look_slot key' now st) as Hl. cbv zeta in Hl.
    destruct (look key' now st) as [r st']. cbn [fst snd]. destruct Hl as (H1 & H2 & _ & H3). destruct (String.eqb_spec key' key) as [->|Hne].
    + rewrite H1. cbn. destruct r as [| | |f]; cbn [app]; auto. destruct H3 as (_ & _ & -> & Hb). intros Hp. constructor; assumption.
    + rewrite H2 by congruence. auto.
  - destruct (requestKey audience scope) as [[key' actions]|]; [|auto]. destruct (String.eqb_spec key' key) as [->|Hne]; cbn [andb].
    + destruct (bool_decide_reflect (flight (slot_at key st) = Some f)) as [Hf|]; [|auto]. rewrite Hf.
      pose proof (finish_slot key f (exchange audience actions k) t1 t2 t3 st) as Hl. cbv zeta in Hl. destruct (finish key f _ t1 t2 t3 st) as [r st'].
      cbn [snd]. destruct Hl as (H1 & _). rewrite H1. destruct (settle cfg _ t1); cbn; [apply p_good|]. rewrite backoff_closed by assumption. apply p_bad.
    + destruct (bool_decide _); [|auto]. pose proof (finish_slot key' f (exchange audience actions k) t1 t2 t3 st) as Hl. cbv zeta in Hl.
      destruct (finish key' f _ t1 t2 t3 st) as [r st']. cbn [snd]. destruct Hl as (_ & H2 & _). rewrite H2 by congruence. auto.
  - destruct (requestKey audience scope) as [[key' actions]|] eqn:Ek; [|unfold Invalidate; rewrite Ek; auto].
    destruct (Invalidate_slot audience scope key' actions st Ek) as (H1 & H2 & _). destruct (String.eqb_spec key' key) as [->|Hne].
    + rewrite H1. cbn. apply p_reset.
    + rewrite H2 by congruence. auto.
Qed.

Lemma history_paced key tr st : (0 <= backoffFloor cfg)%Z -> (backoffCeiling cfg <= maxBackoff)%Z -> slot_paced (slot_at key st) (history key st tr).
Proof.
  intros Hf Hc. revert st. induction tr as [|ev tr IH]; intros st; [constructor|]. cbn [history]. apply log_paced; [assumption..|]. apply IH.
Qed.

(** ** Waiting *)

(** Flights are numbered once: one that a slot holds has not landed. *)
Definition fresh_flights (st : state) : Prop :=
  (forall key f, flight (slot_at key st) = Some f -> f < next_flight st /\ f ∉ landed st) /\
  (forall key key' f, flight (slot_at key st) = Some f -> flight (slot_at key' st) = Some f -> key = key') /\
  (forall f, f ∈ landed st -> f < next_flight st).

Lemma run_fresh st ev : fresh_flights st -> fresh_flights (run st ev) /\ landed st ⊆ landed (run st ev).
Proof.
  intros Hinv. destruct ev as [audience scope now|audience scope f k t1 t2 t3|audience scope]; cbn [WtClient.run].
  - destruct (requestKey audience scope) as [[key actions]|]; [|auto]. pose proof (look_slot key now st) as Hl. cbv zeta in Hl.
    destruct (look key now st) as [r st']. cbn [snd]. destruct Hl as (H1 & H2 & H3 & H4). split; [|rewrite H3; reflexivity]. destruct Hinv as (I1 & I2 & I3).
    assert (Hfl : forall k g, flight (slot_at k st') = Some g -> flight (slot_at k st) = Some g \/ (k = key /\ r = Start g)).
    { intros k g. destruct (decide (k = key)) as [->|Hne]; [rewrite H1; cbn; destruct r; auto; intros [= ->]; auto | rewrite H2 by exact Hne; auto]. }
    assert (Hnx : next_flight st <= next_flight st' /\ forall g, r = Start g -> g = next_flight st /\ next_flight st' = S g).
    { destruct r as [| | |g]; destruct H4 as (E & H4); try (split; [lia | discriminate]). split; [lia|]. intros x [= <-]. tauto. }
    destruct Hnx as [Hn1 Hn2]. unfold fresh_flights. rewrite H3. split; [|split].
    + intros k g Hg. apply Hfl in Hg as [Hg|[-> Hg]]; [apply I1 in Hg; split; [lia | tauto]|]. apply Hn2 in Hg as [-> ->]. split; [lia|].
      intros Hin. apply I3 in Hin. lia.
    + intros k k' g Hg Hg'. apply Hfl in Hg as [Hg|[-> Hg]], Hg' as [Hg'|[-> Hg']]; [eauto | | | reflexivity].
      * apply Hn2 in Hg' as [-> _]. apply I1 in Hg. lia.
      * apply Hn2 in Hg as [-> _]. apply I1 in Hg'. lia.
    + intros g Hg. apply I3 in Hg. lia.
  - destruct (requestKey audience scope) as [[key actions]|]; [|auto]. destruct (bool_decide_reflect (flight (slot_at key st) = Some f)) as [Hf|]; [|auto].
    pose proof (finish_slot key f (exchange audience actions k) t1 t2 t3 st) as Hl. cbv zeta in Hl. destruct (finish key f _ t1 t2 t3 st) as [r st'].
    cbn [snd]. destruct Hl as (H1 & H2 & H3 & H4 & _). destruct Hinv as (I1 & I2 & I3). split; [|rewrite H3; set_solver].
    assert (Hfl : forall k' g, flight (slot_at k' st') = Some g -> flight (slot_at k' st) = Some g /\ k' <> key).
    { intros k' g. destruct (decide (k' = key)) as [->|Hne]; [rewrite H1; destruct (settle _ _ _); discriminate | rewrite H2 by exact Hne; auto]. }
    unfold fresh_flights. rewrite H3, H4. split; [|split].
    + intros k' g [Hg Hne]%Hfl. pose proof (I1 _ _ Hg) as [Hlt Hnl]. split; [exact Hlt|]. intros [->%elem_of_singleton|]%elem_of_union; [|contradiction].
      apply Hne, (I2 _ _ _ Hg Hf).
    + intros k' k'' g [Hg _]%Hfl [Hg' _]%Hfl. eauto.
    + intros g [->%elem_of_singleton|Hg]%elem_of_union; [apply (I1 _ _ Hf) | apply I3, Hg].
  - destruct (requestKey audience scope) as [[key actions]|] eqn:Ek; [|unfold Invalidate; rewrite Ek; auto].
    destruct (Invalidate_slot audience scope key actions st Ek) as (H1 & H2 & H3 & H4). split; [|rewrite H3; reflexivity].
    assert (Hfl : forall k', flight (slot_at k' (Invalidate audience scope st)) = flight (slot_at k' st)).
    { intros k'. destruct (decide (k' = key)) as [->|Hne]; [rewrite H1; reflexivity | rewrite H2 by exact Hne; reflexivity]. }
    unfold fresh_flights. setoid_rewrite Hfl. rewrite H3, H4. exact Hinv.
Qed.

Lemma exec_fresh st tr : fresh_flights st -> fresh_flights (exec tr st) /\ landed st ⊆ landed (exec tr st).
Proof.
  revert st. induction tr as [|ev tr IH]; intros st Hi; [auto|]. cbn [WtClient.exec foldl]. destruct (run_fresh st ev Hi) as [H1 H2].
  destruct (IH _ H1) as [H3 H4]. split; [exact H3 | etransitivity; eassumption].
Qed.

Lemma new_fresh : fresh_flights new_state.
Proof.
  unfold fresh_flights, slot_at, new_state. cbn. setoid_rewrite lookup_empty. cbn. repeat split; try discriminate; set_solver.
Qed.

Lemma run_air key f st ev : flight (slot_at key st) = Some f -> flight (slot_at key (run st ev)) = Some f \/ f ∈ landed (run st ev).
Proof.
  intros Hf. destruct (decide (of_others f ev)) as [Ho|Ho]; [left; apply (kept_flight f key [ev] st Hf); repeat constructor; exact Ho|].
  destruct ev as [|audience scope g k t1 t2 t3|]; cbn in Ho; try (exfalso; apply Ho; exact I).
  assert (g = f) as -> by (destruct (decide (g = f)); tauto). cbn [WtClient.run].
  destruct (requestKey audience scope) as [[key' actions]|]; [|auto]. destruct (bool_decide _); [|auto]. right.
  pose proof (finish_slot key' f (exchange audience actions k) t1 t2 t3 st) as Hl. cbv zeta in Hl. destruct (finish key' f _ t1 t2 t3 st) as [r st'].
  destruct Hl as (_ & _ & H3 & _). cbn [snd]. rewrite H3. set_solver.
Qed.

(** A flight in the air stays in its slot until it has landed. *)
Lemma in_the_air key f tr st : fresh_flights st -> flight (slot_at key st) = Some f -> f ∉ landed (exec tr st) ->
  flight (slot_at key (exec tr st)) = Some f.
Proof.
  revert st. induction tr as [|ev tr IH]; intros st Hi Hf Hn; [exact Hf|]. cbn [WtClient.exec foldl] in *. destruct (run_fresh st ev Hi) as [Hi' _].
  apply IH; [exact Hi' | | exact Hn]. destruct (run_air key f st ev Hf) as [|Hl]; [assumption|]. exfalso. apply Hn.
  destruct (exec_fresh _ tr Hi') as [_ Hs]. apply Hs, Hl.
Qed.

Lemma Token_waiting audience scope key actions rounds : requestKey audience scope = Ok (key, actions) -> forall st st',
  fresh_flights st ->
  Token_loop SimpleFold ParseMediaType subject cfg audience key scope actions rounds st = (None, st') ->
  size (landed st) + length rounds <= size (landed st') \/
  exists f, flight (slot_at key st') = Some f /\ f ∉ landed st'.
Proof.
  intros Hk. induction rounds as [|r rounds IH]; intros st st' Hi H; cbn [Token_loop] in H; [injection H as <-; left; cbn; lia|].
  destruct (exec_fresh _ (before r) Hi) as [Hi1 Hs1]. set (st1 := exec (before r) st) in *.
  pose proof (look_slot key (now r) st1) as Hl. cbv zeta in Hl. destruct (run_fresh st1 (Look audience scope (now r)) Hi1) as [Hi2 Hs2].
  cbn [WtClient.run] in Hi2, Hs2. rewrite Hk in Hi2, Hs2. destruct (look key (now r) st1) as [[token|f|cause|f] st2]; cbn [snd] in Hi2, Hs2; try discriminate H.
  2: { cbv zeta in H. destruct (finish key f _ _ _ _ _) as [[]]; discriminate H. }
  destruct Hl as (Hsl & _ & _ & _ & Hf). destruct (cancelled r); [discriminate H|]. cbv zeta in H.
  assert (Hf2 : flight (slot_at key st2) = Some f) by (rewrite Hsl; exact Hf).
  destruct (exec_fresh _ (meanwhile r) Hi2) as [Hi3 Hs3]. destruct (bool_decide_reflect (f ∈ landed (exec (meanwhile r) st2))) as [Hin|Hin].
  - apply (IH _ _ Hi3) in H as [Hsz|Hair]; [left | right; exact Hair]. destruct Hi2 as (I1 & _ & _). destruct (I1 _ _ Hf2) as [_ Hn].
    assert (size (landed st2) < size (landed (exec (meanwhile r) st2))) by (apply subset_size; set_solver).
    assert (size (landed st) <= size (landed st2)) by (apply subseteq_size; set_solver). cbn [length]. lia.
  - injection H as <-. right. exists f. split; [apply in_the_air; assumption | exact Hin].
Qed.
End Client.

(** * Properties of a client made by New *)

Section Made.
Variable SimpleFold : N -> N.
Variable ParseMediaType : string -> option string.
Variable parse : string -> option Client.URL.
Context (c : Config) (cl : client) (Hnew : New parse c = Ok cl).
Notation exchange := (exchange SimpleFold ParseMediaType (subject cl)).
Notation exec := (exec SimpleFold ParseMediaType (subject cl) (cfg cl)).
Notation Token := (Token SimpleFold ParseMediaType (subject cl) (cfg cl)).

(** C35: Token fails closed. Whatever other calls, exchanges and invalidations run before, during and
    after, a token it returns comes from an exchange for the same audience and set of actions that this
    client made, and at a clock reading of the call the check passed it: it is a token of the contract
    for the client's issuer and the asked audience, from its nbf on and before the end of its usable
    window. It never returns anything else: every other outcome is an error, or a call that still waits. *)
Theorem Token_serves_usable tr audience scope rounds token st' :
  Token true true audience scope rounds (exec tr new_state) = (Some (Ok token), st') ->
  exists tr' key actions e t kid claims,
    requestKey audience scope = Ok (key, actions) /\ st' = exec (tr ++ tr') new_state /\
    came_from SimpleFold ParseMediaType (subject cl) (tr ++ tr') key e /\ e_token e = token /\
    (exists r, r ∈ rounds /\ (t = now r \/ t = check_at r \/ t = again_at r)) /\
    contract_token token (issuer (cfg cl)) audience kid claims /\ in_window (cfg cl) e claims t.
Proof.
  unfold WtClient.Token. cbn [negb]. destruct (requestKey audience scope) as [[key actions]|] eqn:Ek; [|discriminate]. intros H.
  destruct (Token_loop_history _ _ _ _ _ _ _ _ _ Ek _ _ _ H) as (tr' & -> & Hs).
  destruct (Hs token eq_refl) as (e & e' & t & Hc & Ht & Hf & Hr). apply checkToken_accepts in Hc as (kid & claims & Hcon & Hw & _).
  rewrite Ht, (came_audience _ _ _ _ _ _ _ _ _ Ek Hf) in Hcon. exists tr', key, actions, e, t, kid, claims. auto 10.
Qed.

(** C38: exchanges are paced. The exchanges of one slot never overlap, and after n failures in a row none
    starts before the last failure's reading plus min(BackoffFloor * 2^(n-1), BackoffCeiling); a good
    exchange or an Invalidate starts the count anew. *)
Theorem flights_paced tr key :
  paced (cfg cl) None 0 zero_time (history SimpleFold ParseMediaType (subject cl) (cfg cl) key new_state tr).
Proof.
  destruct (New_config _ _ _ Hnew) as (_ & _ & Hf & Hc & _). pose proof (history_paced SimpleFold ParseMediaType (subject cl) (cfg cl) key tr new_state) as H.
  unfold slot_paced, slot_at, new_state in H. cbn in H. rewrite lookup_empty in H. apply H; lia.
Qed.

(** C39: no call waits in vain. A turn that finds no exchange in flight for its slot answers; a call that
    still waits does so for an exchange that is in flight now, in its own slot, whose end wakes it, or
    has seen at least as many exchanges end as it made turns. *)
Theorem Token_never_waits_in_vain tr audience scope key actions :
  requestKey audience scope = Ok (key, actions) ->
  (forall rounds st', Token true true audience scope rounds (exec tr new_state) = (None, st') ->
     size (landed (exec tr new_state)) + length rounds <= size (landed st') \/
     exists f, flight (slot_at key st') = Some f /\ f ∉ landed st') /\
  (forall r rounds, flight (slot_at key (exec (tr ++ before r) new_state)) = None ->
     exists a st', Token true true audience scope (r :: rounds) (exec tr new_state) = (Some a, st')).
Proof.
  intros Hk. unfold WtClient.Token. cbn [negb]. rewrite Hk. split.
  - intros rounds st' H. eapply Token_waiting; [exact Hk | | exact H]. apply exec_fresh, new_fresh.
  - intros r rounds Hn. cbn [Token_loop]. rewrite calls_app in Hn. pose proof (look_slot (cfg cl) key (now r) (exec (before r) (exec tr new_state))) as Hl. cbv zeta in Hl.
    destruct (look (cfg cl) key (now r) _) as [[token|f|cause|f] st1]; [eauto | | eauto |].
    + destruct Hl as (_ & _ & _ & _ & Hf). congruence.
    + cbv zeta. destruct (finish _ key f _ _ _ _ _) as [[token|x] st2]; eauto.
Qed.
End Made.

(** ** A sample client *)

Definition sample_subject : Subject := mkSubject subjectKubernetes "/var/run/token".
Definition sample_file (_ : string) : secret_file := mkFile true (Some true) 292 true (Some 0%Z) 1000 true false (wt_token +:+ of_chars [chr 10]).
Definition sample_answer : string := quotes "{'access_token':'" +:+ wt_token +:+
  quotes "','token_type':'bearer','issued_token_type':'urn:ietf:params:oauth:token-type:jwt','expires_in':300}".
Definition sample_call : call :=
  mkCall sample_file true (fun _ => Answer 200 "application/json" sample_answer false) (seconds 1000) targets.
Definition sample_url (_ : string) : option Client.URL :=
  Some (Client.mkURL "https" "" false "auth.example" "auth.example" "" "" false "" true).
Definition sample_cfg : Config :=
  mkCfg "https://auth.example" false sample_subject (mkTransport false false false) 0%Z (GoFloat.of_int64 0) 0%Z 0%Z 0%Z "https://auth.example".
Definition sample_client : client :=
  mkClient ("https", "auth.example", ExchangePath) false sample_subject (5 * Second)%Z wt_config.
Definition sample_round (t : Z) : round := mkRound [] (seconds t) false [] [] sample_call (seconds t) (seconds t) (seconds t).

Example sample_new : New sample_url sample_cfg = Ok sample_client.
Proof. vm_compute. reflexivity. Qed.

Lemma exchange_exact_witness :
  order sample_call ≡ₚ targets /\
  exchange id Some sample_subject "dev-health-api" [] sample_call = Ok (wt_entry (seconds 1000)) /\
  exists contentType body token seconds, answer_doc id Some contentType body token seconds.
Proof.
  assert (H : exchange id Some sample_subject "dev-health-api" [] sample_call = Ok (wt_entry (seconds 1000))) by (vm_compute; reflexivity).
  split; [reflexivity|]. split; [exact H|].
  destruct (proj1 (proj1 (exchange_exact id Some sample_subject "dev-health-api" [] sample_call ltac:(reflexivity)) _) H) as (ct & b & t & n & _ & _ & Ha & _).
  exists ct, b, t, n. exact Ha.
Defined.

Lemma Token_serves_usable_witness :
  exists st', Token id Some (subject sample_client) (cfg sample_client) true true "dev-health-api" [] [sample_round 1001] (exec id Some (subject sample_client) (cfg sample_client) [] new_state)
    = (Some (Ok wt_token), st') /\
  exists kid claims, contract_token wt_token "https://auth.example" "dev-health-api" kid claims.
Proof.
  eexists. split; [vm_compute; reflexivity|].
  destruct (Token_serves_usable id Some sample_client [] "dev-health-api" [] [sample_round 1001] wt_token _ ltac:(vm_compute; reflexivity))
    as (tr' & key & actions & e & t & kid & claims & _ & _ & _ & _ & _ & Hc & _).
  exists kid, claims. exact Hc.
Defined.

Lemma flights_paced_witness :
  New sample_url sample_cfg = Ok sample_client /\ paced (cfg sample_client) None 0 zero_time
    (history id Some (subject sample_client) (cfg sample_client) "dev-health-api " new_state [Look "dev-health-api" [] (seconds 1000)]).
Proof. split; [vm_compute; reflexivity|]. apply (flights_paced id Some sample_url sample_cfg sample_client sample_new). Defined.

Lemma Token_never_waits_in_vain_witness :
  requestKey "dev-health-api" [] = Ok ("dev-health-api ", []) /\
  exists a st', Token id Some (subject sample_client) (cfg sample_client) true true "dev-health-api" [] [sample_round 1001] (exec id Some (subject sample_client) (cfg sample_client) [] new_state) = (Some a, st').
Proof.
  assert (Hk : requestKey "dev-health-api" [] = Ok ("dev-health-api ", [])) by (vm_compute; reflexivity). split; [exact Hk|].
  apply (proj2 (Token_never_waits_in_vain id Some sample_client [] "dev-health-api" [] _ _ Hk)). vm_compute. reflexivity.
Defined.

End WtClientSpec.
