(* ===== verification/WtTransport.v ===== *)
(** The token transport of src/workloadtoken/transport.go: the request it builds, and RoundTrip.

    url.Parse, strings.ToLower (its Unicode table) and the case-folding table are arguments, as are the
    path of a URL in escaped form, the token of the call (WtClient.Token) and what the next transport
    gives. A body is a value that is only passed on. *)
From S2P Require Import Prelude Utf8 GoStrings WtToken WtExchange WtClient.

Module WtTransport.
Import GoStrings WtToken WtExchange WtClient.

Definition sentMethods : list string := ["GET"; "HEAD"; "POST"; "PUT"; "PATCH"; "DELETE"].
Definition forwardedHeaders : list string := ["Accept"; "Content-Type"; "User-Agent"; "X-Request-Id"; "Traceparent"; "Tracestate"].

(** ** URLs *)

(** A *url.URL, with its EscapedPath. *)
Record URL := mkURL { Scheme : string; Opaque : string; HasUser : bool; Host : string; EscapedPath : string; RawQuery : string }.

(** net/url's splitHostPort: the last colon with digits or nothing after it, and the brackets. *)
Fixpoint last_colon (l : list ascii) : option (list ascii * list ascii) :=
  match l with
  | [] => None
  | c :: r => match last_colon r with
              | Some (h, p) => Some (c :: h, p)
              | None => if Ascii.eqb c ":" then Some ([], r) else None
              end
  end.
Definition unbracket (l : list ascii) : list ascii :=
  match l, rev l with
  | c :: r, d :: _ => if Ascii.eqb c "[" && Ascii.eqb d "]" && (2 <=? length l) then removelast r else l
  | _, _ => l
  end.
Definition splitHostPort (hostPort : string) : string * string :=
  match last_colon (chars hostPort) with
  | Some (h, p) => if forallb (in_range "0" "9") p then (of_chars (unbracket h), of_chars p) else (of_chars (unbracket (chars hostPort)), EmptyString)
  | None => (of_chars (unbracket (chars hostPort)), EmptyString)
  end.
Definition Hostname (u : URL) : string := (splitHostPort (Host u)).1.
Definition Port (u : URL) : string := (splitHostPort (Host u)).2.

Definition JoinHostPort (host port : string) : string :=
  if existsb (fun c => Ascii.eqb c ":") (chars host) then "[" +:+ host +:+ "]:" +:+ port else host +:+ ":" +:+ port.

Section Transport.
Variable ToLower : string -> string.
Variable SimpleFold : N -> N.
Variable parse : string -> option URL.

Definition origin (u : URL) : string :=
  let port := Port u in
  let port := if String.eqb port "" then (if String.eqb (Scheme u) "https" then "443" else if String.eqb (Scheme u) "http" then "80" else EmptyString) else port in
  Scheme u +:+ "://" +:+ JoinHostPort (ToLower (Hostname u)) port.

(** ** Requests *)

Section Body.
Context {B : Type}.

(** The caller's request; the header's entries are in the order that ranging over the map takes.
    [hop] is set for a redirect hop (req.Response). *)
Record request := mkRequest {
  r_URL : option URL; hop : bool; Method : string; r_Host : string; r_Header : list (string * list string);
  Body : B; ContentLength : Z; Close : bool }.

Record sent_request := mkSent {
  s_Method : string; s_URL : URL; s_Host : string; s_Header : gmap string (list string); s_Body : B; s_ContentLength : Z; s_Close : bool }.

Record bearerTransport := mkBearer { scheme : string; host : string; t_origin : string; t_audience : string; t_scope : list string }.

(** Transport; [base] is the target that baseURL gave. *)
Definition Transport (ready : bool) (next : transport) (base : option URL) (audience : string) (scope : list string) : option bearerTransport :=
  if negb ready then None
  else if negb (CheckTransport next) then None
  else match base with
  | None => None
  | Some base =>
      match requestKey audience scope with
      | Err _ => None
      | Ok _ => Some (mkBearer (Scheme base) (Host base) (origin base) audience scope)
      end
  end.

(** One turn of the loop over the caller's header. *)
Definition forward (key : string) (values : list string) (header : gmap string (list string)) : gmap string (list string) :=
  foldl (fun h name => if EqualFold SimpleFold key name then <[name := default [] (h !! name) ++ values]> h else h) header forwardedHeaders.
Definition forward_all (entries : list (string * list string)) : gmap string (list string) :=
  foldl (fun h kv => forward kv.1 kv.2 h) ∅ entries.

Definition with_query (u : URL) (q : string) : URL := mkURL (Scheme u) (Opaque u) (HasUser u) (Host u) (EscapedPath u) q.

Definition build (t : bearerTransport) (req : request) : option sent_request :=
  match r_URL req with
  | None => None
  | Some u =>
      if hop req || negb (String.eqb (Opaque u) "") || HasUser u then None
      else
        let method := if String.eqb (Method req) "" then "GET" else Method req in
        if negb (contains sentMethods method) then None
        else if (negb (String.eqb (Scheme u) "") || negb (String.eqb (Host u) "")) && negb (String.eqb (origin u) (t_origin t)) then None
        else if negb (String.eqb (r_Host req) "") && negb (String.eqb (origin (mkURL (scheme t) "" false (r_Host req) "" "")) (t_origin t)) then None
        else
          let path := if String.eqb (EscapedPath u) "" then "/" else EscapedPath u in
          if negb (String.prefix "/" path) then None
          else match parse (scheme t +:+ "://" +:+ host t +:+ path) with
          | None => None
          | Some target =>
              Some (mkSent method (with_query target (RawQuery u)) (host t) (forward_all (r_Header req)) (Body req) (ContentLength req) (Close req))
          end
  end.

(** ** RoundTrip *)

(** What the next transport gives: an error that errors.Is and errors.As tell apart, no response, or a
    response. *)
Inductive next_result (R : Type) := NextError (canceled deadline timeout : bool) | NextNil | NextResponse (resp : R).
#[global] Arguments NextError {R}.
#[global] Arguments NextNil {R}.
#[global] Arguments NextResponse {R}.

Inductive resource_cause := Canceled | DeadlineExceeded | ResourceTimeout | Opaque_.
Inductive trip_error := ErrRequestRefused (cause : option token_error) | ErrResourceTransport (cause : resource_cause).

Definition resourceError (canceled deadline timeout : bool) : trip_error :=
  ErrResourceTransport (if canceled then Canceled else if deadline then DeadlineExceeded else if timeout then ResourceTimeout else Opaque_).

Definition authorize (out : sent_request) (token : string) : sent_request :=
  mkSent (s_Method out) (s_URL out) (s_Host out) (<["Authorization" := ["Bearer " +:+ token]]> (s_Header out)) (s_Body out) (s_ContentLength out) (s_Close out).

(** RoundTrip: the request handed to next, if any; whether the caller's body is closed here; the result.
    [token] is what Token gives for the transport's audience and scope. *)
Definition RoundTrip {R : Type} (t : bearerTransport) (req : option request) (token : result token_error string)
    (next : sent_request -> next_result R) : option sent_request * bool * result trip_error R :=
  match req with
  | None => (None, false, Err (ErrRequestRefused None))
  | Some req =>
      match build t req with
      | None => (None, true, Err (ErrRequestRefused None))
      | Some out =>
          match token with
          | Err e => (None, true, Err (ErrRequestRefused (Some e)))
          | Ok token =>
              let out := authorize out token in
              (Some out, false,
               match next out with
               | NextError canceled deadline timeout => Err (resourceError canceled deadline timeout)
               | NextNil => Err (ErrResourceTransport Opaque_)
               | NextResponse resp => Ok resp
               end)
          end
      end
  end.
End Body.
#[global] Arguments request : clear implicits.
#[global] Arguments sent_request : clear implicits.

(** * What is forwarded *)

(** The values of the caller's headers that fold to [name], in order. *)
Definition folded_values (name : string) (entries : list (string * list string)) : list string :=
  concat (map snd (List.filter (fun kv => EqualFold SimpleFold kv.1 name) entries)).

Lemma forward_lookup key values names : NoDup names -> forall header name,
  foldl (fun h n => if EqualFold SimpleFold key n then <[n := default [] (h !! n) ++ values]> h else h) header names !! name =
  if bool_decide (name ∈ names) && EqualFold SimpleFold key name then Some (default [] (header !! name) ++ values) else (header : gmap string (list string)) !! name.
Proof.
  induction names as [|n names IH]; intros Hnd header name; cbn [foldl]; [reflexivity|]. apply NoDup_cons in Hnd as [Hn Hnd]. rewrite (IH Hnd).
  destruct (decide (name = n)) as [->|Hne].
  - rewrite (bool_decide_eq_false_2 (n ∈ names)), (bool_decide_eq_true_2 (n ∈ n :: names)) by (assumption || left). cbn [andb].
    destruct (EqualFold SimpleFold key n); [apply lookup_insert_eq | reflexivity].
  - assert (Hl : (if EqualFold SimpleFold key n then <[n := default [] (header !! n) ++ values]> header else header) !! name = header !! name)
      by (destruct (EqualFold SimpleFold key n); [apply lookup_insert_ne; congruence | reflexivity]).
    rewrite Hl. rewrite (bool_decide_ext (name ∈ n :: names) (name ∈ names)); [reflexivity|]. rewrite elem_of_cons. tauto.
Qed.

Lemma forwardedHeaders_NoDup : NoDup forwardedHeaders.
Proof. apply (bool_decide_unpack (NoDup forwardedHeaders)). vm_compute. exact I. Qed.

(** A forwarded name holds the values of every spelling of it, in order; no other name is there. *)
Lemma forward_all_lookup entries name :
  forward_all entries !! name =
  if bool_decide (name ∈ forwardedHeaders) && existsb (fun kv => EqualFold SimpleFold kv.1 name) entries then Some (folded_values name entries) else None.
Proof.
  unfold forward_all. rewrite <-(rev_involutive entries). generalize (rev entries). clear entries. intros l. induction l as [|[k vs] l IH].
  { cbn. rewrite andb_false_r. apply lookup_empty. }
  cbn [rev]. rewrite foldl_snoc. unfold forward at 1. rewrite forward_lookup by exact forwardedHeaders_NoDup. rewrite IH. cbn [fst snd].
  rewrite existsb_app. cbn [existsb]. rewrite orb_false_r. unfold folded_values. rewrite List.filter_app, map_app, concat_app. cbn [List.filter fst].
  destruct (bool_decide (name ∈ forwardedHeaders)); cbn [andb]; [|reflexivity].
  destruct (EqualFold SimpleFold k name); cbn [map concat snd].
  - rewrite orb_true_r, app_nil_r. destruct (existsb _ (rev l)) eqn:Ee; [reflexivity|]. cbn. f_equal. f_equal.
    enough (List.filter (fun kv : string * list string => EqualFold SimpleFold kv.1 name) (rev l) = []) as -> by reflexivity.
    clear IH. induction (rev l) as [|x r IHr]; [reflexivity|]. cbn [existsb List.filter] in *. apply orb_false_iff in Ee as [-> Ee]. apply IHr, Ee.
  - rewrite orb_false_r, app_nil_r. reflexivity.
Qed.

(** * Properties *)

Section Props.
Context {B R : Type}.

(** What RoundTrip may hand to the next transport for the caller's request [req]. *)
Record only_ours (t : bearerTransport) (req : request B) (token : string) (out : sent_request B) : Prop := {
  oo_method : s_Method out ∈ sentMethods;
  oo_origin : exists u, r_URL req = Some u /\ hop req = false /\ HasUser u = false /\ Opaque u = "" /\
    (Scheme u = "" /\ Host u = "" \/ origin u = t_origin t) /\ s_Host out = host t /\
    exists path, String.prefix "/" path = true /\ (path = EscapedPath u \/ path = "/" /\ EscapedPath u = "") /\
      exists target, parse (scheme t +:+ "://" +:+ host t +:+ path) = Some target /\ s_URL out = with_query target (RawQuery u);
  oo_authorization : s_Header out !! "Authorization" = Some ["Bearer " +:+ token];
  oo_headers : forall name values, name <> "Authorization" -> s_Header out !! name = Some values ->
    name ∈ forwardedHeaders /\ values = folded_values name (r_Header req);
}.

Lemma build_ours t req token out : build t req = Some out -> only_ours t req token (@authorize B out token).
Proof.
  intros H. unfold build in H. destruct (r_URL req) as [u|] eqn:Eu; [|discriminate]. cbv zeta in H.
  set (path := if String.eqb (EscapedPath u) "" then "/" else EscapedPath u) in *.
  do 5 (match type of H with (if ?b then _ else _) = _ => destruct b eqn:?; [discriminate|] end).
  destruct (parse _) as [target|] eqn:Ep; [|discriminate]. injection H as <-. simp_bool. split.
  - assumption.
  - exists u. repeat (split; [assumption || reflexivity|]). split.
    { match goal with E : (_ || _) && negb _ = false |- _ => apply andb_false_iff in E as [E|E] end;
        [left; simp_bool; auto | right; simp_bool; assumption]. }
    split; [reflexivity|]. exists path. split; [assumption|]. split.
    { unfold path. destruct (String.eqb_spec (EscapedPath u) ""); auto. }
    exists target. auto.
  - apply lookup_insert_eq.
  - intros name values Hne. cbn. rewrite lookup_insert_ne by congruence. rewrite forward_all_lookup.
    destruct (bool_decide_reflect (name ∈ forwardedHeaders)) as [Hin|]; cbn [andb]; [|discriminate].
    destruct (existsb _ _); [intros [= <-]; auto | discriminate].
Qed.

(** C37: the token goes to its target only. RoundTrip hands the next transport at most one request, and
    only when the caller's request is for the target and a usable token was had: its method is one of
    six, its URL is the fixed origin with the caller's path and query, its Host the target's; it holds
    exactly one Authorization, the bearer token; and of the caller's headers only the forwarded ones,
    in every spelling and with all their values in order. In particular no credential, cookie or
    proxy header of the caller is sent on. Otherwise the request is refused, nothing is sent and the
    body is closed. *)
Theorem RoundTrip_sends_only_ours t req token next sent closed (result : result trip_error R) :
  RoundTrip t (Some req) token next = (sent, closed, result) ->
  match sent with
  | Some out => exists tok, token = Ok tok /\ only_ours t req tok out /\ closed = false /\
      (forall resp, result = Ok resp <-> next out = NextResponse resp)
  | None => closed = true /\ exists cause, result = Err (ErrRequestRefused cause) /\
      (build t req = None /\ cause = None \/ exists e, token = Err e /\ cause = Some e)
  end.
Proof.
  unfold RoundTrip. destruct (build t req) as [out|] eqn:Eb; [|intros [= <- <- <-]; eauto 10].
  destruct token as [tok|e]; intros [= <- <- <-]; [|eauto 10]. exists tok. split; [reflexivity|]. split; [apply build_ours, Eb|]. split; [reflexivity|].
  intros resp. destruct (next _) as [a b d| |r]; unfold resourceError; split; intros H; simplify_eq; reflexivity.
Qed.
End Props.
End Transport.

(** ** A sample *)

Definition sample_target : URL := mkURL "https" "" false "api.example" "" "".
Definition sample_bearer : bearerTransport := mkBearer "https" "api.example" "https://api.example:443" "dev-health-api" [].
Definition sample_parse (s : string) : option URL := Some (mkURL "https" "" false "api.example" (Utf8.drop 19 s) "").
Definition sample_request : request string :=
  mkRequest (Some (mkURL "https" "" false "api.example:443" "/v1/x" "q=1")) false "" "api.example"
    [("accept", ["a"]); ("Cookie", ["c"]); ("Authorization", ["Basic x"]); ("Accept", ["b"])] "body" 4 false.

Example sample_trip : exists out, (RoundTrip id id sample_parse sample_bearer (Some sample_request) (Ok "tok") (fun _ => NextResponse tt)) = (Some out, false, Ok tt) /\
  s_Method out = "GET" /\ s_Header out = {[ "Accept" := ["a"; "b"]; "Authorization" := ["Bearer tok"] ]} /\ s_URL out = mkURL "https" "" false "api.example" "/v1/x" "q=1".
Proof. eexists. split; [vm_compute; reflexivity|]. repeat split; vm_compute; reflexivity. Qed.

Lemma RoundTrip_sends_only_ours_witness :
  exists out, RoundTrip id id sample_parse sample_bearer (Some sample_request) (Ok "tok") (fun _ => NextResponse tt) = (Some out, false, Ok tt) /\
    s_Header out !! "Authorization" = Some ["Bearer tok"].
Proof.
  eexists. split; [vm_compute; reflexivity|].
  destruct (RoundTrip_sends_only_ours id id sample_parse sample_bearer sample_request (Ok "tok") (fun _ => NextResponse tt) _ _ _ ltac:(vm_compute; reflexivity))
    as (tok & E & Ho & _).
  injection E as <-. exact (oo_authorization _ _ _ _ _ _ _ Ho).
Defined.

End WtTransport.
