(* ===== verification/GoFormat.v ===== *)
(** time.Time.Format for the layout of src/clickhouse/bindings.go, and the calendar date of an instant;
    strconv.FormatInt. The text of an instant reads back as the instant at its millisecond. *)
From S2P Require Import Prelude Decimal GoTime.

Module GoFormat.
Import Decimal GoTime.
Local Open Scope Z_scope.

(** ** Dates *)

(** The civil date of a day counted from 1 January 1970, proleptic Gregorian: the year from the day of
    the 400-year era, which starts on 1 March. *)
Definition civil_from_days (days : Z) : Z * Z * Z :=
  let z := days + 719468 in
  let era := z / 146097 in
  let doe := z mod 146097 in
  let yoe := (doe - doe / 1460 + doe / 36524 - doe / 146096) / 365 in
  let doy := doe - (365 * yoe + yoe / 4 - yoe / 100) in
  let mp := (5 * doy + 2) / 153 in
  let d := doy - (153 * mp + 2) / 5 + 1 in
  let m := if mp <? 10 then mp + 3 else mp - 9 in
  (yoe + era * 400 + (if m <=? 2 then 1 else 0), m, d).

Definition clock (wall : Z) : Z * Z * Z * Z :=
  let ns := wall mod (24 * Hour) in
  (ns / Hour, ns mod Hour / Minute, ns mod Minute / Second, ns mod Second).

(** ** Text *)

(** appendInt(b, x, width): a sign, then at least [width] digits. *)
Definition zeros (n : nat) : string := of_chars (repeat ("0"%char : ascii) n).
Definition pad (width : nat) (x : Z) : string :=
  let s := pretty (Z.to_N (Z.abs x)) in
  (if x <? 0 then "-" else "") +:+ zeros (width - String.length s) +:+ s.

(** t.UTC().Format("2006-01-02 15:04:05.000"): the fraction is cut, not rounded. *)
Definition FormatMillis (t : Time) : string :=
  let '(y, m, d) := civil_from_days (wall t / (24 * Hour)) in
  let '(h, mi, s, ns) := clock (wall t) in
  pad 4 y +:+ "-" +:+ pad 2 m +:+ "-" +:+ pad 2 d +:+ " " +:+ pad 2 h +:+ ":" +:+ pad 2 mi +:+ ":" +:+ pad 2 s +:+ "." +:+ pad 3 (ns / 1000000).

(** strconv.FormatInt(i, 10) and strconv.FormatUint(i, 10). *)
Definition FormatInt (i : Z) : string := (if i <? 0 then "-" else "") +:+ pretty (Z.to_N (Z.abs i)).

Example format_utc : FormatMillis (at_ns 1783681200123456789) = "2026-07-10 11:00:00.123".
Proof. vm_compute. reflexivity. Qed.
Example format_before_epoch : FormatMillis (at_ns (-1)) = "1969-12-31 23:59:59.999".
Proof. vm_compute. reflexivity. Qed.
Example format_int : FormatInt min_int64 = "-9223372036854775808" /\ FormatInt 0 = "0".
Proof. split; vm_compute; reflexivity. Qed.

(** The instant a text of that layout names, with a year of four digits. *)
Definition read_millis (s : string) : Z :=
  Date (field 0 4 s) (field 5 2 s) (field 8 2 s) (field 11 2 s) (field 14 2 s) (field 17 2 s) (field 20 3 s * 1000000).

(** ** The date of a day *)

Lemma year_of_era doe : 0 <= doe < 146097 ->
  let yoe := (doe - doe / 1460 + doe / 36524 - doe / 146096) / 365 in
  0 <= yoe < 400 /\ 0 <= doe - (365 * yoe + yoe / 4 - yoe / 100) <= 365.
Proof. intros H. cbv zeta. Z.div_mod_to_equations. lia. Qed.

Lemma civil_from_days_spec days : let '(y, m, d) := civil_from_days days in
  days_from_civil y m d = days /\ 1 <= m <= 12 /\ 1 <= d <= 31.
Proof.
  unfold civil_from_days. pose proof (Z.mod_pos_bound (days + 719468) 146097 ltac:(lia)) as Hd.
  pose proof (Z.div_mod (days + 719468) 146097 ltac:(lia)) as Hz.
  destruct (year_of_era _ Hd) as [Hy Hdoy].
  set (era := (days + 719468) / 146097) in *. set (doe := (days + 719468) mod 146097) in *.
  set (yoe := (doe - doe / 1460 + doe / 36524 - doe / 146096) / 365) in *.
  remember (doe - (365 * yoe + yoe / 4 - yoe / 100)) as doy eqn:Edoy.
  assert (Hmp : 0 <= (5 * doy + 2) / 153 <= 11) by (Z.div_mod_to_equations; lia).
  assert (Hday : 1 <= doy - (153 * ((5 * doy + 2) / 153) + 2) / 5 + 1 <= 31) by (Z.div_mod_to_equations; lia).
  remember ((5 * doy + 2) / 153) as mp eqn:Emp. clear Emp.
  set (m := if mp <? 10 then mp + 3 else mp - 9).
  assert (Hm : 1 <= m <= 12 /\ (m + 9) mod 12 = mp) by (unfold m; destruct (Z.ltb_spec mp 10); Z.div_mod_to_equations; lia).
  destruct Hm as [Hm Emp]. split; [|lia]. unfold days_from_civil. rewrite Emp.
  assert (Ey : (if m <=? 2 then yoe + era * 400 + (if m <=? 2 then 1 else 0) - 1 else yoe + era * 400 + (if m <=? 2 then 1 else 0)) = yoe + era * 400)
    by (destruct (m <=? 2); lia).
  rewrite Ey.
  rewrite (Z.div_add yoe era 400), (Z.div_small yoe 400) by lia.
  replace (yoe + era * 400 - (0 + era) * 400) with yoe by lia. lia.
Qed.

(** ** Digits *)

Lemma dec_zeros n s : dec (zeros n +:+ s) = dec s.
Proof. induction n as [|n IH]; [reflexivity | exact IH]. Qed.

Lemma pad_dec w x : 0 <= x -> dec (pad w x) = x.
Proof.
  intros H. unfold pad. destruct (Z.ltb_spec x 0); [lia|]. rewrite str_app_nil, dec_zeros, dec_pretty. lia.
Qed.

Lemma length_zeros n : String.length (zeros n) = n.
Proof. unfold zeros. rewrite <-length_chars, chars_of_chars, repeat_length. reflexivity. Qed.

Lemma pad_length w x : 0 <= x -> (String.length (pretty (Z.to_N x)) <= w)%nat -> String.length (pad w x) = w.
Proof.
  intros H Hw. unfold pad. destruct (Z.ltb_spec x 0); [lia|]. rewrite Z.abs_eq by exact H. rewrite str_app_nil, str_length_app, length_zeros. lia.
Qed.

(** Numbers below 10, 100, 1000 and 10000, by running the printer on each. *)
Lemma pretty_short w x : (1 <= w <= 4)%nat -> 0 <= x < 10 ^ Z.of_nat w -> (String.length (pretty (Z.to_N x)) <= w)%nat.
Proof.
  intros Hw Hx. apply Nat.leb_le. assert (Hn : (Z.to_N x < N.of_nat (Nat.pow 10 w))%N).
  { rewrite Nat2N.inj_pow. apply N2Z.inj_lt. rewrite Z2N.id, N2Z.inj_pow, !nat_N_Z by lia. apply Hx. }
  revert Hn. generalize (Z.to_N x). apply (below_run (fun n => Nat.leb (String.length (pretty n)) w)).
  do 5 (destruct w as [|w]; [try lia; vm_compute; reflexivity|]). lia.
Qed.

(** A field of a text that starts after [pre]. *)
Lemma substring_skip pre s n len : String.length pre = n -> String.substring n len (pre +:+ s) = String.substring 0 len s.
Proof. intros <-. induction pre as [|c pre IH]; [reflexivity | exact IH]. Qed.

Lemma substring_whole a s : String.substring 0 (String.length a) (a +:+ s) = a.
Proof. induction a as [|c a IH]; [destruct s; reflexivity|]. rewrite str_app_cons. simpl. rewrite IH. reflexivity. Qed.

Lemma field_of pre a s pos len : String.length pre = pos -> String.length a = len -> field pos len (pre +:+ a +:+ s) = dec a.
Proof. intros Hp <-. unfold field. rewrite (substring_skip pre _ _ _ Hp), substring_whole. reflexivity. Qed.

(** ** The round trip *)

Lemma clock_spec wall : let '(h, mi, s, ns) := clock wall in
  wall = ((wall / (24 * Hour) * 24 + h) * 60 + mi) * 60 * Second + s * Second + ns /\ 0 <= h < 24 /\ 0 <= mi < 60 /\ 0 <= s < 60 /\ 0 <= ns < Second.
Proof. unfold clock, Hour, Minute, Second. Z.div_mod_to_equations. lia. Qed.

(** The year of an instant, as its text shows it. *)
Definition Year (t : Time) : Z := (civil_from_days (wall t / (24 * Hour))).1.1.

Lemma read_FormatMillis t : 0 <= Year t <= 9999 -> read_millis (FormatMillis t) = wall t / 1000000 * 1000000.
Proof.
  unfold Year, FormatMillis. pose proof (civil_from_days_spec (wall t / (24 * Hour))) as Hc.
  destruct (civil_from_days _) as [[y m] d]. destruct Hc as (Hdays & Hm & Hd). cbn [fst]. intros Hy.
  pose proof (clock_spec (wall t)) as Hk. destruct (clock (wall t)) as [[[h mi] s] ns]. destruct Hk as (Hw & Hh & Hmi & Hs & Hns).
  assert (L : forall w x, (1 <= w <= 4)%nat -> 0 <= x < 10 ^ Z.of_nat w -> String.length (pad w x) = w)
    by (intros w x Hwx Hx; apply pad_length; [lia | apply pretty_short; assumption]).
  pose proof (L 4%nat y ltac:(lia) ltac:(simpl; lia)) as Ly. pose proof (L 2%nat m ltac:(lia) ltac:(simpl; lia)) as Lm.
  pose proof (L 2%nat d ltac:(lia) ltac:(simpl; lia)) as Ld. pose proof (L 2%nat h ltac:(lia) ltac:(simpl; lia)) as Lh.
  pose proof (L 2%nat mi ltac:(lia) ltac:(simpl; lia)) as Lmi. pose proof (L 2%nat s ltac:(lia) ltac:(simpl; lia)) as Ls.
  assert (Hms : 0 <= ns / 1000000 < 1000) by (unfold Second in Hns; Z.div_mod_to_equations; lia).
  pose proof (L 3%nat (ns / 1000000) ltac:(lia) ltac:(simpl; lia)) as Lns.
  unfold read_millis. set (text := _ +:+ _).
  assert (F : forall pre w x post pos, text = pre +:+ pad w x +:+ post -> 0 <= x -> String.length (pad w x) = w -> String.length pre = pos ->
    field pos w text = x).
  { intros pre w x post pos E Hx Hl Hp. rewrite E, (field_of _ _ _ _ _ Hp Hl). apply pad_dec, Hx. }
  set (pre2 := pad 4 y +:+ "-"). set (pre3 := pre2 +:+ pad 2 m +:+ "-"). set (pre4 := pre3 +:+ pad 2 d +:+ " ").
  set (pre5 := pre4 +:+ pad 2 h +:+ ":"). set (pre6 := pre5 +:+ pad 2 mi +:+ ":"). set (pre7 := pre6 +:+ pad 2 s +:+ ".").
  assert (Lp : String.length pre7 = 20%nat /\ String.length pre6 = 17%nat /\ String.length pre5 = 14%nat /\ String.length pre4 = 11%nat /\
    String.length pre3 = 8%nat /\ String.length pre2 = 5%nat).
  { unfold pre7, pre6, pre5, pre4, pre3, pre2. rewrite !str_length_app, Ly, Lm, Ld, Lh, Lmi, Ls. auto 10. }
  destruct Lp as (L7 & L6 & L5 & L4 & L3 & L2).
  set (post6 := "." +:+ pad 3 (ns / 1000000)). set (post5 := ":" +:+ pad 2 s +:+ post6). set (post4 := ":" +:+ pad 2 mi +:+ post5).
  set (post3 := " " +:+ pad 2 h +:+ post4). set (post2 := "-" +:+ pad 2 d +:+ post3). set (post1 := "-" +:+ pad 2 m +:+ post2).
  assert (T : text = pre2 +:+ pad 2 m +:+ post2 /\ text = pre3 +:+ pad 2 d +:+ post3 /\ text = pre4 +:+ pad 2 h +:+ post4 /\
    text = pre5 +:+ pad 2 mi +:+ post5 /\ text = pre6 +:+ pad 2 s +:+ post6 /\ text = pre7 +:+ pad 3 (ns / 1000000) +:+ "").
  { unfold pre7, pre6, pre5, pre4, pre3, pre2. rewrite str_app_nil_r, !str_app_assoc. auto 10. }
  destruct T as (T2 & T3 & T4 & T5 & T6 & T7).
  rewrite (F "" 4%nat y post1), (F pre2 2%nat m post2), (F pre3 2%nat d post3), (F pre4 2%nat h post4), (F pre5 2%nat mi post5), (F pre6 2%nat s post6),
    (F pre7 3%nat (ns / 1000000) "") by (assumption || reflexivity || lia).
  unfold Date. rewrite Hdays. revert Hw Hns. generalize (wall t / (24 * Hour)). unfold Second. clear. intros q Hw Hns. rewrite Hw at 1. clear Hw. Z.div_mod_to_equations. lia.
Qed.
End GoFormat.
