(* ===== verification/ChBindings.v ===== *)
(** The parameters of a read-only ClickHouse statement: src/clickhouse/bindings.go.

    A Binding's value is a Go interface; what the code tells apart of it is [Value]. The server's reader
    of an Array(String) parameter, as the source's comments describe it, is [read_array]: it is only
    used to state that what the encoder writes reads back. *)
From S2P Require Import Prelude Regex Decimal GoTime GoFormat.

Module ChBindings.
Import Decimal GoTime GoFormat.

(** The errors of client.go that a binding can give. *)
Inductive binding_error := ErrInvalidBinding | ErrUnsupportedBinding | ErrUnsafeBindingValue.
#[global] Instance binding_error_eq_dec : EqDecision binding_error.
Proof. solve_decision. Defined.

(** A Go value by its dynamic type: nil, time.Time, []string, then by reflect kind: a string, an
    unsigned or a signed integer of any width (reflect widens them to 64 bits), another slice or an
    array, or anything else. *)
Inductive Value :=
| VNil
| VTime (t : Time)
| VStrings (l : list string)
| VString (s : string)
| VUint (n : Z)
| VInt (n : Z)
| VList
| VOther.

Record Binding := mkBinding { Name : string; Val : Value }.

(** bindingName: ^[A-Za-z_][A-Za-z0-9_]*$. *)
Definition bindingName : re := RSeq (cls "A-Za-z_") (star (cls "A-Za-z0-9_")).

(** strings.ReplaceAll(value, one quote, two quotes). *)
Fixpoint double_quotes (l : list ascii) : list ascii :=
  match l with
  | [] => []
  | c :: r => if Ascii.eqb c squote then squote :: squote :: double_quotes r else c :: double_quotes r
  end.

Definition clickHouseQuotedString (value : string) : result binding_error string :=
  if existsb (Ascii.eqb backslash) (chars value) then Err ErrUnsafeBindingValue
  else Ok (of_chars (double_quotes (chars value))).

(** The loop of clickHouseStringArray: the first value that cannot be encoded ends it. *)
Fixpoint encode_all (values : list string) : result binding_error (list string) :=
  match values with
  | [] => Ok []
  | value :: values =>
      try! quoted := clickHouseQuotedString value in
      try! rest := encode_all values in
      Ok (("'" +:+ quoted +:+ "'") :: rest)
  end.

Definition clickHouseStringArray (values : list string) : result binding_error string :=
  try! encoded := encode_all values in Ok ("[" +:+ Prelude.join "," encoded +:+ "]").

Definition clickHouseParameter (value : Value) : result binding_error string :=
  match value with
  | VNil => Ok "\\N"
  | VTime t => Ok (FormatMillis (UTC t))
  | VStrings l => clickHouseStringArray l
  | VString s => Ok s
  | VUint n | VInt n => Ok (FormatInt n)
  | VList => Err ErrUnsupportedBinding
  | VOther => Err ErrInvalidBinding
  end.

(** The loop of translateBindings, on the map so far. *)
Fixpoint translate (bindings : list Binding) (parameters : gmap string string) : result binding_error (gmap string string) :=
  match bindings with
  | [] => Ok parameters
  | b :: bindings =>
      if negb (matchb bindingName (Name b)) then Err ErrInvalidBinding
      else match parameters !! Name b with
      | Some _ => Err ErrInvalidBinding
      | None => try! value := clickHouseParameter (Val b) in translate bindings (<[Name b := value]> parameters)
      end
  end.
Definition translateBindings (bindings : list Binding) : result binding_error (gmap string string) := translate bindings ∅.

Example nil_is_three_bytes : clickHouseParameter VNil = Ok (of_chars [backslash; backslash; "N"%char]).
Proof. reflexivity. Qed.
Example array_quotes : clickHouseStringArray ["O'Brien's project"; "b,c"; "[a,b]"] = Ok "['O''Brien''s project','b,c','[a,b]']".
Proof. reflexivity. Qed.
Example array_backslash : clickHouseStringArray ["a"; "b\n"] = Err ErrUnsafeBindingValue.
Proof. reflexivity. Qed.
Example time_text : clickHouseParameter (VTime (at_ns 1783681200123456789)) = Ok "2026-07-10 11:00:00.123".
Proof. vm_compute. reflexivity. Qed.
Example name_twice : translateBindings [mkBinding "a" VNil; mkBinding "a" (VInt 1)] = Err ErrInvalidBinding.
Proof. vm_compute. reflexivity. Qed.

(** * The array literal *)

(** Whether every value of a list can be written. *)
Definition safe (s : string) : Prop := free_of backslash s.

Lemma clickHouseQuotedString_iff value q :
  clickHouseQuotedString value = Ok q <-> safe value /\ q = of_chars (double_quotes (chars value)).
Proof.
  unfold clickHouseQuotedString, safe, free_of. destruct (existsb _ _) eqn:E.
  - apply existsb_exists in E as (c & Hc & <-%Ascii.eqb_eq). apply list_elem_of_In in Hc. split; [discriminate | intros [H _]; contradiction].
  - assert (H : backslash ∉ chars value).
    { intros H%list_elem_of_In. assert (Ht : existsb (Ascii.eqb backslash) (chars value) = true); [|congruence].
      apply existsb_exists. exists backslash. split; [exact H | apply Ascii.eqb_refl]. }
    split; [intros [= <-]; auto | intros [_ ->]; reflexivity].
Qed.

(** One element as it is written. *)
Definition quoted (value : string) : string := "'" +:+ of_chars (double_quotes (chars value)) +:+ "'".

Lemma encode_all_iff values l : encode_all values = Ok l <-> Forall safe values /\ l = map quoted values.
Proof.
  revert l. induction values as [|v values IH]; intros l; cbn [encode_all].
  - split; [intros [= <-]; auto | intros [_ ->]; reflexivity].
  - rewrite rbind_ok. setoid_rewrite rbind_ok. setoid_rewrite clickHouseQuotedString_iff. setoid_rewrite IH. rewrite Forall_cons. split.
    + intros (q & [Hv ->] & r & [Hr ->] & [= <-]). auto.
    + intros [[Hv Hr] ->]. eauto 10.
Qed.

Lemma clickHouseStringArray_iff values s :
  clickHouseStringArray values = Ok s <-> Forall safe values /\ s = "[" +:+ Prelude.join "," (map quoted values) +:+ "]".
Proof.
  unfold clickHouseStringArray. rewrite rbind_ok. setoid_rewrite encode_all_iff. split.
  - intros (l & [H ->] & [= <-]). auto.
  - intros [H ->]. eauto.
Qed.

(** ** Its reader *)

(** The server's reader: [escape] is what it makes of the bytes after a backslash, whatever that is. A
    quote in an element is written twice. *)
Section Reader.
Variable escape : list ascii -> option (list ascii * list ascii).

(** The rest of an element after its opening quote: its bytes and what follows its closing quote. *)
Fixpoint read_element (fuel : nat) (l : list ascii) : option (list ascii * list ascii) :=
  match fuel, l with
  | S fuel, c :: r =>
      if Ascii.eqb c backslash then
        match escape r with Some (bytes, r) => option_map (fun p => (bytes ++ p.1, p.2)) (read_element fuel r) | None => None end
      else if Ascii.eqb c squote then
        match r with
        | d :: r' => if Ascii.eqb d squote then option_map (fun p => (squote :: p.1, p.2)) (read_element fuel r') else Some ([], r)
        | [] => Some ([], [])
        end
      else option_map (fun p => (c :: p.1, p.2)) (read_element fuel r)
  | _, _ => None
  end.

(** The elements from an opening quote to the closing bracket, which ends the text. *)
Fixpoint read_elements (fuel : nat) (l : list ascii) : option (list string) :=
  match fuel, l with
  | S fuel, q :: r =>
      if negb (Ascii.eqb q squote) then None
      else match read_element (S (length r)) r with
      | Some (bytes, c :: rest) =>
          if Ascii.eqb c "," then option_map (cons (of_chars bytes)) (read_elements fuel rest)
          else if Ascii.eqb c "]" then match rest with [] => Some [of_chars bytes] | _ => None end
          else None
      | _ => None
      end
  | _, _ => None
  end.

Definition read_array (s : string) : option (list string) :=
  match chars s with
  | o :: r => if negb (Ascii.eqb o "[") then None
              else match r with [c] => if Ascii.eqb c "]" then Some [] else None | _ => read_elements (length r) r end
  | [] => None
  end.

Lemma read_element_quoted value tail fuel :
  safe value -> (forall c r, tail = c :: r -> c <> squote) -> length (double_quotes (chars value)) < fuel ->
  read_element fuel (double_quotes (chars value) ++ squote :: tail) = Some (chars value, tail).
Proof.
  unfold safe, free_of. intros Hs Ht. revert fuel. induction (chars value) as [|c l IH]; intros fuel Hf.
  - destruct fuel as [|fuel]; [simpl in Hf; lia|]. cbn [double_quotes app read_element].
    change (Ascii.eqb squote backslash) with false. rewrite Ascii.eqb_refl. cbn iota. destruct tail as [|d r]; [reflexivity|].
    destruct (Ascii.eqb_spec d squote) as [->|_]; [destruct (Ht _ _ eq_refl eq_refl) | reflexivity].
  - apply not_elem_of_cons in Hs as [Hc Hs]. specialize (IH Hs). cbn [double_quotes] in *. destruct (Ascii.eqb_spec c squote) as [->|Hq].
    + cbn [length] in Hf. destruct fuel as [|fuel]; [lia|]. rewrite <-!app_comm_cons. cbn [read_element].
      change (Ascii.eqb squote backslash) with false. rewrite Ascii.eqb_refl, IH by lia. reflexivity.
    + cbn [length] in Hf. destruct fuel as [|fuel]; [lia|]. cbn [app read_element]. destruct (Ascii.eqb_spec c backslash) as [->|_]; [congruence|].
      destruct (Ascii.eqb_spec c squote); [congruence|]. rewrite IH by lia. reflexivity.
Qed.

Lemma chars_quoted v l : chars (quoted v) ++ l = squote :: double_quotes (chars v) ++ squote :: l.
Proof. unfold quoted. rewrite !chars_app, chars_of_chars. cbn [chars app]. rewrite <-app_assoc. reflexivity. Qed.

Lemma read_elements_joined v values fuel :
  Forall safe (v :: values) -> length values < fuel ->
  read_elements fuel (chars (Prelude.join "," (map quoted (v :: values))) ++ ["]"%char]) = Some (v :: values).
Proof.
  intros H. revert v H fuel. induction values as [|w values IH]; intros v H fuel Hf; apply Forall_cons in H as [Hv H];
    (destruct fuel as [|fuel]; [lia|]).
  - cbn [map Prelude.join]. rewrite chars_quoted. cbn [read_elements]. rewrite Ascii.eqb_refl. cbn [negb].
    rewrite read_element_quoted by (assumption || (intros ? ? [= <- <-]; discriminate) || (rewrite length_app; lia)).
    cbn. rewrite of_chars_chars. reflexivity.
  - cbn [map]. rewrite Prelude.join_cons by discriminate. rewrite !chars_app, <-!app_assoc, chars_quoted. cbn [chars app read_elements].
    rewrite Ascii.eqb_refl. cbn [negb].
    rewrite read_element_quoted by (assumption || (intros ? ? [= <- <-]; discriminate) || (rewrite length_app; lia)).
    change (Ascii.eqb "," ",") with true. cbn iota beta. cbn [length] in Hf. specialize (IH w H fuel ltac:(lia)). cbn [map] in IH. rewrite IH.
    rewrite of_chars_chars. reflexivity.
Qed.
End Reader.


(** Joined elements are longer than they are many, so the reader's fuel is enough. *)
Lemma joined_length v values : length values < length (chars (Prelude.join "," (map quoted (v :: values)))).
Proof.
  revert v. induction values as [|w values IH]; intros v.
  - unfold quoted. cbn [map Prelude.join length]. rewrite chars_app, length_app. cbn [chars length]. lia.
  - cbn [map]. rewrite Prelude.join_cons by discriminate. rewrite !chars_app, !length_app. specialize (IH w). cbn [map] in IH. cbn [length chars]. lia.
Qed.

Lemma encode_all_error values e : encode_all values = Err e -> e = ErrUnsafeBindingValue /\ Exists (fun v => ~ safe v) values.
Proof.
  induction values as [|v values IH]; [discriminate|]. cbn [encode_all]. destruct (clickHouseQuotedString v) as [q|e'] eqn:Eq; cbn [rbind].
  - destruct (encode_all values) as [r|e'']; [discriminate|]. cbn [rbind]. intros [= ->]. destruct (IH eq_refl) as [-> H]. auto.
  - intros [= ->]. split.
    + unfold clickHouseQuotedString in Eq. destruct (existsb _ _); congruence.
    + left. intros Hs. rewrite (proj2 (clickHouseQuotedString_iff v _) (conj Hs eq_refl)) in Eq. discriminate.
Qed.

Lemma array_text escape values :
  match clickHouseStringArray values with
  | Ok text => Forall safe values /\ read_array escape text = Some values
  | Err e => e = ErrUnsafeBindingValue /\ Exists (fun v => ~ safe v) values
  end.
Proof.
  destruct (clickHouseStringArray values) as [text|e] eqn:E.
  - apply clickHouseStringArray_iff in E as [H ->]. split; [exact H|]. unfold read_array. rewrite !chars_app. cbn [chars app].
    change (negb (Ascii.eqb "[" "[")) with false. cbn iota. destruct values as [|v values]; [reflexivity|].
    set (l := chars (Prelude.join "," (map quoted (v :: values))) ++ ["]"%char]).
    assert (Hl : S (length values) < length l) by (unfold l; rewrite length_app; pose proof (joined_length v values); cbn [length]; lia).
    destruct l as [|c [|d r]] eqn:El; [simpl in Hl; lia | simpl in Hl; lia|]. rewrite <-El in *. apply read_elements_joined; [exact H | lia].
  - unfold clickHouseStringArray in E. destruct (encode_all values) as [l|e'] eqn:Ee; [discriminate|]. injection E as <-. apply (encode_all_error _ _ Ee).
Qed.

(** What the array encoder writes reads back. clickHouseStringArray gives a text exactly for values
    without a backslash, and then the server's reader gives the same values back, in order and byte for
    byte, whatever it makes of backslash escapes. Otherwise the value is refused as unsafe. *)
Theorem array_round_trip escape values :
  match clickHouseStringArray values with
  | Ok text => Forall safe values /\ read_array escape text = Some values
  | Err e => e = ErrUnsafeBindingValue /\ Exists (fun v => ~ safe v) values
  end.
Proof. apply array_text. Qed.

(** * Parameters *)

(** What each value is sent as. *)
Inductive encodes : Value -> string -> Prop :=
| enc_nil : encodes VNil "\\N"
| enc_time t : encodes (VTime t) (FormatMillis (UTC t))
| enc_strings l : Forall safe l -> encodes (VStrings l) ("[" +:+ Prelude.join "," (map quoted l) +:+ "]")
| enc_string s : encodes (VString s) s
| enc_uint n : encodes (VUint n) (FormatInt n)
| enc_int n : encodes (VInt n) (FormatInt n).

Lemma clickHouseParameter_iff v s : clickHouseParameter v = Ok s <-> encodes v s.
Proof.
  split.
  - destruct v; cbn [clickHouseParameter]; try discriminate; try (intros [= <-]; constructor; fail).
    intros [H ->]%clickHouseStringArray_iff. constructor. exact H.
  - intros H. destruct H; cbn; try reflexivity. apply clickHouseStringArray_iff. auto.
Qed.

(** An identifier: a letter or an underscore, then letters, digits and underscores. *)
Definition letter_ (c : ascii) : bool := in_range "A" "Z" c || in_range "a" "z" c || Ascii.eqb c "_".
Definition word (c : ascii) : bool :=
  let n := code c in
  if (n <? 48)%N then false else if (n <=? 57)%N then true
  else if (n <? 65)%N then false else if (n <=? 90)%N then true
  else if (n =? 95)%N then true else if (n <? 97)%N then false else (n <=? 122)%N.
Lemma word_iff c : word c = letter_ c || in_range "0" "9" c.
Proof.
  apply Bool.eqb_prop. rewrite <-(chr_code c).
  exact (below_run (fun n => Bool.eqb (word (chr n)) (letter_ (chr n) || in_range "0" "9" (chr n))) 256 ltac:(vm_compute; reflexivity) _ (code_lt c)).
Qed.
Definition identifier (s : string) : Prop := exists c r, s = String c r /\ letter_ c = true /\ Forall (fun d => word d = true) (chars r).


(** Two tests of a character agree if they agree on all 256. *)
Lemma char_tests_agree (f g : ascii -> bool) :
  forallb (fun n => Bool.eqb (f (chr (N.of_nat n))) (g (chr (N.of_nat n)))) (seq 0 256) = true -> forall c, f c = g c.
Proof.
  intros H c. apply Bool.eqb_prop. rewrite <-(chr_code c). revert H.
  intros H. exact (below_run (fun n => Bool.eqb (f (chr n)) (g (chr n))) 256 H _ (code_lt c)).
Qed.

Lemma bindingName_iff s : matchb bindingName s = true <-> identifier s.
Proof.
  rewrite matchb_spec. unfold bindingName, cls, star, identifier. rewrite matches_seq. setoid_rewrite matches_cls. setoid_rewrite matches_rep_cls.
  assert (H1 : forall c, in_class (cls_ranges "A-Za-z_" 7) c = letter_ c) by (apply char_tests_agree; vm_compute; reflexivity).
  assert (H2 : forall c, in_class (cls_ranges "A-Za-z0-9_" 10) c = word c) by (apply char_tests_agree; vm_compute; reflexivity).
  cbn [String.length]. setoid_rewrite H1. setoid_rewrite H2. split.
  - intros (u & v & -> & (c & -> & Hc) & Hv & _). exists c, v. auto.
  - intros (c & r & -> & Hc & Hr). exists (String c EmptyString), r. split; [reflexivity|]. split; [eauto|]. split; [exact Hr|]. split; [lia | exact I].
Qed.

Lemma bindingName_false s : matchb bindingName s = false <-> ~ identifier s.
Proof. rewrite <-bindingName_iff. destruct (matchb bindingName s); naive_solver. Qed.

(** What one turn of the loop needs of the map so far. *)
Definition bindable (p : gmap string string) (b : Binding) (s : string) : Prop :=
  identifier (Name b) /\ p !! Name b = None /\ encodes (Val b) s.

Lemma translate_step b bindings p m :
  translate (b :: bindings) p = Ok m <-> exists s, bindable p b s /\ translate bindings (<[Name b := s]> p) = Ok m.
Proof.
  cbn [translate]. unfold bindable. setoid_rewrite <-bindingName_iff. setoid_rewrite <-clickHouseParameter_iff.
  destruct (matchb bindingName (Name b)) eqn:En; cbn [negb]; [|naive_solver]. destruct (p !! Name b) eqn:Ep; [naive_solver|].
  rewrite rbind_ok. naive_solver.
Qed.

Lemma translate_lookup bindings p m : translate bindings p = Ok m ->
  NoDup (map Name bindings) /\ Forall (fun b => identifier (Name b) /\ p !! Name b = None /\ exists s, encodes (Val b) s) bindings /\
  forall n s, m !! n = Some s <-> p !! n = Some s \/ exists b, b ∈ bindings /\ Name b = n /\ encodes (Val b) s.
Proof.
  revert p. induction bindings as [|b bindings IH]; intros p.
  - intros [= <-]. split; [constructor|]. split; [constructor|]. intros n s. split; [auto|]. intros [H|(b & H & _)]; [exact H | inversion H].
  - rewrite translate_step. intros (v & (Hid & Hp & Hv) & Ht). apply IH in Ht as (Hnd & Hall & Hm). cbn [map].
    assert (Hne : forall b', b' ∈ bindings -> Name b <> Name b').
    { intros b' H E. rewrite Forall_forall in Hall. destruct (Hall _ H) as (_ & Hl & _). rewrite <-E, lookup_insert_eq in Hl. discriminate. }
    split; [constructor; [intros (b' & E & H)%list_elem_of_fmap; exact (Hne b' H E) | exact Hnd]|]. split.
    + constructor; [eauto|]. rewrite !Forall_forall in *. intros b' H. destruct (Hall _ H) as (? & Hl & ?).
      rewrite lookup_insert_ne in Hl by (apply Hne, H). auto.
    + intros n s. rewrite Hm, lookup_insert_Some. setoid_rewrite elem_of_cons.
      assert (Hf : forall s', encodes (Val b) s' -> s' = v) by (intros s'; rewrite <-!clickHouseParameter_iff in *; congruence).
      split.
      * intros [[[<- <-]|[_ H]]|(b' & H & Hb)]; [right; exists b; auto | auto | right; exists b'; auto].
      * intros [H|(b' & [->|H] & <- & Hs)]; [| left; left; rewrite (Hf _ Hs); auto | right; exists b'; auto].
        destruct (decide (Name b = n)) as [<-|Hn]; [congruence | auto].
Qed.

Lemma translate_complete bindings p :
  NoDup (map Name bindings) -> Forall (fun b => identifier (Name b) /\ p !! Name b = None /\ exists s, encodes (Val b) s) bindings ->
  exists m, translate bindings p = Ok m.
Proof.
  revert p. induction bindings as [|b bindings IH]; intros p Hnd Hall; [eexists; reflexivity|].
  apply NoDup_cons in Hnd as [Hn Hnd]. apply Forall_cons in Hall as [(Hid & Hp & s & Hs) Hall].
  destruct (IH (<[Name b := s]> p) Hnd) as (m & Hm); [|exists m; apply translate_step; unfold bindable; eauto].
  rewrite !Forall_forall in *. intros b' H. destruct (Hall _ H) as (? & ? & ?). rewrite lookup_insert_ne; [auto|].
  intros E. apply Hn. rewrite E. apply list_elem_of_fmap. eauto.
Qed.

(** The first binding at fault. *)
Definition faulty (p : gmap string string) (b : Binding) (e : binding_error) : Prop :=
  e = ErrInvalidBinding /\ (~ identifier (Name b) \/ is_Some (p !! Name b)) \/
  identifier (Name b) /\ p !! Name b = None /\ clickHouseParameter (Val b) = Err e.

Lemma translate_error bindings p e :
  translate bindings p = Err e -> exists pre b post p', bindings = pre ++ b :: post /\ translate pre p = Ok p' /\ faulty p' b e.
Proof.
  unfold faulty. revert p. induction bindings as [|b bindings IH]; intros p; [discriminate|]. cbn [translate].
  destruct (matchb bindingName (Name b)) eqn:En; cbn [negb].
  2:{ intros [= <-]. exists [], b, bindings, p. apply bindingName_false in En. auto 10. }
  destruct (p !! Name b) eqn:Ep; [intros [= <-]; exists [], b, bindings, p; eauto 10|].
  destruct (clickHouseParameter (Val b)) as [v|e'] eqn:Ev; cbn [rbind].
  - intros (pre & b' & post & p' & -> & Ht & Hf)%IH. exists (b :: pre), b', post, p'. split; [reflexivity|]. split; [|exact Hf].
    cbn [translate]. rewrite En, Ep, Ev. exact Ht.
  - intros [= ->]. exists [], b, bindings, p. apply bindingName_iff in En. auto 10.
Qed.

Lemma translateBindings_spec bindings :
  match translateBindings bindings with
  | Ok m =>
      NoDup (map Name bindings) /\ Forall (fun b => identifier (Name b)) bindings /\
      (forall b, b ∈ bindings -> exists s, encodes (Val b) s /\ m !! Name b = Some s) /\
      (forall n s, m !! n = Some s -> exists b, b ∈ bindings /\ Name b = n /\ encodes (Val b) s)
  | Err e => exists pre b post p, bindings = pre ++ b :: post /\ translateBindings pre = Ok p /\ faulty p b e
  end.
Proof.
  destruct (translateBindings bindings) as [m|e] eqn:E; [|exact (translate_error _ _ _ E)].
  apply translate_lookup in E as (Hnd & Hall & Hm). split; [exact Hnd|]. split; [eapply Forall_impl; [exact Hall | intros ? [H _]; exact H]|]. split.
  - intros b H. rewrite Forall_forall in Hall. destruct (Hall _ H) as (_ & _ & s & Hs). exists s. split; [exact Hs|]. apply Hm. eauto.
  - intros n s [H|H]%Hm; [|exact H]. rewrite lookup_empty in H. discriminate.
Qed.

(** TranslateBindings sends exactly what it was given. It gives a map exactly when the names are
    distinct identifiers and every value has an encoding, and then the map holds each binding's encoding
    under its name and nothing else. Otherwise the error is that of the first binding at fault: its
    name is no identifier or already bound (invalid), or its value cannot be sent. *)
Theorem translateBindings_exact bindings :
  match translateBindings bindings with
  | Ok m =>
      NoDup (map Name bindings) /\ Forall (fun b => identifier (Name b)) bindings /\
      (forall b, b ∈ bindings -> exists s, encodes (Val b) s /\ m !! Name b = Some s) /\
      (forall n s, m !! n = Some s -> exists b, b ∈ bindings /\ Name b = n /\ encodes (Val b) s)
  | Err e => exists pre b post p, bindings = pre ++ b :: post /\ translateBindings pre = Ok p /\ faulty p b e
  end.
Proof. apply translateBindings_spec. Qed.

(** Good bindings are never refused. *)
Lemma translateBindings_complete bindings :
  NoDup (map Name bindings) -> Forall (fun b => identifier (Name b) /\ exists s, encodes (Val b) s) bindings -> is_ok (translateBindings bindings) = true.
Proof.
  intros Hnd Hall. destruct (translate_complete bindings ∅ Hnd) as (m & Hm); [|unfold translateBindings; rewrite Hm; reflexivity].
  eapply Forall_impl; [exact Hall|]. intros b [? ?]. rewrite lookup_empty. auto.
Qed.

(** Distinct values of one kind are sent as distinct texts, and text is sent as it is. *)
Lemma encodes_strings_inj l k s : encodes (VStrings l) s -> encodes (VStrings k) s -> l = k.
Proof.
  rewrite <-!clickHouseParameter_iff. cbn. intros Hl Hk. pose proof (array_text (fun _ => None) l) as Rl. pose proof (array_text (fun _ => None) k) as Rk.
  rewrite Hl in Rl. rewrite Hk in Rk. destruct Rl as [_ Rl], Rk as [_ Rk]. congruence.
Qed.

End ChBindings.
