(* ===== verification/ChStatement.v ===== *)
(** The read-only statement check of src/clickhouse/client.go: validateReadOnlyStatement, firstToken,
    strings.Fields, and regexp's unanchored search with word boundaries and case folding.

    unicode.SimpleFold is an argument of strings.EqualFold, as in GoStrings.v. *)
From S2P Require Import Prelude Utf8 Regex GoStrings ChBindings.

Module ChStatement.
Import Utf8 GoStrings ChBindings.

(** * regexp.MatchString of an expression with a test at its start and at its end *)

Definition first (s : string) : option ascii := match s with EmptyString => None | String c _ => Some c end.

(** The character before the rest of a text, after [s] of it. *)
Fixpoint ends (prev : option ascii) (s : string) : option ascii :=
  match s with EmptyString => prev | String c r => ends (Some c) r end.

(** \b: between an ASCII word character and none. *)
Definition is_word (c : option ascii) : bool := match c with Some c => word c | None => false end.
Definition boundary (before after : option ascii) : bool := xorb (is_word before) (is_word after).
Definition anywhere (before after : option ascii) : bool := true.

Section Search.
Variables starts stops : option ascii -> option ascii -> bool.

Fixpoint match_here (r : re) (prev : option ascii) (s : string) : bool :=
  match r with
  | RNone => false
  | _ => if (if nullable r then stops prev (first s) else false) then true
         else match s with EmptyString => false | String c t => match_here (deriv c r) (Some c) t end
  end.

Fixpoint search (r : re) (prev : option ascii) (s : string) : bool :=
  if (if starts prev (first s) then match_here r prev s else false) then true
  else match s with EmptyString => false | String c t => search r (Some c) t end.

Lemma match_here_iff r prev s :
  match_here r prev s = true <-> exists u v, s = u +:+ v /\ matches r u /\ stops (ends prev u) (first v) = true.
Proof.
  revert r prev. induction s as [|c s IH]; intros r prev.
  - assert (E : match_here r prev "" = nullable r && stops prev None) by (destruct r; [reflexivity|..]; cbn [match_here first]; destruct (nullable _), (stops _ _); reflexivity).
    rewrite E, andb_true_iff, nullable_spec. split.
    + intros [H Hs]. exists "", "". auto.
    + intros (u & v & Huv & H & Hs). symmetry in Huv. apply str_app_eq_nil in Huv as [-> ->]. auto.
  - assert (E : match_here r prev (String c s) = nullable r && stops prev (Some c) || match_here (deriv c r) (Some c) s)
      by (destruct r; [destruct s; reflexivity|..]; cbn [match_here first]; destruct (nullable _), (stops _ _); reflexivity).
    rewrite E, orb_true_iff, andb_true_iff, nullable_spec, IH. split.
    + intros [[H Hs]|(u & v & -> & H & Hs)]; [exists "", (String c s); auto|]. apply deriv_spec in H. exists (String c u), v. auto.
    + intros (u & v & Huv & H & Hs). destruct u as [|d u].
      * rewrite str_app_nil in Huv. subst v. auto.
      * rewrite str_app_cons in Huv. injection Huv as <- ->. right. exists u, v. rewrite deriv_spec. auto.
Qed.

Lemma search_iff r prev s :
  search r prev s = true <->
  exists w u v, s = w +:+ u +:+ v /\ starts (ends prev w) (first (u +:+ v)) = true /\ matches r u /\ stops (ends (ends prev w) u) (first v) = true.
Proof.
  assert (Hif : forall a b d : bool, (if (if a then b else false) then true else d) = a && b || d) by (intros [] [] []; reflexivity).
  revert prev. induction s as [|c s IH]; intros prev; cbn [search]; rewrite Hif, orb_true_iff, andb_true_iff, match_here_iff.
  - split.
    + intros [[Hs (u & v & E & H)]|H]; [|discriminate]. exists "", u, v. rewrite str_app_nil, <-E. tauto.
    + intros (w & u & v & E & Hs & H). symmetry in E. apply str_app_eq_nil in E as [-> E]. left. cbn [ends] in *.
      rewrite E in Hs. split; [exact Hs|]. exists u, v. auto.
  - rewrite IH. split.
    + intros [[Hs (u & v & E & H)]|(w & u & v & -> & H)]; [exists "", u, v; rewrite str_app_nil, <-E; tauto|]. exists (String c w), u, v. auto.
    + intros (w & u & v & E & Hs & H). destruct w as [|d w].
      * rewrite str_app_nil in E. left. rewrite E. split; [exact Hs|]. exists u, v. auto.
      * rewrite str_app_cons in E. injection E as <- ->. right. exists w, u, v. auto.
Qed.
End Search.

(** * Patterns under (?i) *)

(** A letter of a pattern under (?i): both cases, and for s and k the long s and the Kelvin sign, which
    fold to them. *)
Definition upper (c : ascii) : ascii := if in_range "a" "z" c then chr (code c - 32) else c.
Definition also (c : ascii) : option N := if Ascii.eqb c "s" then Some 383%N else if Ascii.eqb c "k" then Some 8490%N else None.
Definition fold_char (c : ascii) : re :=
  let both := RCls [(c, c); (upper c, upper c)] in
  match also c with Some r => RAlt both (lit (encode r)) | None => both end.
Fixpoint fold_lit (s : string) : re := match s with EmptyString => REps | String c s => RSeq (fold_char c) (fold_lit s) end.

(** \s of regexp: no vertical tab. *)
Definition white : re := RCls [(chr 9, chr 10); (chr 12, chr 13); (" "%char, " "%char)].

Definition table_functions : list string := ["url"; "s3"; "remote"; "file"; "hdfs"; "mysql"; "postgresql"; "sqlite"].

(** (?i)\b(url|s3|remote|file|hdfs|mysql|postgresql|sqlite)\s*\( *)
Definition externalTableFunction : re := RSeq (alts (map fold_lit table_functions)) (RSeq (star white) (lit "(")).
(** (?i)\binto\s+(outfile|dumpfile)\b *)
Definition outputClause : re := RSeq (fold_lit "into") (RSeq (plus white) (alts [fold_lit "outfile"; fold_lit "dumpfile"])).

(** * The check *)

(** strings.Fields: the texts between runs of white space. [cur] is the field so far, backwards. *)
Fixpoint fields (fuel : nat) (cur l : list ascii) : list string :=
  let flush := match cur with [] => [] | _ => [of_chars (rev cur)] end in
  match fuel, l with
  | S fuel, c :: r =>
      match strip_any spaces l with
      | Some rest => flush ++ fields fuel [] rest
      | None => fields fuel (c :: cur) r
      end
  | _, _ => flush
  end.
Definition Fields (s : string) : list string := fields (String.length s) [] (chars s).

Definition firstToken (statement : string) : string := match Fields statement with [] => EmptyString | f :: _ => f end.

Section Check.
Variable SimpleFold : N -> N.

(** Whether validateReadOnlyStatement returns nil; it has one error, ErrUnsafeStatement. *)
Definition validateReadOnlyStatement (statement : string) : bool :=
  if existsb (Ascii.eqb ";") (chars statement) then false
  else if negb (EqualFold SimpleFold (firstToken statement) "SELECT") then false
  else if search boundary anywhere externalTableFunction None statement || search boundary boundary outputClause None statement then false
  else true.
End Check.

Example checks : map (validateReadOnlyStatement id)
  [" select 1"; "SELECT 1;"; "INSERT INTO t"; "SELECT * FROM URL ('x')"; "SELECT * FROM my_url('x')"; "SELECT curl(x)"; "SELECT * FROM t INTO  OUTFILE 'f'"; "SELECT into outfiles"; ""]
  = [true; false; false; false; true; true; false; true; false].
Proof. vm_compute. reflexivity. Qed.
Example checks_long_s : validateReadOnlyStatement id ("SELECT 1 FROM " +:+ encode 383 +:+ "3('x')") = true
  /\ validateReadOnlyStatement id ("SELECT 1 FROM hdf" +:+ encode 383 +:+ "('x')") = false.
Proof. split; vm_compute; reflexivity. Qed.

(** * What the check refuses *)

(** One character in either case, or the rune that folds to it; a word likewise. *)
Inductive spells : string -> string -> Prop :=
| sp_nil : spells "" ""
| sp_char c s w : spells s w -> spells (String c s) (String c w)
| sp_upper c s w : spells s w -> spells (String c s) (String (upper c) w)
| sp_extra c r s w : also c = Some r -> spells s w -> spells (String c s) (encode r +:+ w).

Lemma fold_char_iff c u : matches (fold_char c) u <-> u = String c "" \/ u = String (upper c) "" \/ exists r, also c = Some r /\ u = encode r.
Proof.
  assert (H : matches (RCls [(c, c); (upper c, upper c)]) u <-> u = String c "" \/ u = String (upper c) "").
  { rewrite matches_cls. unfold in_class. cbn [existsb]. assert (E : forall d e, in_range d d e = true <-> e = d).
    { intros d e. unfold in_range. rewrite andb_true_iff, !N.leb_le. split; [intros [? ?]; apply code_inj; lia | intros ->; lia]. }
    setoid_rewrite orb_true_iff. setoid_rewrite orb_false_r. setoid_rewrite E. naive_solver. }
  unfold fold_char. destruct (also c) as [r|] eqn:Er; [rewrite matches_alt, matches_lit|]; rewrite H; naive_solver.
Qed.

Lemma fold_lit_iff s w : matches (fold_lit s) w <-> spells s w.
Proof.
  split.
  - revert w. induction s as [|c s IH]; intros w; cbn [fold_lit]; [intros ->%matches_eps; constructor|].
    intros (u & v & -> & Hu & Hv)%matches_seq. apply IH in Hv. apply fold_char_iff in Hu as [->|[->|(r & Hr & ->)]]; constructor; assumption.
  - induction 1 as [|c s w H IH|c s w H IH|c r s w Hr H IH]; cbn [fold_lit]; [constructor| | |]; apply matches_seq.
    + exists (String c ""), w. split; [reflexivity|]. split; [apply fold_char_iff; auto | exact IH].
    + exists (String (upper c) ""), w. split; [reflexivity|]. split; [apply fold_char_iff; auto | exact IH].
    + exists (encode r), w. split; [reflexivity|]. split; [apply fold_char_iff; eauto | exact IH].
Qed.

Lemma alts_iff l w : matches (alts l) w <-> exists r, r ∈ l /\ matches r w.
Proof.
  induction l as [|r [|r' l] IH].
  - cbn [alts]. split; [intros H; destruct (matches_none _ H) | intros (r & H & _); inversion H].
  - cbn [alts]. split; [eauto using list_elem_of_here | intros (r' & ->%list_elem_of_singleton & H); exact H].
  - change (alts (r :: r' :: l)) with (RAlt r (alts (r' :: l))). rewrite matches_alt, IH. setoid_rewrite (elem_of_cons (r' :: l)). naive_solver.
Qed.

Definition whitespace (s : string) : Prop := Forall (fun c => in_class [(chr 9, chr 10); (chr 12, chr 13); (" "%char, " "%char)] c = true) (chars s).

Lemma star_white_iff w : matches (star white) w <-> whitespace w.
Proof. unfold star, white. rewrite matches_rep_cls. unfold whitespace. split; [tauto | split; [assumption|]; split; [lia | exact I]]. Qed.

Lemma plus_white_iff w : matches (plus white) w <-> whitespace w /\ w <> "".
Proof.
  unfold plus, white. rewrite matches_rep_cls. unfold whitespace. split.
  - intros (H & Hl & _). split; [exact H|]. intros ->. simpl in Hl. lia.
  - intros [H Hn]. split; [exact H|]. split; [|exact I]. destruct w; [congruence | simpl; lia].
Qed.

(** A call of one of the table functions: its name as a whole word, in any case, then white space and a
    parenthesis. *)
Definition table_call (s : string) : Prop :=
  exists w name f sp v, s = w +:+ f +:+ sp +:+ String "(" v /\ name ∈ table_functions /\ spells name f /\ whitespace sp /\
    boundary (ends None w) (first f) = true.

(** INTO OUTFILE or INTO DUMPFILE as whole words. *)
Definition writes_file (s : string) : Prop :=
  exists w i sp f v, s = w +:+ i +:+ sp +:+ f +:+ v /\ spells "into" i /\ whitespace sp /\ sp <> "" /\ (spells "outfile" f \/ spells "dumpfile" f) /\
    boundary (ends None w) (first i) = true /\ boundary (ends None f) (first v) = true.

Lemma spells_nonempty s w : spells s w -> s <> "" -> w <> "".
Proof.
  intros H. destruct H as [|c s w H|c s w H|c r s w Hr H]; try (intros _; discriminate); [congruence|].
  intros _ E. apply str_app_eq_nil in E as [E _]. unfold also in Hr. destruct (Ascii.eqb c "s"), (Ascii.eqb c "k"); simplify_eq; discriminate E.
Qed.

Lemma first_app s t : s <> "" -> first (s +:+ t) = first s.
Proof. destruct s; [congruence | reflexivity]. Qed.

Lemma ends_nonempty prev s : s <> "" -> ends prev s = ends None s.
Proof. destruct s; [congruence | reflexivity]. Qed.

Lemma ends_app prev s t : ends prev (s +:+ t) = ends (ends prev s) t.
Proof. revert prev. induction s as [|c s IH]; intros prev; [reflexivity|]. rewrite str_app_cons. apply IH. Qed.

Lemma table_functions_iff f : matches (alts (map fold_lit table_functions)) f <-> exists name, name ∈ table_functions /\ spells name f.
Proof.
  rewrite alts_iff. split.
  - intros (r & (name & -> & Hn)%list_elem_of_fmap & H). apply fold_lit_iff in H. eauto.
  - intros (name & Hn & H). exists (fold_lit name). split; [apply list_elem_of_fmap; eauto | apply fold_lit_iff, H].
Qed.

Lemma table_function_nonempty name f : name ∈ table_functions -> spells name f -> f <> "".
Proof. intros Hn H. apply (spells_nonempty _ _ H). intros ->. revert Hn. apply (bool_decide_eq_true_1 ("" ∉ table_functions)). vm_compute. reflexivity. Qed.

Lemma table_call_iff s : search boundary anywhere externalTableFunction None s = true <-> table_call s.
Proof.
  rewrite search_iff. unfold externalTableFunction, table_call. setoid_rewrite matches_seq. setoid_rewrite matches_seq. split.
  - intros (w & u & v & -> & Hb & (f & u' & -> & (name & Hn & Hf)%table_functions_iff & sp & p & -> & Hsp%star_white_iff & ->%matches_lit) & _).
    pose proof (table_function_nonempty _ _ Hn Hf) as Hne. exists w, name, f, sp, v.
    rewrite !str_app_assoc in *. rewrite first_app in Hb by exact Hne. auto 10.
  - intros (w & name & f & sp & v & -> & Hn & Hf & Hsp & Hb). pose proof (table_function_nonempty _ _ Hn Hf) as Hne.
    exists w, (f +:+ sp +:+ "("), v. rewrite !str_app_assoc, (first_app f) by exact Hne.
    split; [reflexivity|]. split; [exact Hb|]. split; [|reflexivity]. exists f, (sp +:+ "("). split; [reflexivity|]. split; [apply table_functions_iff; eauto|].
    exists sp, "(". split; [reflexivity|]. split; [apply star_white_iff, Hsp | apply matches_lit; reflexivity].
Qed.

Definition file_word (f : string) : Prop := spells "outfile" f \/ spells "dumpfile" f.

Lemma outputClause_iff u :
  matches outputClause u <-> exists i sp f, u = i +:+ sp +:+ f /\ spells "into" i /\ whitespace sp /\ sp <> "" /\ file_word f.
Proof.
  assert (Hf : forall f, matches (alts [fold_lit "outfile"; fold_lit "dumpfile"]) f <-> file_word f)
    by (intros f; cbn [alts]; rewrite matches_alt, !fold_lit_iff; reflexivity).
  unfold outputClause. rewrite matches_seq. split.
  - intros (i & r & -> & Hi%fold_lit_iff & (sp & f & -> & [Hsp Hn]%plus_white_iff & Hw%Hf)%matches_seq). eauto 10.
  - intros (i & sp & f & -> & Hi & Hsp & Hn & Hw). exists i, (sp +:+ f). split; [reflexivity|]. split; [apply fold_lit_iff, Hi|].
    apply matches_seq. exists sp, f. split; [reflexivity|]. split; [apply plus_white_iff; auto | apply Hf, Hw].
Qed.

Lemma writes_file_iff s : search boundary boundary outputClause None s = true <-> writes_file s.
Proof.
  rewrite search_iff. unfold writes_file. setoid_rewrite outputClause_iff.
  assert (Hne : forall i, spells "into" i -> i <> "") by (intros i H; apply (spells_nonempty _ _ H); discriminate).
  assert (Hnf : forall f, file_word f -> f <> "") by (intros f [H|H]; apply (spells_nonempty _ _ H); discriminate).
  split.
  - intros (w & u & v & -> & Hb & (i & sp & f & -> & Hi & Hsp & Hsn & Hf) & He). exists w, i, sp, f, v.
    rewrite !str_app_assoc in *. rewrite first_app in Hb by exact (Hne _ Hi). rewrite !ends_app, (ends_nonempty _ f) in He by exact (Hnf _ Hf). auto 10.
  - intros (w & i & sp & f & v & -> & Hi & Hsp & Hsn & Hf & Hb & He). exists w, (i +:+ sp +:+ f), v.
    rewrite !str_app_assoc, (first_app i), !ends_app, (ends_nonempty _ f) by first [exact (Hne _ Hi) | exact (Hnf _ Hf)]. eauto 15.
Qed.

Lemma validateReadOnlyStatement_spec SimpleFold s :
  validateReadOnlyStatement SimpleFold s = true <->
  free_of ";" s /\ EqualFold SimpleFold (firstToken s) "SELECT" = true /\ ~ table_call s /\ ~ writes_file s.
Proof.
  rewrite <-table_call_iff, <-writes_file_iff. unfold validateReadOnlyStatement, free_of.
  assert (Hf : existsb (Ascii.eqb ";") (chars s) = true <-> (";"%char : ascii) ∈ chars s).
  { rewrite existsb_exists, list_elem_of_In. setoid_rewrite Ascii.eqb_eq. naive_solver. }
  destruct (existsb _ _); [naive_solver|]. destruct (EqualFold _ _ _); cbn [negb]; [|naive_solver].
  destruct (search boundary anywhere _ _ _), (search boundary boundary _ _ _); cbn [orb]; naive_solver.
Qed.

(** C40: what a read-only statement is. validateReadOnlyStatement passes exactly the statements without a
    semicolon whose first token is SELECT up to case folding, that call none of the eight table functions
    (its name as a whole word in any case, white space, a parenthesis) and hold no INTO OUTFILE or INTO
    DUMPFILE as whole words. *)
Theorem validateReadOnlyStatement_iff SimpleFold s :
  validateReadOnlyStatement SimpleFold s = true <->
  free_of ";" s /\ EqualFold SimpleFold (firstToken s) "SELECT" = true /\ ~ table_call s /\ ~ writes_file s.
Proof. apply validateReadOnlyStatement_spec. Qed.

End ChStatement.
