(* ===== verification/ChClient.v ===== *)
(** The read-only ClickHouse client: src/clickhouse/client.go, options.go, budget_error.go, tls.go.

    The driver is an argument: what its connection answers, and its rows, as an instance of the interface
    [RowScanner]. A Go context is a value that is only passed on; [withTimeout] derives one. The server
    name and the rest of a *tls.Config, files and certificate pools are values of the caller's. *)
From S2P Require Import Prelude Utf8 GoStrings GoTime GoFormat ChBindings ChStatement.

Module ChClient.
Import GoTime GoFormat ChBindings ChStatement.

(** * Errors *)

(** An error of the driver: the Go type that %T prints, its free text, and the server's exception that
    errors.As finds in it, if any: its code and message. *)
Record cause := mkCause { goType : string; text : string; exception : option (Z * string) }.

Inductive error :=
| ErrUnsafeStatement
| ErrBinding (e : binding_error)
| ErrOperation (operation : string) (c : cause)   (* *operationError *)
| ErrDriver (c : cause).                          (* passed on as it is *)

Definition describeCause (c : cause) : string :=
  match exception c with
  | Some (code, message) => "code: " +:+ FormatInt code +:+ ", message: " +:+ message
  | None => goType c
  end.

(** The method Error of operationError; the cause can be nil. *)
Definition operation_text (operation : string) (c : option cause) : string :=
  match c with
  | None => "ClickHouse " +:+ operation +:+ " failed"
  | Some c => "ClickHouse " +:+ operation +:+ " failed: " +:+ describeCause c
  end.

Definition exceptionCodeTooManyBytes : Z := 307.
Definition exceptionCodeTooManyRows : Z := 158.

(** What errors.As finds in an error: an operationError unwraps to its cause. *)
Definition as_exception (e : option error) : option (Z * string) :=
  match e with Some (ErrOperation _ c) | Some (ErrDriver c) => exception c | _ => None end.

Definition QueryBudgetExceededCode (e : option error) : option Z :=
  match as_exception e with
  | Some (code, _) => if (code =? exceptionCodeTooManyBytes)%Z || (code =? exceptionCodeTooManyRows)%Z then Some code else None
  | None => None
  end.
Definition IsQueryBudgetExceeded (e : option error) : bool := match QueryBudgetExceededCode e with Some _ => true | None => false end.

(** * Rows *)

(** RowScanner: each operation on the state of the rows. A Scan gives the destination's values. *)
Class RowScanner (R V : Type) := {
  Next : R -> bool * R;
  Scan : R -> result error V * R;
  Err_ : R -> option error;
  Close : R -> option error * R }.

(** managedRows: the driver's rows and whether the query's context was cancelled. *)
Record managedRows (R : Type) := mkManaged { rows : R; cancelled : bool }.
#[global] Arguments mkManaged {R}.
#[global] Arguments rows {R}.
#[global] Arguments cancelled {R}.

(** operationError around an error of the driver's rows. *)
Definition wrap (operation : string) (e : option error) : option error :=
  match e with Some (ErrDriver c) => Some (ErrOperation operation c) | e => e end.

#[global] Instance managed_scanner {R V} `{!RowScanner R V} : RowScanner (managedRows R) V := {
  Next r := let '(next, rs) := Next (V := V) (rows r) in (next, mkManaged rs (if next then cancelled r else true));
  Scan r := let '(v, rs) := Scan (rows r) in (v, mkManaged rs (cancelled r));
  Err_ r := wrap "row iteration" (Err_ (V := V) (rows r));
  Close r := let '(e, rs) := Close (V := V) (rows r) in (wrap "row close" e, mkManaged rs true) }.

(** What Query returns: the driver's rows, or managed ones when the client has a timeout. *)
Inductive clientRows (R : Type) := Plain (r : R) | Managed (m : managedRows R).
#[global] Arguments Plain {R}.
#[global] Arguments Managed {R}.

#[global] Instance client_scanner {R V} `{!RowScanner R V} : RowScanner (clientRows R) V := {
  Next r := match r with Plain r => let '(b, r) := Next (V := V) r in (b, Plain r) | Managed m => let '(b, m) := Next (V := V) m in (b, Managed m) end;
  Scan r := match r with Plain r => let '(v, r) := Scan r in (v, Plain r) | Managed m => let '(v, m) := Scan m in (v, Managed m) end;
  Err_ r := match r with Plain r => Err_ (V := V) r | Managed m => Err_ (V := V) m end;
  Close r := match r with Plain r => let '(e, r) := Close (V := V) r in (e, Plain r) | Managed m => let '(e, m) := Close (V := V) m in (e, Managed m) end }.

(** * The client *)

Section Client.
Variable SimpleFold : N -> N.
Context {Ctx R : Type}.
Variable withTimeout : Ctx -> Duration -> Ctx.
(** The connection's Query, Ping and Close. *)
Variable connection : Ctx -> string -> gmap string string -> result cause R.

(** The calls made to the connection, whether a context derived for the call was cancelled before it
    returned, and the result. *)
Record outcome := mkOutcome { calls : list (Ctx * string * gmap string string); cancel_called : bool; answer : result error (clientRows R) }.

Definition Query (queryTimeout : Duration) (ctx : Ctx) (statement : string) (bindings : list Binding) : outcome :=
  if negb (validateReadOnlyStatement SimpleFold statement) then mkOutcome [] false (Err ErrUnsafeStatement)
  else match translateBindings bindings with
  | Err e => mkOutcome [] false (Err (ErrBinding e))
  | Ok parameters =>
      if (0 <? queryTimeout)%Z then
        let ctx := withTimeout ctx queryTimeout in
        match connection ctx statement parameters with
        | Err c => mkOutcome [(ctx, statement, parameters)] true (Err (ErrOperation "query" c))
        | Ok r => mkOutcome [(ctx, statement, parameters)] false (Ok (Managed (mkManaged r false)))
        end
      else match connection ctx statement parameters with
      | Err c => mkOutcome [(ctx, statement, parameters)] false (Err (ErrOperation "query" c))
      | Ok r => mkOutcome [(ctx, statement, parameters)] false (Ok (Plain r))
      end
  end.

Definition Ping (answer : option cause) : option error := option_map (ErrOperation "ping") answer.
Definition CloseClient (answer : option cause) : option error := option_map (ErrOperation "close") answer.
End Client.
#[global] Arguments outcome : clear implicits.

(** * Options *)

Local Open Scope Z_scope.

(** A tls.Config: the fields this package reads, and the rest. *)
Record Config := mkConfig { ServerName : string; InsecureSkipVerify : bool; others : string }.

(** Options of the package; a nil pointer is None. *)
Record Options := mkOptions {
  DSN : string; TLS : option Config; DialTimeout : Duration; ReadTimeout : Duration; QueryTimeout : Duration;
  MaxOpenConns : Z; MaxIdleConns : Z; ConnMaxLifetime : Duration; MaxExecutionTime : Z;
  MaxResultRows : option Z; MaxBytesToRead : option Z; TransportFunc : option string }.

(** A driver setting: an unsigned integer of ours, or a value of the DSN. *)
Inductive setting := SUint (n : Z) | SOther (v : string).

(** The driver's options, the fields this package sets. *)
Record Configured := mkConfigured {
  c_TLS : option Config; c_TransportFunc : option string; c_DialTimeout : Duration; c_ReadTimeout : Duration;
  c_MaxOpenConns : Z; c_MaxIdleConns : Z; c_ConnMaxLifetime : Duration; c_Compression : option string; c_Settings : gmap string setting }.

Definition defaultMaxExecutionTime : Z := 10.
Definition DefaultMaxBytesToRead : Z := 64 * 2 ^ 20.

Definition mergeTLS (preferred fallback : option Config) : option Config :=
  match preferred with
  | Some p => match fallback with
              | Some f => if String.eqb (ServerName p) "" then Some (mkConfig (ServerName f) (InsecureSkipVerify p) (others p)) else Some p
              | None => Some p
              end
  | None => fallback
  end.

(** defaultDuration and defaultPositive; optionDuration and optionPositive; defaultPositiveUint. *)
Definition defaultDuration (value fallback : Z) : Z := if 0 <? value then value else fallback.
Definition defaultPositive (value fallback : Z) : Z := if 0 <? value then value else fallback.
Definition optionDuration (value configured fallback : Z) : Z := if 0 <? value then value else defaultDuration configured fallback.
Definition optionPositive (value configured fallback : Z) : Z := if 0 <? value then value else defaultPositive configured fallback.
Definition defaultPositiveUint (value fallback : Z) : Z := if 0 <? value then value else fallback.

Definition resolveCeilingUint (value : option Z) (fallback : Z) : Z := match value with None => fallback | Some v => v end.
Definition resolveCeilingUint64 (value : option Z) (fallback : Z) : Z := match value with None => fallback | Some v => v end.

Definition maxExecutionTime (o : Options) : Z := defaultPositiveUint (MaxExecutionTime o) defaultMaxExecutionTime.

(** time.Duration(seconds) keeps the bits of the uint; the product wraps. *)
Definition executionDuration (seconds : Z) : Duration :=
  let value := i64 seconds in
  if (value <=? 0) || (max_int64 / Second <? value) then max_int64 else i64 (value * Second).

Definition queryTimeoutForOptions (o : Options) : Duration :=
  let limit := executionDuration (maxExecutionTime o) in
  if (0 <? QueryTimeout o) && (QueryTimeout o <? limit) then QueryTimeout o else limit.

(** cloneSettings and the three settings set on the clone. *)
Definition applyOptions (c : Configured) (o : Options) : Configured :=
  mkConfigured
    (mergeTLS (TLS o) (c_TLS c))
    (match TransportFunc o with Some f => Some f | None => c_TransportFunc c end)
    (optionDuration (DialTimeout o) (c_DialTimeout c) (5 * Second))
    (optionDuration (ReadTimeout o) (c_ReadTimeout c) (15 * Second))
    (optionPositive (MaxOpenConns o) (c_MaxOpenConns c) 8)
    (optionPositive (MaxIdleConns o) (c_MaxIdleConns c) 4)
    (optionDuration (ConnMaxLifetime o) (c_ConnMaxLifetime c) (30 * Minute))
    (match c_Compression c with None => Some "ZSTD"%string | Some m => Some m end)
    (<["max_bytes_to_read" := SUint (resolveCeilingUint64 (MaxBytesToRead o) DefaultMaxBytesToRead)]>
      (<["max_result_rows" := SUint (resolveCeilingUint (MaxResultRows o) 1000)]>
        (<["max_execution_time" := SUint (maxExecutionTime o)]> (c_Settings c)))).

Section New.
Variable SimpleFold : N -> N.
Variable IsBlank : string -> bool.                       (* strings.TrimSpace gives the empty string *)
Variable scheme : string -> option string.               (* url.Parse and its Scheme *)
Variable ParseDSN : string -> option Configured.
Context {R : Type}.
Variable Open : Configured -> option R.

Record Client := mkClient { connection_ : R; queryTimeout : Duration }.

(** The configuration handed to the driver, or the single error ErrInvalidConfiguration. *)
Definition configure (o : Options) : option Configured :=
  if IsBlank (DSN o) then None
  else match scheme (DSN o) with
  | None => None
  | Some sch =>
      match ParseDSN (DSN o) with
      | None => None
      | Some configured =>
          if bool_decide (is_Some (c_Settings configured !! "readonly")) then None
          else let configured := applyOptions configured o in
          if GoStrings.EqualFold SimpleFold sch "http" && bool_decide (is_Some (c_TLS configured)) then None
          else if match c_TLS configured with Some t => InsecureSkipVerify t | None => false end then None
          else Some configured
      end
  end.

Definition NewClickHouseQueryClientWithOptions (o : Options) : option Client :=
  match configure o with
  | None => None
  | Some configured =>
      match Open configured with
      | None => None
      | Some r => Some (mkClient r (queryTimeoutForOptions o))
      end
  end.
End New.
#[global] Arguments Client : clear implicits.

(** * CA bundles *)

Definition maximumCABundleBytes : Z := 2 ^ 20.

(** A file that was opened: what Stat says (regular, size), what reading it gives, and whether closing
    it fails. *)
Record File := mkFile { Stat : option (bool * Z); content : option string; close_fails : bool }.

Section Bundle.
Context {Pool : Type}.
Variable system : option Pool.                            (* x509.SystemCertPool *)
Variable NewCertPool : Pool.
Variable AppendCertsFromPEM : Pool -> string -> bool * Pool.

(** The body before the deferred close; None is its one error. *)
Definition load (file : File) : option Pool :=
  match Stat file with
  | None => None
  | Some (regular, size) =>
      if negb regular || (maximumCABundleBytes <? size) then None
      else match content file with
      | None => None
      | Some bytes =>
          let contents := Utf8.take (Z.to_nat (maximumCABundleBytes + 1)) bytes in
          if maximumCABundleBytes <? Z.of_nat (String.length contents) then None
          else
            let roots := match system with Some p => p | None => NewCertPool end in
            let '(added, roots) := AppendCertsFromPEM roots contents in
            if added then Some roots else None
      end
  end.

(** The configuration's RootCAs: None for the system's trust store; the error has one text. *)
Definition TLSConfigFromCABundle (path : string) (open : string -> option File) : result unit (option Pool) :=
  if String.eqb path "" then Ok None
  else match open path with
  | None => Err tt
  | Some file =>
      match load file with
      | Some roots => if close_fails file then Err tt else Ok (Some roots)
      | None => Err tt
      end
  end.
End Bundle.

(** * Properties *)

(** The seconds of a duration that fit, and no others, become a limit of that many seconds. *)
Lemma executionDuration_exact seconds : 0 <= seconds < two64 ->
  0 < executionDuration seconds <= max_int64 /\
  executionDuration seconds = if 0 <? seconds then Z.min (seconds * Second) max_int64 else max_int64.
Proof.
  intros H. unfold executionDuration. cbv zeta.
  assert (E : i64 seconds = if seconds <? 9223372036854775808 then seconds else seconds - two64).
  { unfold i64, two64 in *. destruct (Z.ltb_spec seconds 9223372036854775808); [rewrite Z.mod_small by lia; lia|].
    replace (seconds + 9223372036854775808) with (seconds - 9223372036854775808 + 1 * 18446744073709551616) by lia. rewrite Z.mod_add, Z.mod_small by lia. lia. }
  rewrite E. clear E. change (max_int64 / Second) with 9223372036. unfold two64, max_int64, Second in *.
  destruct (Z.ltb_spec seconds 9223372036854775808) as [Hs|Hs].
  - destruct (Z.leb_spec seconds 0); cbn [orb]; [destruct (Z.ltb_spec 0 seconds); lia|].
    destruct (Z.ltb_spec 0 seconds); [|lia]. destruct (Z.ltb_spec 9223372036 seconds); [lia|].
    rewrite i64_small by (unfold min_int64, max_int64; lia). lia.
  - destruct (Z.leb_spec (seconds - 18446744073709551616) 0); [|lia]. cbn [orb]. destruct (Z.ltb_spec 0 seconds); lia.
Qed.

(** The limit of a client: at most the server's execution time when a duration can hold it, the caller's
    timeout when that is shorter, and always positive, so a query always has a deadline. *)
Lemma queryTimeout_exact o : 0 <= MaxExecutionTime o < two64 ->
  let seconds := if MaxExecutionTime o =? 0 then 10 else MaxExecutionTime o in
  let limit := Z.min (seconds * Second) max_int64 in
  0 < queryTimeoutForOptions o <= max_int64 /\
  queryTimeoutForOptions o = (if 0 <? QueryTimeout o then Z.min (QueryTimeout o) limit else limit).
Proof.
  intros H. cbv zeta. unfold queryTimeoutForOptions, maxExecutionTime, defaultPositiveUint, defaultMaxExecutionTime.
  set (seconds := if MaxExecutionTime o =? 0 then 10 else MaxExecutionTime o).
  assert (Es : (if 0 <? MaxExecutionTime o then MaxExecutionTime o else 10) = seconds)
    by (unfold seconds; destruct (Z.ltb_spec 0 (MaxExecutionTime o)), (Z.eqb_spec (MaxExecutionTime o) 0); lia).
  rewrite Es. assert (Hs : 0 < seconds < two64) by (unfold seconds, two64 in *; destruct (Z.eqb_spec (MaxExecutionTime o) 0); lia).
  destruct (executionDuration_exact seconds ltac:(lia)) as [Hb Ed]. rewrite Ed in *. clear Ed Es.
  destruct (Z.ltb_spec 0 seconds); [|lia]. set (limit := Z.min _ _) in *.
  destruct (Z.ltb_spec 0 (QueryTimeout o)), (Z.ltb_spec (QueryTimeout o) limit); cbn [andb]; lia.
Qed.

(** The three ceilings reach the driver as they were set: an explicit zero is sent, nil takes the default;
    the DSN's other settings are kept. *)
Lemma applyOptions_settings c o :
  c_Settings (applyOptions c o) !! "max_result_rows" = Some (SUint (default 1000 (MaxResultRows o))) /\
  c_Settings (applyOptions c o) !! "max_bytes_to_read" = Some (SUint (default 67108864 (MaxBytesToRead o))) /\
  c_Settings (applyOptions c o) !! "max_execution_time" = Some (SUint (if 0 <? MaxExecutionTime o then MaxExecutionTime o else 10)) /\
  forall k, k <> "max_result_rows" -> k <> "max_bytes_to_read" -> k <> "max_execution_time" -> c_Settings (applyOptions c o) !! k = c_Settings c !! k.
Proof.
  unfold applyOptions, resolveCeilingUint, resolveCeilingUint64. cbn [c_Settings]. split; [|split; [|split]].
  - rewrite lookup_insert_ne, lookup_insert_eq by discriminate. destruct (MaxResultRows o); reflexivity.
  - rewrite lookup_insert_eq. destruct (MaxBytesToRead o); reflexivity.
  - rewrite !lookup_insert_ne, lookup_insert_eq by discriminate. reflexivity.
  - intros k H1 H2 H3. rewrite !lookup_insert_ne by congruence. reflexivity.
Qed.

Section QueryProps.
Variable SimpleFold : N -> N.
Context {Ctx R : Type}.
Variable withTimeout : Ctx -> Duration -> Ctx.
Variable connection : Ctx -> string -> gmap string string -> result cause R.

(** The context the driver gets. *)
Definition call_context (timeout : Duration) (ctx : Ctx) : Ctx := if 0 <? timeout then withTimeout ctx timeout else ctx.

(** What the caller gets for the driver's rows. *)
Definition handed (timeout : Duration) (r : R) : clientRows R := if 0 <? timeout then Managed (mkManaged r false) else Plain r.

Lemma Query_spec timeout ctx statement bindings :
  let out := Query SimpleFold withTimeout connection timeout ctx statement bindings in
  match calls out with
  | [] => validateReadOnlyStatement SimpleFold statement = false /\ answer out = Err ErrUnsafeStatement \/
          validateReadOnlyStatement SimpleFold statement = true /\ exists e, translateBindings bindings = Err e /\ answer out = Err (ErrBinding e)
  | [(c, st, parameters)] =>
      st = statement /\ c = call_context timeout ctx /\ validateReadOnlyStatement SimpleFold statement = true /\
      translateBindings bindings = Ok parameters /\
      match connection c st parameters with
      | Ok r => answer out = Ok (handed timeout r) /\ cancel_called out = false
      | Err e => answer out = Err (ErrOperation "query" e) /\ cancel_called out = (0 <? timeout)
      end
  | _ => False
  end.
Proof.
  cbv zeta. unfold Query, call_context, handed. destruct (validateReadOnlyStatement _ _); cbn [negb]; [|cbn; auto].
  destruct (translateBindings bindings) as [ps|e]; [|cbn; eauto 10].
  destruct (0 <? timeout); destruct (connection _ _ _) eqn:E; cbn; rewrite E; auto 10.
Qed.

(** C10: a query reaches the driver only checked and bound. Query calls the connection at most once, and
    only with the caller's statement as it is, when the read-only check passes it, and with the
    parameters that translateBindings gives, under a context with the client's deadline if it has one.
    Its answer is then the driver's rows, or the driver's error wrapped with the derived context
    cancelled; without a call it is the refusal of the statement or of the bindings. *)
Theorem Query_checked timeout ctx statement bindings :
  let out := Query SimpleFold withTimeout connection timeout ctx statement bindings in
  match calls out with
  | [] => validateReadOnlyStatement SimpleFold statement = false /\ answer out = Err ErrUnsafeStatement \/
          validateReadOnlyStatement SimpleFold statement = true /\ exists e, translateBindings bindings = Err e /\ answer out = Err (ErrBinding e)
  | [(c, st, parameters)] =>
      st = statement /\ c = call_context timeout ctx /\ validateReadOnlyStatement SimpleFold statement = true /\
      translateBindings bindings = Ok parameters /\
      match connection c st parameters with
      | Ok r => answer out = Ok (handed timeout r) /\ cancel_called out = false
      | Err e => answer out = Err (ErrOperation "query" e) /\ cancel_called out = (0 <? timeout)
      end
  | _ => False
  end.
Proof. apply Query_spec. Qed.
End QueryProps.

End ChClient.
