(* ===== verification/ReadQuery.v ===== *)
(** The single path every reader queries through: src/readers/query.go, timebound.go, settings.go, and the
    error classes of instrumentation.go. ReadInstrument.v adds the telemetry around a query. *)
From S2P Require Import Prelude GoTime GoFormat ChBindings ChStatement ChClient.

Module ReadQuery.
Import GoTime GoFormat ChBindings ChStatement ChClient.

(** * One query *)

Inductive read_error := ErrQueryClientRequired | ErrQuery (e : error).

(** What a call leaves: the queries it made of its client, its error, the rows it closed, if any were opened,
    and what the callbacks kept. *)
Record read_end (R St : Type) := mkEnd { made : list (string * list Binding); failed : option read_error; closed : option R; kept : St }.
#[global] Arguments mkEnd {R St}.
#[global] Arguments made {R St}.
#[global] Arguments failed {R St}.
#[global] Arguments closed {R St}.
#[global] Arguments kept {R St}.

Section Read.
Context {R V St : Type} `{!RowScanner R V}.
(** The callback, which may call Scan on the rows. *)
Variable scan : R -> St -> option error * (R * St).

(** for rows.Next() { ... }; rows.Err(): None when the fuel runs out. *)
Fixpoint read_rows (fuel : nat) (r : R) (s : St) : option (option error * R * St) :=
  match fuel with
  | 0 => None
  | S fuel =>
      match Next (V := V) r with
      | (false, r) => Some (Err_ (V := V) r, r, s)
      | (true, r) =>
          match scan r s with
          | (Some e, (r, s)) => Some (Some e, r, s)
          | (None, (r, s)) => read_rows fuel r s
          end
      end
  end.

(** The bindings of every call: the organization and the ids first. *)
Definition scoped_bindings (orgID : string) (ids : list string) (extra : list Binding) : list Binding :=
  [mkBinding "org_id" (VString orgID); mkBinding "ids" (VStrings ids)] ++ extra.

Definition QueryOrgScopedNamed (fuel : nat) (client : option (string -> list Binding -> result error R))
    (statement orgID : string) (ids : list string) (extra : list Binding) (s : St) : option (read_end R St) :=
  match client with
  | None => Some (mkEnd [] (Some ErrQueryClientRequired) None s)
  | Some query =>
      let bindings := scoped_bindings orgID ids extra in
      let made := [(statement, bindings)] in
      match query statement bindings with
      | Err e => Some (mkEnd made (Some (ErrQuery e)) None s)
      | Ok r =>
          match read_rows fuel r s with
          | None => None
          | Some (e, r, s) => Some (mkEnd made (option_map ErrQuery e) (Some (Close (V := V) r).2) s)
          end
      end
  end.
End Read.

(** QueryOrgScoped is QueryOrgScopedNamed under the reader name "unattributed", which only the
    instrumentation sees. *)

Definition DefaultRowLimit : Z := 200.
Definition ProbeRowLimit : Z := DefaultRowLimit + 1.
Definition newline : string := String (chr 10) "".
Definition WithRowLimit (statement : string) (limit : Z) : string := statement +:+ newline +:+ "LIMIT " +:+ FormatInt limit.

(** safeErrorClass; [canceled] and [deadline] are what errors.Is says of the context's errors. *)
Definition safeErrorClass (e : option read_error) (canceled deadline : bool) : string :=
  match e with
  | None => ""
  | Some ErrQueryClientRequired => "client_required"
  | Some (ErrQuery e) =>
      if canceled then "context_canceled"
      else if deadline then "context_deadline_exceeded"
      else match e with
      | ErrBinding ErrUnsupportedBinding => "unsupported_binding"
      | ErrBinding ErrUnsafeBindingValue => "unsafe_binding_value"
      | ErrBinding ErrInvalidBinding => "invalid_binding"
      | _ => "query_error"
      end
  end.

(** * Time bounds *)

Record TimeBound := mkBound { Active : bool; HasStart : bool; Start : Time; End_ : Time }.

Definition BoundStartParam : string := "time_start".
Definition BoundEndParam : string := "time_end".

(** A placeholder of a bound, {name:DateTime64(6,'UTC')}. *)
Definition bound_param (name : string) : string := "{" +:+ name +:+ ":DateTime64(6,'UTC')}".

Definition DayPredicate (b : TimeBound) (column : string) : string :=
  if negb (Active b) then ""
  else
    let predicate := " AND " +:+ column +:+ " <= toDate(" +:+ bound_param BoundEndParam +:+ ")" in
    if HasStart b then predicate +:+ " AND " +:+ column +:+ " >= toDate(" +:+ bound_param BoundStartParam +:+ ")" else predicate.

Definition TimestampPredicate (b : TimeBound) (column : string) : string :=
  if negb (Active b) then ""
  else
    let predicate := " AND " +:+ column +:+ " <= " +:+ bound_param BoundEndParam in
    if HasStart b then predicate +:+ " AND " +:+ column +:+ " >= " +:+ bound_param BoundStartParam else predicate.

Definition ExistencePredicate (b : TimeBound) (column : string) : string :=
  if negb (Active b) then "" else " AND " +:+ column +:+ " <= " +:+ bound_param BoundEndParam.

Definition AsOfExpression (b : TimeBound) : string := bound_param BoundEndParam.

Definition Bindings (b : TimeBound) : list Binding :=
  if negb (Active b) then []
  else
    let bindings := [mkBinding BoundEndParam (VTime (End_ b))] in
    if HasStart b then bindings ++ [mkBinding BoundStartParam (VTime (Start b))] else bindings.

(** * Settings *)

Record Settings := mkSettings { MaxExecutionTimeSeconds : Z; MaxRowsToRead : Z; MaxMemoryUsage : Z; MaxThreads : Z; SMaxResultRows : Z }.

(** One ceiling: its assignment and how the server fails past it; zero leaves it out. *)
Definition ceiling (name : string) (value : Z) (overflow : list string) : list string :=
  if (value =? 0)%Z then [] else (name +:+ " = " +:+ FormatInt value) :: overflow.

Definition Render (s : Settings) : string :=
  let parts :=
    ceiling "max_execution_time" (MaxExecutionTimeSeconds s) ["timeout_overflow_mode = 'throw'"] ++
    ceiling "max_rows_to_read" (MaxRowsToRead s) ["read_overflow_mode = 'throw'"] ++
    ceiling "max_memory_usage" (MaxMemoryUsage s) [] ++
    ceiling "max_threads" (MaxThreads s) [] ++
    ceiling "max_result_rows" (SMaxResultRows s) ["result_overflow_mode = 'throw'"] in
  match parts with [] => "" | _ => newline +:+ "SETTINGS " +:+ Prelude.join ", " parts end.

Definition WithSettings (statement : string) (s : Settings) : string := statement +:+ Render s.

Example render_two : Render (mkSettings 5 0 0 2 0) = newline +:+ "SETTINGS max_execution_time = 5, timeout_overflow_mode = 'throw', max_threads = 2".
Proof. vm_compute. reflexivity. Qed.

(** * Properties *)

Section Props.
Context {R V St : Type} `{!RowScanner R V}.
Variable scan : R -> St -> option error * (R * St).

(** The rows end, or a callback stops the loop, within so many turns. *)
Inductive ends_within : nat -> R -> St -> Prop :=
| ew_end n r r' s : Next (V := V) r = (false, r') -> ends_within (S n) r s
| ew_stop n r r1 s e p : Next (V := V) r = (true, r1) -> scan r1 s = (Some e, p) -> ends_within (S n) r s
| ew_row n r r1 r2 s s2 : Next (V := V) r = (true, r1) -> scan r1 s = (None, (r2, s2)) -> ends_within n r2 s2 -> ends_within (S n) r s.

Lemma read_rows_ends n r s : ends_within n r s <-> is_Some (read_rows (V := V) scan n r s).
Proof.
  split.
  - induction 1 as [n r r' s H|n r r1 s e [r2 s2] H Hs|n r r1 r2 s s2 H Hs Hn IH]; cbn [read_rows]; rewrite H; rewrite ?Hs; eauto.
  - revert r s. induction n as [|n IH]; intros r s; cbn [read_rows]; [intros [? ?]; discriminate|].
    destruct (Next (V := V) r) as [[|] r1] eqn:E; [|intros _; econstructor; exact E].
    destruct (scan r1 s) as [[e|] [r2 s2]] eqn:Es; intros H; [eapply ew_stop; eassumption | eapply ew_row; eauto].
Qed.

(** More fuel changes nothing. *)
Lemma read_rows_mono n m r s x : read_rows (V := V) scan n r s = Some x -> n <= m -> read_rows (V := V) scan m r s = Some x.
Proof.
  revert m r s. induction n as [|n IH]; intros m r s H Hm; [discriminate|]. destruct m as [|m]; [lia|]. cbn [read_rows] in *.
  destruct (Next r) as [[|] r1]; [|exact H]. destruct (scan r1 s) as [[e|] [r2 s2]]; [exact H|]. apply IH; [exact H | lia].
Qed.
End Props.

(** ** Over the client *)

Section OverClient.
Variable SimpleFold : N -> N.
Context {Ctx R V St : Type} `{!RowScanner R V}.
Variable withTimeout : Ctx -> Duration -> Ctx.
Variable connection : Ctx -> string -> gmap string string -> result cause R.
Variable scan : clientRows R -> St -> option error * (clientRows R * St).
Variables (timeout : Duration) (ctx : Ctx).

Definition asked (statement : string) (bindings : list Binding) : outcome Ctx R :=
  Query SimpleFold withTimeout connection timeout ctx statement bindings.
(** The client as a reader sees it. *)
Definition query (statement : string) (bindings : list Binding) : result error (clientRows R) := answer (asked statement bindings).

Lemma scoped_params orgID ids extra m :
  translateBindings (scoped_bindings orgID ids extra) = Ok m ->
  m !! "org_id" = Some orgID /\ Forall safe ids /\ m !! "ids" = Some ("[" +:+ Prelude.join "," (map quoted ids) +:+ "]") /\
  forall b, b ∈ extra -> Name b <> "org_id" /\ Name b <> "ids" /\ exists s, encodes (Val b) s /\ m !! Name b = Some s.
Proof.
  intros H. pose proof (translateBindings_spec (scoped_bindings orgID ids extra)) as T. rewrite H in T. destruct T as (Hnd & _ & Hall & _).
  destruct (Hall (mkBinding "org_id" (VString orgID)) ltac:(left)) as (o & Ho & Mo). inversion Ho; subst.
  destruct (Hall (mkBinding "ids" (VStrings ids)) ltac:(right; left)) as (i & Hi & Mi). inversion Hi as [| |l Hs| | |]; subst.
  split; [exact Mo|]. split; [exact Hs|]. split; [exact Mi|]. intros b Hb. unfold scoped_bindings in Hnd. cbn [map app Name] in Hnd.
  apply NoDup_cons in Hnd as [N1 [N2 _]%NoDup_cons].
  split; [intros E; apply N1; right; rewrite <-E; apply list_elem_of_fmap; eauto|].
  split; [intros E; apply N2; rewrite <-E; apply list_elem_of_fmap; eauto|]. apply Hall. right. right. exact Hb.
Qed.

(** Reading keeps a context's rows managed. *)
Definition managed (r : clientRows R) : Prop := exists m, r = Managed m.
Hypothesis scan_keeps : forall r s, managed r -> managed (scan r s).2.1.

Lemma read_rows_managed n r s e r' s' : managed r -> read_rows (V := V) scan n r s = Some (e, r', s') -> managed r'.
Proof using All.
  revert r s. induction n as [|n IH]; intros r s [m ->]; [discriminate|]. cbn [read_rows].
  assert (Hm : forall b r1, Next (V := V) (Managed m) = (b, r1) -> managed r1) by (cbn; intros b r1; destruct (Next (rows m)); intros [= <- <-]; eexists; reflexivity).
  destruct (Next (Managed m)) as [[|] r1] eqn:E; specialize (Hm _ _ eq_refl); [|intros [= <- <- <-]; exact Hm].
  pose proof (scan_keeps r1 s Hm) as Hs. destruct (scan r1 s) as [[x|] [r2 s2]]; cbn in Hs; [intros [= <- <- <-]; exact Hs | apply IH, Hs].
Qed.

Lemma asked_call statement bindings c st m :
  (c, st, m) ∈ calls (asked statement bindings) -> st = statement /\ validateReadOnlyStatement SimpleFold statement = true /\ translateBindings bindings = Ok m.
Proof.
  pose proof (Query_spec SimpleFold withTimeout connection timeout ctx statement bindings) as H. cbv zeta in H. fold (asked statement bindings) in H.
  destruct (calls (asked statement bindings)) as [|[[c' st'] m'] [|]]; [intros E; inversion E| |destruct H].
  intros [= -> -> ->]%list_elem_of_singleton. destruct H as (-> & _ & Hv & Ht & _). auto.
Qed.

Lemma asked_refused statement bindings e :
  translateBindings bindings = Err e -> calls (asked statement bindings) = [].
Proof.
  intros He. pose proof (asked_call statement bindings) as H. destruct (calls (asked statement bindings)) as [|[[c st] m] l]; [reflexivity|].
  destruct (H c st m ltac:(left)) as (_ & _ & Ht). congruence.
Qed.

(** Rows the client hands out under a timeout are managed. *)
Lemma asked_managed statement bindings r : (0 < timeout)%Z -> query statement bindings = Ok r -> managed r.
Proof.
  intros Ht. unfold query. pose proof (Query_spec SimpleFold withTimeout connection timeout ctx statement bindings) as H. cbv zeta in H. fold (asked statement bindings) in H.
  destruct (calls (asked statement bindings)) as [|[[c' st'] m'] [|]]; [destruct H as [[_ ->]|(_ & e & _ & ->)]; discriminate| |destruct H].
  destruct H as (_ & _ & _ & _ & H). destruct (connection c' st' m') as [rr|x]; destruct H as [-> _]; [|discriminate]. intros [= <-].
  unfold handed. destruct (Z.ltb_spec 0 timeout); [eexists; reflexivity | lia].
Qed.

(** What the one call may carry, and a binding that names the organization or the ids again. *)
Lemma asked_scoped escape statement orgID ids extra :
  let out := asked statement (scoped_bindings orgID ids extra) in
  (forall c st m, (c, st, m) ∈ calls out -> st = statement /\ m !! "org_id" = Some orgID /\
    (exists text, m !! "ids" = Some text /\ read_array escape text = Some ids) /\
    forall b, b ∈ extra -> exists text, encodes (Val b) text /\ m !! Name b = Some text) /\
  (forall b, b ∈ extra -> Name b = "org_id" \/ Name b = "ids" -> calls out = []).
Proof.
  cbv zeta. split.
  - intros c st m Hc. destruct (asked_call _ _ _ _ _ Hc) as (-> & _ & Ht). destruct (scoped_params _ _ _ _ Ht) as (Ho & Hs & Hi & He).
    split; [reflexivity|]. split; [exact Ho|]. split; [|intros b Hb; apply He, Hb]. eexists. split; [exact Hi|].
    pose proof (array_text escape ids) as Ha. rewrite (proj2 (clickHouseStringArray_iff ids _) (conj Hs eq_refl)) in Ha. apply Ha.
  - intros b Hb Hn. destruct (translateBindings (scoped_bindings orgID ids extra)) as [m|x] eqn:Ht; [|exact (asked_refused _ _ _ Ht)].
    destruct (scoped_params _ _ _ _ Ht) as (_ & _ & _ & He). destruct (He _ Hb) as (H1 & H2 & _). destruct Hn; contradiction.
Qed.

(** One call at most; one that fails leaves no context with a deadline uncancelled. *)
Lemma asked_once statement bindings :
  length (calls (asked statement bindings)) <= 1 /\
  forall x, answer (asked statement bindings) = Err x -> (0 < timeout)%Z -> calls (asked statement bindings) <> [] -> cancel_called (asked statement bindings) = true.
Proof.
  pose proof (Query_spec SimpleFold withTimeout connection timeout ctx statement bindings) as H. cbv zeta in H. fold (asked statement bindings) in H.
  destruct (calls (asked statement bindings)) as [|[[c st] m] [|]]; [split; [cbn; lia | congruence]| |destruct H].
  split; [cbn; lia|]. intros x Hx Ht _. destruct H as (_ & _ & _ & _ & H). destruct (connection c st m); destruct H as [Ha Hc]; [congruence|].
  rewrite Hc. apply Z.ltb_lt. exact Ht.
Qed.

(** C7: every read stays inside its organization and lets go of what it opened. Over the client,
    QueryOrgScopedNamed returns once the rows end. It makes one query of its client, and with it the driver sees
    at most one call, with the reader's statement as it is and parameters that hold the organization, the ids
    (as a text that reads back as them) and each extra binding; an extra binding that names the organization
    or the ids again makes no call at all. On an error of the query nothing was opened; otherwise every row
    up to the first error was scanned in order, and the rows are closed whatever happened. A client with a
    timeout derives a context for each call it makes of the driver, and that context is cancelled either way;
    one without derives none. *)
Theorem QueryOrgScoped_scoped escape fuel statement orgID ids extra s :
  let out := asked statement (scoped_bindings orgID ids extra) in
  (forall r, answer out = Ok r -> ends_within (V := V) scan fuel r s) ->
  exists e, QueryOrgScopedNamed (V := V) scan fuel (Some query) statement orgID ids extra s = Some e /\
    made e = [(statement, scoped_bindings orgID ids extra)] /\ length (calls out) <= 1 /\
    (forall c st m, (c, st, m) ∈ calls out -> st = statement /\ m !! "org_id" = Some orgID /\
      (exists text, m !! "ids" = Some text /\ read_array escape text = Some ids) /\
      forall b, b ∈ extra -> exists text, encodes (Val b) text /\ m !! Name b = Some text) /\
    (forall b, b ∈ extra -> Name b = "org_id" \/ Name b = "ids" -> calls out = []) /\
    match answer out with
    | Err x => failed e = Some (ErrQuery x) /\ closed e = None /\ kept e = s /\ ((0 < timeout)%Z -> calls out <> [] -> cancel_called out = true)
    | Ok r => exists x r1, read_rows (V := V) scan fuel r s = Some (x, r1, kept e) /\ failed e = option_map ErrQuery x /\ closed e = Some (Close (V := V) r1).2 /\
        ((0 < timeout)%Z -> exists m, (Close (V := V) r1).2 = Managed m /\ cancelled m = true)
    end.
Proof using scan_keeps.
  intros out Hend. assert (Hq : query statement (scoped_bindings orgID ids extra) = answer out) by reflexivity.
  destruct (asked_scoped escape statement orgID ids extra) as [P1 P2]. destruct (asked_once statement (scoped_bindings orgID ids extra)) as [L1 L2]. fold out in P1, P2, L1, L2.
  unfold QueryOrgScopedNamed. cbv zeta. rewrite Hq. pose proof (asked_managed statement (scoped_bindings orgID ids extra)) as Hm. rewrite Hq in Hm.
  destruct (answer out) as [r|x] eqn:Ea; [|eexists; split; [reflexivity|]; cbn; eauto 10].
  destruct (proj1 (read_rows_ends (V := V) scan fuel r s) (Hend r eq_refl)) as [[[x r1] s1] Er]. rewrite Er.
  eexists. split; [reflexivity|]. split; [reflexivity|]. split; [exact L1|]. split; [exact P1|]. split; [exact P2|]. exists x, r1. cbn.
  split; [reflexivity|]. split; [reflexivity|]. split; [reflexivity|].
  intros Ht. destruct (read_rows_managed _ _ _ _ _ _ (Hm r Ht eq_refl) Er) as [[r2 c2] ->]. cbn. destruct (Close r2). eexists. split; reflexivity.
Qed.
End OverClient.

(** ** A reader's callback: scan one row and append it. *)

Definition collect {R V} `{!RowScanner R V} (r : R) (acc : list V) : option error * (R * list V) :=
  match Scan r with
  | (Ok v, r) => (None, (r, acc ++ [v]))
  | (Err e, r) => (Some e, (r, acc))
  end.

Lemma collect_keeps {R V} `{!RowScanner R V} (r : clientRows R) (acc : list V) : managed r -> managed (collect r acc).2.1.
Proof. intros [m ->]. unfold collect. cbn. destruct (Scan (rows m)) as [[v|e] r']; eexists; reflexivity. Qed.

(** ** A sample: a driver that holds its rows *)

Definition sample_rows : Type := (list string * string)%type.
#[global] Instance sample_scanner : RowScanner sample_rows string := {
  Next r := match r.1 with [] => (false, r) | x :: l => (true, (l, x)) end;
  Scan r := (Ok r.2, r);
  Err_ r := None;
  Close r := (None, r) }.

Definition sample_statement : string := "SELECT r.id FROM repos AS r WHERE r.org_id = {org_id:String} AND r.id IN {ids:Array(String)}".
Definition sample_connection (c : option Duration) (st : string) (m : gmap string string) : result cause sample_rows :=
  match m !! "ids" with Some "['r''1','r2']" => Ok (["a"; "b"], "") | _ => Err (mkCause "*errors.errorString" "down" None) end.

Example sample_read :
  QueryOrgScopedNamed collect 3 (Some (query id (fun _ d => Some d) sample_connection 5%Z None)) sample_statement "org-1" ["r'1"; "r2"] [] []
  = Some (mkEnd [(sample_statement, scoped_bindings "org-1" ["r'1"; "r2"] [])] None (Some (Managed (mkManaged ([], "b") true))) ["a"; "b"]).
Proof. vm_compute. reflexivity. Qed.

Lemma QueryOrgScoped_scoped_witness : exists e : read_end (clientRows sample_rows) (list string),
  QueryOrgScopedNamed collect 3 (Some (query id (fun _ d => Some d) sample_connection 5%Z None)) sample_statement "org-1" ["r'1"; "r2"] [] [] = Some e.
Proof.
  destruct (QueryOrgScoped_scoped (V := string) id (fun _ d => Some d) sample_connection collect 5%Z None collect_keeps (fun _ => None) 3 sample_statement "org-1" ["r'1"; "r2"] [] [])
    as (e & He & _).
  - intros r Hr. vm_compute in Hr. injection Hr as <-.
    eapply ew_row; [reflexivity | reflexivity |]. eapply ew_row; [reflexivity | reflexivity |]. eapply ew_end. reflexivity.
  - exists e. exact He.
Defined.

End ReadQuery.
