(* ===== verification/ReadInstrument.v ===== *)
(** The telemetry of a query: src/readers/instrumentation.go, otel_instrumentation.go and slog_instrumentation.go
    around QueryOrgScopedNamed. What an adapter hands to OpenTelemetry or to slog is a signal; the time a query
    takes is an argument, as is what errors.Is says of the context's errors. *)
From S2P Require Import Prelude GoTime ChBindings ChClient ReadQuery.

Module ReadInstrument.
Import ChBindings ChClient ReadQuery.

Inductive attr := AString (key value : string) | ABool (key : string) (value : bool) | AInt64 (key : string) (value : Z).
Inductive signal :=
| SpanStart (name : string) (attrs : list attr)
| Counter (name : string) (attrs : list attr)
| Latency (name : string) (nanoseconds : Z) (attrs : list attr)
| SpanAttribute (a : attr)
| SpanStatus (class : string)
| SpanEnd
| LogAttrs (level : Z) (message : string) (attrs : list attr).

(** An error, with whether it is the context's. *)
Record query_error := mkQueryError { what : read_error; canceled : bool; deadline : bool }.
Definition class_of (e : query_error) : string := safeErrorClass (Some (what e)) (canceled e) (deadline e).

(** StartQuery: what it signals, and the finish function, of the time that passed and the error. *)
Record Instrumentation := mkInstrumentation { StartQuery : string -> bool -> list signal * (Z -> option query_error -> list signal) }.

Definition NoopInstrumentation : Instrumentation := mkInstrumentation (fun _ _ => ([], fun _ _ => [])).

Definition query_attrs (reader : string) (orgScoped : bool) : list attr := [AString "reader" reader; ABool "org_scoped" orgScoped].

Definition OTelInstrumentation : Instrumentation := mkInstrumentation (fun reader orgScoped =>
  let attrs := query_attrs reader orgScoped in
  ([SpanStart "readers.QueryOrgScoped" attrs; Counter "dev_health_go.readers.query_count" attrs],
   fun elapsed err =>
     Latency "dev_health_go.readers.query_latency_ms" elapsed attrs ::
     match err with
     | Some e => [Counter "dev_health_go.readers.query_error_count" attrs; SpanAttribute (AString "error_class" (class_of e)); SpanStatus (class_of e)]
     | None => []
     end ++ [SpanEnd])).

(** Duration.Milliseconds truncates. *)
Definition SlogInstrumentation (level : Z) : Instrumentation := mkInstrumentation (fun reader orgScoped =>
  ([], fun elapsed err =>
     let attrs := query_attrs reader orgScoped ++ [AInt64 "duration_ms" (Z.quot elapsed 1000000)] in
     match err with
     | Some e => [LogAttrs level "readers.query_org_scoped" (attrs ++ [AString "error_class" (class_of e)])]
     | None => [LogAttrs level "readers.query_org_scoped" attrs]
     end)).

(** A context's value under the package's key. *)
Definition ContextWithInstrumentation (ctx instr : option Instrumentation) : option Instrumentation :=
  match instr with None => ctx | Some i => Some i end.
Definition instrumentationFromContext (ctx : option Instrumentation) : Instrumentation := default NoopInstrumentation ctx.

Section Instrumented.
Context {R V St : Type} `{!RowScanner R V}.
Variable scan : R -> St -> option error * (R * St).
(** What errors.Is says of context.Canceled and context.DeadlineExceeded. *)
Variable is_ctx : read_error -> bool * bool.
Definition observed (e : read_error) : query_error := mkQueryError e (is_ctx e).1 (is_ctx e).2.

(** QueryOrgScopedNamed, whole: finish is deferred, so every return of the query's passes it once. *)
Definition InstrumentedQuery (ctx : option Instrumentation) (elapsed : Z) (reader : string) (fuel : nat)
    (client : option (string -> list Binding -> result error R)) (statement orgID : string) (ids : list string) (extra : list Binding) (s : St) :
    option (read_end R St * list signal) :=
  let '(started, finish) := StartQuery (instrumentationFromContext ctx) reader true in
  option_map (fun e => (e, started ++ finish elapsed (option_map observed (failed e)))) (QueryOrgScopedNamed (V := V) scan fuel client statement orgID ids extra s).
Definition QueryOrgScoped (ctx : option Instrumentation) (elapsed : Z) := InstrumentedQuery ctx elapsed "unattributed".

(** ** What a sink sees *)

Definition error_classes : list string :=
  ["client_required"; "context_canceled"; "context_deadline_exceeded"; "unsupported_binding"; "unsafe_binding_value"; "invalid_binding"; "query_error"].
Definition attr_text (a : attr) : list string := match a with AString k v => [k; v] | ABool k _ => [k] | AInt64 k _ => [k] end.
Definition signal_text (s : signal) : list string :=
  match s with
  | SpanStart n l | Counter n l | Latency n _ l | LogAttrs _ n l => n :: flat_map attr_text l
  | SpanAttribute a => attr_text a
  | SpanStatus c => [c]
  | SpanEnd => []
  end.
(** The package's own words. *)
Definition vocabulary : list string :=
  ["readers.QueryOrgScoped"; "dev_health_go.readers.query_count"; "dev_health_go.readers.query_error_count"; "dev_health_go.readers.query_latency_ms";
   "readers.query_org_scoped"; "reader"; "org_scoped"; "duration_ms"; "error_class"] ++ error_classes.

Lemma class_closed e : class_of e ∈ error_classes.
Proof.
  unfold class_of, safeErrorClass. apply contains_spec. destruct e as [[|[]] [] []]; try reflexivity; cbn [what canceled deadline]; repeat match goal with |- context [match ?e with _ => _ end] => destruct e; try reflexivity end.
Qed.

#[local] Opaque class_of.
(** The ready-made adapters never change a query, and say of it only its reader, its time and whether it failed,
    in words of the package: no text of an error, a statement or a value leaves through them. A query is counted
    and its span ended, or its record written, exactly once, and an error is counted exactly when there is one. *)
Lemma telemetry_closed instr level elapsed reader fuel client statement orgID ids extra s :
  instr ∈ [NoopInstrumentation; OTelInstrumentation; SlogInstrumentation level] ->
  match InstrumentedQuery (Some instr) elapsed reader fuel client statement orgID ids extra s with
  | None => QueryOrgScopedNamed (V := V) scan fuel client statement orgID ids extra s = None
  | Some (e, signals) =>
      QueryOrgScopedNamed (V := V) scan fuel client statement orgID ids extra s = Some e /\
      (forall t, t ∈ flat_map signal_text signals -> t = reader \/ t ∈ vocabulary) /\
      (instr = OTelInstrumentation ->
        length (List.filter (fun x => match x with SpanEnd => true | _ => false end) signals) = 1 /\
        length (List.filter (fun x => match x with Counter n _ => String.eqb n "dev_health_go.readers.query_count" | _ => false end) signals) = 1 /\
        length (List.filter (fun x => match x with Counter n _ => String.eqb n "dev_health_go.readers.query_error_count" | _ => false end) signals)
        = if failed e then 1 else 0) /\
      (instr = SlogInstrumentation level -> length signals = 1)
  end.
Proof.
  intros Hi. unfold InstrumentedQuery. change (instrumentationFromContext (Some instr)) with instr. destruct (StartQuery instr reader true) as [started finish] eqn:Es.
  generalize (QueryOrgScopedNamed (V := V) scan fuel client statement orgID ids extra s). intros [e|]; cbv beta iota delta [option_map]; [|reflexivity]. split; [reflexivity|].
  assert (Hv : forall x, contains vocabulary x = true -> x ∈ vocabulary) by (intros x; apply contains_spec).
  assert (Hc : forall q, class_of q ∈ vocabulary) by (intros q; unfold vocabulary; apply elem_of_app; right; apply class_closed).
  rewrite !elem_of_cons, elem_of_nil in Hi. destruct Hi as [-> | [-> | [-> | []]]]; cbn in Es; inversion Es; subst started finish; clear Es; destruct (failed e) as [x|]; cbn [option_map app]; (split; [|split]).
  all: try (intros t Ht; cbn in Ht; rewrite ?elem_of_cons, ?elem_of_nil in Ht; repeat destruct Ht as [-> | Ht]; try contradiction; auto; right; first [apply Hc | apply Hv; reflexivity]).
  all: intros E; try discriminate E; auto.
  all: try (exfalso; apply (f_equal (fun i => length ((StartQuery i "" true).2 0%Z None))) in E; discriminate E).
Qed.
End Instrumented.
End ReadInstrument.
