(* ===== verification/ReadOwnership.v ===== *)
(** The SQL that resolves projects and their owning teams: src/readers/ownership.go, and the presence test
    of a key column of authorization.go. The text is the code's, byte for byte. *)
From S2P Require Import Prelude GoTime GoFormat ChBindings ReadQuery.

Module ReadOwnership.
Import GoFormat ReadQuery.

(** ** Presence of a key (authorization.go) *)

Definition zeroUUID : string := "00000000-0000-0000-0000-000000000000".
Inductive keyKind := uuidKey | stringKey.
Definition keyPresentSQL (column : string) (kind : keyKind) : string :=
  match kind with
  | uuidKey => "toString(" +:+ column +:+ ") != '' AND toString(" +:+ column +:+ ") != '" +:+ zeroUUID +:+ "'"
  | stringKey => column +:+ " != ''"
  end.

(** ** Ownership at a time *)

Definition OwnershipValidityPredicate (b : TimeBound) : string :=
  if Active b then
    let param := if HasStart b then BoundStartParam else BoundEndParam in
    " AND (valid_to IS NULL OR valid_to > {" +:+ param +:+ ":DateTime64(6,'UTC')})"
  else " AND valid_from <= now64(3) AND valid_to IS NULL".

(** ** Project identity *)

Definition projectIdentityCatalogRowsSQL : string := "
		SELECT id, provider, project_key, key_resolution_count
		FROM (
			SELECT id, provider, ifNull(project_key, '') AS project_key,
				countIf(ifNull(project_key, '') != '') OVER (PARTITION BY provider, ifNull(project_key, '')) AS key_resolution_count
			FROM projects FINAL
			WHERE org_id = {org_id:String}
		)".

Definition projectIdentityRowsSQL : string := projectIdentityCatalogRowsSQL +:+ "
		WHERE concat(provider, ':', id) IN {ids:Array(String)}".

Definition projectIdentityExpansionSQL (rows : string) : string := "(
	SELECT provider, id, project_key, key_resolution_count, scope, max(scope_kind) AS scope_kind
	FROM (
		SELECT provider, id, project_key,
			key_resolution_count AS project_key_resolution_count,
			(project_key != '' AND key_resolution_count = 1) AS key_scope_emitted
		FROM (" +:+ rows +:+ ")
	)
	ARRAY JOIN
		if(key_scope_emitted, [id, project_key], [id]) AS scope,
		if(key_scope_emitted, ['id', 'key'], ['id']) AS scope_kind,
		if(key_scope_emitted, [toUInt64(1), project_key_resolution_count], [toUInt64(1)]) AS key_resolution_count
	GROUP BY provider, id, project_key, key_resolution_count, scope
) AS p".

Definition ProjectIdentityJoinSQL : string := projectIdentityExpansionSQL projectIdentityRowsSQL.
Definition ProjectIdentityCatalogSQL : string := projectIdentityExpansionSQL projectIdentityCatalogRowsSQL.
Definition ProjectIdentityMatchSQL (alias column : string) : string := alias +:+ "." +:+ column +:+ " = p.scope".

(** ** Owning teams and their repositories *)

Definition ProjectOwnershipJoinColumn : string := "project_id".

Definition projectOwnershipJoinOver (projects ownershipPredicate : string) : string :=
  let ownership := "(
		SELECT provider, " +:+ ProjectOwnershipJoinColumn +:+ " AS scope_value, team_id, '' AS required_scope_kind
		FROM team_project_ownership FINAL
		WHERE org_id = {org_id:String} AND " +:+ ProjectOwnershipJoinColumn +:+ " IS NOT NULL" +:+ ownershipPredicate +:+ "
		GROUP BY provider, " +:+ ProjectOwnershipJoinColumn +:+ ", team_id

		UNION ALL

		SELECT provider, ifNull(project_key, '') AS scope_value, team_id, 'key' AS required_scope_kind
		FROM team_project_ownership FINAL
		WHERE org_id = {org_id:String} AND project_key IS NOT NULL AND project_key != ''" +:+ ownershipPredicate +:+ "
		GROUP BY provider, project_key, team_id
	) AS o" in
  "(
	SELECT provider, id, team_id
	FROM " +:+ projects +:+ "
	INNER JOIN " +:+ ownership +:+ " ON o.provider = p.provider AND o.scope_value = p.scope
	WHERE o.required_scope_kind = '' OR p.scope_kind = o.required_scope_kind
	GROUP BY provider, id, team_id
) AS p".

Definition ProjectOwnershipJoinSQL (ownershipPredicate : string) : string := projectOwnershipJoinOver ProjectIdentityJoinSQL ownershipPredicate.
Definition ProjectOwnershipCatalogJoinSQL (ownershipPredicate : string) : string := projectOwnershipJoinOver ProjectIdentityCatalogSQL ownershipPredicate.

Definition TeamRepositoryOwnershipSQL (ownershipPredicate : string) : string :=
  "(SELECT team_id, repo_id FROM team_repo_ownership FINAL WHERE org_id = {org_id:String} AND " +:+ (keyPresentSQL "repo_id" uuidKey) +:+ ownershipPredicate +:+ " GROUP BY team_id, repo_id)".

(** ** Rows *)

(** MarkSeen: whether the key was seen, and the set with it. *)
Definition MarkSeen (seen : gset string) (key : string) : bool * gset string :=
  if bool_decide (key ∈ seen) then (true, seen) else (false, {[key]} ∪ seen).

Definition RepresentableInt64 (value : Z) : Z * bool := if (max_int64 <? value)%Z then (0%Z, false) else (i64 value, true).

End ReadOwnership.
