(* ===== verification/ReadScope.v ===== *)
(** Which work items a caller may see, as SQL: src/readers/authorization.go, work_item_candidates.go, and
    the statement of workitems.go. The text is the code's, byte for byte. strings.ToLower is an argument. *)
From stdpp Require Import sorting.
From S2P Require Import Prelude Utf8 Regex RepoKey GoStrings GoTime GoFormat ChBindings ReadQuery ReadOwnership.

Module ReadScope.
Import Utf8 RepoKey GoStrings GoFormat ChBindings ReadQuery ReadOwnership.

(** * Scopes *)

Record RepositorySelectorSet := mkSet { All : bool; ExactSlugs : list string; Owners : list string }.
Record RepositorySelectorScope := mkSelectors { Granted : RepositorySelectorSet; Requested : option RepositorySelectorSet }.
(** A nil list is None. *)
Record AuthorizationScope := mkScope {
  GrantedRepositoryIDs : option (list string); RequestedRepositoryIDs : option (list string); RepositorySelectors : option RepositorySelectorScope }.
Definition allow_all : AuthorizationScope := mkScope None None None.

Record WorkItemAuthorizationPathSQL := mkPath { Path : string; Expr : string; RepositoriesExpr : string }.
Record WorkItemScopeSQLResult := mkResult {
  JoinSQL : string; AuthorizationExpr : string; ResultBindings : list Binding;
  Provenance : list WorkItemAuthorizationPathSQL; ExcludedLinkProvenancesExpr : string }.

Definition WorkItemAuthorizationOrganizationGrant : string := "organization_grant".
Definition WorkItemAuthorizationDirectRepository : string := "direct_repo".
Definition WorkItemAuthorizationProjectOwnership : string := "project_ownership".
Definition WorkItemAuthorizationPullRequestLink : string := "pr_link".
Definition WorkItemAuthorizationPaths : list string :=
  [WorkItemAuthorizationOrganizationGrant; WorkItemAuthorizationDirectRepository; WorkItemAuthorizationProjectOwnership; WorkItemAuthorizationPullRequestLink].

(** * Candidates (work_item_candidates.go) *)

Record WorkItemCandidates := mkCandidates { relation : string; candidate_bindings : list Binding }.
Definition no_candidates : WorkItemCandidates := mkCandidates "" [].
Definition workItemCandidateIDsBinding : string := "wia_candidate_work_item_ids".
Definition WorkItemCandidateIDs (ids : list string) : WorkItemCandidates :=
  mkCandidates ("{" +:+ workItemCandidateIDsBinding +:+ ":Array(String)}") [mkBinding workItemCandidateIDsBinding (VStrings ids)].
Definition reservedWorkItemBindingName (name : string) : bool :=
  if String.eqb name "org_id" || String.eqb name "ids" then true
  else existsb (fun prefix => String.prefix prefix name) ["authorized_"; "requested_"; "wia_"].
(** None is the panic of a programming error. *)
Definition WorkItemCandidateSubquery (selectSQL : string) (bindings : list Binding) : option WorkItemCandidates :=
  if String.eqb (TrimSpace selectSQL) "" then None
  else if existsb (fun b => reservedWorkItemBindingName (Name b)) bindings then None
  else Some (mkCandidates ("(" +:+ selectSQL +:+ ")") bindings).

(** * Repository names *)

Definition workItemRepositoryJoin : string := "LEFT JOIN repos AS r FINAL ON r.id = w.repo_id AND r.org_id = w.org_id".
Definition workItemRepositoryWhitespacePattern : string := "'^[\\p{Zs}\\p{Zl}\\p{Zp}\\t\\n\\r\\v\\f\\x{85}]+|[\\p{Zs}\\p{Zl}\\p{Zp}\\t\\n\\r\\v\\f\\x{85}]+$'".
Definition workItemRepoSlug : string := "replaceAll(replaceAll(lowerUTF8(replaceRegexpAll(trimBoth(ifNull(r.repo, '')), " +:+ workItemRepositoryWhitespacePattern +:+ ", '')), 'K', 'k'), 'İ', 'i')".
Definition workItemRepoNamed : string := workItemRepoSlug +:+ " != ''".
Definition workItemRepoPresent : string := keyPresentSQL "w.repo_id" uuidKey.
Definition workItemAuthorizingLinkProvenance : string := "native".
Definition emptyRepositories : string := "CAST([], 'Array(String)')".

(** strings.Replace(s, old, new, 1). *)
Fixpoint replace_first (old new s : string) : string :=
  if String.prefix old s then new +:+ drop (String.length old) s
  else match s with EmptyString => EmptyString | String c r => String c (replace_first old new r) end.

Definition repositorySlugSQL (column : string) : string :=
  replace_first "ifNull(r.repo, '')" ("ifNull(" +:+ column +:+ ", '')") workItemRepoSlug.

(** The text of repokey.SlugPattern, which RepoKey.v reads as an expression. *)
Definition group_text : string := "[a-z0-9](?:[a-z0-9._-]{0,98}[a-z0-9])?".
Definition last_text : string := "(?:[a-z0-9]|[a-z0-9.][a-z0-9._-]{0,98}[a-z0-9])".
Fixpoint nest_text (n : nat) : string := match n with 0 => "" | S n => "(?:/" +:+ group_text +:+ nest_text n +:+ ")?" end.
Definition SlugPatternText : string := "^" +:+ group_text +:+ nest_text (MaxSegments - 2) +:+ "/" +:+ last_text +:+ "$".

Definition slugValidSQL (slug : string) : string :=
  "(length(" +:+ slug +:+ ") <= " +:+ FormatInt (Z.of_nat MaxBytes) +:+ " AND match(" +:+ slug +:+ ", '" +:+ SlugPatternText +:+ "') = 1)".
Definition workItemRepoSlugValid : string := slugValidSQL workItemRepoSlug.

Definition repositorySelectorMatchOver (prefix slug : string) : string :=
  "(has({" +:+ prefix +:+ "_repo_slugs:Array(String)}, " +:+ slug +:+ ") OR has({" +:+ prefix +:+ "_repo_owners:Array(String)}, arrayElement(splitByChar('/', " +:+ slug +:+ "), 1)))".
Definition repositorySelectorMatch (prefix : string) : string := repositorySelectorMatchOver prefix workItemRepoSlug.

Definition grantedRepositoryMatchSQL (prefix column : string) : string :=
  let slug := repositorySlugSQL column in
  slugValidSQL slug +:+ " AND " +:+ repositorySelectorMatchOver prefix slug.

(** * The two repo-less relations *)

Definition workItemProjectAuthorizationJoinSQL (prefix : string) (candidates : WorkItemCandidates) : string :=
  let current := OwnershipValidityPredicate (mkBound false false GoTime.zero_time GoTime.zero_time) in
  let candidateScopes := "(SELECT arrayJoin((SELECT groupUniqArray((provider, project_id)) FROM work_items WHERE org_id = {org_id:String} AND work_item_id IN " +:+ (relation candidates) +:+ ")))" in
  let narrowed := negb (String.eqb (relation candidates) "") in
  let ownedProjects := "SELECT provider, id, team_id FROM " +:+ (ProjectOwnershipCatalogJoinSQL current) +:+
    (if narrowed then " WHERE (provider, id) IN (SELECT provider, id FROM " +:+ ProjectIdentityCatalogSQL +:+ " WHERE (provider, scope) IN " +:+ candidateScopes +:+ ")" else "") in
  let scopes := "SELECT provider, id, scope FROM " +:+ ProjectIdentityCatalogSQL +:+
    (if narrowed then " WHERE (provider, scope) IN " +:+ candidateScopes else "") in
  let owned := "SELECT wia_owned_project.provider AS wia_owned_provider, wia_owned_project.id AS wia_owned_id, " +:+ (repositorySlugSQL "wia_owned_repo.repo") +:+ " AS wia_owned_repository " +:+
    "FROM (" +:+ ownedProjects +:+ ") AS wia_owned_project " +:+
    "INNER JOIN " +:+ (TeamRepositoryOwnershipSQL current) +:+ " AS wia_team_repo ON wia_team_repo.team_id = wia_owned_project.team_id " +:+
    "INNER JOIN (SELECT id, repo FROM repos FINAL WHERE org_id = {org_id:String}) AS wia_owned_repo ON wia_owned_repo.id = wia_team_repo.repo_id " +:+
    "WHERE " +:+ (grantedRepositoryMatchSQL prefix "wia_owned_repo.repo") in
  "LEFT JOIN (SELECT wia_scope.provider AS wia_project_provider, wia_scope.scope AS wia_project_scope, arraySort(groupUniqArray(wia_owned.wia_owned_repository)) AS wia_project_repositories " +:+
    "FROM (" +:+ scopes +:+ ") AS wia_scope " +:+
    "INNER JOIN (" +:+ owned +:+ ") AS wia_owned ON wia_owned.wia_owned_provider = wia_scope.provider AND wia_owned.wia_owned_id = wia_scope.id " +:+
    "GROUP BY wia_scope.provider, wia_scope.scope) AS wia_project_auth ON wia_project_auth.wia_project_provider = w.provider AND wia_project_auth.wia_project_scope = w.project_id".

Definition workItemPullRequestLinkJoinSQL (prefix : string) (candidates : WorkItemCandidates) : string :=
  let authorizing := "wia_link.provenance = '" +:+ workItemAuthorizingLinkProvenance +:+ "'" in
  let among := if negb (String.eqb (relation candidates) "") then "wia_link.work_item_id IN " +:+ (relation candidates) +:+ " AND " else "" in
  "LEFT JOIN (SELECT wia_link.work_item_id AS wia_link_work_item_id, " +:+
    "arraySort(groupUniqArrayIf(" +:+ (repositorySlugSQL "wia_link_repo.repo") +:+ ", " +:+ authorizing +:+ ")) AS wia_link_repositories, " +:+
    "arraySort(groupUniqArrayIf(wia_link.provenance, NOT (" +:+ authorizing +:+ "))) AS wia_link_excluded_provenances " +:+ "FROM work_graph_issue_pr AS wia_link FINAL " +:+
    "INNER JOIN (SELECT id, repo FROM repos FINAL WHERE org_id = {org_id:String}) AS wia_link_repo ON wia_link_repo.id = wia_link.repo_id " +:+
    "WHERE wia_link.org_id = {org_id:String} AND " +:+ among +:+ (keyPresentSQL "wia_link.work_item_id" stringKey) +:+ " AND " +:+ (keyPresentSQL "wia_link.repo_id" uuidKey) +:+ " AND " +:+ (grantedRepositoryMatchSQL prefix "wia_link_repo.repo") +:+ " " +:+
    "GROUP BY wia_link.work_item_id) AS wia_link_auth ON wia_link_auth.wia_link_work_item_id = w.work_item_id".

(** * Selectors *)

Section Normalize.
Variable ToLower : string -> string.

(** The loop over the values: [keep] is what a value becomes, if it is taken. *)
Fixpoint normalize_loop (keep : string -> option string) (seen : gset string) (values result : list string) : list string :=
  match values with
  | [] => result
  | raw :: values =>
      match keep raw with
      | None => normalize_loop keep seen values result
      | Some n => if bool_decide (n ∈ seen) then normalize_loop keep seen values result
                  else normalize_loop keep ({[n]} ∪ seen) values (result ++ [n])
      end
  end.

Definition keep_slug (raw : string) : option string :=
  let normalized := ToLower (TrimSpace raw) in
  if negb (ValidSlug normalized) then None else Some normalized.

Definition HasSuffix (s suffix : string) : bool :=
  (String.length suffix <=? String.length s) && String.eqb (drop (String.length s - String.length suffix) s) suffix.
Definition TrimSuffix (s suffix : string) : string := if HasSuffix s suffix then take (String.length s - String.length suffix) s else s.

Definition keep_owner (raw : string) : option string :=
  let normalized := ToLower (TrimSpace raw) in
  let normalized := if HasSuffix normalized "/*" then TrimSuffix normalized "/*" else normalized in
  if String.eqb normalized "" || existsb (Ascii.eqb "/") (chars normalized) || negb (matchb group normalized) then None else Some normalized.

(** sort.Strings *)
Definition SortStrings (l : list string) : list string := merge_sort String.le l.
Definition normalizeRepositorySlugs (values : list string) : list string := SortStrings (normalize_loop keep_slug ∅ values []).
Definition normalizeRepositoryOwners (values : list string) : list string := SortStrings (normalize_loop keep_owner ∅ values []).

Definition boolToFlag (value : bool) : Z := if value then 1 else 0.

Definition selector_bindings (prefix : string) (set : RepositorySelectorSet) : list Binding :=
  [mkBinding (prefix +:+ "_repo_all") (VUint (boolToFlag (All set)));
   mkBinding (prefix +:+ "_repo_slugs") (VStrings (normalizeRepositorySlugs (ExactSlugs set)));
   mkBinding (prefix +:+ "_repo_owners") (VStrings (normalizeRepositoryOwners (Owners set)))].

Definition renderRepositorySelectorSet (set : RepositorySelectorSet) (prefix : string) : string * list Binding * list WorkItemAuthorizationPathSQL :=
  let bindings := selector_bindings prefix set in
  let organization := "{" +:+ prefix +:+ "_repo_all:UInt8} = 1" in
  let direct := "(" +:+ workItemRepoPresent +:+ " AND " +:+ workItemRepoSlugValid +:+ " AND " +:+ (repositorySelectorMatch prefix) +:+ ")" in
  let repoLess := "NOT (" +:+ workItemRepoPresent +:+ ")" in
  let project := "(" +:+ repoLess +:+ " AND " +:+ (keyPresentSQL "w.project_id" stringKey) +:+ " AND notEmpty(wia_project_auth.wia_project_repositories))" in
  let link := "(" +:+ repoLess +:+ " AND notEmpty(wia_link_auth.wia_link_repositories))" in
  let paths := [
    mkPath WorkItemAuthorizationOrganizationGrant organization emptyRepositories;
    mkPath WorkItemAuthorizationDirectRepository direct ("[" +:+ workItemRepoSlug +:+ "]");
    mkPath WorkItemAuthorizationProjectOwnership project "wia_project_auth.wia_project_repositories";
    mkPath WorkItemAuthorizationPullRequestLink link "wia_link_auth.wia_link_repositories"] in
  let match_ := "(" +:+ organization +:+ " OR " +:+ direct +:+ " OR " +:+ project +:+ " OR " +:+ link +:+ ")" in
  (match_, bindings, paths).

Definition renderRequestedRepositorySelectorSet (set : RepositorySelectorSet) : string * list Binding :=
  let bindings := selector_bindings "requested" set in
  let validMatch := "(" +:+ workItemRepoSlugValid +:+ " AND " +:+ (repositorySelectorMatch "requested") +:+ ")" in
  let match_ := "(" +:+ workItemRepoPresent +:+ " AND " +:+ workItemRepoNamed +:+ " AND ({requested_repo_all:UInt8} = 1 OR " +:+ validMatch +:+ "))" in
  (match_, bindings).

(** * The scope's SQL *)

Definition granted_ids (scope : AuthorizationScope) : list string * list Binding :=
  match GrantedRepositoryIDs scope with
  | Some l => (["toString(w.repo_id) IN {authorized_repo_ids:Array(String)}"], [mkBinding "authorized_repo_ids" (VStrings l)])
  | None => ([], [])
  end.
Definition requested_ids (scope : AuthorizationScope) : list string * list Binding :=
  match RequestedRepositoryIDs scope with
  | Some l => (["toString(w.repo_id) IN {requested_repo_ids:Array(String)}"], [mkBinding "requested_repo_ids" (VStrings l)])
  | None => ([], [])
  end.

Definition and_join (l : list string) : string := Prelude.join " AND " l.

(** One entry of Provenance: the path's expression and the request's restrictions. *)
Definition restrict (restrictions : list string) (path : WorkItemAuthorizationPathSQL) : WorkItemAuthorizationPathSQL :=
  let expr := and_join (Expr path :: restrictions) in
  mkPath (Path path) expr ("if(" +:+ expr +:+ ", " +:+ RepositoriesExpr path +:+ ", " +:+ emptyRepositories +:+ ")").

Definition WorkItemScopeSQLAmong (scope : AuthorizationScope) (candidates : WorkItemCandidates) : WorkItemScopeSQLResult :=
  let expressions := (granted_ids scope).1 ++ (requested_ids scope).1 in
  let bindings := (granted_ids scope).2 ++ (requested_ids scope).2 in
  match RepositorySelectors scope with
  | Some sel =>
      let '(grantedExpr, grantedBindings, paths) := renderRepositorySelectorSet (Granted sel) "authorized" in
      let requested := match Requested sel with Some set => Some (renderRequestedRepositorySelectorSet set) | None => None end in
      let requestedExprs := match requested with Some (e, _) => [e] | None => [] end in
      let requestedBindings := match requested with Some (_, b) => b | None => [] end in
      mkResult
        (workItemRepositoryJoin +:+ " " +:+ workItemProjectAuthorizationJoinSQL "authorized" candidates +:+ " " +:+ workItemPullRequestLinkJoinSQL "authorized" candidates)
        (and_join (expressions ++ [grantedExpr] ++ requestedExprs))
        (bindings ++ candidate_bindings candidates ++ grantedBindings ++ requestedBindings)
        (map (restrict (expressions ++ requestedExprs)) paths)
        ("if(NOT (" +:+ workItemRepoPresent +:+ "), wia_link_auth.wia_link_excluded_provenances, " +:+ emptyRepositories +:+ ")")
  | None => mkResult "" (match expressions with [] => "1" | _ => and_join expressions end) bindings [] ""
  end.

Definition WorkItemScopeSQL (scope : AuthorizationScope) : WorkItemScopeSQLResult := WorkItemScopeSQLAmong scope no_candidates.

(** The method predicate: the ID-only form. *)
Definition predicate (scope : AuthorizationScope) (repoIDColumn : string) : string * list Binding :=
  (match GrantedRepositoryIDs scope with Some _ => " AND toString(" +:+ repoIDColumn +:+ ") IN {authorized_repo_ids:Array(String)}" | None => "" end +:+
   match RequestedRepositoryIDs scope with Some _ => " AND toString(" +:+ repoIDColumn +:+ ") IN {requested_repo_ids:Array(String)}" | None => "" end,
   (granted_ids scope).2 ++ (requested_ids scope).2).

(** * The statement of a work-item read (workitems.go) *)

Definition workItemReadStatement (selectSQL extraWhere orderBy : string) (scope : AuthorizationScope) (settings : Settings) (limit : Z) : string * list Binding :=
  let from := "FROM work_items AS w FINAL" in
  let where_ := "w.org_id = {org_id:String} AND concat(toString(w.repo_id), ':', w.work_item_id) IN {ids:Array(String)}" +:+ extraWhere in
  let '(from, where_, scopeBindings) :=
    match RepositorySelectors scope with
    | None => let '(scopePredicate, bindings) := predicate scope "w.repo_id" in (from, where_ +:+ scopePredicate, bindings)
    | Some _ =>
        let rendered := WorkItemScopeSQL scope in
        (from +:+ " " +:+ JoinSQL rendered, where_ +:+ " AND (" +:+ AuthorizationExpr rendered +:+ ")", ResultBindings rendered)
    end in
  let statement := "SELECT " +:+ selectSQL +:+ newline +:+ from +:+ newline +:+ "WHERE " +:+ where_ +:+ newline +:+ "ORDER BY " +:+ orderBy in
  (WithSettings (WithRowLimit statement limit) settings, scopeBindings).

End Normalize.

End ReadScope.
