(* ===== verification/ReadScopeSpec.v ===== *)
(** What the work-item authorization SQL says: its expressions as formulas over atomic tests, and what the
    normalized selectors are.

    The columns the tests read (work_items.repo_id, its project_id, the joined arrays) are not nullable, so
    a formula is true or false. *)
From stdpp Require Import sorting.
From S2P Require Import Prelude Utf8 Regex RepoKey GoStrings GoTime GoFormat ChBindings ReadQuery ReadOwnership ReadScope.

Module ReadScopeSpec.
Import Utf8 RepoKey GoStrings GoFormat ChBindings ReadQuery ReadOwnership ReadScope.

(** * Formulas *)

(** A boolean SQL expression: AND is written bare and binds tighter than OR, which is always in
    parentheses; an atom holds no connective outside its own parentheses. *)
Inductive formula :=
| Atom (s : string)
| And (l : list formula)
| Or (l : list formula)
| Par (f : formula)
| Not (f : formula).

Fixpoint render (f : formula) : string :=
  match f with
  | Atom s => s
  | And l => Prelude.join " AND " (map render l)
  | Or l => "(" +:+ Prelude.join " OR " (map render l) +:+ ")"
  | Par f => "(" +:+ render f +:+ ")"
  | Not f => "NOT (" +:+ render f +:+ ")"
  end.

(** Its value, given what the atoms are in a row. *)
Fixpoint holds (row : string -> bool) (f : formula) : bool :=
  match f with
  | Atom s => row s
  | And l => forallb (holds row) l
  | Or l => existsb (holds row) l
  | Par f => holds row f
  | Not f => negb (holds row f)
  end.

(** ** The formulas of the code *)

(** The item has a repository: its repo_id is neither empty nor the zero UUID. *)
Definition present : formula := And [Atom "toString(w.repo_id) != ''"; Atom "toString(w.repo_id) != '00000000-0000-0000-0000-000000000000'"].
(** The repository's normalized name is a repository key. *)
Definition named_by_key : formula :=
  Par (And [Atom ("length(" +:+ workItemRepoSlug +:+ ") <= 255"); Atom ("match(" +:+ workItemRepoSlug +:+ ", '" +:+ SlugPatternText +:+ "') = 1")]).
(** The selector set names the repository or its owner. *)
Definition selected (prefix : string) : formula :=
  Or [Atom ("has({" +:+ prefix +:+ "_repo_slugs:Array(String)}, " +:+ workItemRepoSlug +:+ ")");
      Atom ("has({" +:+ prefix +:+ "_repo_owners:Array(String)}, arrayElement(splitByChar('/', " +:+ workItemRepoSlug +:+ "), 1))")].
Definition all_repositories (prefix : string) : formula := Atom ("{" +:+ prefix +:+ "_repo_all:UInt8} = 1").

Definition direct : formula := Par (And [present; named_by_key; selected "authorized"]).
Definition by_project : formula := Par (And [Not present; Atom "w.project_id != ''"; Atom "notEmpty(wia_project_auth.wia_project_repositories)"]).
Definition by_link : formula := Par (And [Not present; Atom "notEmpty(wia_link_auth.wia_link_repositories)"]).
Definition granted_paths : list formula := [all_repositories "authorized"; direct; by_project; by_link].
Definition requested : formula :=
  Par (And [present; Atom (workItemRepoSlug +:+ " != ''"); Or [all_repositories "requested"; Par (And [named_by_key; selected "requested"])]]).

(** What the request itself restricts: the two id lists and the requested selector. *)
Definition id_tests (scope : AuthorizationScope) : list formula := map Atom ((granted_ids scope).1 ++ (requested_ids scope).1).
Definition requested_tests (sel : RepositorySelectorScope) : list formula := match Requested sel with Some _ => [requested] | None => [] end.

Lemma holds_and row l k : holds row (And (l ++ k)) = holds row (And l) && holds row (And k).
Proof. cbn. apply forallb_app. Qed.

(** Restricting each path is restricting their union. *)
Lemma distribute row paths restrictions :
  holds row (Or paths) && holds row (And restrictions) = existsb (holds row) (map (fun p => And (p :: restrictions)) paths).
Proof.
  cbn. induction paths as [|p paths IH]; [reflexivity|]. cbn [existsb map]. rewrite <-IH. cbn [holds forallb].
  destruct (holds row p), (existsb _ paths), (forallb _ restrictions); reflexivity.
Qed.

Lemma render_ids scope : map render (id_tests scope) = (granted_ids scope).1 ++ (requested_ids scope).1.
Proof. unfold id_tests. rewrite map_map. cbn. apply map_id. Qed.

(** The code's texts are the formulas'. *)
Lemma granted_text ToLower set : let '(match_, _, paths) := renderRepositorySelectorSet ToLower set "authorized" in
  match_ = render (Or granted_paths) /\ map Expr paths = map render granted_paths /\ map Path paths = WorkItemAuthorizationPaths.
Proof. vm_compute. auto. Qed.

Lemma requested_text ToLower set : (renderRequestedRepositorySelectorSet ToLower set).1 = render requested.
Proof. vm_compute. reflexivity. Qed.

(** C9: the authorization expression grants exactly what its paths say. In selector mode the expression is
    the formula: the request's id lists, one of the four paths and the requested selector; each entry of
    Provenance, in the order of WorkItemAuthorizationPaths, is its path and the same restrictions; so a
    row is authorized exactly when an entry is true of it, and an entry is never true of a row that the
    request excludes. A row with a repository is decided by the organization grant and that repository
    alone; one without never by a repository of its own. *)
Theorem scope_paths ToLower scope candidates sel :
  RepositorySelectors scope = Some sel ->
  let r := WorkItemScopeSQLAmong ToLower scope candidates in
  let restrictions := id_tests scope ++ requested_tests sel in
  let entries := map (fun p => And (p :: restrictions)) granted_paths in
  exists whole,
    AuthorizationExpr r = render whole /\ map Expr (Provenance r) = map render entries /\ map Path (Provenance r) = WorkItemAuthorizationPaths /\
    forall row,
      holds row whole = existsb (holds row) entries /\
      (forall e, e ∈ entries -> holds row e = true -> holds row (And restrictions) = true) /\
      (holds row present = true -> holds row by_project = false /\ holds row by_link = false) /\
      (holds row present = false -> holds row direct = false).
Proof.
  intros Hsel. unfold WorkItemScopeSQLAmong. rewrite Hsel. cbv zeta.
  pose proof (granted_text ToLower (Granted sel)) as Hg. destruct (renderRepositorySelectorSet ToLower (Granted sel) "authorized") as [[m gb] paths].
  destruct Hg as (Em & Ee & Ep). cbn [AuthorizationExpr Provenance].
  assert (Er : match match Requested sel with Some set => Some (renderRequestedRepositorySelectorSet ToLower set) | None => None end with Some (e, _) => [e] | None => [] end
    = map render (requested_tests sel)).
  { unfold requested_tests. destruct (Requested sel) as [set|]; [|reflexivity]. pose proof (requested_text ToLower set) as Ht.
    destruct (renderRequestedRepositorySelectorSet ToLower set). cbn [fst] in Ht. rewrite Ht. reflexivity. }
  rewrite Er, <-render_ids, Em. clear Er Em. set (restrictions := id_tests scope ++ requested_tests sel).
  exists (And (id_tests scope ++ [Or granted_paths] ++ requested_tests sel)). split; [|split; [|split]].
  - unfold and_join. cbn [render]. rewrite !map_app. reflexivity.
  - rewrite !map_map. unfold restrict. cbn [Expr]. change (fun x => and_join (Expr x :: map render (id_tests scope) ++ map render (requested_tests sel)))
      with (fun x => (fun t => and_join (t :: map render (id_tests scope) ++ map render (requested_tests sel))) (Expr x)).
    rewrite <-(map_map Expr), Ee, map_map, <-map_app. reflexivity.
  - rewrite map_map. exact Ep.
  - intros row. split; [|split; [|split]].
    + rewrite holds_and, (holds_and row [Or granted_paths]), <-distribute. unfold restrictions. rewrite holds_and.
      change (holds row (And [Or granted_paths])) with (holds row (Or granted_paths) && true). rewrite andb_true_r.
      destruct (holds row (And (id_tests scope))), (holds row (Or granted_paths)), (holds row (And (requested_tests sel))); reflexivity.
    + intros e (p & -> & _)%list_elem_of_fmap. cbn. intros [_ H]%andb_true_iff. exact H.
    + intros Hp. change (holds row by_project) with (forallb (holds row) [Not present; Atom "w.project_id != ''"; Atom "notEmpty(wia_project_auth.wia_project_repositories)"]).
      change (holds row by_link) with (forallb (holds row) [Not present; Atom "notEmpty(wia_link_auth.wia_link_repositories)"]).
      cbn [forallb]. change (holds row (Not present)) with (negb (holds row present)). rewrite Hp. auto.
    + intros Hp. change (holds row direct) with (forallb (holds row) [present; named_by_key; selected "authorized"]). cbn [forallb]. rewrite Hp. reflexivity.
Qed.

(** * Selectors *)

Section Normalized.
Variable keep : string -> option string.

Lemma normalize_loop_spec seen values result :
  NoDup result -> (forall x, x ∈ seen <-> x ∈ result) ->
  let out := normalize_loop keep seen values result in
  NoDup out /\ forall x, x ∈ out <-> x ∈ result \/ exists raw, raw ∈ values /\ keep raw = Some x.
Proof.
  revert seen result. induction values as [|raw values IH]; intros seen result Hnd Hseen; cbn [normalize_loop].
  - split; [exact Hnd|]. intros x. split; [auto|]. intros [H|(r & H & _)]; [exact H | inversion H].
  - assert (Hcons : forall x, (exists r, r ∈ raw :: values /\ keep r = Some x) <-> keep raw = Some x \/ exists r, r ∈ values /\ keep r = Some x)
      by (intros x; setoid_rewrite elem_of_cons; naive_solver).
    destruct (keep raw) as [n|] eqn:Ek.
    2:{ destruct (IH seen result Hnd Hseen) as [H1 H2]. split; [exact H1|]. intros x. rewrite H2, Hcons. naive_solver. }
    destruct (bool_decide_reflect (n ∈ seen)) as [Hin|Hin].
    + destruct (IH seen result Hnd Hseen) as [H1 H2]. split; [exact H1|]. intros x. rewrite H2, Hcons. apply Hseen in Hin. naive_solver.
    + destruct (IH ({[n]} ∪ seen) (result ++ [n])) as [H1 H2].
      * apply NoDup_app. split; [exact Hnd|]. split; [|apply NoDup_singleton]. intros x Hx ->%list_elem_of_singleton. apply Hin, Hseen, Hx.
      * intros x. rewrite elem_of_union, elem_of_singleton, Hseen, elem_of_app, list_elem_of_singleton. tauto.
      * split; [exact H1|]. intros x. rewrite H2, Hcons, elem_of_app, list_elem_of_singleton. naive_solver.
Qed.

Lemma normalized_spec values :
  let out := SortStrings (normalize_loop keep ∅ values []) in
  StronglySorted String.le out /\ NoDup out /\ forall x, x ∈ out <-> exists raw, raw ∈ values /\ keep raw = Some x.
Proof.
  cbv zeta. unfold SortStrings. destruct (normalize_loop_spec ∅ values [] (NoDup_nil_2) ltac:(set_solver)) as [H1 H2].
  split; [apply (StronglySorted_merge_sort String.le)|]. rewrite merge_sort_Permutation. split; [exact H1|]. intros x. rewrite merge_sort_Permutation, H2. set_solver.
Qed.
End Normalized.

(** Repository keys and owner names hold no backslash, so they always bind. *)
Definition not_char (d c : ascii) : bool := negb (Ascii.eqb c d).
Lemma not_in_pattern r d x : re_within (not_char d) r = true -> matchb r x = true -> free_of d x.
Proof.
  intros Hr H%matchb_spec. pose proof (matches_within _ _ _ Hr H) as Hw. intros Hin. rewrite Forall_forall in Hw. specialize (Hw _ Hin).
  unfold not_char in Hw. rewrite Ascii.eqb_refl in Hw. discriminate.
Qed.

Lemma slug_safe x : ValidSlug x = true -> safe x.
Proof. unfold ValidSlug. intros [_ H]%andb_true_iff. apply (not_in_pattern SlugPattern); [vm_compute; reflexivity | exact H]. Qed.

Lemma owner_safe x : matchb group x = true -> safe x.
Proof. apply (not_in_pattern group). vm_compute. reflexivity. Qed.

(** The owner a raw value names: its lower case without white space around and without a final "/*". *)
Definition owner_of (ToLower : string -> string) (raw : string) : string :=
  let n := ToLower (TrimSpace raw) in if HasSuffix n "/*" then take (String.length n - 2) n else n.

(** The selectors that are sent are the caller's, normalized. The slugs are sorted, each once, and are
    exactly the lower-case trimmed values that are repository keys; the owners are exactly the owner
    names of the values, "name" or "name/*"; so a malformed value selects nothing. Both lists always
    encode: a selector never makes a query fail. *)
Theorem selectors_normalized ToLower values :
  (let slugs := normalizeRepositorySlugs ToLower values in
   StronglySorted String.le slugs /\ NoDup slugs /\
   (forall x, x ∈ slugs <-> ValidSlug x = true /\ exists raw, raw ∈ values /\ x = ToLower (TrimSpace raw)) /\
   is_ok (clickHouseStringArray slugs) = true) /\
  (let owners := normalizeRepositoryOwners ToLower values in
   StronglySorted String.le owners /\ NoDup owners /\
   (forall x, x ∈ owners <-> group_name x /\ exists raw, raw ∈ values /\ x = owner_of ToLower raw) /\
   is_ok (clickHouseStringArray owners) = true).
Proof.
  assert (Henc : forall l, Forall safe l -> is_ok (clickHouseStringArray l) = true)
    by (intros l H; rewrite (proj2 (clickHouseStringArray_iff l _) (conj H eq_refl)); reflexivity).
  split; cbv zeta.
  - destruct (normalized_spec (keep_slug ToLower) values) as (H1 & H2 & H3). fold (normalizeRepositorySlugs ToLower values) in *.
    assert (Hx : forall x, x ∈ normalizeRepositorySlugs ToLower values <-> ValidSlug x = true /\ exists raw, raw ∈ values /\ x = ToLower (TrimSpace raw)).
    { intros x. rewrite H3. unfold keep_slug. split.
      - intros (raw & Hr & Hk). destruct (ValidSlug _) eqn:Ev; cbn [negb] in Hk; [|discriminate]. injection Hk as <-. eauto.
      - intros (Hv & raw & Hr & ->). exists raw. rewrite Hv. auto. }
    split; [exact H1|]. split; [exact H2|]. split; [exact Hx|]. apply Henc. apply Forall_forall. intros x Hin. apply slug_safe. apply Hx in Hin. tauto.
  - destruct (normalized_spec (keep_owner ToLower) values) as (H1 & H2 & H3). fold (normalizeRepositoryOwners ToLower values) in *.
    assert (Hk : forall raw x, keep_owner ToLower raw = Some x <-> matchb group x = true /\ x = owner_of ToLower raw).
    { intros raw x. unfold keep_owner, owner_of, TrimSuffix. cbv zeta. set (n := ToLower (TrimSpace raw)).
      assert (En : (if HasSuffix n "/*" then if HasSuffix n "/*" then take (String.length n - String.length "/*") n else n else n) = if HasSuffix n "/*" then take (String.length n - 2) n else n)
        by (destruct (HasSuffix n "/*"); reflexivity).
      rewrite En. set (o := if HasSuffix n "/*" then _ else _). split.
      - destruct (String.eqb o ""), (existsb _ _), (matchb group o) eqn:Em; try discriminate. intros [= <-]. auto.
      - intros [Hm ->]. rewrite Hm. destruct (String.eqb_spec o "") as [E|_]; [rewrite E in Hm; discriminate|].
        assert (Hs : existsb (Ascii.eqb "/") (chars o) = false); [|rewrite Hs; reflexivity].
        apply not_true_iff_false. intros (c & Hc & <-%Ascii.eqb_eq)%existsb_exists.
        apply (not_in_pattern group "/" o ltac:(vm_compute; reflexivity) Hm). apply list_elem_of_In, Hc. }
    split; [exact H1|]. split; [exact H2|]. split.
    + intros x. rewrite H3. setoid_rewrite Hk. setoid_rewrite matchb_spec. setoid_rewrite matches_group. naive_solver.
    + apply Henc. apply Forall_forall. intros x (raw & _ & Hr)%H3. apply Hk in Hr as [Hr _]. apply owner_safe, Hr.
Qed.

Example normalize_samples :
  normalizeRepositorySlugs id [" b/x "; "a/y"; "bad"; "a/y"] = ["a/y"; "b/x"] /\ normalizeRepositoryOwners id ["acme/*"; "zed"; "a/b"; "*"] = ["acme"; "zed"].
Proof. split; vm_compute; reflexivity. Qed.

Definition sample_scope : AuthorizationScope :=
  mkScope (Some ["r1"]) None (Some (mkSelectors (mkSet false ["acme/api"] ["acme/*"]) (Some (mkSet true [] [])))).
Lemma scope_paths_witness :
  exists whole, AuthorizationExpr (WorkItemScopeSQLAmong id sample_scope no_candidates) = render whole.
Proof.
  destruct (scope_paths id sample_scope no_candidates (mkSelectors (mkSet false ["acme/api"] ["acme/*"]) (Some (mkSet true [] []))) eq_refl) as (whole & H & _).
  exists whole. exact H.
Defined.

End ReadScopeSpec.
