(* ===== verification/Readers.v ===== *)
(** The statements of src/readers: each reader's SQL text, byte for byte, with its bindings. A call is run by
    ReadQuery.QueryOrgScopedNamed. The readers that differ in a row limit, a scope or settings only are
    instances of the general form. *)
From S2P Require Import Prelude GoTime GoFormat ChBindings ReadQuery ReadOwnership ReadScope.

Module Readers.
Import GoFormat ChBindings ReadQuery ReadOwnership ReadScope.

(** A read: whether an empty list of ids answers without a query, the statement, and the bindings after
    the organization and the ids. *)
Record call := mkCall { skip_empty : bool; statement : string; extra : list Binding }.

Definition ReadPullRequestState (b : TimeBound) : call :=
  let asOf := AsOfExpression b in
  let stateExpression := if Active b then "multiIf(" +:+ "p.merged_at IS NOT NULL AND p.merged_at <= " +:+ asOf +:+ ", 'merged', " +:+ "p.closed_at IS NOT NULL AND p.closed_at <= " +:+ asOf +:+ ", 'closed', " +:+ "'open')" else "ifNull(p.state, '')" in
  mkCall false (WithRowLimit ("SELECT toString(p.repo_id), p.number, " +:+ stateExpression +:+ "
FROM git_pull_requests AS p FINAL
WHERE p.org_id = {org_id:String} AND concat(toString(p.repo_id), ':', toString(p.number)) IN {ids:Array(String)}" +:+ (ExistencePredicate b "p.created_at") +:+ "
ORDER BY p.created_at DESC, p.repo_id, p.number") DefaultRowLimit) (Bindings b).

Definition ReadPullRequestReviews (b : TimeBound) : call :=
  mkCall false (WithRowLimit ("SELECT r.review_id, ifNull(r.state, ''), toString(r.repo_id), r.number
FROM git_pull_request_reviews AS r FINAL
WHERE r.org_id = {org_id:String} AND concat(toString(r.repo_id), ':', toString(r.number), ':', r.review_id) IN {ids:Array(String)}" +:+ (ExistencePredicate b "r.submitted_at") +:+ "
ORDER BY r.submitted_at DESC, r.repo_id, r.number, r.review_id") DefaultRowLimit) (Bindings b).

Definition ReadRunStatus (b : TimeBound) : call :=
  let statusExpression := if Active b then "if(c.finished_at IS NOT NULL AND c.finished_at <= " +:+ (AsOfExpression b) +:+ ", ifNull(c.status, ''), 'running')" else "ifNull(c.status, '')" in
  mkCall false (WithRowLimit ("SELECT c.run_id, " +:+ statusExpression +:+ ", toString(c.repo_id)
FROM ci_pipeline_runs AS c FINAL
WHERE c.org_id = {org_id:String} AND concat(toString(c.repo_id), ':', c.run_id) IN {ids:Array(String)}" +:+ (ExistencePredicate b "c.started_at") +:+ "
ORDER BY c.started_at DESC, c.repo_id, c.run_id") DefaultRowLimit) (Bindings b).

Definition ReadCICDMetricsDaily (b : TimeBound) : call :=
  mkCall false (WithRowLimit ("SELECT toString(repo_id), toString(day), toInt64(pipelines_count), toFloat64(success_rate), toUInt8(isNotNull(avg_duration_minutes)), toFloat64(ifNull(avg_duration_minutes, 0)), toUInt8(isNotNull(p90_duration_minutes)), toFloat64(ifNull(p90_duration_minutes, 0)), toUInt8(isNotNull(avg_queue_minutes)), toFloat64(ifNull(avg_queue_minutes, 0))
FROM (
	SELECT repo_id, day, pipelines_count, success_rate, avg_duration_minutes, p90_duration_minutes, avg_queue_minutes,
		row_number() OVER (PARTITION BY repo_id ORDER BY day DESC, computed_at DESC, cityHash64(tuple(pipelines_count, success_rate, ifNull(avg_duration_minutes, -1), ifNull(p90_duration_minutes, -1), ifNull(avg_queue_minutes, -1))) DESC) AS rn
	FROM cicd_metrics_daily
	WHERE org_id = {org_id:String} AND toString(repo_id) IN {ids:Array(String)}" +:+ (DayPredicate b "day") +:+ "
)
WHERE rn = 1
ORDER BY day DESC, repo_id") DefaultRowLimit) (Bindings b).

Definition ReadDeploymentStatus (b : TimeBound) : call :=
  let statusExpression := if Active b then "if(d.finished_at IS NOT NULL AND d.finished_at <= " +:+ (AsOfExpression b) +:+ ", ifNull(d.status, ''), 'in_progress')" else "ifNull(d.status, '')" in
  mkCall false (WithRowLimit ("SELECT d.deployment_id, " +:+ statusExpression +:+ ", ifNull(d.environment, ''), toString(d.repo_id)
FROM deployments AS d FINAL
WHERE d.org_id = {org_id:String} AND concat(toString(d.repo_id), ':', d.deployment_id) IN {ids:Array(String)}" +:+ (ExistencePredicate b "coalesce(d.started_at, d.deployed_at)") +:+ "
ORDER BY coalesce(d.started_at, d.deployed_at) DESC, d.repo_id, d.deployment_id") DefaultRowLimit) (Bindings b).

Definition ReadDeployMetricsDaily (b : TimeBound) : call :=
  mkCall false (WithRowLimit ("SELECT toString(repo_id), toString(day), toInt64(deployments_count), toInt64(failed_deployments_count), toUInt8(isNotNull(deploy_time_p50_hours)), toFloat64(ifNull(deploy_time_p50_hours, 0)), toUInt8(isNotNull(lead_time_p50_hours)), toFloat64(ifNull(lead_time_p50_hours, 0))
FROM (
	SELECT repo_id, day, deployments_count, failed_deployments_count, deploy_time_p50_hours, lead_time_p50_hours,
		row_number() OVER (PARTITION BY repo_id ORDER BY day DESC, computed_at DESC, cityHash64(tuple(deployments_count, failed_deployments_count, ifNull(deploy_time_p50_hours, -1), ifNull(lead_time_p50_hours, -1))) DESC) AS rn
	FROM deploy_metrics_daily
	WHERE org_id = {org_id:String} AND toString(repo_id) IN {ids:Array(String)}" +:+ (DayPredicate b "day") +:+ "
)
WHERE rn = 1
ORDER BY day DESC, repo_id") DefaultRowLimit) (Bindings b).

Definition ReadRepositoryIdentityWithRowLimit (limit : Z) : call :=
  mkCall false (WithRowLimit ("SELECT toString(r.id), ifNull(r.repo, ''), ifNull(r.provider, '')
FROM repos AS r FINAL
WHERE r.org_id = {org_id:String} AND toString(r.id) IN {ids:Array(String)}
ORDER BY r.id") limit) [].
Definition ReadRepositoryIdentity : call := ReadRepositoryIdentityWithRowLimit DefaultRowLimit.

Definition ReadWorkItemIdentityWithRowLimit (limit : Z) : call :=
  mkCall false (WithRowLimit ("SELECT w.work_item_id, ifNull(w.title, ''), toString(w.repo_id)
FROM work_items AS w FINAL
WHERE w.org_id = {org_id:String} AND concat(toString(w.repo_id), ':', w.work_item_id) IN {ids:Array(String)}
ORDER BY w.repo_id, w.work_item_id") limit) [].
Definition ReadWorkItemIdentity : call := ReadWorkItemIdentityWithRowLimit DefaultRowLimit.

Definition ReadRepositoryIDsWithRowLimit (limit : Z) : call :=
  mkCall false (WithRowLimit ("SELECT toString(r.id)
FROM repos AS r FINAL
WHERE r.org_id = {org_id:String} AND toString(r.id) IN {ids:Array(String)}
ORDER BY r.id") limit) [].
Definition ReadRepositoryIDs : call := ReadRepositoryIDsWithRowLimit DefaultRowLimit.

Definition ReadWorkItemRepositoryWithRowLimit (limit : Z) : call :=
  mkCall false (WithRowLimit ("SELECT w.work_item_id, toString(w.repo_id), ifNull(r.repo, '')
FROM work_items AS w FINAL INNER JOIN repos AS r FINAL ON r.id = w.repo_id AND r.org_id = w.org_id
WHERE w.org_id = {org_id:String} AND concat(toString(w.repo_id), ':', w.work_item_id) IN {ids:Array(String)}
ORDER BY w.repo_id, w.work_item_id") limit) [].
Definition ReadWorkItemRepository : call := ReadWorkItemRepositoryWithRowLimit DefaultRowLimit.

Definition ReadIncidents (b : TimeBound) : call :=
  let statusExpression := "ifNull(i.normalized_status, ifNull(i.raw_status, ''))" in
  let severityExpression := if Active b then "''" else "ifNull(i.normalized_severity, ifNull(i.raw_severity, ''))" in
  let statusExpression := if Active b then "if(i.resolved_at IS NOT NULL AND i.resolved_at <= " +:+ (AsOfExpression b) +:+ ", " +:+ statusExpression +:+ ", 'open')" else statusExpression in
  mkCall false (WithRowLimit ("SELECT i.id, " +:+ statusExpression +:+ ", " +:+ severityExpression +:+ "
FROM operational_incidents AS i FINAL
WHERE i.org_id = {org_id:String} AND i.id IN {ids:Array(String)} AND i.is_deleted = 0" +:+ (ExistencePredicate b "i.started_at") +:+ "
ORDER BY i.started_at DESC, i.id") DefaultRowLimit) (Bindings b).

Definition ReadSourceHealth (b : TimeBound) : call :=
  mkCall false (WithRowLimit ("SELECT provider, status, toInt64(items_synced), duration_ms, error_message, toString(created_at)
FROM (
	SELECT provider, status, items_synced, duration_ms, error_message, created_at,
		row_number() OVER (PARTITION BY provider ORDER BY created_at DESC, job_id DESC, chunk_index DESC) AS rn
	FROM backfill_log
	WHERE org_id = {org_id:String}" +:+ (TimestampPredicate b "created_at") +:+ "
)
WHERE rn = 1
ORDER BY created_at DESC, provider") DefaultRowLimit) (Bindings b).

Definition teamMetricsLatestDaySQL (filters : string) : string :=
  "SELECT team_id, team_name, day, total_commits, total_after_hours, total_weekend,
		if(total_commits > 0, total_after_hours / total_commits, 0.0) AS after_hours_commit_ratio,
		if(total_commits > 0, total_weekend / total_commits, 0.0) AS weekend_commit_ratio
	FROM (
		SELECT team_id, day,
			argMax(team_name, (computed_at, row_hash)) AS team_name,
			toFloat64(sum(commits_count)) AS total_commits,
			toFloat64(sum(after_hours_commits_count)) AS total_after_hours,
			toFloat64(sum(weekend_commits_count)) AS total_weekend
		FROM (
			SELECT team_id, team_name, day, repo_id, commits_count, after_hours_commits_count, weekend_commits_count, computed_at, row_hash,
				dense_rank() OVER (PARTITION BY team_id ORDER BY day DESC) AS day_rn
			FROM (
				SELECT team_id, team_name, day, repo_id, commits_count, after_hours_commits_count, weekend_commits_count, computed_at, row_hash,
					countIf(repo_id != '') OVER (PARTITION BY team_id, day) AS real_repo_count
				FROM (
					SELECT team_id, team_name, day, repo_id, commits_count, after_hours_commits_count, weekend_commits_count, computed_at,
						cityHash64(tuple(team_name, commits_count, after_hours_commits_count, weekend_commits_count, after_hours_commit_ratio, weekend_commit_ratio)) AS row_hash,
						row_number() OVER (PARTITION BY team_id, day, repo_id ORDER BY computed_at DESC, cityHash64(tuple(team_name, commits_count, after_hours_commits_count, weekend_commits_count, after_hours_commit_ratio, weekend_commit_ratio)) DESC) AS rn
					FROM team_metrics_daily
					WHERE org_id = {org_id:String}" +:+ filters +:+ "
				)
				WHERE rn = 1
			)
			WHERE repo_id != '' OR real_repo_count = 0
		)
		WHERE day_rn = 1
		GROUP BY team_id, day
	)".

Definition ReadRepositoryMetrics (b : TimeBound) : call :=
  mkCall true (WithRowLimit ("SELECT toString(repo_id), toString(day), toInt64(commits_count), toInt64(prs_merged), toFloat64(median_pr_cycle_hours), toFloat64(change_failure_rate), toUInt8(isNotNull(mttr_hours)), toFloat64(ifNull(mttr_hours, 0)), toInt64(bus_factor), toFloat64(code_ownership_gini)
FROM (
	SELECT repo_id, day, commits_count, prs_merged, median_pr_cycle_hours, change_failure_rate, mttr_hours, bus_factor, code_ownership_gini,
		row_number() OVER (PARTITION BY repo_id ORDER BY day DESC, computed_at DESC, cityHash64(tuple(commits_count, prs_merged, median_pr_cycle_hours, change_failure_rate, ifNull(mttr_hours, -1), bus_factor, code_ownership_gini)) DESC) AS rn
	FROM repo_metrics_daily
	WHERE org_id = {org_id:String} AND toString(repo_id) IN {ids:Array(String)}" +:+ (DayPredicate b "day") +:+ "
)
WHERE rn = 1
ORDER BY day DESC, repo_id") DefaultRowLimit) (Bindings b).

Definition ReadTeamMetrics (b : TimeBound) : call :=
  mkCall true (WithRowLimit ("SELECT toString(team_id), toString(day), toFloat64(total_commits), toFloat64(total_after_hours), toFloat64(total_weekend), toFloat64(after_hours_commit_ratio), toFloat64(weekend_commit_ratio)
FROM (
" +:+ (teamMetricsLatestDaySQL (" AND toString(team_id) IN {ids:Array(String)}" +:+ (DayPredicate b "day"))) +:+ "
)
ORDER BY day DESC, team_id") DefaultRowLimit) (Bindings b).

Definition ReadProjectMetricsBreakdown (b : TimeBound) : call :=
  let ownershipPredicate := OwnershipValidityPredicate b in
  mkCall true (WithRowLimit ("SELECT concat(p.provider, ':', p.id), tm.team_id, tm.team_name, toString(tm.day), toFloat64(tm.total_commits), toFloat64(tm.total_after_hours), toFloat64(tm.total_weekend), toFloat64(tm.after_hours_commit_ratio), toFloat64(tm.weekend_commit_ratio)
FROM " +:+ (ProjectOwnershipJoinSQL ownershipPredicate) +:+ "
INNER JOIN (
" +:+ (teamMetricsLatestDaySQL (DayPredicate b "day")) +:+ "
) AS tm ON tm.team_id = p.team_id
ORDER BY p.id, p.provider, tm.team_id") DefaultRowLimit) (Bindings b).

Definition ReadTeamReadiness (b : TimeBound) : call :=
  mkCall false (WithRowLimit ("SELECT team_id, work_scope_id, provider, toString(day), toInt64(estimated_count), toInt64(unestimated_count), toInt64(backlog_size), toUInt8(isNotNull(ratio)), toFloat64(ifNull(ratio, 0))
FROM (
	SELECT ifNull(team_id, '') AS team_id, work_scope_id, provider, day, estimated_count, unestimated_count, backlog_size, ratio,
		row_number() OVER (PARTITION BY team_id, work_scope_id, provider ORDER BY day DESC, computed_at DESC, cityHash64(tuple(estimated_count, unestimated_count, backlog_size, ifNull(ratio, -1))) DESC) AS rn
	FROM estimate_coverage_metrics_daily FINAL
	WHERE org_id = {org_id:String} AND team_id IN {ids:Array(String)}" +:+ (DayPredicate b "day") +:+ "
)
WHERE rn = 1
ORDER BY day DESC, team_id, work_scope_id, provider") DefaultRowLimit) (Bindings b).

Definition ReadProjectReadiness (b : TimeBound) : call :=
  mkCall true (WithRowLimit ("SELECT concat(p.provider, ':', p.id), ec.has_team, ec.team_key, ifNull(t.name, ''), ec.work_scope_id, ec.provider, toString(ec.day), toInt64(ec.estimated_count), toInt64(ec.unestimated_count), toInt64(ec.backlog_size), toUInt8(isNotNull(ec.ratio)), toFloat64(ifNull(ec.ratio, 0))
FROM " +:+ ProjectIdentityJoinSQL +:+ "
INNER JOIN (
	SELECT toUInt8(isNotNull(team_id)) AS has_team, ifNull(team_id, '') AS team_key, work_scope_id, provider, day, estimated_count, unestimated_count, backlog_size, ratio,
		row_number() OVER (PARTITION BY team_id, work_scope_id, provider ORDER BY day DESC, computed_at DESC, cityHash64(tuple(estimated_count, unestimated_count, backlog_size, ifNull(ratio, -1))) DESC) AS rn
	FROM estimate_coverage_metrics_daily FINAL
	WHERE org_id = {org_id:String}" +:+ (DayPredicate b "day") +:+ "
) AS ec ON " +:+ (ProjectIdentityMatchSQL "ec" "work_scope_id") +:+ " AND ec.rn = 1
LEFT JOIN (SELECT id, name FROM teams FINAL WHERE org_id = {org_id:String}) AS t ON t.id = ec.team_key
ORDER BY p.id, p.provider, ec.work_scope_id, ec.provider, ec.team_key") DefaultRowLimit) (Bindings b).

Definition ReadTeamWorkload (b : TimeBound) : call :=
  mkCall false (WithRowLimit ("SELECT team_id, ifNull(work_scope_id, ''), throughput_mean, throughput_stddev, toUInt8(isNotNull(p50_days)), toInt64(ifNull(p50_days, 0)), insufficient_history, high_variance, toInt64(backlog_size), toString(computed_at)
FROM (
	SELECT ifNull(team_id, '') AS team_id, work_scope_id, throughput_mean, throughput_stddev, p50_days, insufficient_history, high_variance, backlog_size, computed_at,
		row_number() OVER (PARTITION BY team_id, work_scope_id ORDER BY computed_at DESC, forecast_id DESC) AS rn
	FROM capacity_forecasts FINAL
	WHERE org_id = {org_id:String} AND team_id IN {ids:Array(String)}" +:+ (TimestampPredicate b "computed_at") +:+ "
)
WHERE rn = 1
ORDER BY computed_at DESC, team_id, work_scope_id") DefaultRowLimit) (Bindings b).

Definition ReadProjectWorkload (b : TimeBound) : call :=
  mkCall true (WithRowLimit ("SELECT concat(p.provider, ':', p.id), cf.has_team, cf.team_key, ifNull(t.name, ''), ifNull(cf.work_scope_id, ''), cf.throughput_mean, cf.throughput_stddev, toUInt8(isNotNull(cf.p50_days)), toInt64(ifNull(cf.p50_days, 0)), cf.insufficient_history, cf.high_variance, toInt64(cf.backlog_size), toString(cf.computed_at)
FROM " +:+ ProjectIdentityJoinSQL +:+ "
INNER JOIN (
	SELECT toUInt8(isNotNull(team_id)) AS has_team, ifNull(team_id, '') AS team_key, work_scope_id, throughput_mean, throughput_stddev, p50_days, insufficient_history, high_variance, backlog_size, computed_at,
		row_number() OVER (PARTITION BY team_id, work_scope_id ORDER BY computed_at DESC, forecast_id DESC) AS rn
	FROM capacity_forecasts FINAL
	WHERE org_id = {org_id:String}" +:+ (TimestampPredicate b "computed_at") +:+ "
) AS cf ON " +:+ (ProjectIdentityMatchSQL "cf" "work_scope_id") +:+ " AND cf.rn = 1
LEFT JOIN (SELECT id, name FROM teams FINAL WHERE org_id = {org_id:String}) AS t ON t.id = cf.team_key
ORDER BY p.id, p.provider, cf.work_scope_id, cf.has_team, cf.team_key") DefaultRowLimit) (Bindings b).

Definition CompletionDayBinLimit : Z := 366.

Definition ReadTeamCompletionForecastsWithRowLimit (b : TimeBound) (rowLimit : Z) : call :=
  let binProbe := FormatInt (CompletionDayBinLimit + 1) in
  mkCall true (WithRowLimit ("SELECT team_key, has_work_scope, ifNull(work_scope_id, ''), toString(computed_at), simulation_count, toInt64(backlog_size),
	toUInt8(isNotNull(target_items)), toInt64(ifNull(target_items, 0)),
	toUInt8(isNotNull(p50_days)), toInt64(ifNull(p50_days, 0)),
	toUInt8(isNotNull(p85_days)), toInt64(ifNull(p85_days, 0)),
	toUInt8(isNotNull(p95_days)), toInt64(ifNull(p95_days, 0)),
	ifNull(toString(p50_date), ''), ifNull(toString(p85_date), ''), ifNull(toString(p95_date), ''),
	insufficient_history, high_variance,
	toUInt64(length(completion_days_values)), toUInt64(length(completion_days_counts)),
	arraySlice(completion_days_values, 1, " +:+ binProbe +:+ "), arraySlice(completion_days_counts, 1, " +:+ binProbe +:+ ")
FROM (
	SELECT ifNull(team_id, '') AS team_key, toUInt8(isNotNull(work_scope_id)) AS has_work_scope, work_scope_id, computed_at, simulation_count, backlog_size,
		target_items, p50_days, p85_days, p95_days, p50_date, p85_date, p95_date, insufficient_history, high_variance,
		completion_days_values, completion_days_counts,
		row_number() OVER (PARTITION BY team_id, work_scope_id ORDER BY computed_at DESC, forecast_id DESC) AS rn
	FROM capacity_forecasts FINAL
	WHERE org_id = {org_id:String} AND team_id IN {ids:Array(String)}" +:+ (TimestampPredicate b "computed_at") +:+ "
)
WHERE rn = 1
ORDER BY team_key, has_work_scope, work_scope_id") rowLimit) (Bindings b).
Definition ReadTeamCompletionForecasts (b : TimeBound) : call := ReadTeamCompletionForecastsWithRowLimit b DefaultRowLimit.

Definition BugfixSubcategoryKey : string := "quality.bugfix".

(** The unexported rangePredicate of investment_theme.go. *)
Definition rangePredicate (b : TimeBound) (fromColumn toColumn : string) : string :=
  if negb (Active b) then ""
  else
    let predicate := "
    WHERE " +:+ fromColumn +:+ " < " +:+ bound_param BoundEndParam in
    if HasStart b then predicate +:+ "
      AND " +:+ toColumn +:+ " >= " +:+ bound_param BoundStartParam else predicate.

Definition ReadTeamThemeMix (b : TimeBound) : call :=
  mkCall true (WithRowLimit ("
SELECT team_id, team_name, kind, key, work_units FROM (
WITH latest AS (
    SELECT
        work_unit_id,
        argMax(from_ts, computed_at) AS from_ts,
        argMax(to_ts, computed_at) AS to_ts,
        argMax(theme_distribution_json, computed_at) AS theme_distribution_json,
        argMax(subcategory_distribution_json, computed_at) AS subcategory_distribution_json,
        argMax(structural_evidence_json, computed_at) AS structural_evidence_json,
        org_id
    FROM work_unit_investments
    WHERE org_id = {org_id:String}
    GROUP BY org_id, work_unit_id
),
windowed AS (
    SELECT * FROM latest" +:+ (rangePredicate b "from_ts" "to_ts") +:+ "
),
repo_lookup AS (
    SELECT
        org_id, toString(id) AS repo_uuid,
        argMax(repo, last_synced) AS repo,
        if(uniqExact(provider) = 1, argMax(provider, last_synced), '') AS provider
    FROM repos
    WHERE org_id = {org_id:String}
    GROUP BY org_id, id
),
wita AS (
    SELECT work_item_id, team_id, team_name
    FROM work_item_team_attributions FINAL
    WHERE org_id = {org_id:String}
      AND is_primary = 1
      AND (work_item_id, computed_at) IN (
          SELECT work_item_id, max(computed_at)
          FROM work_item_team_attributions
          WHERE org_id = {org_id:String}
          GROUP BY work_item_id
      )
),
resolved AS (
    SELECT
        windowed.work_unit_id AS work_unit_id,
        multiIf(
            NOT match(evidence_ref, '^[0-9a-fA-F-]{36}#pr[0-9]+$'), evidence_ref,
            evidence_repo.repo = '' OR evidence_repo.provider = '', '',
            concat(if(evidence_repo.provider = 'gitlab', 'gitlab:', 'ghpr:'), evidence_repo.repo,
                if(evidence_repo.provider = 'gitlab', '!', '#'), splitByString('#pr', evidence_ref)[2])
        ) AS resolved_wi_id
    FROM windowed
    ARRAY JOIN arrayDistinct(arrayConcat(
        JSONExtract(structural_evidence_json, 'issues', 'Array(String)'),
        JSONExtract(structural_evidence_json, 'prs', 'Array(String)')
    )) AS evidence_ref
    LEFT JOIN repo_lookup AS evidence_repo
        ON evidence_repo.org_id = windowed.org_id
        AND evidence_repo.repo_uuid = splitByString('#pr', evidence_ref)[1]
),
votes AS (
    SELECT
        work_unit_id,
        argMax(vote_team_id, (cnt, vote_team_id)) AS team_id,
        argMax(vote_team_name, (cnt, vote_team_id)) AS team_name
    FROM (
        SELECT
            resolved.work_unit_id AS work_unit_id,
            ifNull(nullIf(t.team_id, ''), '') AS vote_team_id,
            max(ifNull(nullIf(t.team_name, ''), nullIf(t.team_id, ''))) AS vote_team_name,
            uniqExactIf(resolved.resolved_wi_id, ifNull(nullIf(t.team_name, ''), nullIf(t.team_id, '')) IS NOT NULL) AS cnt
        FROM resolved
        LEFT JOIN wita AS t ON t.work_item_id = resolved.resolved_wi_id
        GROUP BY work_unit_id, vote_team_id
    )
    GROUP BY work_unit_id
),
attributed AS (
    SELECT
        votes.team_id AS team_id,
        votes.team_name AS team_name,
        windowed.theme_distribution_json AS theme_distribution_json,
        ifNull(windowed.subcategory_distribution_json[{bugfix_key:String}], 0.0) AS bugfix_share
    FROM votes
    JOIN windowed ON windowed.work_unit_id = votes.work_unit_id
    WHERE votes.team_id != '' AND votes.team_id IN {ids:Array(String)}
)
SELECT team_id, max(team_name) AS team_name, 'theme' AS kind, theme_kv.1 AS key, sum(theme_kv.2) AS work_units
FROM attributed
ARRAY JOIN CAST(theme_distribution_json AS Array(Tuple(String, Float64))) AS theme_kv
GROUP BY team_id, key
UNION ALL
SELECT team_id, max(team_name) AS team_name, 'subcategory' AS kind, {bugfix_key:String} AS key, sum(bugfix_share) AS work_units
FROM attributed
GROUP BY team_id
)
ORDER BY team_id, kind, key") DefaultRowLimit) (Bindings b ++ [mkBinding "bugfix_key" (VString BugfixSubcategoryKey)]).

Definition ReadProjectThemeMixWithRowLimit (b : TimeBound) (rowLimit : Z) : call :=
  mkCall true (WithRowLimit ("
SELECT project_key, feature_delivery, operational, maintenance, quality, risk, bugfix_weighted, work_units, spanning_units, multi_placed_units FROM (
WITH latest AS (
    SELECT
        work_unit_id,
        argMax(from_ts, computed_at) AS from_ts,
        argMax(to_ts, computed_at) AS to_ts,
        argMax(theme_distribution_json, computed_at) AS theme_distribution_json,
        argMax(subcategory_distribution_json, computed_at) AS subcategory_distribution_json,
        argMax(structural_evidence_json, computed_at) AS structural_evidence_json
    FROM work_unit_investments
    WHERE org_id = {org_id:String}
    GROUP BY work_unit_id
),
windowed AS (
    SELECT * FROM latest" +:+ (rangePredicate b "from_ts" "to_ts") +:+ "
),
unit_issue AS (
    SELECT work_unit_id, issue_ref
    FROM windowed
    ARRAY JOIN JSONExtract(structural_evidence_json, 'issues', 'Array(String)') AS issue_ref
),
item_project AS (
    SELECT work_item_id, project_id, toUInt8(repo_count > 1) AS multi_placed
    FROM (
        SELECT subject_id AS work_item_id, project_id,
            uniqExact(repo_id) OVER (PARTITION BY subject_id) AS repo_count
        FROM project_membership_presence
        WHERE org_id = {org_id:String} AND subject_kind = 'work_item'
    )
),
unit_project AS (
    SELECT ui.work_unit_id AS work_unit_id, ip.project_id AS project_id, ip.multi_placed AS multi_placed
    FROM unit_issue AS ui
    INNER JOIN item_project AS ip ON ip.work_item_id = ui.issue_ref
),
resolved AS (
    SELECT project_provider, project_id, work_unit_id, max(multi_placed) AS multi_placed
    FROM (
        SELECT p.provider AS project_provider, p.id AS project_id, up.work_unit_id AS work_unit_id, up.multi_placed AS multi_placed
        FROM " +:+ ProjectIdentityCatalogSQL +:+ "
        INNER JOIN unit_project AS up ON up.project_id = p.scope
    )
    GROUP BY project_provider, project_id, work_unit_id
),
unit_span AS (
    SELECT work_unit_id, uniqExact(project_provider, project_id) AS project_count
    FROM resolved
    GROUP BY work_unit_id
),
attributed AS (
    SELECT project_provider, project_id, work_unit_id, multi_placed
    FROM resolved
    WHERE concat(project_provider, ':', project_id) IN {ids:Array(String)}
)
SELECT
    concat(a.project_provider, ':', a.project_id) AS project_key,
    sum(w.theme_distribution_json['feature_delivery']) AS feature_delivery,
    sum(w.theme_distribution_json['operational']) AS operational,
    sum(w.theme_distribution_json['maintenance']) AS maintenance,
    sum(w.theme_distribution_json['quality']) AS quality,
    sum(w.theme_distribution_json['risk']) AS risk,
    sum(ifNull(w.subcategory_distribution_json[{bugfix_key:String}], 0.0)) AS bugfix_weighted,
    count() AS work_units,
    countIf(s.project_count > 1) AS spanning_units,
    countIf(a.multi_placed = 1) AS multi_placed_units
FROM attributed AS a
INNER JOIN windowed AS w ON w.work_unit_id = a.work_unit_id
LEFT JOIN unit_span AS s ON s.work_unit_id = a.work_unit_id
GROUP BY a.project_provider, a.project_id
ORDER BY project_key
)
ORDER BY project_key") rowLimit) (Bindings b ++ [mkBinding "bugfix_key" (VString BugfixSubcategoryKey)]).
Definition ReadProjectThemeMix (b : TimeBound) : call := ReadProjectThemeMixWithRowLimit b DefaultRowLimit.

Section WorkItems.
Variable ToLower : string -> string.

Definition workItemKeyOrder : string := "w.repo_id, w.work_item_id".
Definition workItemRead (selectSQL extraWhere orderBy : string) (before : list Binding) (scope : AuthorizationScope) (settings : Settings) (limit : Z) : call :=
  let '(statement, scopeBindings) := workItemReadStatement ToLower selectSQL extraWhere orderBy scope settings limit in
  mkCall false statement (before ++ scopeBindings).

Definition ReadWorkItemStatusWithScopeAndRowLimit (scope : AuthorizationScope) (settings : Settings) (limit : Z) : call :=
  workItemRead "w.work_item_id, ifNull(w.status, ''), toString(w.repo_id), ifNull(w.provider, '')" "" workItemKeyOrder [] scope settings limit.
Definition ReadWorkItemTitleWithScopeAndRowLimit (scope : AuthorizationScope) (settings : Settings) (limit : Z) : call :=
  workItemRead "w.work_item_id, ifNull(w.title, ''), toString(w.repo_id)" "" workItemKeyOrder [] scope settings limit.
Definition ReadWorkItemCompletionWithScopeAndRowLimit (b : TimeBound) (scope : AuthorizationScope) (settings : Settings) (limit : Z) : call :=
  let completedExpression := if Active b then "toUInt8(w.completed_at IS NOT NULL AND w.completed_at <= " +:+ (AsOfExpression b) +:+ ")" else "isNotNull(w.completed_at)" in
  workItemRead ("w.work_item_id, " +:+ completedExpression +:+ ", ifNull(w.completed_at, toDateTime64(0, 6, 'UTC')), toString(w.repo_id)") (ExistencePredicate b "w.created_at") ("w.created_at DESC, " +:+ workItemKeyOrder) (Bindings b) scope settings limit.

(** The entry points that leave a scope, settings or a limit to their defaults. *)
Definition no_settings : Settings := mkSettings 0 0 0 0 0.
Definition ReadWorkItemStatusWithRowLimit (limit : Z) : call := ReadWorkItemStatusWithScopeAndRowLimit allow_all no_settings limit.
Definition ReadWorkItemStatus : call := ReadWorkItemStatusWithRowLimit DefaultRowLimit.
Definition ReadWorkItemStatusWithScope (scope : AuthorizationScope) (settings : Settings) : call := ReadWorkItemStatusWithScopeAndRowLimit scope settings DefaultRowLimit.
Definition ReadWorkItemTitleWithRowLimit (limit : Z) : call := ReadWorkItemTitleWithScopeAndRowLimit allow_all no_settings limit.
Definition ReadWorkItemTitle : call := ReadWorkItemTitleWithRowLimit DefaultRowLimit.
Definition ReadWorkItemTitleWithScope (scope : AuthorizationScope) (settings : Settings) : call := ReadWorkItemTitleWithScopeAndRowLimit scope settings DefaultRowLimit.
Definition ReadWorkItemCompletionWithRowLimit (b : TimeBound) (limit : Z) : call := ReadWorkItemCompletionWithScopeAndRowLimit b allow_all no_settings limit.
Definition ReadWorkItemCompletion (b : TimeBound) : call := ReadWorkItemCompletionWithRowLimit b DefaultRowLimit.
Definition ReadWorkItemCompletionWithScope (b : TimeBound) (scope : AuthorizationScope) (settings : Settings) : call :=
  ReadWorkItemCompletionWithScopeAndRowLimit b scope settings DefaultRowLimit.
End WorkItems.

(** With no scope and no settings, the plain statement. *)
Example work_item_title : statement (ReadWorkItemTitle id) = "SELECT w.work_item_id, ifNull(w.title, ''), toString(w.repo_id)
FROM work_items AS w FINAL
WHERE w.org_id = {org_id:String} AND concat(toString(w.repo_id), ':', w.work_item_id) IN {ids:Array(String)}
ORDER BY w.repo_id, w.work_item_id
LIMIT 200".
Proof. vm_compute. reflexivity. Qed.

End Readers.
