(* ===== verification/ReadPieces.v ===== *)
(** SQL text in pieces: what of a statement's text decides the client's read-only check and its placeholders
    {name:Type}, and how both are known for a text that is put together from pieces, or followed by the
    row limit and the settings, without reading it whole. *)
From S2P Require Import Prelude Utf8 Regex Decimal GoStrings GoTime GoFormat ChBindings ChStatement ChClient ReadQuery.

Module ReadPieces.
Import Utf8 Decimal GoStrings GoTime GoFormat ChBindings ChStatement ReadQuery.

(** * Placeholders *)

(** The characters up to the first [stop]; None when it does not come. *)
Fixpoint until (stop : ascii) (l : list ascii) : option (list ascii * list ascii) :=
  match l with
  | [] => None
  | c :: r => if Ascii.eqb c stop then Some ([], r) else option_map (fun p => (c :: p.1, p.2)) (until stop r)
  end.

(** name:Type, for an identifier. *)
Definition parameter (inner : list ascii) : option (string * string) :=
  match until ":" inner with
  | Some (name, ty) => if matchb bindingName (of_chars name) then Some (of_chars name, of_chars ty) else None
  | None => None
  end.

Fixpoint placeholders (l : list ascii) : list (string * string) :=
  match l with
  | [] => []
  | c :: r =>
      (if Ascii.eqb c "{" then match until "}" r with
                               | Some (inner, _) => match parameter inner with Some p => [p] | None => [] end
                               | None => []
                               end
       else []) ++ placeholders r
  end.

(** Whether a value is sent as text of a ClickHouse type. *)
Definition fits (ty : string) (v : Value) : bool :=
  if String.eqb ty "String" then match v with VString _ => true | _ => false end
  else if String.eqb ty "Array(String)" then match v with VStrings _ => true | _ => false end
  else if String.eqb ty "DateTime64(6,'UTC')" then match v with VTime _ => true | _ => false end
  else if String.eqb ty "UInt8" then match v with VUint n => (0 <=? n)%Z && (n <? 256)%Z | _ => false end
  else false.

Definition typed (st : string) (bindings : list Binding) : bool :=
  forallb (fun p => existsb (fun b => String.eqb (Name b) p.1 && fits p.2 (Val b)) bindings) (placeholders (chars st)).

Definition named (bindings : list Binding) : bool :=
  forallb (fun b => matchb bindingName (Name b)) bindings && bool_decide (NoDup (map Name bindings)).

Example two_placeholders : placeholders (chars "a {x:String} {0,98} {2y:String} {t:DateTime64(6,'UTC')}") = [("x", "String"); ("t", "DateTime64(6,'UTC')")].
Proof. vm_compute. reflexivity. Qed.

Lemma until_app stop l t : stop ∉ t -> until stop (l ++ t) = option_map (fun p => (p.1, p.2 ++ t)) (until stop l).
Proof.
  intros Ht. induction l as [|c l IH]; cbn [app until].
  - induction t as [|c t IHt]; [reflexivity|]. apply not_elem_of_cons in Ht as [Hc Ht]. cbn [until].
    destruct (Ascii.eqb_spec c stop); [congruence|]. rewrite (IHt Ht). reflexivity.
  - destruct (Ascii.eqb c stop); [reflexivity|]. rewrite IH. destruct (until stop l) as [[a b]|]; reflexivity.
Qed.

(** Text without braces adds no placeholder. *)
Lemma placeholders_app l t : ("{"%char : ascii) ∉ t -> ("}"%char : ascii) ∉ t -> placeholders (l ++ t) = placeholders l.
Proof.
  intros Ho Hc. induction l as [|c l IH]; cbn [app placeholders].
  - clear Hc. induction t as [|c t IHt]; [reflexivity|]. apply not_elem_of_cons in Ho as [H Ho]. cbn [placeholders].
    destruct (Ascii.eqb_spec c "{"); [congruence | apply IHt, Ho].
  - rewrite IH, until_app by exact Hc. destruct (until "}" l) as [[a b]|]; reflexivity.
Qed.

(** * Text added after a checked statement *)

Definition lower (c : ascii) : ascii := if in_range "A" "Z" c then chr (code c + 32) else c.

(** Every f of the text is followed there by something other than i, in any case. *)
Fixpoint calm (s : string) : bool :=
  match s with
  | EmptyString => true
  | String c r =>
      (if Ascii.eqb (lower c) "f" then match r with EmptyString => false | String d _ => negb (Ascii.eqb (lower d) "i") end else true) && calm r
  end.

Lemma calm_app s t : calm s = true -> calm t = true -> calm (s +:+ t) = true.
Proof.
  intros Hs Ht. induction s as [|c s IH]; [exact Ht|]. rewrite str_app_cons. cbn [calm] in *. apply andb_true_iff in Hs as [Hc Hs].
  rewrite (IH Hs), andb_true_r. destruct (Ascii.eqb (lower c) "f"); [|reflexivity]. destruct s as [|d s]; [discriminate | exact Hc].
Qed.

Lemma calm_suffix s t : calm (s +:+ t) = true -> calm t = true.
Proof. induction s as [|c s IH]; [tauto|]. rewrite str_app_cons. cbn [calm]. intros [_ H]%andb_true_iff. auto. Qed.

(** Plain text: nothing the check looks for. *)
Definition plain (c : ascii) : bool := negb (contains [";"; "("; "{"; "}"] (String c "")).
Definition harmless (s : string) : bool := forallb plain (chars s) && calm s.

Lemma harmless_app s t : harmless s = true -> harmless t = true -> harmless (s +:+ t) = true.
Proof. unfold harmless. rewrite chars_app, forallb_app, !andb_true_iff. intros [? ?] [? ?]. auto using calm_app. Qed.

Lemma harmless_free s c : harmless s = true -> plain c = false -> c ∉ chars s.
Proof. unfold harmless. intros [H _]%andb_true_iff Hc Hin. rewrite forallb_forall in H. specialize (H c (proj1 (list_elem_of_In _ _) Hin)). congruence. Qed.

(** What a word of a pattern without s and k is, in lower case. *)
Lemma spells_lower s w : spells s w -> forallb (fun c => in_range "a" "z" c && negb (bool_decide (is_Some (also c)))) (chars s) = true -> map lower (chars w) = chars s.
Proof.
  assert (Hl : forall c, in_range "a" "z" c = true -> lower c = c /\ lower (upper c) = c).
  { intros c Hc. assert (H : implb (in_range "a" "z" c) (Ascii.eqb (lower c) c && Ascii.eqb (lower (upper c)) c) = true).
    { rewrite <-(chr_code c). apply (below_run (fun n => implb (in_range "a" "z" (chr n)) (Ascii.eqb (lower (chr n)) (chr n) && Ascii.eqb (lower (upper (chr n))) (chr n))) 256); [vm_compute; reflexivity | apply code_lt]. }
    rewrite Hc in H. cbn [implb] in H. apply andb_true_iff in H as [H1 H2]. apply Ascii.eqb_eq in H1, H2. auto. }
  induction 1 as [|c s w H IH|c s w H IH|c r s w Hr H IH]; cbn [chars forallb]; rewrite ?andb_true_iff; [reflexivity| | |].
  - intros [[Hc _] Hs]. cbn [map]. rewrite (IH Hs), (proj1 (Hl c Hc)). reflexivity.
  - intros [[Hc _] Hs]. cbn [map]. rewrite (IH Hs), (proj2 (Hl c Hc)). reflexivity.
  - intros [[_ Hx] _]. rewrite bool_decide_eq_true_2 in Hx by eauto. discriminate.
Qed.

Lemma file_word_lower f : file_word f -> map lower (chars f) = chars "outfile" \/ map lower (chars f) = chars "dumpfile".
Proof. intros [H|H]; apply spells_lower in H; (reflexivity || auto). Qed.

Lemma lower_word c : word (lower c) = true -> word c = true.
Proof.
  intros H. assert (Hb : implb (word (lower c)) (word c) = true).
  { rewrite <-(chr_code c). apply (below_run (fun n => implb (word (lower (chr n))) (word (chr n))) 256); [vm_compute; reflexivity | apply code_lt]. }
  rewrite H in Hb. exact Hb.
Qed.

Lemma file_word_chars f : file_word f -> Forall (fun c => word c = true) (chars f).
Proof.
  intros H%file_word_lower. assert (Hf : Forall (fun c => word c = true) (map lower (chars f))) by (destruct H as [-> | ->]; repeat constructor).
  apply Forall_map in Hf. eapply Forall_impl; [exact Hf|]. intros c. apply lower_word.
Qed.

(** A file word is not calm. *)
Lemma file_word_not_calm f v : file_word f -> calm (f +:+ v) = false.
Proof.
  intros H%file_word_lower. destruct (calm (f +:+ v)) eqn:E; [exfalso|reflexivity]. rewrite <-(of_chars_chars f) in E.
  destruct H as [H|H]; destruct (chars f) as [|c1 [|c2 [|c3 [|c4 [|c5 [|c6 [|c7 l]]]]]]]; try discriminate H; injection H;
    intros; rewrite ?of_chars_app in *; cbn [of_chars] in E; rewrite !str_app_cons in E; cbn [calm] in E;
    repeat match goal with H : lower ?c = _ |- _ => rewrite H in E; clear H end; cbn in E; rewrite ?andb_false_r in E; try discriminate.
Qed.

(** Text that starts a line: its first character is no word character. *)
Definition apart (t : string) : bool := negb (is_word (first t)).

Lemma ends_word prev f : f <> "" -> Forall (fun c => word c = true) (chars f) -> is_word (ends prev f) = true.
Proof.
  revert prev. induction f as [|c f IH]; intros prev Hne Hf; [congruence|]. apply Forall_cons in Hf as [Hc Hf]. cbn [ends].
  destruct f as [|d f]; [exact Hc|]. apply IH; [discriminate | exact Hf].
Qed.

(** Where a text that is put together in two ways splits. *)
Lemma str_app_split s t p q : s +:+ t = p +:+ q -> (exists r, s = p +:+ r /\ q = r +:+ t) \/ (exists r, r <> "" /\ p = s +:+ r /\ t = r +:+ q).
Proof.
  revert p. induction s as [|c s IH]; intros p H.
  - rewrite str_app_nil in H. destruct p as [|d p]; [left; exists ""; rewrite str_app_nil in H; auto|].
    right. exists (String d p). split; [discriminate|]. auto.
  - rewrite str_app_cons in H. destruct p as [|d p].
    + left. exists (String c s). rewrite str_app_nil in H. rewrite <-H. auto.
    + rewrite str_app_cons in H. injection H as <- H. destruct (IH _ H) as [(r & -> & ->)|(r & Hr & -> & ->)]; [left; eauto | right; eauto].
Qed.

Lemma table_call_app s t : ("("%char : ascii) ∉ chars t -> table_call (s +:+ t) -> table_call s.
Proof.
  intros Ht (w & name & f & sp & v & E & Hn & Hf & Hsp & Hb).
  assert (E' : s +:+ t = (w +:+ f +:+ sp +:+ "(") +:+ v) by (rewrite E, !str_app_assoc; reflexivity).
  apply str_app_split in E' as [(r & -> & _)|(r & Hr & Ep & ->)].
  - exists w, name, f, sp, r. rewrite !str_app_assoc. auto 10.
  - exfalso. apply Ht. rewrite chars_app. apply elem_of_app. left.
    assert (El : chars (w +:+ f +:+ sp) ++ ["("%char] = chars s ++ chars r) by (rewrite <-chars_app, <-Ep, !chars_app, <-!app_assoc; reflexivity).
    destruct (chars r) as [|x l] eqn:Ex using rev_ind; [destruct r; [congruence | discriminate Ex]|].
    rewrite app_assoc in El. apply app_inj_tail in El as [_ <-]. apply elem_of_app. right. left.
Qed.

Lemma writes_file_app s t : apart t = true -> calm t = true -> writes_file (s +:+ t) -> writes_file s.
Proof.
  intros Ha Hc (w & i & sp & f & v & E & Hi & Hsp & Hsn & Hf & Hb & He).
  pose proof (file_word_chars f Hf) as Hw.
  assert (Hne : f <> "") by (destruct Hf as [H|H]; apply (spells_nonempty _ _ H); discriminate).
  assert (E1 : s +:+ t = (w +:+ i +:+ sp) +:+ f +:+ v) by (rewrite E, !str_app_assoc; reflexivity).
  apply str_app_split in E1 as [(r & -> & E2)|(r & Hr & _ & ->)].
  - apply str_app_split in E2 as [(r' & -> & ->)|(r' & Hr' & -> & ->)].
    + destruct r' as [|c r'].
      * rewrite str_app_nil_r in *. exists w, i, sp, r, "". rewrite !str_app_assoc, str_app_nil_r. split; [reflexivity|].
        repeat (split; [assumption|]). unfold boundary. rewrite (ends_word _ _ Hne Hw). reflexivity.
      * exfalso. rewrite chars_app in Hw. apply Forall_app in Hw as [_ Hw]. cbn [chars] in Hw. apply Forall_cons in Hw as [Hw _].
        unfold apart in Ha. rewrite str_app_cons in Ha. cbn [first is_word] in Ha. rewrite Hw in Ha. discriminate.
    + exists w, i, sp, f, r'. rewrite !str_app_assoc. rewrite first_app in He by exact Hr'. auto 10.
  - apply calm_suffix in Hc. rewrite file_word_not_calm in Hc by exact Hf. discriminate.
Qed.

(** ** Pieces of a statement *)

Definition is_white (c : ascii) : bool := in_class [(chr 9, chr 10); (chr 12, chr 13); (" "%char, " "%char)] c.

(** The text after the white space it starts with. *)
Fixpoint skip_white (s : string) : string :=
  match s with
  | String c r => if is_white c then skip_white r else s
  | EmptyString => EmptyString
  end.

(** A piece that starts with white space, after which it has neither a parenthesis nor ou or du. *)
Definition separate (t : string) : bool :=
  match first t with Some c => is_white c | None => false end && match skip_white t with
  | String c r => negb (Ascii.eqb c "(") &&
      negb (contains ["o"; "d"] (String (lower c) "") && match r with String d _ => Ascii.eqb (lower d) "u" | EmptyString => true end)
  | EmptyString => false
  end.

Lemma skip_white_app s t : whitespace s -> skip_white (s +:+ t) = skip_white t.
Proof.
  unfold whitespace. induction s as [|c s IH]; [reflexivity|]. cbn [chars]. intros [Hc Hs]%Forall_cons. rewrite str_app_cons. cbn [skip_white].
  change (is_white c = true) in Hc. rewrite Hc. apply IH, Hs.
Qed.

Lemma word_not_white c : word c = true -> is_white c = false.
Proof.
  intros Hc. assert (Hb : implb (word c) (negb (is_white c)) = true).
  { rewrite <-(chr_code c). apply (below_run (fun n => implb (word (chr n)) (negb (is_white (chr n)))) 256); [vm_compute; reflexivity | apply code_lt]. }
  rewrite Hc in Hb. apply negb_true_iff in Hb. exact Hb.
Qed.

(** Where a match of three parts can meet the end of a piece. *)
Lemma separate_no_paren t sp v : separate t = true -> whitespace sp -> t <> sp +:+ String "(" v.
Proof.
  intros [_ H]%andb_true_iff Hsp ->. rewrite skip_white_app in H by exact Hsp. discriminate H.
Qed.

Lemma separate_no_file t sp f v : separate t = true -> whitespace sp -> file_word f -> t <> sp +:+ f +:+ v.
Proof.
  intros [_ H]%andb_true_iff Hsp Hf ->. rewrite skip_white_app in H by exact Hsp. pose proof (file_word_lower f Hf) as Hl.
  assert (Hw : skip_white (f +:+ v) = f +:+ v).
  { pose proof (file_word_chars f Hf) as Hc. destruct f as [|c f]; [destruct Hl; discriminate|]. rewrite str_app_cons. cbn [skip_white].
    cbn [chars] in Hc. apply Forall_cons in Hc as [Hc _]. rewrite (word_not_white c Hc). reflexivity. }
  rewrite Hw in H. destruct f as [|c [|d f]]; try (destruct Hl; discriminate). rewrite !str_app_cons in H. cbn [chars map] in Hl.
  destruct Hl as [Hl|Hl]; injection Hl as Hc Hd _; rewrite Hc, Hd in H; rewrite andb_false_r in H; discriminate.
Qed.

(** No character of a spelled word is white space. *)
Lemma spells_not_white n f : spells n f -> Forall (fun c => word c = true) (chars n) -> Forall (fun c => is_white c = false) (chars f).
Proof.
  assert (Hu : forall c, word c = true -> is_white (upper c) = false).
  { intros c Hc. assert (H : implb (word c) (negb (is_white (upper c))) = true).
    { rewrite <-(chr_code c). apply (below_run (fun n => implb (word (chr n)) (negb (is_white (upper (chr n))))) 256); [vm_compute; reflexivity | apply code_lt]. }
    rewrite Hc in H. apply negb_true_iff in H. exact H. }
  assert (Ha : forall c r, also c = Some r -> Forall (fun d => is_white d = false) (chars (encode r))).
  { intros c r. unfold also. destruct (Ascii.eqb c "s"); [intros [= <-]; repeat constructor|]. destruct (Ascii.eqb c "k"); [intros [= <-]; repeat constructor | discriminate]. }
  induction 1 as [|c s w H IH|c s w H IH|c r s w Hr H IH]; cbn [chars]; rewrite ?Forall_cons; [constructor| | |].
  - intros [Hc Hs]. split; [apply word_not_white, Hc | auto].
  - intros [Hc Hs]. split; [apply Hu, Hc | auto].
  - intros [Hc Hs]. rewrite chars_app. apply Forall_app. split; [exact (Ha _ _ Hr) | auto].
Qed.

Lemma table_function_word n : n ∈ table_functions -> Forall (fun c => word c = true) (chars n).
Proof.
  intros H. assert (Hf : Forall (fun n => forallb word (chars n) = true) table_functions) by (repeat constructor).
  rewrite Forall_forall in Hf. specialize (Hf n H). rewrite forallb_forall in Hf. apply Forall_forall. intros c Hc. apply Hf, list_elem_of_In, Hc.
Qed.

Lemma starts_white t : separate t = true -> exists c r, t = String c r /\ is_white c = true.
Proof. intros [H _]%andb_true_iff. destruct t as [|c r]; [discriminate | eauto]. Qed.

(** White space is not inside a spelled word. *)
Lemma white_not_in t r f v : separate t = true -> t = r +:+ v -> r <> "" -> Forall (fun c => is_white c = false) (chars f) -> (exists a, f = a +:+ r) -> False.
Proof.
  intros Ht -> Hr Hf [a ->]. destruct (starts_white _ Ht) as (c & l & E & Hc). destruct r as [|d r]; [congruence|].
  rewrite str_app_cons in E. injection E as -> _. rewrite chars_app in Hf. apply Forall_app in Hf as [_ Hf]. cbn [chars] in Hf. apply Forall_cons in Hf as [Hf _]. congruence.
Qed.

Lemma whitespace_suffix a b : whitespace (a +:+ b) -> whitespace b.
Proof. unfold whitespace. rewrite chars_app. intros [_ H]%Forall_app. exact H. Qed.

Lemma ends_after prev s r : r <> "" -> ends prev (s +:+ r) = ends None r.
Proof. intros Hr. rewrite ends_app. apply ends_nonempty, Hr. Qed.

Lemma table_call_pieces s t : separate t = true -> table_call (s +:+ t) -> table_call s \/ table_call t.
Proof.
  intros Ht (w & name & f & sp & v & E & Hn & Hf & Hsp & Hb).
  pose proof (spells_not_white _ _ Hf (table_function_word _ Hn)) as Hnw.
  assert (E1 : s +:+ t = ((w +:+ f) +:+ sp) +:+ String "(" v) by (rewrite E, !str_app_assoc; reflexivity).
  apply str_app_split in E1 as [(r & -> & E2)|(r & _ & E2 & E3)].
  - destruct r as [|c r]; [destruct (separate_no_paren t "" v Ht ltac:(constructor)); symmetry; exact E2|].
    rewrite str_app_cons in E2. injection E2 as <- _. left. exists w, name, f, sp, r. rewrite !str_app_assoc. auto 10.
  - apply str_app_split in E2 as [(r1 & E4 & ->)|(r1 & _ & -> & ->)].
    2:{ destruct (separate_no_paren t r v Ht (whitespace_suffix _ _ Hsp) E3). }
    apply str_app_split in E4 as [(r2 & -> & ->)|(r2 & _ & -> & ->)].
    + destruct r2 as [|c r2].
      * rewrite str_app_nil in E3. destruct (white_not_in t f f (sp +:+ String "(" v) Ht); [rewrite E3, !str_app_assoc; reflexivity | exact (table_function_nonempty _ _ Hn Hf) | exact Hnw | exists ""; reflexivity].
      * right. exists (String c r2), name, f, sp, v. rewrite ends_after in Hb by discriminate. rewrite E3, !str_app_assoc. auto 10.
    + destruct r1 as [|c r1]; [rewrite str_app_nil in E3; destruct (separate_no_paren t sp v Ht Hsp E3)|].
      destruct (white_not_in t (String c r1) (r2 +:+ String c r1) (sp +:+ String "(" v) Ht); [rewrite E3, !str_app_assoc; reflexivity | discriminate | exact Hnw | exists r2; reflexivity].
Qed.

Lemma writes_file_pieces s t : separate t = true -> writes_file (s +:+ t) -> writes_file s \/ writes_file t.
Proof.
  intros Ht (w & i & sp & f & v & E & Hi & Hsp & Hsn & Hf & Hb & He).
  assert (Hiw : Forall (fun c => is_white c = false) (chars i)) by (apply (spells_not_white _ _ Hi); repeat constructor).
  assert (Hine : i <> "") by (apply (spells_nonempty _ _ Hi); discriminate).
  assert (Hfw : Forall (fun c => is_white c = false) (chars f)) by (eapply Forall_impl; [exact (file_word_chars f Hf) | exact word_not_white]).
  assert (Hfne : f <> "") by (destruct Hf as [H|H]; apply (spells_nonempty _ _ H); discriminate).
  assert (E1 : s +:+ t = ((w +:+ i) +:+ sp) +:+ f +:+ v) by (rewrite E, !str_app_assoc; reflexivity).
  apply str_app_split in E1 as [(r & -> & E2)|(r & _ & E2 & E3)].
  - left. apply str_app_split in E2 as [(r' & -> & E2)|(r' & Hr' & -> & E2)].
    + destruct r' as [|c r']; [|destruct (white_not_in t (String c r') (r +:+ String c r') v Ht E2); [discriminate | exact Hfw | exists r; reflexivity]].
      rewrite str_app_nil_r in *. exists w, i, sp, r, "". rewrite !str_app_assoc, str_app_nil_r. repeat (split; [assumption || reflexivity|]).
      unfold boundary. rewrite (ends_word _ _ Hfne (file_word_chars _ Hf)). reflexivity.
    + exists w, i, sp, f, r'. subst v. rewrite !str_app_assoc. rewrite first_app in He by exact Hr'. auto 10.
  - apply str_app_split in E2 as [(r1 & E4 & ->)|(r1 & _ & -> & ->)].
    2:{ destruct (separate_no_file t r f v Ht (whitespace_suffix _ _ Hsp) Hf E3). }
    apply str_app_split in E4 as [(r2 & -> & ->)|(r2 & _ & -> & ->)].
    + destruct r2 as [|c r2].
      * rewrite str_app_nil in E3. destruct (white_not_in t i i (sp +:+ f +:+ v) Ht); [rewrite E3, !str_app_assoc; reflexivity | exact Hine | exact Hiw | exists ""; reflexivity].
      * right. exists (String c r2), i, sp, f, v. rewrite ends_after in Hb by discriminate. rewrite E3, !str_app_assoc. auto 10.
    + destruct r1 as [|c r1]; [rewrite str_app_nil in E3; destruct (separate_no_file t sp f v Ht Hsp Hf E3)|].
      destruct (white_not_in t (String c r1) (r2 +:+ String c r1) (sp +:+ f +:+ v) Ht); [rewrite E3, !str_app_assoc; reflexivity | discriminate | exact Hiw | exists r2; reflexivity].
Qed.

(** The first token of a statement that starts with SELECT. *)
Definition selects (st : string) : Prop := exists x, st = "SELECT " +:+ x \/ st = newline +:+ "SELECT " +:+ x.

Lemma firstToken_select st : selects st -> firstToken st = "SELECT".
Proof. intros [x [-> | ->]]; reflexivity. Qed.

Definition selectsb (st : string) : bool := String.eqb (take 7 st) "SELECT " || String.eqb (take 8 st) (newline +:+ "SELECT ").
Lemma selectsb_ok st : selectsb st = true -> selects st.
Proof.
  unfold selectsb. intros [H|H]%orb_true_iff; apply String.eqb_eq in H.
  - exists (drop 7 st). left. rewrite <-H. symmetry. apply take_drop.
  - exists (drop 8 st). right. rewrite <-str_app_assoc, <-H. symmetry. apply take_drop.
Qed.

Lemma selectsb_app st t : selectsb st = true -> selectsb (st +:+ t) = true.
Proof. intros [x [-> | ->]]%selectsb_ok; reflexivity. Qed.

(** The check of such a statement, without its first token. *)
Definition quick_check (st : string) : bool :=
  negb (existsb (Ascii.eqb ";") (chars st)) && negb (search boundary anywhere externalTableFunction None st) && negb (search boundary boundary outputClause None st).

Lemma quick_check_ok SimpleFold st : selects st -> quick_check st = true -> validateReadOnlyStatement SimpleFold st = true.
Proof.
  intros Hs H. unfold quick_check in H. apply andb_true_iff in H as [[H1 H2]%andb_true_iff H3]. apply negb_true_iff in H1, H2, H3.
  unfold validateReadOnlyStatement. rewrite H1, (firstToken_select _ Hs), EqualFold_refl, H2, H3. reflexivity.
Qed.

(** A checked statement stays checked when a harmless line follows it. *)
Lemma validate_app SimpleFold st t :
  selects st -> validateReadOnlyStatement SimpleFold st = true -> harmless t = true -> apart t = true ->
  validateReadOnlyStatement SimpleFold (st +:+ t) = true.
Proof.
  intros [x Hx] Hv Ht Ha. apply validateReadOnlyStatement_spec in Hv as (Hs & Hf & Hc & Hw). apply validateReadOnlyStatement_spec.
  assert (Hs' : selects (st +:+ t)) by (exists (x +:+ t); destruct Hx as [-> | ->]; rewrite !str_app_assoc; auto).
  split; [|split; [|split]].
  - apply free_of_app. split; [exact Hs | apply harmless_free; [exact Ht | reflexivity]].
  - rewrite firstToken_select by exact Hs'. apply EqualFold_refl.
  - intros H. apply Hc. apply table_call_app in H; [exact H|]. apply harmless_free; [exact Ht | reflexivity].
  - intros H. apply Hw. apply writes_file_app in H; [exact H | exact Ha|]. unfold harmless in Ht. apply andb_true_iff in Ht. tauto.
Qed.

Lemma typed_app st t bindings : typed st bindings = true -> harmless t = true -> typed (st +:+ t) bindings = true.
Proof. unfold typed. intros H Ht. rewrite chars_app, placeholders_app by (apply harmless_free; [exact Ht | reflexivity]). exact H. Qed.

(** * The lines after a statement *)

Lemma harmless_digits s : Forall (fun c => is_digit c = true) (chars s) -> harmless s = true.
Proof.
  assert (Hd : forall c, is_digit c = true -> plain c = true /\ Ascii.eqb (lower c) "f" = false).
  { intros c Hc. assert (H : implb (is_digit c) (plain c && negb (Ascii.eqb (lower c) "f")) = true).
    { rewrite <-(chr_code c). apply (below_run (fun n => implb (is_digit (chr n)) (plain (chr n) && negb (Ascii.eqb (lower (chr n)) "f"))) 256); [vm_compute; reflexivity | apply code_lt]. }
    rewrite Hc in H. cbn [implb] in H. apply andb_true_iff in H as [H1 H2%negb_true_iff]. auto. }
  induction s as [|c s IH]; [reflexivity|]. cbn [chars]. intros [Hc Hs]%Forall_cons. specialize (IH Hs). destruct (Hd c Hc) as [Hp Hf].
  unfold harmless in *. cbn [chars forallb calm]. rewrite Hp, Hf. exact IH.
Qed.

Lemma harmless_FormatInt n : harmless (FormatInt n) = true.
Proof.
  unfold FormatInt. apply harmless_app; [destruct (n <? 0)%Z; reflexivity|]. apply harmless_digits.
  destruct (pretty_is_canonical (Z.to_N (Z.abs n))) as [-> | (c & r & -> & Hc & Hr)]; [repeat constructor|].
  cbn [chars]. constructor; [|exact Hr]. unfold is_digit. rewrite in_range_code in *. change (code "1") with 49%N in Hc. change (code "0") with 48%N.
  change (code "9") with 57%N in *. lia.
Qed.

Lemma harmless_ceiling name n l : harmless name = true -> forallb harmless l = true -> forallb harmless (ceiling name n l) = true.
Proof.
  intros Hn Hl. unfold ceiling. destruct (n =? 0)%Z; [reflexivity|]. cbn [forallb]. rewrite Hl, andb_true_r.
  apply harmless_app; [exact Hn|]. apply harmless_app; [reflexivity | apply harmless_FormatInt].
Qed.

Lemma harmless_join sep l : harmless sep = true -> forallb harmless l = true -> harmless (Prelude.join sep l) = true.
Proof.
  intros Hs. induction l as [|x [|y l] IH]; [reflexivity| |].
  - cbn. rewrite andb_true_r. tauto.
  - cbn [forallb] in *. intros [Hx Hl]%andb_true_iff. rewrite Prelude.join_cons by discriminate. auto using harmless_app.
Qed.

Lemma harmless_Render st : harmless (Render st) = true.
Proof.
  unfold Render. set (parts := _ ++ _). assert (H : forallb harmless parts = true).
  { unfold parts. rewrite !forallb_app, !harmless_ceiling by reflexivity. reflexivity. }
  destruct parts as [|x l]; [reflexivity|]. apply harmless_app; [reflexivity|]. apply harmless_app; [reflexivity|]. apply harmless_join; [reflexivity | exact H].
Qed.

(** The row limit and the settings. *)
Definition last_lines (limit : Z) (st : Settings) : string := newline +:+ "LIMIT " +:+ FormatInt limit +:+ Render st.
Lemma last_lines_ok limit st : harmless (last_lines limit st) = true /\ apart (last_lines limit st) = true.
Proof. split; [|reflexivity]. unfold last_lines. auto using harmless_app, harmless_FormatInt, harmless_Render. Qed.

(** * Good pieces *)

Fixpoint braced (l : list ascii) : bool :=
  match l with
  | [] => true
  | c :: r => (if Ascii.eqb c "{" then match until "}" r with Some _ => true | None => false end else true) && braced r
  end.

Lemma until_some stop l t : is_Some (until stop l) -> exists a b b', until stop l = Some (a, b) /\ until stop (l ++ t) = Some (a, b').
Proof.
  induction l as [|c l IH]; cbn [until app]; [intros [? ?]; discriminate|]. destruct (Ascii.eqb c stop); [intros _; eauto|].
  intros H. assert (Hl : is_Some (until stop l)) by (destruct (until stop l); [eauto | destruct H; discriminate]).
  destruct (IH Hl) as (a & b & b' & -> & ->). cbn. eauto.
Qed.

Lemma placeholders_pieces l t : braced l = true -> placeholders (l ++ t) = placeholders l ++ placeholders t.
Proof.
  induction l as [|c l IH]; [reflexivity|]. cbn [app braced placeholders]. intros [Hc Hl]%andb_true_iff. rewrite (IH Hl), app_assoc. f_equal. f_equal.
  destruct (Ascii.eqb c "{"); [|reflexivity]. destruct (until_some "}" l t) as (a & b & b' & -> & ->); [destruct (until "}" l); [eauto | discriminate]|]. reflexivity.
Qed.

Lemma braced_app l t : braced l = true -> braced t = true -> braced (l ++ t) = true.
Proof.
  intros Hl Ht. induction l as [|c l IH]; [exact Ht|]. cbn [app braced] in *. apply andb_true_iff in Hl as [Hc Hl]. rewrite (IH Hl), andb_true_r.
  destruct (Ascii.eqb c "{"); [|reflexivity]. destruct (until_some "}" l t) as (a & b & b' & _ & ->); [destruct (until "}" l); [eauto | discriminate]|]. reflexivity.
Qed.

(** A piece the check has nothing against, with bindings for its placeholders. *)
Record good (bindings : list Binding) (st : string) : Prop := {
  g_semicolon : free_of ";" st; g_call : ~ table_call st; g_file : ~ writes_file st; g_braced : braced (chars st) = true; g_typed : typed st bindings = true }.

Definition goodb (bindings : list Binding) (st : string) : bool := quick_check st && braced (chars st) && typed st bindings.

Lemma quick_check_spec st : quick_check st = true <-> free_of ";" st /\ ~ table_call st /\ ~ writes_file st.
Proof.
  unfold quick_check. rewrite !andb_true_iff, !negb_true_iff, <-table_call_iff, <-writes_file_iff, !not_true_iff_false.
  assert (H : existsb (Ascii.eqb ";") (chars st) = false <-> free_of ";" st); [|tauto]. unfold free_of.
  rewrite <-not_true_iff_false, existsb_exists, list_elem_of_In. setoid_rewrite Ascii.eqb_eq. naive_solver.
Qed.

Lemma goodb_ok bindings st : goodb bindings st = true -> good bindings st.
Proof. unfold goodb. rewrite !andb_true_iff, quick_check_spec. intros [[(? & ? & ?) ?] ?]. split; assumption. Qed.

Lemma good_app bindings s t : good bindings s -> good bindings t -> t = "" \/ separate t = true -> good bindings (s +:+ t).
Proof.
  intros [S1 S2 S3 S4 S5] [T1 T2 T3 T4 T5] [-> | Hs]; [rewrite str_app_nil_r; split; assumption|]. split.
  - apply free_of_app. auto.
  - intros [H|H]%table_call_pieces; auto.
  - intros [H|H]%writes_file_pieces; auto.
  - rewrite chars_app. apply braced_app; assumption.
  - unfold typed in *. rewrite chars_app, placeholders_pieces, forallb_app, S5, T5 by exact S4. reflexivity.
Qed.

Lemma typed_mono st bs bs' : (forall b, b ∈ bs -> b ∈ bs') -> typed st bs = true -> typed st bs' = true.
Proof.
  intros H. unfold typed. rewrite !forallb_forall. intros Ht p Hp. specialize (Ht p Hp). rewrite existsb_exists in *. destruct Ht as (b & Hb & Hf).
  exists b. split; [|exact Hf]. apply list_elem_of_In, H, list_elem_of_In, Hb.
Qed.

Lemma good_mono bs bs' st : (forall b, b ∈ bs -> b ∈ bs') -> good bs st -> good bs' st.
Proof. intros H [? ? ? ? Ht]. split; try assumption. exact (typed_mono _ _ _ H Ht). Qed.

End ReadPieces.
