(* ===== verification/ReadSpec.v ===== *)
(** What the statements of src/readers are: every one passes the client's read-only check, and each of its
    placeholders {name:Type} has a binding of that name and type, for every time bound, scope, row limit
    and settings. *)
From S2P Require Import Prelude Utf8 GoStrings GoTime GoFormat ChBindings ChStatement ChClient ReadQuery ReadOwnership ReadScope Readers ReadPieces.

Module ReadSpec.
Import GoTime GoFormat ChBindings ChStatement ReadQuery ReadOwnership ReadScope Readers ReadPieces.

(** * Every read *)

(** A call whose statement the client takes and whose placeholders are all bound with their types. *)
Record sound (SimpleFold : N -> N) (orgID : string) (ids : list string) (c : call) : Prop := {
  so_read_only : validateReadOnlyStatement SimpleFold (statement c) = true;
  so_typed : typed (statement c) (scoped_bindings orgID ids (extra c)) = true;
  so_named : named (scoped_bindings orgID ids (extra c)) = true }.

Section Sound.
Variables (SimpleFold : N -> N) (ToLower : string -> string) (orgID : string) (ids : list string).
Notation sound := (sound SimpleFold orgID ids).

(** The test that is run on a statement's text and its bindings. *)
Definition sound_text (base : string) (bindings : list Binding) : bool := selectsb base && quick_check base && typed base bindings && named bindings.

Lemma sound_lines c base t :
  statement c = base +:+ t -> harmless t = true -> apart t = true ->
  sound_text base (scoped_bindings orgID ids (extra c)) = true -> sound c.
Proof.
  intros E Ht Ha H. unfold sound_text in H. rewrite !andb_true_iff in H. destruct H as [[[Hs%selectsb_ok Hq] Hty] Hn].
  split; [rewrite E; apply validate_app; auto using quick_check_ok | rewrite E; apply typed_app; assumption | exact Hn].
Qed.

Lemma sound_settings c base limit st :
  statement c = WithSettings (WithRowLimit base limit) st -> sound_text base (scoped_bindings orgID ids (extra c)) = true -> sound c.
Proof.
  intros E. apply sound_lines with (t := last_lines limit st); [|apply last_lines_ok|apply last_lines_ok].
  rewrite E. unfold WithSettings, WithRowLimit, last_lines. rewrite !str_app_assoc. reflexivity.
Qed.

Lemma sound_limit c base limit :
  statement c = WithRowLimit base limit -> sound_text base (scoped_bindings orgID ids (extra c)) = true -> sound c.
Proof.
  intros E. apply sound_settings with (limit := limit) (st := mkSettings 0 0 0 0 0).
  rewrite E. unfold WithSettings. cbn. rewrite str_app_nil_r. reflexivity.
Qed.

(** The readers with a time bound, and with a row limit too. *)
Definition bounded_reads : list (TimeBound -> call) :=
  [ReadPullRequestState; ReadPullRequestReviews; ReadRunStatus; ReadCICDMetricsDaily; ReadDeploymentStatus; ReadDeployMetricsDaily; ReadIncidents;
   ReadSourceHealth; ReadRepositoryMetrics; ReadTeamMetrics; ReadProjectMetricsBreakdown; ReadTeamReadiness; ReadProjectReadiness; ReadTeamWorkload;
   ReadProjectWorkload; ReadTeamThemeMix].
Definition limited_reads : list (TimeBound -> Z -> call) :=
  [(fun _ => ReadRepositoryIdentityWithRowLimit); (fun _ => ReadWorkItemIdentityWithRowLimit); (fun _ => ReadRepositoryIDsWithRowLimit);
   (fun _ => ReadWorkItemRepositoryWithRowLimit); ReadTeamCompletionForecastsWithRowLimit; ReadProjectThemeMixWithRowLimit].
Definition scoped_reads : list (TimeBound -> AuthorizationScope -> Settings -> Z -> call) :=
  [(fun _ => ReadWorkItemStatusWithScopeAndRowLimit ToLower); (fun _ => ReadWorkItemTitleWithScopeAndRowLimit ToLower);
   ReadWorkItemCompletionWithScopeAndRowLimit ToLower].

(** The calls of the package's readers. *)
Inductive reader_call : call -> Prop :=
| rc_bounded f b : f ∈ bounded_reads -> reader_call (f b)
| rc_limited f b limit : f ∈ limited_reads -> reader_call (f b limit)
| rc_scoped f b scope st limit : f ∈ scoped_reads -> reader_call (f b scope st limit).

Ltac run_read := eapply sound_limit; [reflexivity | vm_cast_no_check (eq_refl true)].

Lemma bounded_sound b : Forall (fun f : TimeBound -> call => sound (f b)) bounded_reads.
Proof.
  unfold bounded_reads. repeat constructor; [destruct b as [[] h s e]; [destruct h|]; run_read..].
Qed.

(** ** The work-item reads, piece by piece *)

Definition scope_from (scope : AuthorizationScope) : string :=
  match RepositorySelectors scope with None => "" | Some _ => " " +:+ JoinSQL (WorkItemScopeSQL ToLower scope) end.
Definition scope_where (scope : AuthorizationScope) : string :=
  match RepositorySelectors scope with None => (predicate scope "w.repo_id").1 | Some _ => " AND (" +:+ AuthorizationExpr (WorkItemScopeSQL ToLower scope) +:+ ")" end.
Definition scope_bindings (scope : AuthorizationScope) : list Binding :=
  match RepositorySelectors scope with None => (predicate scope "w.repo_id").2 | Some _ => ResultBindings (WorkItemScopeSQL ToLower scope) end.
Definition where_line : string := newline +:+ "WHERE w.org_id = {org_id:String} AND concat(toString(w.repo_id), ':', w.work_item_id) IN {ids:Array(String)}".

Lemma workItemReadStatement_pieces selectSQL extraWhere orderBy scope st limit :
  workItemReadStatement ToLower selectSQL extraWhere orderBy scope st limit =
  (WithSettings (WithRowLimit ((((((("SELECT " +:+ selectSQL) +:+ (newline +:+ "FROM work_items AS w FINAL")) +:+ scope_from scope) +:+ where_line) +:+ extraWhere) +:+
    scope_where scope) +:+ (newline +:+ "ORDER BY " +:+ orderBy)) limit) st, scope_bindings scope).
Proof.
  unfold workItemReadStatement, scope_from, scope_where, scope_bindings, where_line. destruct (RepositorySelectors scope).
  - rewrite !str_app_assoc. reflexivity.
  - destruct (predicate scope "w.repo_id") as [sp bs]. cbn [fst snd]. rewrite ?str_app_nil_r, !str_app_assoc. reflexivity.
Qed.

Ltac run_piece := apply goodb_ok; vm_cast_no_check (eq_refl true).

Lemma scope_from_good scope bs : (forall b, b ∈ scoped_bindings orgID ids (scope_bindings scope) -> b ∈ bs) ->
  good bs (scope_from scope) /\ (scope_from scope = "" \/ separate (scope_from scope) = true).
Proof.
  intros H. destruct scope as [g r [[[al sl ow] rq]|]]; [|split; [run_piece | left; reflexivity]].
  split; [|right; vm_cast_no_check (eq_refl true)].
  apply good_mono with (bs := mkBinding "org_id" (VString orgID) :: selector_bindings ToLower "authorized" (mkSet al sl ow)); [|destruct al; run_piece].
  intros b Hb. apply H. unfold scoped_bindings. apply elem_of_cons in Hb as [-> | Hb]; [left|]. cbn [app]. right. right.
  unfold scope_bindings, WorkItemScopeSQL, WorkItemScopeSQLAmong, renderRepositorySelectorSet. cbn [RepositorySelectors Granted Requested ResultBindings].
  rewrite !elem_of_app. tauto.
Qed.

Lemma scope_where_good scope bs : (forall b, b ∈ scoped_bindings orgID ids (scope_bindings scope) -> b ∈ bs) ->
  good bs (scope_where scope) /\ (scope_where scope = "" \/ separate (scope_where scope) = true).
Proof.
  intros H. assert (Hs : scope_where scope = "" \/ separate (scope_where scope) = true).
  { destruct scope as [[g|] [r|] [[[al sl ow] [rq|]]|]]; (left; reflexivity) || (right; vm_cast_no_check (eq_refl true)). }
  split; [|exact Hs]. clear Hs. eapply good_mono; [exact H|]. clear H.
  destruct scope as [[g|] [r|] [[[al sl ow] [[al' sl' ow']|]]|]]; try destruct al; try destruct al'; run_piece.
Qed.

(** The bindings of a scope have distinct names, none of them the organization's, the ids' or a bound's. *)
Lemma scope_named b scope : named (scoped_bindings orgID ids (Bindings b ++ scope_bindings scope)) = true.
Proof. destruct b as [[] h s e]; [destruct h|]; destruct scope as [[g|] [r|] [[sel [rq|]]|]]; vm_cast_no_check (eq_refl true). Qed.

Lemma work_item_good bs cols where_ order scope :
  good bs ("SELECT " +:+ cols) -> good bs where_ -> where_ = "" \/ separate where_ = true ->
  good bs (newline +:+ "ORDER BY " +:+ order) -> separate (newline +:+ "ORDER BY " +:+ order) = true ->
  (forall x, x ∈ scoped_bindings orgID ids (scope_bindings scope) -> x ∈ bs) ->
  good bs ((((((("SELECT " +:+ cols) +:+ (newline +:+ "FROM work_items AS w FINAL")) +:+ scope_from scope) +:+ where_line) +:+ where_) +:+
    scope_where scope) +:+ (newline +:+ "ORDER BY " +:+ order)).
Proof.
  intros Hc Hw Hws Ho Hos Hscope. destruct (scope_from_good scope bs Hscope) as [F1 F2]. destruct (scope_where_good scope bs Hscope) as [W1 W2].
  assert (Hbase : forall x, x ∈ scoped_bindings orgID ids [] -> x ∈ bs) by (intros x Hx; apply Hscope; unfold scoped_bindings in *; rewrite elem_of_app in *; set_solver).
  assert (Hl : good bs where_line) by (eapply good_mono; [exact Hbase | run_piece]).
  assert (Hf : good bs (newline +:+ "FROM work_items AS w FINAL")) by (eapply good_mono; [exact Hbase | run_piece]).
  repeat (apply good_app; [|assumption|first [assumption | right; reflexivity | right; assumption]]). exact Hc.
Qed.

Lemma work_item_sound cols where_ order before scope st limit c :
  c = workItemRead ToLower cols where_ order before scope st limit ->
  selectsb ("SELECT " +:+ cols) && goodb (scoped_bindings orgID ids before) ("SELECT " +:+ cols) && goodb (scoped_bindings orgID ids before) where_ &&
    (String.eqb where_ "" || separate where_) && goodb [] (newline +:+ "ORDER BY " +:+ order) && separate (newline +:+ "ORDER BY " +:+ order) = true ->
  named (scoped_bindings orgID ids (before ++ scope_bindings scope)) = true -> sound c.
Proof.
  intros -> H Hn. rewrite !andb_true_iff in H. destruct H as [[[[[Hs Hc%goodb_ok] Hw%goodb_ok] Hws] Ho%goodb_ok] Hos].
  unfold workItemRead. rewrite workItemReadStatement_pieces. set (bs := scoped_bindings orgID ids (before ++ scope_bindings scope)).
  assert (Hbefore : forall x, x ∈ scoped_bindings orgID ids before -> x ∈ bs) by (unfold bs, scoped_bindings; intros x; rewrite !elem_of_app; tauto).
  assert (Hscope : forall x, x ∈ scoped_bindings orgID ids (scope_bindings scope) -> x ∈ bs) by (unfold bs, scoped_bindings; intros x; rewrite !elem_of_app; tauto).
  assert (Hg : good bs ((((((("SELECT " +:+ cols) +:+ (newline +:+ "FROM work_items AS w FINAL")) +:+ scope_from scope) +:+ where_line) +:+ where_) +:+
    scope_where scope) +:+ (newline +:+ "ORDER BY " +:+ order))).
  { apply work_item_good; [exact (good_mono _ _ _ Hbefore Hc) | exact (good_mono _ _ _ Hbefore Hw)| |eapply good_mono; [|exact Ho]; intros x Hx; inversion Hx | exact Hos | exact Hscope].
    apply orb_true_iff in Hws as [->%String.eqb_eq|?]; auto. }
  apply sound_settings with (base := (((((("SELECT " +:+ cols) +:+ (newline +:+ "FROM work_items AS w FINAL")) +:+ scope_from scope) +:+ where_line) +:+ where_) +:+
    scope_where scope) +:+ (newline +:+ "ORDER BY " +:+ order)) (limit := limit) (st := st); [reflexivity|].
  cbn [extra]. fold bs. unfold sound_text. rewrite !andb_true_iff. split; [split; [split|]|exact Hn].
  - repeat apply selectsb_app. exact Hs.
  - apply quick_check_spec. destruct Hg. auto.
  - apply Hg.
Qed.

Lemma limited_sound b limit : Forall (fun f : TimeBound -> Z -> call => sound (f b limit)) limited_reads.
Proof. unfold limited_reads. repeat constructor; [destruct b as [[] h s e]; [destruct h|]; run_read..]. Qed.

Ltac run_work_item :=
  eapply work_item_sound; [reflexivity | vm_cast_no_check (eq_refl true) | apply scope_named || apply (scope_named (mkBound false false GoTime.zero_time GoTime.zero_time))].

Lemma scoped_sound b scope st limit : Forall (fun f => sound (f b scope st limit)) scoped_reads.
Proof.
  unfold scoped_reads. rewrite !Forall_cons. split; [run_work_item|]. split; [run_work_item|]. split; [|constructor].
  destruct b as [[] h s e]; [destruct h|]; run_work_item.
Qed.

(** C8: every read the package makes is one the client takes. For each reader, with any time bound, row
    limit, authorization scope and settings, the statement passes the read-only check, each of its
    placeholders has a binding of its name with a value of its type among those that are sent, and the
    names sent are distinct identifiers, so that a caller's values reach the server only as typed
    parameters. *)
Theorem reader_calls_sound c : reader_call c -> sound c.
Proof.
  intros [f b Hf|f b limit Hf|f b scope st limit Hf].
  - pose proof (bounded_sound b) as H. rewrite Forall_forall in H. exact (H f Hf).
  - pose proof (limited_sound b limit) as H. rewrite Forall_forall in H. exact (H f Hf).
  - pose proof (scoped_sound b scope st limit) as H. rewrite Forall_forall in H. exact (H f Hf).
Qed.

End Sound.

(** A range over a week, with its repositories. *)
Definition sample_range : TimeBound := mkBound true true (at_ns 0) (at_ns (604800 * GoTime.Second)).
Lemma reader_calls_sound_witness : exists c, reader_call id c /\ sound id "org-1" ["r1"; "r'2"] c.
Proof.
  assert (H : reader_call id (ReadRunStatus sample_range)) by (apply rc_bounded; unfold bounded_reads; do 2 apply list_elem_of_further; left).
  exists (ReadRunStatus sample_range). split; [exact H | exact (reader_calls_sound id id "org-1" ["r1"; "r'2"] _ H)].
Defined.

(** A reader that asks what existed sends the start of a range too, which its statement never names. *)
Lemma range_start_unused :
  map Name (extra (ReadRunStatus sample_range)) = ["time_end"; "time_start"] /\
  "time_start" ∉ map fst (placeholders (chars (statement (ReadRunStatus sample_range)))).
Proof. split; [reflexivity|]. eapply bool_decide_eq_false_1. vm_compute. reflexivity. Qed.

End ReadSpec.
