(* ===== verification/ReadMetrics.v ===== *)
(** The rollup of src/readers/metrics.go: RollupProjectMetrics and what it computes. float64 addition is an
    argument. *)
From S2P Require Import Prelude GoFormat ReadOwnership ReadQuery Readers.

Module ReadMetrics.
Import GoFormat ReadOwnership Readers.

(** * Project rollups *)

Section Rollup.
Context {F : Type}.
Variable zero : F.
Variable plus : F -> F -> F.

Record TeamMetricsRow := mkTeam {
  TeamID : string; Day : string; CommitsCount : F; AfterHoursCommitsCount : F; WeekendCommitsCount : F; AfterHoursCommitRatio : F; WeekendCommitRatio : F }.
(** The row's own team id hides that of the embedded row, which is not scanned. *)
Record ProjectTeamMetricsRow := mkRow { ProjectKey : string; RowTeamID : string; TeamName : string; Metrics : TeamMetricsRow }.
Record ProjectMetricsRollup := mkRollup {
  RollupKey : string; TeamCount : Z; Commits : F; AfterHours : F; Weekend : F; TeamBreakdown : list ProjectTeamMetricsRow }.

Definition new_rollup (key : string) : ProjectMetricsRollup := mkRollup key 0 zero zero zero [].

(** The first loop: a rollup per project and the order in which projects come. *)
Definition open_project (st : gmap string ProjectMetricsRollup * list string) (r : ProjectTeamMetricsRow) : gmap string ProjectMetricsRollup * list string :=
  let '(byProject, order) := st in
  match byProject !! ProjectKey r with
  | Some _ => (byProject, order)
  | None => (<[ProjectKey r := new_rollup (ProjectKey r)]> byProject, order ++ [ProjectKey r])
  end.

Definition add_row (roll : ProjectMetricsRollup) (r : ProjectTeamMetricsRow) : ProjectMetricsRollup :=
  mkRollup (RollupKey roll) (TeamCount roll)
    (plus (Commits roll) (CommitsCount (Metrics r))) (plus (AfterHours roll) (AfterHoursCommitsCount (Metrics r)))
    (plus (Weekend roll) (WeekendCommitsCount (Metrics r))) (TeamBreakdown roll ++ [r]).

(** The second loop: a team's first row in a project is added, its others are skipped. *)
Definition take_row (st : gmap string ProjectMetricsRollup * gmap string (gset string)) (r : ProjectTeamMetricsRow) : gmap string ProjectMetricsRollup * gmap string (gset string) :=
  let '(byProject, seenTeams) := st in
  let '(seen, teams) := MarkSeen (default ∅ (seenTeams !! ProjectKey r)) (RowTeamID r) in
  if seen then (byProject, seenTeams)
  else (alter (fun roll => add_row roll r) (ProjectKey r) byProject, <[ProjectKey r := teams]> seenTeams).

Definition counted (roll : ProjectMetricsRollup) : ProjectMetricsRollup :=
  mkRollup (RollupKey roll) (Z.of_nat (length (TeamBreakdown roll))) (Commits roll) (AfterHours roll) (Weekend roll) (TeamBreakdown roll).

Definition RollupProjectMetrics (rows : list ProjectTeamMetricsRow) : list ProjectMetricsRollup :=
  let '(byProject, order) := foldl open_project (∅, []) rows in
  let '(byProject, _) := foldl take_row (byProject, ∅) rows in
  List.filter (fun roll => negb (TeamCount roll =? 0)%Z) (map counted (omap (fun key => byProject !! key) order)).

(** ** What it computes *)

(** The elements whose label comes for the first time. *)
Fixpoint firsts {A} (label : A -> string) (seen : gset string) (l : list A) : list A :=
  match l with
  | [] => []
  | x :: l => if bool_decide (label x ∈ seen) then firsts label seen l else x :: firsts label ({[label x]} ∪ seen) l
  end.

(** The rows of a project, each team's first. *)
Definition team_rows (key : string) (rows : list ProjectTeamMetricsRow) : list ProjectTeamMetricsRow :=
  firsts RowTeamID ∅ (List.filter (fun r => String.eqb (ProjectKey r) key) rows).

Definition total (f : TeamMetricsRow -> F) (l : list ProjectTeamMetricsRow) : F := foldl plus zero (map (fun r => f (Metrics r)) l).

Definition rollup_of (key : string) (l : list ProjectTeamMetricsRow) : ProjectMetricsRollup :=
  mkRollup key (Z.of_nat (length l)) (total CommitsCount l) (total AfterHoursCommitsCount l) (total WeekendCommitsCount l) l.

Lemma firsts_snoc {A} (label : A -> string) seen l x :
  firsts label seen (l ++ [x]) = firsts label seen l ++ (if bool_decide (label x ∈ seen \/ label x ∈ map label l) then [] else [x]).
Proof.
  revert seen. induction l as [|y l IH]; intros seen; cbn [app firsts map].
  - rewrite (bool_decide_ext (label x ∈ seen \/ label x ∈ []) (label x ∈ seen)) by (rewrite elem_of_nil; tauto). destruct (bool_decide (label x ∈ seen)); reflexivity.
  - destruct (bool_decide_reflect (label y ∈ seen)) as [Hy|Hy]; rewrite IH.
    + f_equal. erewrite bool_decide_ext; [reflexivity|]. rewrite elem_of_cons. split; [tauto|]. intros [?|[->|?]]; auto.
    + cbn. f_equal. f_equal. erewrite bool_decide_ext; [reflexivity|]. rewrite elem_of_cons, elem_of_union, elem_of_singleton. tauto.
Qed.

Lemma firsts_labels {A} (label : A -> string) seen l x : x ∈ map label (firsts label seen l) <-> x ∈ map label l /\ x ∉ seen.
Proof.
  revert seen. induction l as [|y l IH]; intros seen; cbn [firsts map]; [set_solver|].
  destruct (bool_decide_reflect (label y ∈ seen)) as [Hy|Hy]; cbn [map]; rewrite ?elem_of_cons, IH; [naive_solver|].
  rewrite elem_of_union, elem_of_singleton. destruct (decide (x = label y)) as [->|]; tauto.
Qed.

Lemma rollup_snoc key l r : counted (add_row (rollup_of key l) r) = rollup_of key (l ++ [r]).
Proof. unfold counted, add_row, rollup_of, total. cbn. rewrite !map_app. cbn [map]. rewrite !foldl_snoc. reflexivity. Qed.

(** The first loop: an empty rollup for each project, in the order of first rows. *)
Lemma open_projects rows :
  let '(byProject, order) := foldl open_project (∅, []) rows in
  order = map ProjectKey (firsts ProjectKey ∅ rows) /\ forall key, byProject !! key = if bool_decide (key ∈ map ProjectKey rows) then Some (new_rollup key) else None.
Proof.
  induction rows as [|r rows IH] using rev_ind; [split; [reflexivity|]; intros key; apply lookup_empty|].
  rewrite foldl_snoc. destruct (foldl open_project (∅, []) rows) as [byProject order]. destruct IH as [Ho Hb]. cbn [open_project].
  rewrite firsts_snoc, map_app, Hb, map_app. cbn [map].
  rewrite (bool_decide_ext (ProjectKey r ∈ (∅ : gset string) \/ ProjectKey r ∈ map ProjectKey rows) (ProjectKey r ∈ map ProjectKey rows)) by set_solver.
  destruct (bool_decide_reflect (ProjectKey r ∈ map ProjectKey rows)) as [Hin|Hin]; cbn [map]; (split; [rewrite ?app_nil_r, Ho; reflexivity|]); intros key.
  - rewrite Hb. erewrite bool_decide_ext; [reflexivity|]. rewrite elem_of_app, list_elem_of_singleton. split; [tauto|]. intros [?| ->]; assumption.
  - destruct (decide (key = ProjectKey r)) as [->|Hne].
    + rewrite lookup_insert_eq, bool_decide_eq_true_2 by (apply elem_of_app; right; left). reflexivity.
    + rewrite lookup_insert_ne, Hb by congruence. erewrite bool_decide_ext; [reflexivity|]. rewrite elem_of_app, list_elem_of_singleton. tauto.
Qed.

(** The second loop, over a prefix of the rows: each project's rollup holds the first rows of its teams,
    and its seen set their teams. *)
Lemma take_rows all rows byProject0 :
  (forall key, byProject0 !! key = if bool_decide (key ∈ map ProjectKey all) then Some (new_rollup key) else None) ->
  (forall r, r ∈ rows -> ProjectKey r ∈ map ProjectKey all) ->
  let '(byProject, seenTeams) := foldl take_row (byProject0, ∅) rows in
  (forall key, counted <$> byProject !! key = if bool_decide (key ∈ map ProjectKey all) then Some (rollup_of key (team_rows key rows)) else None) /\
  (forall key x, x ∈ default ∅ (seenTeams !! key) <-> x ∈ map RowTeamID (List.filter (fun r => String.eqb (ProjectKey r) key) rows)).
Proof.
  intros H0. induction rows as [|r rows IH] using rev_ind; intros Hin.
  { split; [intros key; cbn; rewrite H0; destruct (bool_decide _); reflexivity | intros key x; cbn; rewrite lookup_empty; cbn; set_solver]. }
  rewrite foldl_snoc. destruct (foldl take_row (byProject0, ∅) rows) as [byProject seenTeams].
  destruct IH as [Hb Hs]; [intros r' Hr'; apply Hin, elem_of_app; left; exact Hr'|]. cbn [take_row]. unfold MarkSeen.
  assert (Hr : ProjectKey r ∈ map ProjectKey all) by (apply Hin, elem_of_app; right; left).
  assert (Hother : forall key, key <> ProjectKey r -> List.filter (fun r => String.eqb (ProjectKey r) key) (rows ++ [r]) = List.filter (fun r => String.eqb (ProjectKey r) key) rows).
  { intros key Hk. rewrite List.filter_app. cbn. destruct (String.eqb_spec (ProjectKey r) key); [congruence | apply app_nil_r]. }
  assert (Hown : List.filter (fun r' => String.eqb (ProjectKey r') (ProjectKey r)) (rows ++ [r]) = List.filter (fun r' => String.eqb (ProjectKey r') (ProjectKey r)) rows ++ [r])
    by (rewrite List.filter_app; cbn; rewrite String.eqb_refl; reflexivity).
  destruct (bool_decide_reflect (RowTeamID r ∈ default ∅ (seenTeams !! ProjectKey r))) as [Hseen|Hseen]; pose proof Hseen as Hseen'; rewrite Hs in Hseen'.
  - split.
    + intros key. rewrite Hb. destruct (decide (key = ProjectKey r)) as [->|Hk]; unfold team_rows; [|rewrite (Hother key Hk); reflexivity].
      rewrite Hown, firsts_snoc. rewrite (bool_decide_eq_true_2 (_ \/ _)) by auto. rewrite app_nil_r. reflexivity.
    + intros key x. rewrite Hs. destruct (decide (key = ProjectKey r)) as [->|Hk]; [|rewrite (Hother key Hk); reflexivity].
      rewrite Hown, map_app, elem_of_app. cbn [map]. rewrite list_elem_of_singleton. split; [tauto|]. intros [?| ->]; assumption.
  - split.
    + intros key. destruct (decide (key = ProjectKey r)) as [->|Hk].
      * rewrite lookup_alter_eq. specialize (Hb (ProjectKey r)). rewrite bool_decide_eq_true_2 in Hb |- * by exact Hr.
        destruct (byProject !! ProjectKey r) as [roll|]; [|discriminate]. cbn [fmap option_fmap option_map] in Hb |- *. apply (inj Some) in Hb. f_equal.
        unfold team_rows. rewrite Hown, firsts_snoc. rewrite (bool_decide_eq_false_2 (_ \/ _)) by set_solver. rewrite <-rollup_snoc. fold (team_rows (ProjectKey r) rows). rewrite <-Hb. reflexivity.
      * rewrite lookup_alter_ne by congruence. rewrite Hb. unfold team_rows. rewrite (Hother key Hk). reflexivity.
    + intros key x. destruct (decide (key = ProjectKey r)) as [->|Hk].
      * rewrite lookup_insert_eq. cbn. rewrite Hown, map_app, elem_of_app, elem_of_union, Hs, elem_of_singleton. cbn [map]. rewrite list_elem_of_singleton. tauto.
      * rewrite lookup_insert_ne, Hs, (Hother key Hk) by congruence. reflexivity.
Qed.

Lemma team_rows_nonempty key rows : key ∈ map ProjectKey rows -> team_rows key rows <> [].
Proof.
  intros (r & -> & Hr)%list_elem_of_fmap E. pose proof (firsts_labels RowTeamID ∅ (List.filter (fun x => String.eqb (ProjectKey x) (ProjectKey r)) rows) (RowTeamID r)) as H.
  unfold team_rows in E. rewrite E in H. destruct H as [_ H]. cbn in H. enough (Hn : RowTeamID r ∈ []) by inversion Hn. apply H. split; [|set_solver].
  apply list_elem_of_fmap. exists r. split; [reflexivity|]. apply list_elem_of_In, filter_In. split; [apply list_elem_of_In, Hr | apply String.eqb_refl].
Qed.

(** RollupProjectMetrics counts each owning team once. The result has one rollup for each project of the
    rows, in the order in which the projects first appear; its breakdown is the project's rows, each
    team's first and no other, in order; the team count is the breakdown's length, and the three totals
    are sums over the breakdown, left to right. *)
Theorem RollupProjectMetrics_exact rows :
  RollupProjectMetrics rows = map (fun key => rollup_of key (team_rows key rows)) (map ProjectKey (firsts ProjectKey ∅ rows)).
Proof.
  unfold RollupProjectMetrics. pose proof (open_projects rows) as Ho. destruct (foldl open_project (∅, []) rows) as [by0 order]. destruct Ho as [Ho H0].
  pose proof (take_rows rows rows by0 H0 ltac:(intros r Hr; apply list_elem_of_fmap; eauto)) as Ht.
  destruct (foldl take_row (by0, ∅) rows) as [byProject seenTeams]. destruct Ht as [Hb _].
  assert (Hkeys : Forall (fun key => key ∈ map ProjectKey rows) order).
  { rewrite Ho. apply Forall_forall. intros key Hk. apply firsts_labels in Hk. tauto. }
  rewrite <-Ho. clear Ho H0. induction Hkeys as [|key order Hk _ IH]; [reflexivity|]. cbn [map omap list_omap].
  specialize (Hb key) as Hbk. rewrite bool_decide_eq_true_2 in Hbk by exact Hk. destruct (byProject !! key) as [roll|]; [|discriminate].
  cbn [fmap option_fmap option_map] in Hbk. apply (inj Some) in Hbk. cbn [map List.filter]. rewrite Hbk. unfold rollup_of at 1. cbn [TeamCount].
  pose proof (team_rows_nonempty key rows Hk) as Hne. destruct (team_rows key rows) as [|x l] eqn:El; [congruence|]. cbn [negb length].
  destruct (Z.eqb_spec (Z.of_nat (S (length l))) 0); [lia|]. cbn [negb]. f_equal. exact IH.
Qed.

End Rollup.
End ReadMetrics.
