(* ===== verification/ReadSizing.v ===== *)
(** The issue-size measure of src/readers/investment_issue_size.go: the texts that read it, and the coverage
    that tells how much of a mix is sized. float64 division is an argument. *)
From S2P Require Import Prelude Utf8 GoFormat ChBindings ReadQuery ReadScope ReadPieces.

Module ReadSizing.
Import Utf8 GoFormat ChBindings ReadQuery ReadScope ReadPieces.

Definition UnitSizeWeightColumn : string := "unit_size_weight".
Definition UnitIssueSizeColumn : string := "unit_issue_size".

Definition UnitSizeWeightExpr (alias : string) : string := "if(" +:+ alias +:+ ".issue_size > 0, " +:+ alias +:+ ".issue_size, 1.0)".
Definition UnitIssueSizeExpr (alias : string) : string := "if(" +:+ alias +:+ ".issue_size > 0, " +:+ alias +:+ ".issue_size, 0.0)".

Definition LatestWorkUnitIssueSizeSource : string := "(
                SELECT org_id, work_unit_id, argMax(issue_size, computed_at) AS issue_size
                FROM work_unit_issue_size
                WHERE org_id = {org_id:String}
                GROUP BY org_id, work_unit_id
            )".

Definition IssueSizedSource (aliasedSource alias : string) : result unit string :=
  let suffix := " AS " +:+ alias in
  if negb (HasSuffix aliasedSource suffix) then Err tt
  else
    let inner := TrimSuffix aliasedSource suffix in
    Ok ("(
            SELECT sized_unit.*, " +:+ UnitSizeWeightExpr "unit_size" +:+ " AS " +:+ UnitSizeWeightColumn +:+ ",
                " +:+ UnitIssueSizeExpr "unit_size" +:+ " AS " +:+ UnitIssueSizeColumn +:+ "
            FROM " +:+ inner +:+ " AS sized_unit
            LEFT JOIN " +:+ LatestWorkUnitIssueSizeSource +:+ " AS unit_size
                ON unit_size.org_id = sized_unit.org_id
                AND unit_size.work_unit_id = sized_unit.work_unit_id
        )" +:+ suffix).

Definition SizingCoverageSelectList (workUnitIDExpr : string) : string := "
    toUInt64(uniqExactIf(" +:+ workUnitIDExpr +:+ ", " +:+ UnitIssueSizeColumn +:+ " > 0)) AS sized_units,
    toUInt64(uniqExact(" +:+ workUnitIDExpr +:+ ")) AS units".

(** * The coverage *)

Record SizingCoverage := mkCoverage { SizedUnits : Z; Units : Z }.

(** The row's two uint64 become ints. *)
Definition ScanSizingCoverage {E} (scanned : result E (Z * Z)) : result E SizingCoverage :=
  match scanned with
  | Ok (sized, units) => Ok (mkCoverage (i64 sized) (i64 units))
  | Err e => Err e
  end.

Definition Share {F} (float64 : Z -> F) (div : F -> F -> F) (c : SizingCoverage) : option F :=
  if (Units c <=? 0)%Z then None else Some (div (float64 (SizedUnits c)) (float64 (Units c))).
Definition Unsized (c : SizingCoverage) : Z := if (0 <? Units c)%Z then i64 (Units c - SizedUnits c) else 0.
Definition Measured (c : SizingCoverage) : bool := (0 <? Units c)%Z.
Definition Note (c : SizingCoverage) : string :=
  if (Units c <=? i64 (2 * SizedUnits c))%Z then ""
  else "Mostly unsized: " +:+ FormatInt (SizedUnits c) +:+ " of " +:+ FormatInt (Units c) +:+ " work units have an issue size. The other " +:+
       FormatInt (i64 (Units c - SizedUnits c)) +:+ " have no size, so each counts as 1 work unit.".

(** ** What they say *)

Lemma drop_app n s t : n = String.length s -> drop n (s +:+ t) = t.
Proof. intros ->. induction s as [|c s IH]; [reflexivity|]. rewrite str_app_cons. exact IH. Qed.

Lemma suffix_iff s suffix : HasSuffix s suffix = true <-> exists inner, s = inner +:+ suffix.
Proof.
  unfold HasSuffix. split.
  - intros [_ H%String.eqb_eq]%andb_true_iff. exists (take (String.length s - String.length suffix) s). rewrite <-(take_drop (String.length s - String.length suffix) s) at 1. rewrite H. reflexivity.
  - intros (inner & ->). rewrite str_length_app, drop_app by lia. rewrite String.eqb_refl, andb_true_r. apply Nat.leb_le. lia.
Qed.

(** A source is taken exactly when it is written "... AS alias", and then the sized one is written so too:
    it can stand where the source stood. *)
Lemma IssueSizedSource_exact source alias :
  (is_ok (IssueSizedSource source alias) = true <-> exists inner, source = inner +:+ " AS " +:+ alias) /\
  forall sized, IssueSizedSource source alias = Ok sized -> exists inner, sized = inner +:+ " AS " +:+ alias.
Proof.
  unfold IssueSizedSource. rewrite <-suffix_iff. destruct (HasSuffix source (" AS " +:+ alias)); cbn [negb is_ok]; (split; [tauto|]); [|discriminate].
  intros sized [= <-]. eexists. rewrite <-!str_app_assoc. reflexivity.
Qed.

(** What a coverage says of a read of [units] units, [sized] of them with a size: the two numbers add up,
    nothing is a share of no unit, and the note appears exactly when less than half is sized. *)
Lemma coverage_exact {F} (float64 : Z -> F) div (sized units : Z) :
  (0 <= sized <= units)%Z -> (units < 2 ^ 62)%Z ->
  let c := mkCoverage sized units in
  ScanSizingCoverage (E := unit) (Ok (sized, units)) = Ok c /\
  (SizedUnits c + Unsized c = units)%Z /\
  (Share float64 div c = None <-> units = 0%Z) /\ (Measured c = true <-> units <> 0%Z) /\
  (Note c = "" <-> (units <= 2 * sized)%Z).
Proof.
  intros H1 H2. cbv zeta. unfold ScanSizingCoverage, Unsized, Share, Measured, Note. cbn [SizedUnits Units].
  rewrite !(i64_small _) by (unfold min_int64, max_int64; lia).
  split; [reflexivity|]. split; [destruct (Z.ltb_spec 0 units); lia|]. split; [destruct (Z.leb_spec units 0); split; (discriminate || lia || reflexivity)|].
  split; [rewrite Z.ltb_lt; lia|]. destruct (Z.leb_spec units (2 * sized)); split; (discriminate || lia || reflexivity).
Qed.

(** The sized source of a good source is text the client takes: its placeholder is the organization's. *)
Example sized_good : match IssueSizedSource "(SELECT org_id, work_unit_id FROM work_unit_investments) AS units" "units" with
  Ok s => goodb [mkBinding "org_id" (VString "org-1")] (s +:+ newline +:+ SizingCoverageSelectList "units.work_unit_id") | Err _ => false end = true.
Proof. vm_compute. reflexivity. Qed.

Example note_sample : Note (mkCoverage 1 3) = "Mostly unsized: 1 of 3 work units have an issue size. The other 2 have no size, so each counts as 1 work unit.".
Proof. reflexivity. Qed.

End ReadSizing.
