(* ===== verification/ReadRows.v ===== *)
(** The rows of src/readers: each reader's row type, the destinations of its Scan and the row it makes of them,
    and the reader itself, from its statement in Readers.v to the rows and the error it returns. A driver
    scans into any list of typed destinations; float64 is an argument. *)
From S2P Require Import Prelude GoTime ChBindings ChClient ReadQuery ReadScope Readers ReadMetrics.

Module ReadRows.
Import GoTime ChBindings ChClient ReadQuery ReadScope ReadMetrics.
Notation call := Readers.call.
Notation skip_empty := Readers.skip_empty.
Notation statement := Readers.statement.
Notation extra := Readers.extra.

Section Rows.
Context {F : Type}.

(** * Destinations *)

(** The Go types that a destination of a Scan points to, and their values. *)
Inductive gotype := GString | GUint8 | GUint32 | GUint64 | GInt64 | GFloat64 | GTime | GUint16s | GUint32s.
Definition denote (t : gotype) : Type :=
  match t with
  | GString => string
  | GUint8 | GUint32 | GUint64 | GInt64 => Z
  | GFloat64 => F
  | GTime => Time
  | GUint16s | GUint32s => list Z
  end.
Fixpoint values (ts : list gotype) : Type := match ts with [] => unit | t :: ts => (denote t * values ts)%type end.

(** What a reader's callback scans into, and the row it appends. *)
Record scan (Row : Type) := mkScan { dests : list gotype; row : values dests -> Row }.
#[local] Arguments mkScan {Row}.
#[local] Arguments dests {Row}.
#[local] Arguments row {Row}.

(** * Rows *)

Record CIPipelineRunStatusRow := mkCIPipelineRunStatusRow {
  CIPipelineRunStatus_RunID : string; CIPipelineRunStatus_Status : string; CIPipelineRunStatus_RepoID : string }.
Record CICDMetricsDailyRow := mkCICDMetricsDailyRow {
    CICDMetricsDaily_RepoID : string; CICDMetricsDaily_Day : string; CICDMetricsDaily_PipelinesCount : Z; CICDMetricsDaily_SuccessRate : F; CICDMetricsDaily_HasAvgDuration :
    bool; CICDMetricsDaily_AvgDuration : F; CICDMetricsDaily_HasP90Duration : bool; CICDMetricsDaily_P90Duration : F; CICDMetricsDaily_HasAvgQueue : bool;
    CICDMetricsDaily_AvgQueue : F }.
Record DeploymentStatusRow := mkDeploymentStatusRow {
  DeploymentStatus_DeploymentID : string; DeploymentStatus_Status : string; DeploymentStatus_Environment : string; DeploymentStatus_RepoID : string }.
Record DeployMetricsDailyRow := mkDeployMetricsDailyRow {
    DeployMetricsDaily_RepoID : string; DeployMetricsDaily_Day : string; DeployMetricsDaily_DeploymentsCount : Z; DeployMetricsDaily_FailedDeploymentsCount : Z;
    DeployMetricsDaily_HasDeployTime : bool; DeployMetricsDaily_DeployTime : F; DeployMetricsDaily_HasLeadTime : bool; DeployMetricsDaily_LeadTime : F }.
Record RepositoryIdentityRow := mkRepositoryIdentityRow {
  RepositoryIdentity_ID : string; RepositoryIdentity_Slug : string; RepositoryIdentity_Provider : string }.
Record WorkItemIdentityRow := mkWorkItemIdentityRow {
  WorkItemIdentity_ID : string; WorkItemIdentity_Title : string; WorkItemIdentity_RepoID : string }.
Record RepositoryIDRow := mkRepositoryIDRow {
  RepositoryID_ID : string }.
Record WorkItemRepositoryRow := mkWorkItemRepositoryRow {
  WorkItemRepository_ID : string; WorkItemRepository_RepoID : string; WorkItemRepository_RepoSlug : string }.
Record IncidentRow := mkIncidentRow {
  Incident_ID : string; Incident_Status : string; Incident_Severity : string }.
Record ProjectThemeMixRow := mkProjectThemeMixRow {
    ProjectThemeMix_ProjectSubjectKey : string; ProjectThemeMix_FeatureDelivery : F; ProjectThemeMix_Operational : F; ProjectThemeMix_Maintenance : F; ProjectThemeMix_Quality :
    F; ProjectThemeMix_Risk : F; ProjectThemeMix_BugfixWeighted : F; ProjectThemeMix_WorkUnits : Z; ProjectThemeMix_SpanningUnits : Z; ProjectThemeMix_MultiPlacedUnits : Z }.
Record TeamThemeMixRow := mkTeamThemeMixRow {
  TeamThemeMix_TeamID : string; TeamThemeMix_TeamName : string; TeamThemeMix_Kind : string; TeamThemeMix_Key : string; TeamThemeMix_WorkUnits : F }.
Record RepositoryMetricsRow := mkRepositoryMetricsRow {
    RepositoryMetrics_RepoID : string; RepositoryMetrics_Day : string; RepositoryMetrics_CommitsCount : Z; RepositoryMetrics_PRsMerged : Z; RepositoryMetrics_MedianPRCycleHours :
    F; RepositoryMetrics_ChangeFailureRate : F; RepositoryMetrics_HasMTTRHours : bool; RepositoryMetrics_MTTRHours : F; RepositoryMetrics_BusFactor : Z;
    RepositoryMetrics_CodeOwnershipGini : F }.
Record PullRequestStateRow := mkPullRequestStateRow {
  PullRequestState_RepoID : string; PullRequestState_Number : Z; PullRequestState_State : string }.
Record PullRequestReviewRow := mkPullRequestReviewRow {
  PullRequestReview_ReviewID : string; PullRequestReview_State : string; PullRequestReview_RepoID : string; PullRequestReview_Number : Z }.
Record ReadinessCoverageRow := mkReadinessCoverageRow {
    ReadinessCoverage_TeamID : string; ReadinessCoverage_WorkScopeID : string; ReadinessCoverage_Provider : string; ReadinessCoverage_Day : string;
    ReadinessCoverage_EstimatedCount : Z; ReadinessCoverage_UnestimatedCount : Z; ReadinessCoverage_BacklogSize : Z; ReadinessCoverage_HasRatio : Z; ReadinessCoverage_Ratio : F
    }.
Record ReadinessProjectRow := mkReadinessProjectRow {
    ReadinessProject_ProjectSubjectKey : string; ReadinessProject_HasTeam : Z; ReadinessProject_TeamID : string; ReadinessProject_TeamName : string; ReadinessProject_WorkScopeID
    : string; ReadinessProject_Provider : string; ReadinessProject_Day : string; ReadinessProject_EstimatedCount : Z; ReadinessProject_UnestimatedCount : Z;
    ReadinessProject_BacklogSize : Z; ReadinessProject_HasRatio : Z; ReadinessProject_Ratio : F }.
Record SourceHealthRow := mkSourceHealthRow {
    SourceHealth_Provider : string; SourceHealth_Status : string; SourceHealth_ItemsSynced : Z; SourceHealth_DurationMS : Z; SourceHealth_ErrorMessage : string;
    SourceHealth_CreatedAt : string }.
Record WorkItemStatusRow := mkWorkItemStatusRow {
  WorkItemStatus_ID : string; WorkItemStatus_Status : string; WorkItemStatus_RepoID : string; WorkItemStatus_Provider : string }.
Record WorkItemTitleRow := mkWorkItemTitleRow {
  WorkItemTitle_ID : string; WorkItemTitle_Title : string; WorkItemTitle_RepoID : string }.
Record WorkItemCompletionRow := mkWorkItemCompletionRow {
  WorkItemCompletion_ID : string; WorkItemCompletion_IsCompleted : Z; WorkItemCompletion_CompletedAt : Time; WorkItemCompletion_RepoID : string }.
Record WorkloadForecastRow := mkWorkloadForecastRow {
    WorkloadForecast_TeamID : string; WorkloadForecast_WorkScopeID : string; WorkloadForecast_ThroughputMean : F; WorkloadForecast_ThroughputStddev : F;
    WorkloadForecast_HasP50Days : Z; WorkloadForecast_P50Days : Z; WorkloadForecast_InsufficientHistory : Z; WorkloadForecast_HighVariance : Z; WorkloadForecast_BacklogSize : Z;
    WorkloadForecast_ComputedAt : string }.
Record WorkloadProjectRow := mkWorkloadProjectRow {
    WorkloadProject_ProjectSubjectKey : string; WorkloadProject_HasTeam : Z; WorkloadProject_TeamID : string; WorkloadProject_TeamName : string; WorkloadProject_WorkScopeID :
    string; WorkloadProject_ThroughputMean : F; WorkloadProject_ThroughputStddev : F; WorkloadProject_HasP50Days : Z; WorkloadProject_P50Days : Z;
    WorkloadProject_InsufficientHistory : Z; WorkloadProject_HighVariance : Z; WorkloadProject_BacklogSize : Z; WorkloadProject_ComputedAt : string }.
Record CompletionForecastRow := mkCompletionForecastRow {
    CompletionForecast_TeamID : string; CompletionForecast_HasWorkScope : Z; CompletionForecast_WorkScopeID : string; CompletionForecast_ComputedAt : string;
    CompletionForecast_SimulationCount : Z; CompletionForecast_BacklogSize : Z; CompletionForecast_HasTargetItems : Z; CompletionForecast_TargetItems : Z;
    CompletionForecast_HasP50Days : Z; CompletionForecast_P50Days : Z; CompletionForecast_HasP85Days : Z; CompletionForecast_P85Days : Z; CompletionForecast_HasP95Days : Z;
    CompletionForecast_P95Days : Z; CompletionForecast_P50Date : string; CompletionForecast_P85Date : string; CompletionForecast_P95Date : string;
    CompletionForecast_InsufficientHistory : Z; CompletionForecast_HighVariance : Z; CompletionForecast_CompletionDayBins : Z; CompletionForecast_CompletionCountBins : Z;
    CompletionForecast_CompletionDaysValues : list Z; CompletionForecast_CompletionDaysCounts : list Z }.

Definition scan_CIPipelineRunStatusRow : scan CIPipelineRunStatusRow :=
  mkScan [GString; GString; GString] (fun '(runID_, (status_, (repoID_, _))) => mkCIPipelineRunStatusRow runID_ status_ repoID_).
Definition scan_CICDMetricsDailyRow : scan CICDMetricsDailyRow :=
    mkScan [GString; GString; GInt64; GFloat64; GUint8; GFloat64; GUint8; GFloat64; GUint8; GFloat64] (fun '(repoID_, (day_, (pipelinesCount_, (successRate_, (hasAvgDuration_,
    (avgDuration_, (hasP90Duration_, (p90Duration_, (hasAvgQueue_, (avgQueue_, _)))))))))) => mkCICDMetricsDailyRow repoID_ day_ pipelinesCount_ successRate_ (negb
    (hasAvgDuration_ =? 0)%Z) avgDuration_ (negb (hasP90Duration_ =? 0)%Z) p90Duration_ (negb (hasAvgQueue_ =? 0)%Z) avgQueue_).
Definition scan_DeploymentStatusRow : scan DeploymentStatusRow :=
  mkScan [GString; GString; GString; GString] (fun '(deploymentID_, (status_, (environment_, (repoID_, _)))) => mkDeploymentStatusRow deploymentID_ status_ environment_ repoID_).
Definition scan_DeployMetricsDailyRow : scan DeployMetricsDailyRow :=
    mkScan [GString; GString; GInt64; GInt64; GUint8; GFloat64; GUint8; GFloat64] (fun '(repoID_, (day_, (deploymentsCount_, (failedDeploymentsCount_, (hasDeployTime_,
    (deployTime_, (hasLeadTime_, (leadTime_, _)))))))) => mkDeployMetricsDailyRow repoID_ day_ deploymentsCount_ failedDeploymentsCount_ (negb (hasDeployTime_ =? 0)%Z)
    deployTime_ (negb (hasLeadTime_ =? 0)%Z) leadTime_).
Definition scan_RepositoryIdentityRow : scan RepositoryIdentityRow :=
  mkScan [GString; GString; GString] (fun '(id_, (slug_, (provider_, _))) => mkRepositoryIdentityRow id_ slug_ provider_).
Definition scan_WorkItemIdentityRow : scan WorkItemIdentityRow :=
  mkScan [GString; GString; GString] (fun '(id_, (title_, (repoID_, _))) => mkWorkItemIdentityRow id_ title_ repoID_).
Definition scan_RepositoryIDRow : scan RepositoryIDRow :=
  mkScan [GString] (fun '(id_, _) => mkRepositoryIDRow id_).
Definition scan_WorkItemRepositoryRow : scan WorkItemRepositoryRow :=
  mkScan [GString; GString; GString] (fun '(id_, (repoID_, (repoSlug_, _))) => mkWorkItemRepositoryRow id_ repoID_ repoSlug_).
Definition scan_IncidentRow : scan IncidentRow :=
  mkScan [GString; GString; GString] (fun '(id_, (status_, (severity_, _))) => mkIncidentRow id_ status_ severity_).
Definition scan_ProjectThemeMixRow : scan ProjectThemeMixRow :=
    mkScan [GString; GFloat64; GFloat64; GFloat64; GFloat64; GFloat64; GFloat64; GUint64; GUint64; GUint64] (fun '(projectSubjectKey_, (featureDelivery_, (operational_,
    (maintenance_, (quality_, (risk_, (bugfixWeighted_, (workUnits_, (spanningUnits_, (multiPlacedUnits_, _)))))))))) => mkProjectThemeMixRow projectSubjectKey_ featureDelivery_
    operational_ maintenance_ quality_ risk_ bugfixWeighted_ workUnits_ spanningUnits_ multiPlacedUnits_).
Definition scan_TeamThemeMixRow : scan TeamThemeMixRow :=
    mkScan [GString; GString; GString; GString; GFloat64] (fun '(teamID_, (teamName_, (kind_, (key_, (workUnits_, _))))) => mkTeamThemeMixRow teamID_ teamName_ kind_ key_
    workUnits_).
Definition scan_RepositoryMetricsRow : scan RepositoryMetricsRow :=
    mkScan [GString; GString; GInt64; GInt64; GFloat64; GFloat64; GUint8; GFloat64; GInt64; GFloat64] (fun '(repoID_, (day_, (commitsCount_, (pRsMerged_, (medianPRCycleHours_,
    (changeFailureRate_, (hasMTTR_, (mTTRHours_, (busFactor_, (codeOwnershipGini_, _)))))))))) => mkRepositoryMetricsRow repoID_ day_ commitsCount_ pRsMerged_ medianPRCycleHours_
    changeFailureRate_ (negb (hasMTTR_ =? 0)%Z) mTTRHours_ busFactor_ codeOwnershipGini_).
Definition scan_TeamMetricsRow : scan (TeamMetricsRow (F := F)) :=
    mkScan [GString; GString; GFloat64; GFloat64; GFloat64; GFloat64; GFloat64] (fun '(teamID_, (day_, (commitsCount_, (afterHoursCommitsCount_, (weekendCommitsCount_,
    (afterHoursCommitRatio_, (weekendCommitRatio_, _))))))) => mkTeam teamID_ day_ commitsCount_ afterHoursCommitsCount_ weekendCommitsCount_ afterHoursCommitRatio_
    weekendCommitRatio_).
Definition scan_ProjectTeamMetricsRow : scan (ProjectTeamMetricsRow (F := F)) :=
    mkScan [GString; GString; GString; GString; GFloat64; GFloat64; GFloat64; GFloat64; GFloat64] (fun '(projectKey_, (teamID_, (teamName_, (day_, (commitsCount_,
    (afterHoursCommitsCount_, (weekendCommitsCount_, (afterHoursCommitRatio_, (weekendCommitRatio_, _))))))))) => mkRow projectKey_ teamID_ teamName_ (mkTeam "" day_
    commitsCount_ afterHoursCommitsCount_ weekendCommitsCount_ afterHoursCommitRatio_ weekendCommitRatio_)).
Definition scan_PullRequestStateRow : scan PullRequestStateRow :=
  mkScan [GString; GUint32; GString] (fun '(repoID_, (number_, (state_, _))) => mkPullRequestStateRow repoID_ number_ state_).
Definition scan_PullRequestReviewRow : scan PullRequestReviewRow :=
  mkScan [GString; GString; GString; GUint32] (fun '(reviewID_, (state_, (repoID_, (number_, _)))) => mkPullRequestReviewRow reviewID_ state_ repoID_ number_).
Definition scan_ReadinessCoverageRow : scan ReadinessCoverageRow :=
    mkScan [GString; GString; GString; GString; GInt64; GInt64; GInt64; GUint8; GFloat64] (fun '(teamID_, (workScopeID_, (provider_, (day_, (estimatedCount_, (unestimatedCount_,
    (backlogSize_, (hasRatio_, (ratio_, _))))))))) => mkReadinessCoverageRow teamID_ workScopeID_ provider_ day_ estimatedCount_ unestimatedCount_ backlogSize_ hasRatio_ ratio_).
Definition scan_ReadinessProjectRow : scan ReadinessProjectRow :=
    mkScan [GString; GUint8; GString; GString; GString; GString; GString; GInt64; GInt64; GInt64; GUint8; GFloat64] (fun '(projectSubjectKey_, (hasTeam_, (teamID_, (teamName_,
    (workScopeID_, (provider_, (day_, (estimatedCount_, (unestimatedCount_, (backlogSize_, (hasRatio_, (ratio_, _)))))))))))) => mkReadinessProjectRow projectSubjectKey_ hasTeam_
    teamID_ teamName_ workScopeID_ provider_ day_ estimatedCount_ unestimatedCount_ backlogSize_ hasRatio_ ratio_).
Definition scan_SourceHealthRow : scan SourceHealthRow :=
    mkScan [GString; GString; GInt64; GUint64; GString; GString] (fun '(provider_, (status_, (itemsSynced_, (durationMS_, (errorMessage_, (createdAt_, _)))))) =>
    mkSourceHealthRow provider_ status_ itemsSynced_ durationMS_ errorMessage_ createdAt_).
Definition scan_WorkItemStatusRow : scan WorkItemStatusRow :=
  mkScan [GString; GString; GString; GString] (fun '(id_, (status_, (repoID_, (provider_, _)))) => mkWorkItemStatusRow id_ status_ repoID_ provider_).
Definition scan_WorkItemTitleRow : scan WorkItemTitleRow :=
  mkScan [GString; GString; GString] (fun '(id_, (title_, (repoID_, _))) => mkWorkItemTitleRow id_ title_ repoID_).
Definition scan_WorkItemCompletionRow : scan WorkItemCompletionRow :=
  mkScan [GString; GUint8; GTime; GString] (fun '(id_, (isCompleted_, (completedAt_, (repoID_, _)))) => mkWorkItemCompletionRow id_ isCompleted_ completedAt_ repoID_).
Definition scan_WorkloadForecastRow : scan WorkloadForecastRow :=
    mkScan [GString; GString; GFloat64; GFloat64; GUint8; GInt64; GUint8; GUint8; GInt64; GString] (fun '(teamID_, (workScopeID_, (throughputMean_, (throughputStddev_,
    (hasP50Days_, (p50Days_, (insufficientHistory_, (highVariance_, (backlogSize_, (computedAt_, _)))))))))) => mkWorkloadForecastRow teamID_ workScopeID_ throughputMean_
    throughputStddev_ hasP50Days_ p50Days_ insufficientHistory_ highVariance_ backlogSize_ computedAt_).
Definition scan_WorkloadProjectRow : scan WorkloadProjectRow :=
    mkScan [GString; GUint8; GString; GString; GString; GFloat64; GFloat64; GUint8; GInt64; GUint8; GUint8; GInt64; GString] (fun '(projectSubjectKey_, (hasTeam_, (teamID_,
    (teamName_, (workScopeID_, (throughputMean_, (throughputStddev_, (hasP50Days_, (p50Days_, (insufficientHistory_, (highVariance_, (backlogSize_, (computedAt_, _)))))))))))))
    => mkWorkloadProjectRow projectSubjectKey_ hasTeam_ teamID_ teamName_ workScopeID_ throughputMean_ throughputStddev_ hasP50Days_ p50Days_ insufficientHistory_ highVariance_
    backlogSize_ computedAt_).
Definition scan_CompletionForecastRow : scan CompletionForecastRow :=
    mkScan [GString; GUint8; GString; GString; GUint32; GInt64; GUint8; GInt64; GUint8; GInt64; GUint8; GInt64; GUint8; GInt64; GString; GString; GString; GUint8; GUint8;
    GUint64; GUint64; GUint16s; GUint32s] (fun '(teamID_, (hasWorkScope_, (workScopeID_, (computedAt_, (simulationCount_, (backlogSize_, (hasTargetItems_, (targetItems_,
    (hasP50Days_, (p50Days_, (hasP85Days_, (p85Days_, (hasP95Days_, (p95Days_, (p50Date_, (p85Date_, (p95Date_, (insufficientHistory_, (highVariance_, (completionDayBins_,
    (completionCountBins_, (completionDaysValues_, (completionDaysCounts_, _))))))))))))))))))))))) => mkCompletionForecastRow teamID_ hasWorkScope_ workScopeID_ computedAt_
    simulationCount_ backlogSize_ hasTargetItems_ targetItems_ hasP50Days_ p50Days_ hasP85Days_ p85Days_ hasP95Days_ p95Days_ p50Date_ p85Date_ p95Date_ insufficientHistory_
    highVariance_ completionDayBins_ completionCountBins_ completionDaysValues_ completionDaysCounts_).

(** * Readers *)

Context {R : Type} {scanner : forall ts, RowScanner R (values ts)}.

(** The callback: scan a row and append it. *)
Definition each {Row} (s : scan Row) (r : R) (rows : list Row) : option error * (R * list Row) :=
  match Scan (V := values (dests s)) r with
  | (Ok v, r) => (None, (r, rows ++ [row s v]))
  | (Err e, r) => (Some e, (r, rows))
  end.

(** A reader's result: its rows and its error; with an error, the rows so far ([keep]) or none. *)
Definition ended {Row} (keep : bool) (e : read_end R (list Row)) : list Row * option read_error :=
  match failed e with
  | Some x => (if keep then kept e else [], Some x)
  | None => (kept e, None)
  end.
Definition read {Row} (s : scan Row) (keep : bool) (c : call) (fuel : nat) (client : option (string -> list Binding -> result error R))
    (orgID : string) (ids : list string) : option (list Row * option read_error) :=
  if skip_empty c && match ids with [] => true | _ => false end then Some ([], None)
  else option_map (ended keep) (QueryOrgScopedNamed (V := values (dests s)) (each s) fuel client (statement c) orgID ids (extra c) []).
Notation reader := (nat -> option (string -> list Binding -> result error R) -> string -> list string -> option (list _ * option read_error)).
Variable ToLower : string -> string.

Definition ReadRunStatus (b : TimeBound) : reader := read scan_CIPipelineRunStatusRow false (Readers.ReadRunStatus b).
Definition ReadCICDMetricsDaily (b : TimeBound) : reader := read scan_CICDMetricsDailyRow false (Readers.ReadCICDMetricsDaily b).
Definition ReadDeploymentStatus (b : TimeBound) : reader := read scan_DeploymentStatusRow false (Readers.ReadDeploymentStatus b).
Definition ReadDeployMetricsDaily (b : TimeBound) : reader := read scan_DeployMetricsDailyRow false (Readers.ReadDeployMetricsDaily b).
Definition ReadRepositoryIdentityWithRowLimit (limit : Z) : reader := read scan_RepositoryIdentityRow false (Readers.ReadRepositoryIdentityWithRowLimit limit).
Definition ReadWorkItemIdentityWithRowLimit (limit : Z) : reader := read scan_WorkItemIdentityRow false (Readers.ReadWorkItemIdentityWithRowLimit limit).
Definition ReadRepositoryIDsWithRowLimit (limit : Z) : reader := read scan_RepositoryIDRow false (Readers.ReadRepositoryIDsWithRowLimit limit).
Definition ReadWorkItemRepositoryWithRowLimit (limit : Z) : reader := read scan_WorkItemRepositoryRow false (Readers.ReadWorkItemRepositoryWithRowLimit limit).
Definition ReadIncidents (b : TimeBound) : reader := read scan_IncidentRow false (Readers.ReadIncidents b).
Definition ReadProjectThemeMixWithRowLimit (b : TimeBound) (limit : Z) : reader := read scan_ProjectThemeMixRow false (Readers.ReadProjectThemeMixWithRowLimit b limit).
Definition ReadTeamThemeMix (b : TimeBound) : reader := read scan_TeamThemeMixRow false (Readers.ReadTeamThemeMix b).
Definition ReadRepositoryMetrics (b : TimeBound) : reader := read scan_RepositoryMetricsRow true (Readers.ReadRepositoryMetrics b).
Definition ReadTeamMetrics (b : TimeBound) : reader := read scan_TeamMetricsRow true (Readers.ReadTeamMetrics b).
Definition ReadProjectMetricsBreakdown (b : TimeBound) : reader := read scan_ProjectTeamMetricsRow true (Readers.ReadProjectMetricsBreakdown b).
Definition ReadPullRequestState (b : TimeBound) : reader := read scan_PullRequestStateRow false (Readers.ReadPullRequestState b).
Definition ReadPullRequestReviews (b : TimeBound) : reader := read scan_PullRequestReviewRow false (Readers.ReadPullRequestReviews b).
Definition ReadTeamReadiness (b : TimeBound) : reader := read scan_ReadinessCoverageRow false (Readers.ReadTeamReadiness b).
Definition ReadProjectReadiness (b : TimeBound) : reader := read scan_ReadinessProjectRow false (Readers.ReadProjectReadiness b).
Definition ReadSourceHealth (b : TimeBound) : reader := read scan_SourceHealthRow false (Readers.ReadSourceHealth b).
Definition ReadWorkItemStatusWithScopeAndRowLimit (scope : AuthorizationScope) (settings : Settings) (limit : Z) : reader := read scan_WorkItemStatusRow false
    (Readers.ReadWorkItemStatusWithScopeAndRowLimit ToLower scope settings limit).
Definition ReadWorkItemTitleWithScopeAndRowLimit (scope : AuthorizationScope) (settings : Settings) (limit : Z) : reader := read scan_WorkItemTitleRow false
    (Readers.ReadWorkItemTitleWithScopeAndRowLimit ToLower scope settings limit).
Definition ReadWorkItemCompletionWithScopeAndRowLimit (b : TimeBound) (scope : AuthorizationScope) (settings : Settings) (limit : Z) : reader := read scan_WorkItemCompletionRow
    false (Readers.ReadWorkItemCompletionWithScopeAndRowLimit ToLower b scope settings limit).
Definition ReadTeamWorkload (b : TimeBound) : reader := read scan_WorkloadForecastRow false (Readers.ReadTeamWorkload b).
Definition ReadProjectWorkload (b : TimeBound) : reader := read scan_WorkloadProjectRow false (Readers.ReadProjectWorkload b).
Definition ReadTeamCompletionForecastsWithRowLimit (b : TimeBound) (limit : Z) : reader := read scan_CompletionForecastRow false (Readers.ReadTeamCompletionForecastsWithRowLimit
    b limit).

(** * What a reader returns *)

(** The rows [r] gives, to its end or to the first error. *)
Inductive delivers (ts : list gotype) : R -> list (values ts) -> option error -> R -> Prop :=
| del_end r r1 : Next (V := values ts) r = (false, r1) -> delivers ts r [] (Err_ (V := values ts) r1) r1
| del_fail r r1 r2 e : Next (V := values ts) r = (true, r1) -> Scan (V := values ts) r1 = (Err e, r2) -> delivers ts r [] (Some e) r2
| del_row r r1 r2 v vs e r3 : Next (V := values ts) r = (true, r1) -> Scan (V := values ts) r1 = (Ok v, r2) -> delivers ts r2 vs e r3 -> delivers ts r (v :: vs) e r3.

Lemma read_rows_delivers {Row} (s : scan Row) r vs e r1 : delivers (dests s) r vs e r1 -> forall fuel rows, length vs < fuel ->
  read_rows (V := values (dests s)) (each s) fuel r rows = Some (e, r1, rows ++ map (row s) vs).
Proof.
  induction 1 as [r r1 E | r r1 r2 e E Es | r r1 r2 v vs e r3 E Es H IH]; intros fuel rows Hf; (destruct fuel as [|fuel]; [lia|]); cbn [read_rows]; rewrite E.
  - cbn. rewrite app_nil_r. reflexivity.
  - unfold each. rewrite Es. cbn. rewrite app_nil_r. reflexivity.
  - unfold each at 1. rewrite Es. rewrite IH by (cbn in Hf; lia). cbn [map]. rewrite <-app_assoc. reflexivity.
Qed.

(** C23: what every reader returns. Without ids, where the reader asks for some, no row and no query.
    Without a client, or when the query fails, that error and no row. Otherwise, the rows that the driver's
    values make, each in its order; after an error of a Scan or of the iteration, that error, with no row, or
    for the readers of metrics.go with the rows before it. *)
Theorem read_exact {Row} (s : scan Row) keep c fuel client orgID ids :
  let bindings := scoped_bindings orgID ids (extra c) in
  let out := read s keep c fuel client orgID ids in
  (skip_empty c = true -> ids = [] -> out = Some ([], None)) /\
  (skip_empty c = false \/ ids <> [] ->
    match client with
    | None => out = Some ([], Some ErrQueryClientRequired)
    | Some query => match query (statement c) bindings with
        | Err e => out = Some ([], Some (ErrQuery e))
        | Ok r => forall vs e r1, delivers (dests s) r vs e r1 -> length vs < fuel ->
            out = Some (match e with
                        | None => (map (row s) vs, None)
                        | Some e => (if keep then map (row s) vs else [], Some (ErrQuery e))
                        end)
        end
    end).
Proof.
  cbv zeta. split.
  - intros E ->. unfold read. rewrite E. reflexivity.
  - intros H. assert (E : skip_empty c && match ids with [] => true | _ => false end = false).
    { destruct H as [-> | H]; [reflexivity|]. destruct ids; [congruence|]. apply andb_false_r. }
    unfold read. rewrite E. unfold QueryOrgScopedNamed. destruct client as [query|]; [|destruct keep; reflexivity].
    destruct (query (statement c) (scoped_bindings orgID ids (extra c))) as [r|x]; [|destruct keep; reflexivity].
    intros vs e r1 Hd Hf. rewrite (read_rows_delivers s r vs e r1 Hd) by exact Hf. cbn. destruct e; reflexivity.
Qed.
End Rows.

(** ** A sample: a driver over text and numbers, that refuses a destination of another type *)

Inductive cell := CText (s : string) | CNumber (z : Z).
Fixpoint cells {F} (ts : list gotype) (row : list cell) : option (values (F := F) ts) :=
  match ts, row with
  | [], [] => Some tt
  | GString :: ts, CText s :: row => option_map (pair s) (cells ts row)
  | (GUint8 | GUint32 | GUint64 | GInt64) as t :: ts, CNumber z :: row =>
      match t return option (values (t :: ts)) with
      | GUint8 | GUint32 | GUint64 | GInt64 => option_map (pair z) (cells ts row)
      | _ => None
      end
  | _, _ => None
  end.
#[global] Instance cell_scanner {F} ts : RowScanner (list cell * list (list cell)) (values (F := F) ts) := {
  Next r := match r.2 with [] => (false, r) | x :: l => (true, (x, l)) end;
  Scan r := (match cells ts r.1 with Some v => Ok v | None => Err (ErrDriver (mkCause "*proto.Error" "converting" None)) end, r);
  Err_ r := None;
  Close r := (None, r) }.

Example incidents_read :
  let read rows := ReadIncidents (F := unit) (mkBound false false (mkTime 0 None) (mkTime 0 None)) 9 (Some (fun _ _ => Ok ([], rows))) "org-1" ["i1"] in
  let sev := CText "sev1" in
  (read [[CText "i1"; CText "open"; sev]; [CText "i2"; CText "closed"; sev]],
   option_map (fun out => (out.1, bool_decide (out.2 = None))) (read [[CText "i1"; CText "open"; sev]; [CText "i2"; CNumber 3; sev]]))
  = (Some ([mkIncidentRow "i1" "open" "sev1"; mkIncidentRow "i2" "closed" "sev1"], None), Some ([], false)).
Proof. vm_compute. reflexivity. Qed.
End ReadRows.
