(* ===== verification/GoRegexp.v ===== *)
(** regexp's search as src/llm/errors.go uses it: the leftmost match, the first one that backtracking would
    find (Go's documented rule for regexp.MustCompile), with one group, and ReplaceAllStringFunc. A text is
    read rune by rune; a byte that begins no rune is U+FFFD of width 1. *)
From S2P Require Import Prelude Utf8.

Module GoRegexp.
Import Utf8.

(** * Texts *)

(** A rune with the bytes it was read from. *)
Definition chunk : Type := (N * string)%type.
Fixpoint runes_ (fuel : nat) (s : string) : list chunk :=
  match fuel, s with
  | S fuel, String _ _ => let '(r, w) := DecodeRune s in (r, take w s) :: runes_ fuel (drop w s)
  | _, _ => []
  end.
Definition runes (s : string) : list chunk := runes_ (String.length s) s.
Definition bytes (l : list chunk) : string := String.concat "" (map snd l).

(** * Patterns *)

(** \b is [Edge]; x+ is one [Rune] and [Many]; a Group is the pattern's only one. *)
Inductive pat :=
| Eps
| Rune (p : N -> bool)
| Seq (a b : pat)
| Alt (a b : pat)
| Many (p : N -> bool)
| Group (a : pat)
| Edge.

(** A word character of \b: ASCII only. *)
Definition is_word (r : N) : bool := (48 <=? r)%N && (r <=? 57)%N || (65 <=? r)%N && (r <=? 90)%N || (97 <=? r)%N && (r <=? 122)%N || (r =? 95)%N.
Definition word_at (o : option chunk) : bool := match o with Some c => is_word c.1 | None => false end.
Definition at_edge (before : option chunk) (s : list chunk) : bool := negb (Bool.eqb (word_at before) (word_at (head s))).

(** The last chunk of [l], or the one before it. *)
Definition last_of (before : option chunk) (l : list chunk) : option chunk := match last l with Some c => Some c | None => before end.

Section Run.
Context {X : Type}.
(** x*, as long as it can be. *)
Fixpoint many (p : N -> bool) (before : option chunk) (s : list chunk) (k : option chunk -> list chunk -> option X) : option X :=
  match s with
  | c :: s' => if p c.1 then match many p (Some c) s' k with Some x => Some x | None => k before s end else k before s
  | [] => k before s
  end.
End Run.

(** Where group 1 lies: the lengths of what is left at its ends. *)
Definition group : Type := option (nat * nat).
Fixpoint run {X} (a : pat) (before : option chunk) (s : list chunk) (g : group) (k : option chunk -> list chunk -> group -> option X) : option X :=
  match a with
  | Eps => k before s g
  | Rune p => match s with c :: s => if p c.1 then k (Some c) s g else None | [] => None end
  | Seq a b => run a before s g (fun before s g => run b before s g k)
  | Alt a b => match run a before s g k with Some x => Some x | None => run b before s g k end
  | Many p => many p before s (fun before s => k before s g)
  | Group a => run a before s g (fun before s' _ => k before s' (Some (length s, length s')))
  | Edge => if at_edge before s then k before s g else None
  end.

(** A match at the head of the text: what is left, and the group. *)
Definition match_here (a : pat) (before : option chunk) (s : list chunk) : option (option chunk * list chunk * group) :=
  run a before s None (fun before s g => Some (before, s, g)).

Record found := mkFound { skipped : list chunk; matched : list chunk; group1 : option (list chunk); rest : list chunk; rest_before : option chunk }.
Definition sub (s : list chunk) (from to : nat) : list chunk := list.take (from - to) (list.drop (length s - from) s).
Fixpoint find (a : pat) (before : option chunk) (s : list chunk) : option found :=
  match match_here a before s with
  | Some (b, r, g) => Some (mkFound [] (sub s (length s) (length r)) (option_map (fun '(i, j) => sub s i j) g) r b)
  | None =>
      match s with
      | [] => None
      | c :: s => match find a (Some c) s with Some f => Some (mkFound (c :: skipped f) (matched f) (group1 f) (rest f) (rest_before f)) | None => None end
      end
  end.

(** ReplaceAllStringFunc, for a pattern whose matches are not empty. *)
Fixpoint replace (fuel : nat) (a : pat) (repl : string -> string) (before : option chunk) (s : list chunk) : string :=
  match fuel with
  | 0 => bytes s
  | S fuel =>
      match find a before s with
      | None => bytes s
      | Some f => bytes (skipped f) +:+ repl (bytes (matched f)) +:+ replace fuel a repl (rest_before f) (rest f)
      end
  end.
Definition ReplaceAllStringFunc (a : pat) (src : string) (repl : string -> string) : string := replace (String.length src) a repl None (runes src).

(** FindStringSubmatch: the text of group 1 of the first match, None without a match, "" without a group. *)
Definition FindStringSubmatch (a : pat) (s : string) : option string :=
  option_map (fun f => match group1 f with Some l => bytes l | None => "" end) (find a None (runes s)).

(** ** Abbreviations of the syntax *)

Definition Opt (a : pat) : pat := Alt a Eps.
Definition Plus (p : N -> bool) : pat := Seq (Rune p) (Many p).
Fixpoint exactly (n : nat) (a : pat) : pat := match n with 0 => Eps | S n => Seq a (exactly n a) end.
Definition at_least (n : nat) (p : N -> bool) : pat := Seq (exactly n (Rune p)) (Many p).
Definition among (s : string) (r : N) : bool := existsb (fun c => (code c =? r)%N) (chars s).
Definition span (lo hi : ascii) (r : N) : bool := (code lo <=? r)%N && (r <=? code hi)%N.
Definition alnum (r : N) : bool := span "A" "Z" r || span "a" "z" r || span "0" "9" r.
Definition space (r : N) : bool := existsb (N.eqb r) [9; 10; 12; 13; 32]%N.
(** (?i): a class with the simple foldings of its ASCII letters, U+017F of s and U+212A of k among them. *)
Definition fold (p : N -> bool) (r : N) : bool :=
  p r || (span "A" "Z" r && p (r + 32)%N) || (span "a" "z" r && p (r - 32)%N)
  || ((r =? 383)%N && (p (code "s") || p (code "S"))) || ((r =? 8490)%N && (p (code "k") || p (code "K"))).
Fixpoint literal (on : (N -> bool) -> N -> bool) (s : string) : pat :=
  match s with EmptyString => Eps | String c s => Seq (Rune (on (N.eqb (code c)))) (literal on s) end.
Definition one_of (on : (N -> bool) -> N -> bool) (l : list string) : pat :=
  match l with [] => Rune (fun _ => false) | s :: l => fold_left (fun a s => Alt a (literal on s)) l (literal on s) end.

(** * What a search finds *)

(** The language of a pattern in its surroundings: [b] before the text [s], and what is left of both. *)
Inductive Matches : pat -> option chunk -> list chunk -> option chunk -> list chunk -> Prop :=
| M_eps b s : Matches Eps b s b s
| M_rune (p : N -> bool) b c s : p c.1 = true -> Matches (Rune p) b (c :: s) (Some c) s
| M_seq x y b s b1 s1 b2 s2 : Matches x b s b1 s1 -> Matches y b1 s1 b2 s2 -> Matches (Seq x y) b s b2 s2
| M_alt_l x y b s b1 s1 : Matches x b s b1 s1 -> Matches (Alt x y) b s b1 s1
| M_alt_r x y b s b1 s1 : Matches y b s b1 s1 -> Matches (Alt x y) b s b1 s1
| M_many_nil p b s : Matches (Many p) b s b s
| M_many_cons (p : N -> bool) b c s b1 s1 : p c.1 = true -> Matches (Many p) (Some c) s b1 s1 -> Matches (Many p) b (c :: s) b1 s1
| M_group x b s b1 s1 : Matches x b s b1 s1 -> Matches (Group x) b s b1 s1
| M_edge b s : at_edge b s = true -> Matches Edge b s b s.
#[local] Hint Constructors Matches : core.

Section Found.
Context {X : Type}.

Lemma many_sound (p : N -> bool) s : forall b (k : option chunk -> list chunk -> option X) x,
  many p b s k = Some x -> exists b1 s1, Matches (Many p) b s b1 s1 /\ k b1 s1 = Some x.
Proof.
  induction s as [|c s IH]; intros b k x; cbn [many]; [eauto|]. destruct (p c.1) eqn:Ep; [|eauto].
  destruct (many p (Some c) s k) as [y|] eqn:Em; [|eauto]. intros [= <-]. destruct (IH _ _ _ Em) as (b1 & s1 & H & Hk). eauto.
Qed.
Lemma many_cons (p : N -> bool) b c s (k : option chunk -> list chunk -> option X) : p c.1 = true ->
  many p b (c :: s) k = match many p (Some c) s k with Some x => Some x | None => k b (c :: s) end.
Proof. intros E. simpl. rewrite E. reflexivity. Qed.
Lemma many_complete (p : N -> bool) b s b1 s1 (k : option chunk -> list chunk -> option X) :
  Matches (Many p) b s b1 s1 -> k b1 s1 <> None -> many p b s k <> None.
Proof.
  intros H Hk. remember (Many p) as a eqn:Ea.
  assert (Hc : match a with Many q => q = p | _ => False end) by (rewrite Ea; reflexivity). clear Ea.
  induction H as [| | | | | q b s | q b c s b1 s1 Hq H IH | |]; try contradiction; subst q.
  - destruct s as [|c s]; cbn [many]; [exact Hk|]. destruct (p c.1); [|exact Hk]. destruct (many p (Some c) s k); [discriminate | exact Hk].
  - rewrite many_cons by exact Hq. specialize (IH Hk eq_refl). destruct (many p (Some c) s k); [discriminate | congruence].
Qed.

Lemma run_sound a : forall b s g (k : option chunk -> list chunk -> group -> option X) x,
  run a b s g k = Some x -> exists b1 s1 g1, Matches a b s b1 s1 /\ k b1 s1 g1 = Some x.
Proof.
  induction a as [|p|a1 IH1 a2 IH2|a1 IH1 a2 IH2|p|a IH|]; intros b s g k x; cbn [run].
  - eauto 6.
  - destruct s as [|c s]; [discriminate|]. destruct (p c.1) eqn:Ep; [|discriminate]. eauto 6.
  - intros H. apply IH1 in H as (b1 & s1 & g1 & H1 & H). apply IH2 in H as (b2 & s2 & g2 & H2 & H). eauto 8.
  - destruct (run a1 b s g k) as [y|] eqn:E.
    + intros [= <-]. apply IH1 in E as (b1 & s1 & g1 & H1 & H). eauto 8.
    + intros H. apply IH2 in H as (b1 & s1 & g1 & H1 & H). eauto 8.
  - intros H. apply many_sound in H as (b1 & s1 & H & Hk). eauto 8.
  - intros H. apply IH in H as (b1 & s1 & g1 & H & Hk). eauto 8.
  - destruct (at_edge b s) eqn:E; [|discriminate]. eauto 8.
Qed.
Lemma run_complete a b s b1 s1 : Matches a b s b1 s1 ->
  forall g (k : option chunk -> list chunk -> group -> option X), (forall g, k b1 s1 g <> None) -> run a b s g k <> None.
Proof.
  induction 1 as [| ? ? ? ? Hp | ? ? ? ? ? ? ? ? H1 IH1 H2 IH2 | ? ? ? ? ? ? H IH | ? ? ? ? ? ? H IH | | p b c s b1 s1 Hp H IH | ? ? ? ? ? H IH | ? ? E];
    intros g k Hk; cbn [run].
  - apply Hk.
  - rewrite Hp. apply Hk.
  - apply IH1. intros g1. apply IH2. exact Hk.
  - specialize (IH g k Hk). destruct (run x b s g k); [discriminate | congruence].
  - specialize (IH g k Hk). destruct (run x b s g k); [discriminate | exact IH].
  - eapply many_complete; [apply M_many_nil | apply Hk].
  - eapply many_complete; [exact (M_many_cons _ _ _ _ _ _ Hp H) | apply Hk].
  - apply IH. intros g1. apply Hk.
  - rewrite E. apply Hk.
Qed.
End Found.

Lemma match_here_sound a b s b1 s1 g : match_here a b s = Some (b1, s1, g) -> Matches a b s b1 s1.
Proof. unfold match_here. intros H. apply run_sound in H as (b2 & s2 & g2 & H & [= <- <- <-]). exact H. Qed.
Lemma match_here_none a b s b1 s1 : match_here a b s = None -> ~ Matches a b s b1 s1.
Proof. unfold match_here. intros E H. revert E. eapply run_complete; [exact H|]. discriminate. Qed.

Lemma seq_inv x y b s b2 s2 : Matches (Seq x y) b s b2 s2 -> exists b1 s1, Matches x b s b1 s1 /\ Matches y b1 s1 b2 s2.
Proof. intros H. inversion H; subst. eauto. Qed.
Lemma edge_inv b s b1 s1 : Matches Edge b s b1 s1 -> b1 = b /\ s1 = s /\ at_edge b s = true.
Proof. intros H. inversion H; subst. auto. Qed.

Lemma last_of_cons b c l : last_of b (c :: l) = last_of (Some c) l.
Proof. unfold last_of. destruct l as [|d l]; [reflexivity|]. change (last (c :: d :: l)) with (last (d :: l)). destruct (last (d :: l)) eqn:E; [reflexivity|]. apply last_None in E. discriminate. Qed.

Lemma last_of_app b l k : last_of b (l ++ k) = last_of (last_of b l) k.
Proof. revert b. induction l as [|c l IH]; intros b; [reflexivity|]. cbn [app]. rewrite !last_of_cons. apply IH. Qed.

(** What a match takes is a prefix of the text, with its last chunk before what is left. *)
Lemma Matches_prefix a b s b1 s1 : Matches a b s b1 s1 -> exists m, s = m ++ s1 /\ b1 = last_of b m.
Proof.
  induction 1 as [| | x y b s b1 s1 b2 s2 H1 IH1 H2 IH2 | | | | p b c s b1 s1 Hp H IH | |]; try (exists []; split; reflexivity); eauto.
  - exists [c]. split; reflexivity.
  - destruct IH1 as (m1 & E1 & F1), IH2 as (m2 & E2 & F2). subst. exists (m1 ++ m2). rewrite <-app_assoc. split; [reflexivity|]. symmetry. apply last_of_app.
  - destruct IH as (m & E & F). subst. exists (c :: m). rewrite last_of_cons. split; reflexivity.
Qed.

Lemma sub_prefix m s : sub (m ++ s) (length (m ++ s)) (length s) = m.
Proof. unfold sub. rewrite Nat.sub_diag, length_app, Nat.add_sub. apply take_app_length. Qed.

(** find gives the leftmost match: none begins in what it skipped. *)
Lemma leftmost_found a s : forall b f, find a b s = Some f ->
  s = skipped f ++ matched f ++ rest f /\ rest_before f = last_of (last_of b (skipped f)) (matched f) /\
  Matches a (last_of b (skipped f)) (matched f ++ rest f) (rest_before f) (rest f) /\
  (forall u v b1 s1, skipped f = u ++ v -> v <> [] -> ~ Matches a (last_of b u) (v ++ matched f ++ rest f) b1 s1).
Proof.
  induction s as [|c s IH]; intros b f; cbn [find].
  - destruct (match_here a b []) as [[[b1 r] g]|] eqn:E; [|discriminate]. intros [= <-]. cbn [skipped matched rest rest_before app].
    apply match_here_sound in E. pose proof (Matches_prefix _ _ _ _ _ E) as (m & Em & ->). symmetry in Em. apply app_eq_nil in Em as [-> ->].
    split; [reflexivity|]. split; [reflexivity|]. split; [exact E|]. intros u v b1 s1 Hu Hv. symmetry in Hu. apply app_eq_nil in Hu as [_ ->]. congruence.
  - destruct (match_here a b (c :: s)) as [[[b1 r] g]|] eqn:E.
    + intros [= <-]. cbn [skipped matched rest rest_before app]. apply match_here_sound in E. pose proof (Matches_prefix _ _ _ _ _ E) as (m & Em & ->). rewrite Em in *.
      change (S (length s)) with (length (c :: s)). rewrite Em, sub_prefix. split; [reflexivity|]. split; [reflexivity|]. split; [exact E|].
      intros u v b1 s1 Hu Hv. symmetry in Hu. apply app_eq_nil in Hu as [_ ->]. congruence.
    + destruct (find a (Some c) s) as [f0|] eqn:Ef; [|discriminate]. intros [= <-]. cbn [skipped matched rest rest_before app].
      destruct (IH _ _ Ef) as (-> & Hb & Hm & Hn). rewrite last_of_cons. split; [reflexivity|]. split; [exact Hb|]. split; [exact Hm|].
      intros u v b1 s1 Hu Hv. destruct u as [|c' u].
      * cbn in Hu. subst v. cbn [app]. exact (match_here_none _ _ _ _ _ E).
      * injection Hu as <- Hu. rewrite last_of_cons. exact (Hn u v b1 s1 Hu Hv).
Qed.
Lemma leftmost_none a s : forall b, find a b s = None -> forall u v b1 s1, s = u ++ v -> ~ Matches a (last_of b u) v b1 s1.
Proof.
  induction s as [|c s IH]; intros b; cbn [find].
  - destruct (match_here a b []) as [[[? ?] ?]|] eqn:E; [discriminate|]. intros _ u v b1 s1 Hu. symmetry in Hu. apply app_eq_nil in Hu as [-> ->].
    exact (match_here_none _ _ _ _ _ E).
  - destruct (match_here a b (c :: s)) as [[[? ?] ?]|] eqn:E; [discriminate|]. destruct (find a (Some c) s) eqn:Ef; [discriminate|]. intros _ u v b1 s1 Hu.
    destruct u as [|c' u]; [cbn in Hu; subst v; exact (match_here_none _ _ _ _ _ E)|]. injection Hu as <- Hu. rewrite last_of_cons. exact (IH _ Ef u v b1 s1 Hu).
Qed.

(** The group is part of the text. *)
Lemma find_group_forall (Q : chunk -> Prop) a s : Forall Q s -> forall b f l, find a b s = Some f -> group1 f = Some l -> Forall Q l.
Proof.
  intros Hs. assert (Hsub : forall i j, Forall Q (sub s i j)) by (intros i j; apply Forall_take, Forall_drop; exact Hs). revert Hs Hsub.
  induction s as [|c s IH]; intros Hs Hsub b f l; cbn [find].
  - destruct (match_here a b []) as [[[b1 r] g]|]; [|discriminate]. intros [= <-]. cbn [group1]. destruct g as [[i j]|]; [|discriminate]. intros [= <-]. apply Hsub.
  - destruct (match_here a b (c :: s)) as [[[b1 r] g]|].
    + intros [= <-]. cbn [group1]. destruct g as [[i j]|]; [|discriminate]. intros [= <-]. apply Hsub.
    + destruct (find a (Some c) s) as [f0|] eqn:Ef; [|discriminate]. intros [= <-]. cbn [group1]. apply Forall_cons in Hs as [_ Hs].
      apply (IH Hs (fun i j => Forall_take _ _ _ (Forall_drop _ _ _ Hs)) _ _ _ Ef).
Qed.

(** A pattern without a group leaves none. *)
Fixpoint groupless (a : pat) : bool :=
  match a with Seq x y | Alt x y => groupless x && groupless y | Group _ => false | _ => true end.
Lemma run_groupless {X} a : forall b s g (k : option chunk -> list chunk -> group -> option X) x,
  groupless a = true -> run a b s g k = Some x -> exists b1 s1, k b1 s1 g = Some x.
Proof.
  induction a as [|p|a1 IH1 a2 IH2|a1 IH1 a2 IH2|p|a IH|]; intros b s g k x; cbn [run groupless]; intros Hg.
  - eauto.
  - destruct s as [|c s]; [discriminate|]. destruct (p c.1); [eauto | discriminate].
  - apply andb_true_iff in Hg as [H1 H2]. intros H. apply IH1 in H as (b1 & s1 & H); [|exact H1]. eapply IH2; [exact H2 | exact H].
  - apply andb_true_iff in Hg as [H1 H2]. destruct (run a1 b s g k) as [y|] eqn:E; [intros [= <-]; eapply IH1; [exact H1 | exact E] | apply IH2; exact H2].
  - intros H. apply many_sound in H as (b1 & s1 & _ & H). eauto.
  - discriminate.
  - destruct (at_edge b s); [eauto | discriminate].
Qed.
Lemma find_groupless a s : groupless a = true -> forall b f, find a b s = Some f -> group1 f = None.
Proof.
  intros Ha. assert (Hm : forall b s b1 r g, match_here a b s = Some (b1, r, g) -> g = None).
  { intros b s' b1 r g H. unfold match_here in H. apply run_groupless in H as (b2 & s2 & [= _ _ <-]); [reflexivity | exact Ha]. }
  induction s as [|c s IH]; intros b f; cbn [find].
  - destruct (match_here a b []) as [[[b1 r] g]|] eqn:E; [|discriminate]. intros [= <-]. apply Hm in E as ->. reflexivity.
  - destruct (match_here a b (c :: s)) as [[[b1 r] g]|] eqn:E; [intros [= <-]; apply Hm in E as ->; reflexivity|].
    destruct (find a (Some c) s) as [f0|] eqn:Ef; [|discriminate]. intros [= <-]. exact (IH _ _ Ef).
Qed.

(** ** Texts and their runes *)

Lemma bytes_app l k : bytes (l ++ k) = bytes l +:+ bytes k.
Proof.
  unfold bytes. induction l as [|c l IH]; [reflexivity|]. cbn [map app]. destruct l as [|d l]; cbn [map app] in *.
  - destruct k as [|e k]; cbn [map String.concat]; [rewrite str_app_nil_r; reflexivity|]. reflexivity.
  - change (String.concat "" (c.2 :: d.2 :: map snd (l ++ k))) with (c.2 +:+ "" +:+ String.concat "" (d.2 :: map snd (l ++ k))).
    change (String.concat "" (c.2 :: d.2 :: map snd l)) with (c.2 +:+ "" +:+ String.concat "" (d.2 :: map snd l)). rewrite !str_app_nil, IH, str_app_assoc. reflexivity.
Qed.
Lemma bytes_cons c l : bytes (c :: l) = c.2 +:+ bytes l.
Proof. change (c :: l) with ([c] ++ l). rewrite bytes_app. reflexivity. Qed.

Lemma runes_bytes_fuel fuel s : String.length s <= fuel -> bytes (runes_ fuel s) = s.
Proof.
  revert s. induction fuel as [|fuel IH]; intros [|c s] Hl; cbn [String.length] in Hl; try reflexivity; [lia|]. cbn [runes_].
  pose proof (decode_width (String c s) ltac:(discriminate)) as Hw. destruct (DecodeRune (String c s)) as [r w]. cbn [snd] in Hw.
  rewrite bytes_cons. cbn [snd]. rewrite IH; [apply take_drop|]. rewrite length_drop. cbn [String.length]. lia.
Qed.
Lemma runes_bytes s : bytes (runes s) = s.
Proof. apply runes_bytes_fuel. reflexivity. Qed.
Lemma Forall_bytes (P : ascii -> Prop) l : Forall P (chars (bytes l)) <-> Forall (fun c => Forall P (chars c.2)) l.
Proof.
  induction l as [|c l IH]; [split; intros; constructor|]. rewrite bytes_cons, chars_app, Forall_app, Forall_cons, IH. reflexivity.
Qed.
End GoRegexp.
