(* ===== verification/LlmErrors.v ===== *)
(** The failures of src/llm: errors.go (classes, classification, the delays before a retry) and the
    transport failures of transport.go. float64 is the standard library's SpecFloat; what Go makes of a
    float that is no int64 is an argument, as are the Unicode table, url.Parse and the two readers of a
    Retry-After value. LlmRedact.v has the text of an error. *)
From Stdlib Require Import SpecFloat.
From S2P Require Import Prelude Utf8 Json GoFormat PepCacheKey.

Module LlmErrors.
Import Utf8 GoFormat.

(** * strings.ToLower and strings.Contains *)

Definition ascii_lower (r : N) : N := if (65 <=? r)%N && (r <=? 90)%N then (r + 32)%N else r.

Section Lower.
Variable lower : N -> N.
(** unicode.ToLower: its ASCII half, and the table. *)
Definition rune_lower (r : N) : N := if (r <? 128)%N then ascii_lower r else lower r.
(** strings.Map writes each rune's image; a byte that begins no rune is U+FFFD. *)
Fixpoint map_runes (fuel : nat) (s : string) : string :=
  match fuel, s with
  | S fuel, String _ _ => let '(r, w) := DecodeRune s in EncodeRune (rune_lower r) +:+ map_runes fuel (drop w s)
  | _, _ => EmptyString
  end.
Definition ToLower (s : string) : string := map_runes (String.length s) s.
End Lower.

Fixpoint Contains (s sub : string) : bool :=
  match Json.after sub s with
  | Some _ => true
  | None => match s with String _ r => Contains r sub | EmptyString => false end
  end.
Definition containsAny (haystack : string) (needles : list string) : bool := existsb (Contains haystack) needles.

(** * Classes *)

Inductive ErrorClass :=
| ClassGeneric | ClassAuth | ClassModelNotFound | ClassInvalidRequest | ClassRateLimit | ClassContextLength
| ClassServer | ClassTimeout | ClassTransport | ClassOutput | ClassBatchTimeout.
#[global] Instance ErrorClass_eq_dec : EqDecision ErrorClass.
Proof. solve_decision. Defined.

Definition retryableClasses : list ErrorClass := [ClassRateLimit; ClassServer; ClassTimeout; ClassTransport; ClassOutput].

(** Provider is a Kind, which is a string; RetryAfter in nanoseconds; StatusCode is the cause's, 0 without
    one; of the cause itself, its Go type, "" without one. *)
Record Error := mkError { Class : ErrorClass; Provider : string; Model : string; RetryAfter : Z; StatusCode : Z; err_message : string; cause_type : string }.

Definition NewError (class : ErrorClass) (provider model message : string) : Error := mkError class provider model 0 0 message "".
Definition Retryable (e : Error) : bool := bool_decide (Class e ∈ retryableClasses).
Definition errSeedUnsupported (kind model : string) : Error := NewError ClassInvalidRequest kind model "LLM provider API takes no seed.".

(** * Failures before classification *)

(** A non-2xx response: its Retry-After header (absent or empty: "") and its body. *)
Record statusError := mkStatus { statusCode : Z; retryAfterHeader : string; responseBody : string }.

(** What a transport's error says of itself: it is context.Canceled, it is context.DeadlineExceeded, it has a
    Timeout method that holds; when it is a *url.Error, that error's operation and URL; and its text. *)
Record raw_error := mkRaw { is_canceled : bool; is_deadline : bool; times_out : bool; url_error : option (string * string); raw_text : string }.
Definition isTimeout (e : raw_error) : bool := is_deadline e || times_out e.

Inductive sentinel := NoSentinel | Canceled | DeadlineExceeded.
(** classifiedError over url.Error over safeTransportError. *)
Record transportFailure_ := mkTransport { t_text : string; t_op : string; t_target : string; s_text : string; s_timeout : bool; s_sentinel : sentinel }.

Section Transport.
(** url.Parse: the scheme and the host. *)
Variable Parse : string -> option (string * string).
Definition redactedURL (raw : string) : string :=
  match Parse raw with
  | None => "<redacted>"
  | Some (scheme, host) => if String.eqb host "" then "<redacted>" else scheme +:+ "://" +:+ host
  end.
Definition transportFailure (e : raw_error) : transportFailure_ :=
  let op := match url_error e with Some (op, _) => if String.eqb op "" then "exchange" else op | None => "exchange" end in
  let class := if is_canceled e then "canceled" else if isTimeout e then "timeout" else "failed" in
  let target := match url_error e with Some (_, u) => redactedURL u | None => "<redacted>" end in
  mkTransport (op +:+ " request " +:+ class) op target class (isTimeout e)
    (if is_canceled e then Canceled else if is_deadline e then DeadlineExceeded else NoSentinel).
End Transport.

(** isTimeout of the chain that transportFailure builds: url.Error's Timeout asks the error it holds. *)
Definition transport_timeout (t : transportFailure_) : bool :=
  match s_sentinel t with DeadlineExceeded => true | _ => false end || s_timeout t.

(** What one exchange fails with: a non-2xx response, no response, this package's own Error, or an error that
    is none of them (a request that cannot be built or encoded), with its text. *)
Inductive failure := FStatus (e : statusError) | FTransport (t : transportFailure_) | FTyped (e : Error) | FOther (text : string).

(** A 2xx body that decode refuses: every decode is json.Unmarshal, which fails with a SyntaxError for a text
    that is no JSON and with an UnmarshalTypeError for another. *)
Definition decodeFailure (raw : string) : Error :=
  mkError ClassGeneric "" "" 0 0 ("decode response: " +:+ match Json.parse_document false raw with None => "syntax" | Some _ => "type" end) "*llm.classifiedError".

(** * The delays *)

Definition Millisecond : Z := 1000000.
Definition Second : Z := (1000 * Millisecond)%Z.
Definition baseRetryDelay : Z := (500 * Millisecond)%Z.
Definition maxRetryDelay : Z := (30 * Second)%Z.

(** The shift wraps; a count of 64 or more gives 0. *)
Definition retryDelay (attempt : Z) : Z :=
  let delay := i64 (Z.shiftl baseRetryDelay (attempt mod two64)%Z) in
  if (maxRetryDelay <? delay)%Z || (delay <=? 0)%Z then maxRetryDelay else delay.

Definition delayFor (e : Error) (attempt : Z) : Z :=
  if bool_decide (Class e = ClassRateLimit) && (0 <? RetryAfter e)%Z then RetryAfter e else retryDelay attempt.

(** ** Retry-After *)

Definition of_int (n : Z) : spec_float := binary_normalize 53 1024 n 0 false.
Definition maxRetryAfterSecs : spec_float := of_int 60.

(** The built-in min and max on float64: NaN if either is, and -0 below +0. *)
Definition float_min (x y : spec_float) : spec_float :=
  match x, y with
  | S754_nan, _ | _, S754_nan => S754_nan
  | S754_zero s, S754_zero t => S754_zero (s || t)
  | _, _ => if SFltb y x then y else x
  end.
Definition float_max (x y : spec_float) : spec_float :=
  match x, y with
  | S754_nan, _ | _, S754_nan => S754_nan
  | S754_zero s, S754_zero t => S754_zero (s && t)
  | _, _ => if SFltb x y then y else x
  end.

Section RetryAfter.
(** The seconds that a value names, as a float (strconv.ParseFloat) or as a date (http.ParseTime and
    time.Until); int64 of a float that no int64 is near. *)
Variable ParseFloat : string -> option spec_float.
Variable until_date : string -> option spec_float.
Variable unrepresentable : spec_float -> Z.

Definition truncate (f : spec_float) : Z :=
  match f with
  | S754_zero _ => 0
  | S754_finite s m e =>
      let n := ((if s then -1 else 1) * Z.shiftl (Z.pos m) e)%Z in
      if (min_int64 <=? n)%Z && (n <=? max_int64)%Z then n else unrepresentable f
  | _ => unrepresentable f
  end.

Definition clamp (seconds : spec_float) : Z :=
  let seconds := float_max (S754_zero false) (float_min seconds maxRetryAfterSecs) in
  truncate (SFmul 53 1024 seconds (of_int Second)).

Definition retryAfterFromHeader (raw : string) : Z :=
  if String.eqb raw "" then 0
  else match ParseFloat raw with
  | Some seconds => clamp seconds
  | None => match until_date raw with None => 0 | Some seconds => clamp seconds end
  end.
End RetryAfter.

(** * Classification *)

Section Classify.
Variable lower : N -> N.
Variables (ParseFloat until_date : string -> option spec_float) (unrepresentable : spec_float -> Z).
(** strconv.IsPrint, of %q. *)
Variable IsPrint : N -> bool.
Notation Quote := (CacheKey.Quote IsPrint).
Notation retryAfterFromHeader := (retryAfterFromHeader ParseFloat until_date unrepresentable).
Notation ToLower := (ToLower lower).

Definition quota_words : list string := ["insufficient_quota"; "current quota"].
Definition model_words : list string := ["model_not_found"; "model not found"; "model does not exist"].
Definition auth_words : list string := ["401"; "invalid_api_key"; "authentication"; "unauthorized"; "missing api key"; "api key missing"; "api_key is required"].
Definition rate_words : list string := ["429"; "rate_limit"; "rate limit"; "too many requests"].
Definition context_words : list string := ["context_length_exceeded"; "maximum context length"; "too many tokens"; "input too long"; "reduce your prompt"; "prompt is too long"].
Definition invalid_words : list string := ["unsupported parameter"; "unsupported value"; "invalid parameter"; "invalid_request_error"; "invalid request"].
Definition timeout_words : list string := ["timeout"; "timed out"].
Definition transport_words : list string := ["connection error"; "connection refused"; "network is unreachable"; "name or service not known"; "dns error"; "tls error"].
Definition server_words : list string := ["500"; "502"; "503"; "504"; "server error"; "internal error"].

(** The switch, over the status (0 without one) and the text in lower case: the class, and its message. *)
Definition ruling (provider model text : string) (statusCode : Z) (msgLower : string) : ErrorClass * string :=
  if containsAny msgLower quota_words then (ClassAuth, "LLM quota exhausted. Check provider billing/quota or use a different API key.")
  else if containsAny msgLower model_words
  then (ClassModelNotFound, "LLM model not found for provider " +:+ Quote provider +:+ " using configured model " +:+ Quote model +:+ ".")
  else if ((statusCode =? 402) || (statusCode =? 403))%Z then (ClassAuth, "LLM provider refused the API key for billing or permission.")
  else if (statusCode =? 404)%Z
  then (ClassModelNotFound, "LLM model or endpoint not found for provider " +:+ Quote provider +:+ " using configured model " +:+ Quote model +:+ ".")
  else if (statusCode =? 408)%Z then (ClassTimeout, "LLM provider request timed out.")
  else if (statusCode =? 413)%Z then (ClassInvalidRequest, "LLM provider rejected the request as too large.")
  else if containsAny msgLower auth_words then (ClassAuth, "Invalid or missing LLM API key.")
  else if (statusCode =? 429)%Z || containsAny msgLower rate_words then (ClassRateLimit, "Transient LLM rate limit from provider.")
  else if containsAny msgLower context_words then (ClassContextLength, "LLM prompt exceeds the model context window.")
  else if (statusCode =? 400)%Z || (statusCode =? 422)%Z || containsAny msgLower invalid_words
  then (ClassInvalidRequest, "LLM provider rejected an unsupported request parameter.")
  else if containsAny msgLower timeout_words then (ClassTimeout, "LLM provider request timed out.")
  else if containsAny msgLower transport_words then (ClassTransport, "LLM provider endpoint could not be reached.")
  else if (500 <=? statusCode)%Z || containsAny msgLower server_words then (ClassServer, "Transient LLM provider server error.")
  else (ClassGeneric, text).

(** statusError's Error, and the text that is searched: it and the response's body. *)
Definition status_error (s : statusError) : string := "http " +:+ FormatInt (statusCode s).
Definition status_text (s : statusError) : string := (status_error s +:+ " ") +:+ responseBody s.

Definition classify (err : failure) (provider model : string) : Error :=
  match err with
  | FTyped e => if String.eqb (Provider e) "" then mkError (Class e) provider model (RetryAfter e) (StatusCode e) (err_message e) (cause_type e) else e
  | FTransport t =>
      if transport_timeout t then mkError ClassTimeout provider model 0 0 "LLM provider request timed out." "*llm.transportError"
      else mkError ClassTransport provider model 0 0 "LLM provider endpoint could not be reached." "*llm.transportError"
  | FStatus s =>
      let '(class, message) := ruling provider model (status_error s) (statusCode s) (ToLower (status_text s)) in
      mkError class provider model (if bool_decide (class = ClassRateLimit) then retryAfterFromHeader (retryAfterHeader s) else 0) (statusCode s) message "*llm.statusError"
  | FOther text =>
      let '(class, message) := ruling provider model text 0 (ToLower (text +:+ " ")) in
      mkError class provider model 0 0 message "*errors.errorString"
  end.
End Classify.

Example classes : map (fun sb => Class (classify id (fun _ => None) (fun _ => None) (fun _ => 0%Z) (fun _ => true) (FStatus (mkStatus sb.1 "" sb.2)) "openai" "m"))
  [(429, "{insufficient_quota}"); (404, "{}"); (401, "{}"); (429, "{}"); (400, "CONTEXT_length_exceeded"); (422, "{}"); (529, "{}"); (408, "{}"); (413, "too many tokens")]%Z
  = [ClassAuth; ClassModelNotFound; ClassAuth; ClassRateLimit; ClassContextLength; ClassInvalidRequest; ClassServer; ClassTimeout; ClassInvalidRequest].
Proof. vm_compute. reflexivity. Qed.

(** A refused request is retried when its body holds the digits 429, in an identifier for one. *)
Example refused_and_retried :
  Retryable (classify id (fun _ => None) (fun _ => None) (fun _ => 0%Z) (fun _ => true) (FStatus (mkStatus 400 "" "{request_id: req_84291}")) "gemini" "m") = true.
Proof. vm_compute. reflexivity. Qed.

(** Retry-After: 60 at most, 0 at least; but a NaN passes both bounds. *)
Example retry_after : map (retryAfterFromHeader (fun raw => if String.eqb raw "NaN" then Some S754_nan else if String.eqb raw "2" then Some (of_int 2)
    else if String.eqb raw "86400" then Some (of_int 86400) else if String.eqb raw "-5" then Some (of_int (-5)) else None) (fun _ => None) (fun _ => min_int64))
  ["2"; "86400"; "-5"; "soon"; ""; "NaN"] = [2 * Second; 60 * Second; 0; 0; 0; min_int64]%Z.
Proof. vm_compute. reflexivity. Qed.

(** * What the classes say *)

Lemma after_app p s r t : Json.after p s = Some r -> Json.after p (s +:+ t) = Some (r +:+ t).
Proof.
  revert s. induction p as [|a p IH]; intros s; [intros [= ->]; reflexivity|]. destruct s as [|b s]; [discriminate|].
  rewrite str_app_cons. cbn [Json.after]. destruct (Ascii.eqb a b); [apply IH | discriminate].
Qed.

Lemma contains_app_l s t sub : Contains s sub = true -> Contains (s +:+ t) sub = true.
Proof.
  induction s as [|c s IH]; rewrite ?str_app_cons, ?str_app_nil; cbn [Contains].
  - destruct (Json.after sub "") as [r|] eqn:E; [|discriminate]. apply (after_app _ _ _ t) in E. rewrite str_app_nil in E. intros _.
    destruct t; cbn [Contains]; rewrite E; reflexivity.
  - destruct (Json.after sub (String c s)) as [r|] eqn:E; [apply (after_app _ _ _ t) in E; rewrite str_app_cons in E; rewrite E; reflexivity|].
    intros H. destruct (Json.after sub (String c (s +:+ t))); [reflexivity | apply IH, H].
Qed.

Lemma containsAny_app_l s t words : containsAny s words = true -> containsAny (s +:+ t) words = true.
Proof. unfold containsAny. rewrite !existsb_exists. intros (w & Hw & H). exists w. split; [exact Hw | apply contains_app_l, H]. Qed.

(** ASCII text is lowered byte by byte, whatever follows it. *)
Lemma encode_lower c : (code c < 128)%N -> EncodeRune (ascii_lower (code c)) = String (chr (ascii_lower (code c))) EmptyString.
Proof.
  intros H. assert (Hl : (ascii_lower (code c) < 128)%N) by (unfold ascii_lower; destruct (N.leb_spec 65 (code c)), (N.leb_spec (code c) 90); cbn [andb]; lia).
  unfold EncodeRune, ValidRune. rewrite (proj2 (N.ltb_lt _ 55296)) by lia. apply encode_ascii, Hl.
Qed.

Lemma ToLower_ascii lower p t :
  Forall (fun c => (code c < 128)%N) (chars p) -> ToLower lower (p +:+ t) = of_chars (map (fun c => chr (ascii_lower (code c))) (chars p)) +:+ ToLower lower t.
Proof.
  induction p as [|c p IH]; intros H; [reflexivity|]. cbn [chars] in H. apply Forall_cons in H as [Hc Hp]. rewrite str_app_cons. unfold ToLower. cbn [String.length map_runes].
  rewrite Utf8.decode_ascii by exact Hc. cbn [drop chars map of_chars]. rewrite str_app_cons. unfold rune_lower. destruct (N.ltb_spec (code c) 128); [|lia].
  fold (ToLower lower (p +:+ t)). rewrite IH by exact Hp. rewrite encode_lower by exact Hc. reflexivity.
Qed.

Section Classes.
Variable lower : N -> N.
Variables (ParseFloat until_date : string -> option spec_float) (unrepresentable : spec_float -> Z).
Variable IsPrint : N -> bool.
Notation classify := (classify lower ParseFloat until_date unrepresentable IsPrint).

(** The words of an unauthorized response are in the text whatever its body. *)
Lemma unauthorized_words body : containsAny (ToLower lower (status_text (mkStatus 401 "" body))) auth_words = true.
Proof.
  unfold status_text. cbn [statusCode responseBody]. change ("http " +:+ FormatInt 401) with "http 401". rewrite ToLower_ascii by (repeat constructor).
  apply containsAny_app_l. reflexivity.
Qed.

Lemma classify_status s provider model :
  let e := classify (FStatus s) provider model in
  Class e = (ruling IsPrint provider model (status_error s) (statusCode s) (ToLower lower (status_text s))).1 /\
  StatusCode e = statusCode s /\ Provider e = provider /\ Model e = model /\ (RetryAfter e <> 0%Z -> Class e = ClassRateLimit).
Proof.
  cbn. destruct (ruling IsPrint provider model (status_error s) (statusCode s) (ToLower lower (status_text s))) as [class message]. cbn.
  destruct (bool_decide_reflect (class = ClassRateLimit)); tauto.
Qed.

(** C16: what is sent again after a non-2xx response. With m the text of the status and the body in lower case: a
    response of 401, 402, 403, 404 or 413 is never sent again, whatever its body; 408 is, unless m speaks
    of a quota or an unknown model; 429 is, unless m also speaks of the key; 400 and 422 are exactly when m
    speaks of a rate limit and of none of those; a response of 500 or more is unless m speaks of those, or,
    with no rate limit, of the context length or an invalid request. The error keeps the status, names the
    provider and the model, and carries a delay only for a rate limit. *)
Theorem status_retried s provider model :
  let e := classify (FStatus s) provider model in
  let m := ToLower lower (status_text s) in
  let named := containsAny m quota_words || containsAny m model_words in
  let keyed := named || containsAny m auth_words in
  let rated := containsAny m rate_words in
  (statusCode s ∈ [401; 402; 403; 404; 413]%Z -> Retryable e = false) /\
  (statusCode s = 408%Z -> Retryable e = negb named) /\
  (statusCode s = 429%Z -> Retryable e = negb keyed) /\
  (statusCode s = 400%Z \/ statusCode s = 422%Z -> Retryable e = negb keyed && rated) /\
  ((500 <= statusCode s)%Z -> Retryable e = negb keyed && (rated || negb (containsAny m context_words || containsAny m invalid_words))) /\
  StatusCode e = statusCode s /\ Provider e = provider /\ Model e = model /\ (RetryAfter e <> 0%Z -> Class e = ClassRateLimit).
Proof.
  intros e m. cbv zeta. destruct (classify_status s provider model) as (Ec & Es & Ep & Em & Er). fold m e in Ec, Es, Ep, Em, Er.
  unfold Retryable. rewrite Ec, Es, Ep, Em.
  split; [|split; [|split; [|split; [|split]]]].
  6:{ split; [reflexivity|]. split; [reflexivity|]. split; [reflexivity|]. intros H. apply Er in H. rewrite <-Ec. exact H. }
  - intros Hc. rewrite !elem_of_cons, elem_of_nil in Hc. destruct Hc as [E|Hc].
    + assert (Ha : containsAny m auth_words = true).
      { subst m. destruct s as [code h b]. cbn [statusCode] in E. subst code. exact (unauthorized_words b). }
      unfold ruling. rewrite E, Ha. destruct (containsAny m quota_words), (containsAny m model_words); reflexivity.
    + unfold ruling. destruct Hc as [E|[E|[E|[E|[]]]]]; rewrite E; destruct (containsAny m quota_words), (containsAny m model_words); reflexivity.
  - intros E. unfold ruling. rewrite E. destruct (containsAny m quota_words), (containsAny m model_words); reflexivity.
  - intros E. unfold ruling. rewrite E. destruct (containsAny m quota_words), (containsAny m model_words), (containsAny m auth_words); reflexivity.
  - intros [E|E]; unfold ruling; rewrite E; destruct (containsAny m quota_words), (containsAny m model_words), (containsAny m auth_words), (containsAny m rate_words), (containsAny m context_words); reflexivity.
  - intros E. unfold ruling. rewrite !(proj2 (Z.eqb_neq (statusCode s) _)) by lia. cbn [orb]. rewrite (proj2 (Z.leb_le 500 _)) by exact E. cbn [orb].
    destruct (containsAny m quota_words), (containsAny m model_words), (containsAny m auth_words), (containsAny m rate_words), (containsAny m context_words),
      (containsAny m invalid_words), (containsAny m timeout_words), (containsAny m transport_words); reflexivity.
Qed.

(** A request without a response is retried, as a timeout or as a failure of the transport; one that this
    package could not decode, encode or build is not. *)
Lemma unanswered_retried t provider model : Retryable (classify (FTransport t) provider model) = true.
Proof. unfold classify, LlmErrors.classify. destruct (transport_timeout t); reflexivity. Qed.
Lemma undecoded_final raw provider model : Retryable (classify (FTyped (decodeFailure raw)) provider model) = false.
Proof. reflexivity. Qed.

(** The chain that replaces a transport's error times out exactly when it did. *)
Lemma transport_timeout_kept Parse e : transport_timeout (transportFailure Parse e) = isTimeout e.
Proof. unfold transport_timeout, transportFailure, isTimeout. cbn. destruct (is_canceled e), (is_deadline e), (times_out e); reflexivity. Qed.

End Classes.

(** * What the delays are *)

Lemma retryDelay_small : Forall (fun n => retryDelay (Z.of_nat n) = Z.min (baseRetryDelay * 2 ^ Z.of_nat n) maxRetryDelay) (seq 0 64).
Proof. repeat constructor; vm_compute; reflexivity. Qed.

(** The backoff doubles from half a second to 30 seconds, and never wraps. *)
Lemma retryDelay_exact attempt : (0 <= attempt < two64)%Z -> retryDelay attempt = Z.min (baseRetryDelay * 2 ^ attempt) maxRetryDelay.
Proof.
  intros Ha. destruct (Z.ltb_spec attempt 64) as [Hs|Hl].
  - pose proof retryDelay_small as H. rewrite Forall_forall in H. specialize (H (Z.to_nat attempt)). rewrite Z2Nat.id in H by lia. apply H. apply elem_of_seq. lia.
  - assert (E : i64 (Z.shiftl baseRetryDelay (attempt mod two64)) = 0%Z).
    { rewrite Z.mod_small by exact Ha. rewrite Z.shiftl_mul_pow2 by lia. replace attempt with ((attempt - 64) + 64)%Z by lia. rewrite Z.pow_add_r by lia.
      unfold i64. replace (_ + _)%Z with (2 ^ 63 + (baseRetryDelay * 2 ^ (attempt - 64)) * two64)%Z; [rewrite Z.mod_add by (vm_compute; discriminate); reflexivity|].
      unfold two64. change (2 ^ 64)%Z with 18446744073709551616%Z. lia. }
    unfold retryDelay. rewrite E. change ((maxRetryDelay <? 0)%Z || (0 <=? 0)%Z) with true. cbv iota. symmetry. apply Z.min_r.
    transitivity (baseRetryDelay * 2 ^ 64)%Z; [vm_compute; discriminate|]. apply Z.mul_le_mono_nonneg_l; [vm_compute; discriminate|]. apply Z.pow_le_mono_r; lia.
Qed.

End LlmErrors.
