(* ===== verification/Wellformed.v ===== *)
(** Well encoded texts and numerals: what encoding/json gives back of a string or a number it has read. A
    decoded string is a sequence of encoded runes, which the encoder leaves as it is; a number's text is lexed
    to itself wherever no character that could continue it follows. *)
From S2P Require Import Prelude Utf8 Json JsonEncode.

Module Wellformed.
Import Utf8 Json Encode.

Ltac Zify.zify_post_hook ::= Z.to_euclidean_division_equations.
Lemma between_chr lo hi n : (n < 256)%N -> between lo hi (chr n) = (lo <=? n)%N && (n <=? hi)%N.
Proof. intros H. unfold between. rewrite code_chr by exact H. reflexivity. Qed.
Ltac in_between := rewrite between_chr by lia; apply andb_true_iff; rewrite !N.leb_le; lia.
Ltac out_between := rewrite between_chr by lia; apply andb_false_iff; rewrite !N.leb_gt; lia.

Lemma decode_encode r t : ValidRune r = true -> DecodeRune (encode r +:+ t) = (r, String.length (encode r)).
Proof.
  intros Hv%valid_rune_iff. unfold encode.
  destruct (N.ltb_spec r 128) as [H|H1]; [cbn [of_chars]; rewrite str_app_cons, decode_ascii, code_chr by (rewrite ?code_chr; lia); reflexivity|].
  assert (Hc : forall n, cont (chr (128 + n mod 64)) = true) by (intros n; unfold cont; in_between).
  assert (Hl : forall n, low6 (chr (128 + n mod 64)) = (n mod 64)%N) by (intros n; unfold low6; rewrite code_chr by lia; lia).
  destruct (N.ltb_spec r 2048) as [H|H2].
  { cbn [of_chars String.length]. rewrite !str_app_cons. cbn [DecodeRune]. rewrite code_chr by lia. rewrite (proj2 (N.ltb_ge _ 128)) by lia.
    assert (E : between 194 223 (chr (192 + r / 64)) = true) by in_between. rewrite E, Hc, Hl. f_equal. lia. }
  destruct (N.ltb_spec r 65536) as [H|H3].
  { cbn [of_chars String.length]. rewrite !str_app_cons. cbn [DecodeRune]. rewrite code_chr by lia. rewrite (proj2 (N.ltb_ge _ 128)) by lia.
    assert (E1 : between 194 223 (chr (224 + r / 4096)) = false) by out_between. assert (E2 : between 224 239 (chr (224 + r / 4096)) = true) by in_between.
    rewrite E1, E2, Hc, !Hl. cbv zeta.
    assert (E3 : between (if (224 + r / 4096 =? 224)%N then 160 else 128) (if (224 + r / 4096 =? 237)%N then 159 else 191) (chr (128 + r / 64 mod 64)) = true).
    { destruct (N.eqb_spec (224 + r / 4096) 224), (N.eqb_spec (224 + r / 4096) 237); in_between. }
    rewrite E3. cbn [andb]. f_equal. lia. }
  cbn [of_chars String.length]. rewrite !str_app_cons. cbn [DecodeRune]. rewrite code_chr by lia. rewrite (proj2 (N.ltb_ge _ 128)) by lia.
  assert (E1 : between 194 223 (chr (240 + r / 262144)) = false) by out_between. assert (E2 : between 224 239 (chr (240 + r / 262144)) = false) by out_between.
  assert (E0 : between 240 244 (chr (240 + r / 262144)) = true) by in_between. rewrite E1, E2, E0, !Hc, !Hl. cbv zeta.
  assert (E3 : between (if (240 + r / 262144 =? 240)%N then 144 else 128) (if (240 + r / 262144 =? 244)%N then 143 else 191) (chr (128 + r / 4096 mod 64)) = true).
  { destruct (N.eqb_spec (240 + r / 262144) 240), (N.eqb_spec (240 + r / 262144) 244); in_between. }
  rewrite E3. cbn [andb]. f_equal. lia.
Qed.

(** * Encoded runes *)

Inductive utf8 : string -> Prop :=
| utf8_nil : utf8 ""
| utf8_rune r s : ValidRune r = true -> utf8 s -> utf8 (encode r +:+ s).

Lemma drop_prefix s t : drop (String.length s) (s +:+ t) = t.
Proof. induction s as [|c s IH]; [reflexivity|]. rewrite str_app_cons. exact IH. Qed.

Lemma encode_cons r : exists c q, encode r = String c q.
Proof. unfold encode. repeat case_match; cbn; eauto. Qed.

Lemma clean_utf8 s fuel : utf8 s -> String.length s <= fuel -> clean fuel s = s.
Proof.
  intros H. revert fuel. induction H as [|r s Hr _ IH]; intros fuel Hf; [destruct fuel; reflexivity|].
  pose proof (decode_encode r s Hr) as Hd. pose proof (drop_prefix (encode r) s) as Hdrop. destruct (encode_cons r) as (c & q & Ec). pose proof Hr as Hr'.
  rewrite Ec in *. rewrite str_app_cons in *. destruct fuel as [|fuel]; [cbn in Hf; lia|]. rewrite clean_step, Hd. cbn [fst snd].
  unfold EncodeRune. rewrite Hr, Ec, Hdrop, IH; [reflexivity|]. cbn in Hf. rewrite str_length_app in Hf. lia.
Qed.

Lemma clean_string_utf8 s : utf8 s -> clean_string s = s.
Proof. intros H. apply clean_utf8; [exact H | reflexivity]. Qed.

Lemma utf8_EncodeRune r s : utf8 s -> utf8 (EncodeRune r +:+ s).
Proof. intros H. unfold EncodeRune. apply utf8_rune; [|exact H]. destruct (ValidRune r) eqn:E; [exact E | reflexivity]. Qed.

Lemma utf8_ascii c s : (code c < 128)%N -> utf8 s -> utf8 (String c s).
Proof.
  intros Hc H. replace (String c s) with (encode (code c) +:+ s); [apply utf8_rune; [apply valid_rune_iff; lia | exact H]|].
  rewrite encode_ascii, chr_code, str_app_cons by exact Hc. reflexivity.
Qed.

Lemma simple_escape_ascii e x : simple_escape e = Some x -> (code x < 128)%N.
Proof.
  unfold simple_escape. destruct (Ascii.eqb_spec e dquote) as [->|]; [intros [= <-]; reflexivity|]. destruct (Ascii.eqb_spec e backslash) as [->|]; [intros [= <-]; reflexivity|].
  destruct (Ascii.eqb_spec e "/") as [->|]; [intros [= <-]; reflexivity|]. cbn [orb]. repeat case_match; intros [= <-]; reflexivity.
Qed.

Lemma unquote_utf8 fuel s : utf8 (unquote fuel s).
Proof.
  revert s. induction fuel as [|fuel IH]; intros s; [constructor|]. cbn [unquote]. destruct s as [|c r]; [constructor|].
  destruct (Ascii.eqb c backslash).
  - destruct (getu4 (String c r)) as [rr|].
    + cbv zeta. destruct (is_surrogate rr); [|apply utf8_EncodeRune, IH]. destruct (getu4 _); [|apply utf8_EncodeRune, IH].
      destruct (utf16_decode _ _); apply utf8_EncodeRune, IH.
    + destruct r as [|e r1]; [constructor|]. destruct (simple_escape e) as [x|] eqn:Ex; [|constructor]. apply utf8_ascii; [eapply simple_escape_ascii; exact Ex | apply IH].
  - destruct (N.ltb_spec (code c) 128); [apply utf8_ascii; [assumption | apply IH]|]. destruct (DecodeRune _) as [rr w]. apply utf8_EncodeRune, IH.
Qed.

Lemma lex_string_utf8 s x r : lex_string s = Some (x, r) -> utf8 x.
Proof. unfold lex_string. destruct (scan_string s) as [[raw rest]|]; [|discriminate]. intros [= <- _]. apply unquote_utf8. Qed.

(** * Numerals *)

Definition head_is (P : ascii -> bool) (s : string) : bool := match s with String c _ => P c | EmptyString => false end.
(** A character that continues a number. *)
Definition continues (c : ascii) : bool := is_digit c || Ascii.eqb c "." || Ascii.eqb c "e" || Ascii.eqb c "E".

Lemma continues_digit u : head_is continues u = false -> head_is is_digit u = false.
Proof. destruct u as [|c u]; [reflexivity|]. cbn [head_is]. unfold continues. intros H. apply not_true_iff_false. intros E. rewrite E in H. discriminate. Qed.

Lemma digits_own s d t u : digits s = (d, t) -> head_is is_digit u = false -> digits (d +:+ u) = (d, u).
Proof.
  intros H Hu. revert d H. induction s as [|c s IH]; intros d H; cbn [digits] in H.
  - injection H as <- <-. rewrite str_app_nil. destruct u as [|c u]; [reflexivity|]. cbn [head_is] in Hu. cbn [digits]. rewrite Hu. reflexivity.
  - destruct (is_digit c) eqn:Ec.
    + destruct (digits s) as [d' t'] eqn:Ed. injection H as <- <-. rewrite str_app_cons. cbn [digits]. rewrite Ec, (IH d' eq_refl). reflexivity.
    + injection H as <- <-. rewrite str_app_nil. destruct u as [|c' u]; [reflexivity|]. cbn [head_is] in Hu. cbn [digits]. rewrite Hu. reflexivity.
Qed.

Lemma digits_split_head s d t : digits s = (d, t) -> d = "" \/ head_is is_digit d = true.
Proof. destruct s as [|c s]; cbn [digits]; [intros [= <- _]; auto|]. destruct (is_digit c) eqn:E; [|intros [= <- _]; auto]. destruct (digits s). intros [= <- _]. right. exact E. Qed.

Lemma lex_int_own s i t u : lex_int s = Some (i, t) -> head_is is_digit u = false -> lex_int (i +:+ u) = Some (i, u).
Proof.
  destruct s as [|c r]; [discriminate|]. cbn [lex_int]. destruct (Ascii.eqb_spec c "0") as [->|Hc]; [intros [= <- _] _; reflexivity|].
  destruct (is_digit c) eqn:Ed; [|discriminate]. intros H Hu. apply (inj Some) in H. pose proof (digits_own (String c r) i t u H Hu) as Hd. cbn [digits] in H. rewrite Ed in H. destruct (digits r) as [d' t'].
  injection H as <- <-. rewrite str_app_cons in *. cbn [lex_int]. rewrite (proj2 (Ascii.eqb_neq c "0") Hc), Ed, Hd. reflexivity.
Qed.

Definition frac_text (f : option string) : string := match f with Some f => "." +:+ f | None => "" end.
Definition exp_text (e : option (string * bool * string)) : string := match e with Some (e, _, d) => e +:+ d | None => "" end.

Lemma lex_frac_own s f t u : lex_frac s = Some (f, t) -> head_is continues u = false \/ (head_is is_digit u = false /\ head_is (Ascii.eqb ".") u = false) ->
  lex_frac (frac_text f +:+ u) = Some (f, u).
Proof.
  intros H Hu. assert (Hd : head_is is_digit u = false) by (destruct Hu as [Hu|[Hu _]]; [apply continues_digit, Hu | exact Hu]).
  assert (Hdot : head_is (fun c => Ascii.eqb c ".") u = false).
  { destruct u as [|c u]; [reflexivity|]. cbn [head_is] in *. destruct (Ascii.eqb_spec c ".") as [->|]; [|reflexivity]. destruct Hu as [Hu|[_ Hu]]; discriminate Hu. }
  assert (Hnone : lex_frac u = Some (None, u)) by (destruct u as [|c u]; [reflexivity|]; cbn [head_is] in Hdot; cbn [lex_frac]; rewrite Hdot; reflexivity).
  destruct s as [|c s]; cbn [lex_frac] in H; [injection H as <- <-; exact Hnone|]. destruct (Ascii.eqb c ".") ; [|injection H as <- <-; exact Hnone].
  destruct (digits s) as [d t'] eqn:Ed. destruct d as [|x d]; [discriminate|]. injection H as <- <-. cbn [frac_text]. rewrite !str_app_cons, str_app_nil. cbn [lex_frac].
  rewrite <-str_app_cons. rewrite (digits_own _ _ _ _ Ed Hd). reflexivity.
Qed.

Lemma lex_exp_own s e t u : lex_exp s = Some (e, t) -> head_is continues u = false -> lex_exp (exp_text e +:+ u) = Some (e, u).
Proof.
  intros H Hu. assert (Hd : head_is is_digit u = false) by (apply continues_digit, Hu).
  assert (Hnone : lex_exp u = Some (None, u)).
  { destruct u as [|c u]; [reflexivity|]. cbn [head_is] in Hu. cbn [lex_exp]. unfold continues in Hu. destruct (Ascii.eqb c "e"), (Ascii.eqb c "E"); rewrite ?orb_true_r in Hu; try discriminate. reflexivity. }
  destruct s as [|c s]; cbn [lex_exp] in H; [injection H as <- <-; exact Hnone|]. destruct (Ascii.eqb c "e" || Ascii.eqb c "E") eqn:Ec; [|injection H as <- <-; exact Hnone].
  destruct s as [|g r1].
  { discriminate H. }
  destruct (Ascii.eqb_spec g "+") as [->|Hp]; [|destruct (Ascii.eqb_spec g "-") as [->|Hm]].
  1,2: destruct (digits r1) as [d t'] eqn:Ed; destruct d as [|x d]; [discriminate|]; injection H as <- <-; cbn [exp_text]; rewrite !str_app_cons, str_app_nil; cbn [lex_exp]; rewrite Ec;
    cbn [Ascii.eqb Bool.eqb]; rewrite (digits_own _ _ _ _ Ed Hd); reflexivity.
  destruct (digits (String g r1)) as [d t'] eqn:Ed. destruct d as [|x d]; [discriminate|]. injection H as <- <-. cbn [exp_text]. rewrite !str_app_cons, str_app_nil, str_app_cons. cbn [lex_exp]. rewrite Ec.
  pose proof (digits_own _ _ _ _ Ed Hd) as Ho. rewrite str_app_cons in Ho. cbn [digits] in Ed. destruct (is_digit g) eqn:Eg; [|discriminate]. destruct (digits r1). injection Ed as <- <- <-.
  rewrite (proj2 (Ascii.eqb_neq g "+") Hp), (proj2 (Ascii.eqb_neq g "-") Hm), Ho. reflexivity.
Qed.

Lemma lex_int_head s i t : lex_int s = Some (i, t) -> exists c r, i = String c r /\ is_digit c = true.
Proof.
  destruct s as [|c r]; [discriminate|]. cbn [lex_int]. destruct (Ascii.eqb_spec c "0") as [->|]; [intros [= <- _]; eexists _, _; split; reflexivity|].
  destruct (is_digit c) eqn:Ed; [|discriminate]. intros H. apply (inj Some) in H. cbn [digits] in H. rewrite Ed in H. destruct (digits r). injection H as <- _. eauto.
Qed.

Lemma exp_head s e t : lex_exp s = Some (e, t) -> e = None \/ exists c r, exp_text e = String c r /\ is_digit c = false /\ Ascii.eqb "." c = false.
Proof.
  destruct s as [|c s]; cbn [lex_exp]; [intros [= <- _]; auto|]. destruct (Ascii.eqb c "e" || Ascii.eqb c "E") eqn:Ec; [|intros [= <- _]; auto]. intros H. right.
  assert (Hc : is_digit c = false /\ Ascii.eqb "." c = false) by (apply orb_true_iff in Ec as [->%Ascii.eqb_eq| ->%Ascii.eqb_eq]; split; reflexivity).
  destruct (match s with String _ _ => _ | EmptyString => _ end) as [[sign neg] r1]. destruct (digits r1) as [[|x d] t']; [discriminate|]. injection H as <- _.
  cbn [exp_text]. rewrite str_app_cons. eauto.
Qed.

Lemma lex_number_own s n r u : lex_number s = Some (n, r) -> head_is continues u = false -> lex_number (number_text n +:+ u) = Some (n, u).
Proof.
  intros H Hu. unfold lex_number in H. destruct (match s with String _ _ => _ | EmptyString => _ end) as [neg s1] eqn:Es.
  destruct (lex_int s1) as [[i s2]|] eqn:Ei; [|discriminate]. destruct (lex_frac s2) as [[f s3]|] eqn:Ef; [|discriminate]. destruct (lex_exp s3) as [[e s4]|] eqn:Ee; [|discriminate].
  injection H as <- <-. unfold number_text. cbn [n_neg n_int n_frac n_exp]. fold (frac_text f) (exp_text e). rewrite !str_app_assoc.
  pose proof (exp_head _ _ _ Ee) as He. pose proof (lex_int_head _ _ _ Ei) as (ci & ri & Hi & Hci).
  assert (H4 : lex_exp (exp_text e +:+ u) = Some (e, u)) by (eapply lex_exp_own; eassumption).
  assert (H3 : lex_frac (frac_text f +:+ exp_text e +:+ u) = Some (f, exp_text e +:+ u)).
  { eapply lex_frac_own; [exact Ef|]. destruct He as [->|(c & q & -> & H1 & H2)]; [left; exact Hu|]. right. rewrite str_app_cons. split; assumption. }
  assert (H2 : lex_int (i +:+ frac_text f +:+ exp_text e +:+ u) = Some (i, frac_text f +:+ exp_text e +:+ u)).
  { eapply lex_int_own; [exact Ei|]. destruct f as [f|]; [reflexivity|]. cbn [frac_text]. rewrite str_app_nil.
    destruct He as [->|(c & q & -> & H1 & _)]; [cbn [exp_text]; rewrite str_app_nil; apply continues_digit, Hu|]. rewrite str_app_cons. exact H1. }
  unfold lex_number. destruct neg; [rewrite str_app_cons, str_app_nil; cbn [Ascii.eqb Bool.eqb]; rewrite H2, H3, H4; reflexivity|].
  rewrite str_app_nil. rewrite Hi in H2 |- *. rewrite str_app_cons in H2 |- *. destruct (Ascii.eqb_spec ci "-") as [->|]; [discriminate Hci|]. rewrite H2, H3, H4. reflexivity.
Qed.

Definition numeral (t : string) : Prop := exists n, number_text n = t /\ forall u, head_is continues u = false -> lex_number (t +:+ u) = Some (n, u).

Lemma lex_number_numeral s n r : lex_number s = Some (n, r) -> numeral (number_text n).
Proof. intros H. exists n. split; [reflexivity|]. intros u. eapply lex_number_own; exact H. Qed.

(** * Values *)

(** Every string is encoded, and every number is a numeral. *)
Inductive tidy : json -> Prop :=
| tidy_null : tidy JNull
| tidy_bool b : tidy (JBool b)
| tidy_num t : numeral t -> tidy (JNum t)
| tidy_str s : utf8 s -> tidy (JStr s)
| tidy_arr l : Forall tidy l -> tidy (JArr l)
| tidy_obj m : Forall (fun kv => utf8 kv.1 /\ tidy kv.2) m -> tidy (JObj m).

Lemma scalar_tidy fl s v r : scalar fl s = Some (v, r) -> tidy v.
Proof.
  unfold scalar. destruct (lex_scalar s) as [[l t]|] eqn:E; [|discriminate]. unfold lex_scalar in E. destruct s as [|c q]; [discriminate|].
  destruct (Ascii.eqb c dquote).
  { destruct (lex_string q) as [[x t']|] eqn:Ex; [|discriminate]. injection E as <- <-. intros [= <- _]. constructor. eapply lex_string_utf8. exact Ex. }
  destruct (Ascii.eqb c "t"); [destruct (Json.after _ _); [injection E as <- <-; intros [= <- _]; constructor | discriminate]|].
  destruct (Ascii.eqb c "f"); [destruct (Json.after _ _); [injection E as <- <-; intros [= <- _]; constructor | discriminate]|].
  destruct (Ascii.eqb c "n"); [destruct (Json.after _ _); [injection E as <- <-; intros [= <- _]; constructor | discriminate]|].
  destruct (_ || _); [|discriminate]. destruct (lex_number _) as [[n t']|] eqn:En; [|discriminate]. injection E as <- <-.
  destruct (fl && overflows n); [discriminate|]. intros [= <- _]. constructor. eapply lex_number_numeral. exact En.
Qed.

Lemma key_utf8 s k t : key s = Some (k, t) -> utf8 k.
Proof.
  unfold key. destruct (peek s) as [[c r]|]; [|discriminate]. destruct (Ascii.eqb c dquote); [|discriminate]. destruct (lex_string r) as [[k' r1]|] eqn:E; [|discriminate].
  destruct (peek r1) as [[d r2]|]; [|discriminate]. destruct (Ascii.eqb d ":"); [|discriminate]. intros [= <- _]. eapply lex_string_utf8. exact E.
Qed.

Lemma value_tidy fl :
  (forall s v r, value fl s v r -> tidy v) /\ (forall s m r, members fl s m r -> Forall (fun kv => utf8 kv.1 /\ tidy kv.2) m) /\
  (forall s l r, elements fl s l r -> Forall tidy l).
Proof.
  apply value_members_elements_ind; intros; try (constructor; assumption || constructor); eauto using scalar_tidy, key_utf8.
Qed.

Lemma document_tidy fl s v : document fl s v -> tidy v.
Proof. intros [(r & H & _) _]. eapply value_tidy. exact H. Qed.

(** ** What Marshal writes of a tidy value *)

Definition reads_back (v : json) : Prop := forall r, head_is continues r = false -> value false (Marshal v +:+ r) v r.

Lemma elements_back l r : l <> [] -> Forall reads_back l -> elements false (join "," (map Marshal l) +:+ String "]" r) l r.
Proof.
  intros Hne H. induction H as [|v l Hv Hl IH]; [congruence|]. destruct l as [|w l].
  - simpl. eapply e_last; [apply Hv; reflexivity | apply peek_char; reflexivity].
  - change (join "," (map Marshal (v :: w :: l))) with (Marshal v +:+ String "," (join "," (map Marshal (w :: l)))).
    rewrite str_app_assoc, str_app_cons. eapply e_more; [apply Hv; reflexivity | apply peek_char; reflexivity | apply IH; discriminate].
Qed.

Lemma members_back m r :
  m <> [] -> Forall (fun kv => utf8 kv.1 /\ reads_back kv.2) m ->
  members false (join "," (map (fun kv => enc_string kv.1 +:+ String ":" (Marshal kv.2)) m) +:+ String "}" r) m r.
Proof.
  intros Hne H. set (f := fun kv : string * json => enc_string kv.1 +:+ String ":" (Marshal kv.2)).
  assert (Hkey : forall k q, utf8 k -> key (enc_string k +:+ String ":" q) = Some (k, q)) by (intros k q Hk; rewrite key_enc, clean_string_utf8 by exact Hk; reflexivity).
  induction H as [|[k v] m [Hk Hv] Hm IH]; [congruence|]. cbn [fst snd] in Hk, Hv. destruct m as [|w m].
  - simpl. unfold f. simpl. rewrite str_app_assoc, str_app_cons. eapply m_last; [apply Hkey, Hk | apply Hv; reflexivity | apply peek_char; reflexivity].
  - change (join "," (map f ((k, v) :: w :: m))) with ((enc_string k +:+ String ":" (Marshal v)) +:+ String "," (join "," (map f (w :: m)))).
    rewrite !str_app_assoc. repeat rewrite ?str_app_cons, ?str_app_assoc.
    eapply m_more; [apply Hkey, Hk | apply Hv; reflexivity | apply peek_char; reflexivity | apply IH; discriminate].
Qed.

Lemma lex_number_head s n r : lex_number s = Some (n, r) -> exists c q, s = String c q /\ (c = "-"%char \/ is_digit c = true).
Proof.
  unfold lex_number. destruct s as [|c q]; [discriminate|]. destruct (Ascii.eqb_spec c "-") as [->|]; [eauto|].
  destruct (lex_int (String c q)) as [[i s2]|] eqn:E; [|discriminate]. intros _. exists c, q. split; [reflexivity|]. right.
  cbn [lex_int] in E. destruct (Ascii.eqb_spec c "0") as [->|]; [reflexivity|]. destruct (is_digit c); [reflexivity | discriminate].
Qed.

Lemma number_back t : numeral t -> reads_back (JNum t).
Proof.
  intros (n & Ht & Hn) r Hr. specialize (Hn r Hr). destruct (lex_number_head _ _ _ Hn) as (c & q & E & Hc). cbn [Marshal]. rewrite E in Hn |- *.
  assert (Hnot : forall d, is_digit d = false -> d <> "-"%char -> c <> d) by (intros d Hd Hm ->; destruct Hc; congruence).
  eapply v_scalar; [apply peek_char|apply Hnot; [reflexivity | discriminate]|apply Hnot; [reflexivity | discriminate]|].
  - unfold is_space. rewrite !(proj2 (Ascii.eqb_neq c _)) by (apply Hnot; [reflexivity | discriminate]). reflexivity.
  - unfold scalar, lex_scalar. rewrite !(proj2 (Ascii.eqb_neq c dquote)), !(proj2 (Ascii.eqb_neq c "t")), !(proj2 (Ascii.eqb_neq c "f")), !(proj2 (Ascii.eqb_neq c "n"))
      by (apply Hnot; [reflexivity | discriminate]).
    assert (Ec : Ascii.eqb c "-" || is_digit c = true) by (destruct Hc as [->| ->]; [reflexivity | apply orb_true_r]). rewrite Ec, Hn, Ht. reflexivity.
Qed.

Lemma tidy_back v : tidy v -> reads_back v.
Proof.
  induction v using json_deep_ind; intros Hv; inversion Hv; subst.
  - intros r Hr. eapply v_scalar; [apply peek_char; reflexivity|discriminate|discriminate|reflexivity].
  - intros r Hr. destruct b; (eapply v_scalar; [apply peek_char; reflexivity|discriminate|discriminate|reflexivity]).
  - apply number_back. assumption.
  - intros r Hr. cbn [Marshal]. rewrite <-(clean_string_utf8 s) at 2 by assumption. apply value_enc_string.
  - intros r Hr. cbn [Marshal]. rewrite str_app_cons, str_app_assoc. destruct l as [|x l]; [eapply v_arr_nil; apply peek_char; reflexivity|].
    eapply v_arr; [apply peek_char; reflexivity|]. apply elements_back; [discriminate|]. rewrite Forall_forall in *. auto.
  - intros r Hr. cbn [Marshal]. rewrite str_app_cons, str_app_assoc. destruct m as [|x m]; [eapply v_obj_nil; apply peek_char; reflexivity|].
    eapply v_obj; [apply peek_char; reflexivity|]. apply members_back; [discriminate|]. rewrite Forall_forall in *.
    intros kv Hk. match goal with A : forall x, _ -> utf8 _ /\ _ |- _ => destruct (A kv Hk) end. split; [assumption | auto].
Qed.

Lemma parse_Marshal_tidy v : tidy v -> shallow v = true -> parse_document false (Marshal v) = Some v.
Proof.
  intros Hv Hs. apply parse_iff. split; [|exact Hs]. exists "". split; [|reflexivity]. rewrite <-(str_app_nil_r (Marshal v)). apply tidy_back; [exact Hv | reflexivity].
Qed.

End Wellformed.
