(* ===== verification/LlmJson.v ===== *)
(** CompactJSON and the JSON gate of src/llm/strict.go: a text that is one JSON value, written again with its
    numbers' texts, its objects' members sorted and each once. encoding/json decodes an object to a Go map,
    where the last member of a name stays, and writes a map's members in the order of their names. *)
From Stdlib Require Import Sorted.
From S2P Require Import Prelude Utf8 Json JsonEncode GoStrings Wellformed.

Module LlmJson.
Import Json Encode GoStrings Wellformed.

(** * The code *)

(** Setting a name of a map, whose members are kept in the order in which Marshal writes them. *)
Fixpoint put (k : string) (v : json) (m : list (string * json)) : list (string * json) :=
  match m with
  | [] => [(k, v)]
  | (k', v') :: r =>
      match String.compare k k' with
      | Lt => (k, v) :: m
      | Eq => (k, v) :: r
      | Gt => (k', v') :: put k v r
      end
  end.
Definition map_of (m : list (string * json)) : list (string * json) := foldl (fun acc kv => put kv.1 kv.2 acc) [] m.

(** The value as decoded into an interface. *)
Fixpoint decoded (v : json) : json :=
  match v with
  | JArr l => JArr (map decoded l)
  | JObj m => JObj (map_of (map (fun kv => (kv.1, decoded kv.2)) m))
  | v => v
  end.

Definition CompactJSON (text : string) : string :=
  if String.eqb (TrimSpace text) "" then ""
  else match parse_document false text with Some v => Marshal (decoded v) | None => "" end.

Definition gateJSON (text : string) : string * string :=
  let compact := CompactJSON text in (compact, if String.eqb compact "" then text else "").

Definition quoted (s : string) : string := String dquote (s +:+ String dquote "").
Example compact : map CompactJSON
    [" {" +:+ quoted "b" +:+ ": 1.50, " +:+ quoted "a" +:+ ":[true , null], " +:+ quoted "b" +:+ ": 9007199254740993} "; "1 2"; "  "; "nul"; "-0e1 "]
  = ["{" +:+ quoted "a" +:+ ":[true,null]," +:+ quoted "b" +:+ ":9007199254740993}"; ""; ""; ""; "-0e1"].
Proof. vm_compute. reflexivity. Qed.

(** * Blank texts *)

Lemma strip_app p l r : strip p l = Some r -> l = p ++ r.
Proof.
  revert l. induction p as [|a p IH]; intros l; [intros [= ->]; reflexivity|]. destruct l as [|b l]; [discriminate|]. cbn [strip].
  destruct (Ascii.eqb_spec a b) as [->|]; [|discriminate]. intros H%IH. rewrite H. reflexivity.
Qed.

Lemma trim_keeps ps fuel l c : Forall (fun p => c ∉ p) ps -> c ∈ l -> c ∈ trim ps fuel l.
Proof.
  intros Hps. revert l. induction fuel as [|fuel IH]; intros l Hc; [exact Hc|]. cbn [trim]. destruct (strip_any ps l) as [r|] eqn:E; [|exact Hc]. apply IH.
  clear IH. induction Hps as [|p ps Hp _ IHp]; [discriminate|]. cbn [strip_any] in E. destruct (strip p l) as [r'|] eqn:Es; [|apply IHp, E].
  injection E as ->. apply strip_app in Es. rewrite Es, elem_of_app in Hc. destruct Hc; [contradiction | assumption].
Qed.

Lemma no_graphic_in_spaces :
  forallb (fun n => negb (graphic (chr n)) || forallb (fun p => negb (existsb (Ascii.eqb (chr n)) p)) spaces) (map N.of_nat (seq 0 256)) = true.
Proof. vm_compute. reflexivity. Qed.

Lemma graphic_no_space c : graphic c = true -> Forall (fun p => c ∉ p) spaces.
Proof.
  intros Hc. pose proof no_graphic_in_spaces as H. rewrite forallb_forall in H. specialize (H (code c)). rewrite chr_code, Hc in H.
  assert (Hin : In (code c) (map N.of_nat (seq 0 256))).
  { apply in_map_iff. exists (N.to_nat (code c)). split; [apply N2Nat.id|]. apply in_seq. pose proof (code_lt c). lia. }
  specialize (H Hin). cbn [negb orb] in H. rewrite forallb_forall in H. apply Forall_forall. intros p Hp Hi. apply list_elem_of_In in Hp. specialize (H p Hp).
  apply negb_true_iff in H. rewrite <-not_true_iff_false, existsb_exists in H. apply H. exists c. split; [apply list_elem_of_In, Hi | apply Ascii.eqb_refl].
Qed.

Lemma TrimSpace_nonempty s c : c ∈ chars s -> graphic c = true -> TrimSpace s <> "".
Proof.
  intros Hc Hg E. pose proof (graphic_no_space c Hg) as Hs. unfold TrimSpace, TrimRight, TrimLeft in E. apply (f_equal chars) in E. rewrite !chars_of_chars in E.
  enough (H : c ∈ rev (trim (map (@rev ascii) spaces) (String.length (of_chars (trim spaces (String.length s) (chars s)))) (rev (trim spaces (String.length s) (chars s)))))
    by (rewrite E in H; inversion H).
  apply list_elem_of_In, in_rev. rewrite rev_involutive. apply list_elem_of_In. apply trim_keeps.
  - apply Forall_map. eapply Forall_impl; [exact Hs|]. intros p Hp Hi. apply Hp. apply list_elem_of_In. apply in_rev. apply list_elem_of_In, Hi.
  - apply list_elem_of_In, in_rev. rewrite rev_involutive. apply list_elem_of_In, trim_keeps; assumption.
Qed.

(** * Maps *)

Definition before (a b : string) : Prop := String.compare a b = Lt.

Lemma before_le a b : before a b <-> String.le a b /\ a <> b.
Proof.
  unfold before, String.le, String.leb. destruct (String.compare a b) eqn:E.
  - apply String.compare_eq_iff in E as ->. split; [discriminate | intros [_ H]; congruence].
  - split; [|reflexivity]. intros _. split; [exact I|]. intros ->. pose proof (String.compare_antisym b b) as H. rewrite E in H. discriminate.
  - split; [discriminate | intros [[] _]].
Qed.

Lemma before_trans a b c : before a b -> before b c -> before a c.
Proof.
  rewrite !before_le. intros [H1 N1] [H2 N2]. split; [transitivity b; assumption|]. intros ->. apply N2. apply (anti_symm String.le); assumption.
Qed.

Lemma compare_gt a b : String.compare a b = Gt -> before b a.
Proof. intros H. unfold before. rewrite String.compare_antisym, H. reflexivity. Qed.

(** The value of a name in a list of members: the first one's. *)
Fixpoint member (k : string) (m : list (string * json)) : option json :=
  match m with [] => None | (k', v) :: r => if String.eqb k k' then Some v else member k r end.

Definition sorted (m : list (string * json)) : Prop := StronglySorted before (map fst m).

Lemma put_names k v m x : x ∈ map fst (put k v m) <-> x = k \/ x ∈ map fst m.
Proof.
  induction m as [|[k' v'] m IH]; cbn [put map]; [rewrite elem_of_cons; reflexivity|]. destruct (String.compare k k') eqn:E; cbn [map fst]; rewrite !elem_of_cons; try tauto.
  apply String.compare_eq_iff in E as ->. tauto.
Qed.

Lemma put_sorted k v m : sorted m -> sorted (put k v m).
Proof.
  unfold sorted. induction m as [|[k' v'] m IH]; cbn [put map fst]; intros H; [repeat constructor|]. apply StronglySorted_inv in H as [Hm Hk].
  destruct (String.compare k k') eqn:E; cbn [map fst].
  - apply String.compare_eq_iff in E as ->. constructor; assumption.
  - constructor; [constructor; assumption|]. constructor; [exact E|]. eapply Forall_impl; [exact Hk|]. intros x Hx. eapply before_trans; eassumption.
  - constructor; [apply IH, Hm|]. apply Forall_forall. intros x Hx. apply put_names in Hx as [->|Hx]; [apply compare_gt, E|]. rewrite Forall_forall in Hk. apply Hk, Hx.
Qed.

Lemma member_none k m : k ∉ map fst m -> member k m = None.
Proof.
  induction m as [|[k' v'] m IH]; cbn [map fst member]; [reflexivity|]. rewrite elem_of_cons. intros H. destruct (String.eqb_spec k k'); [tauto|]. apply IH. tauto.
Qed.

Lemma member_put k k0 v m : sorted m -> member k (put k0 v m) = if String.eqb k k0 then Some v else member k m.
Proof.
  unfold sorted. induction m as [|[k' v'] m IH]; cbn [put map fst]; intros H; [reflexivity|]. apply StronglySorted_inv in H as [Hm Hk].
  destruct (String.compare k0 k') eqn:E; cbn [member].
  - apply String.compare_eq_iff in E as ->. destruct (String.eqb_spec k k'); reflexivity.
  - destruct (String.eqb_spec k k0); reflexivity.
  - rewrite (IH Hm). destruct (String.eqb_spec k k') as [->|]; [|reflexivity]. destruct (String.eqb_spec k' k0) as [->|]; [|reflexivity].
    apply compare_gt, before_le in E. tauto.
Qed.

Lemma map_of_snoc m kv : map_of (m ++ [kv]) = put kv.1 kv.2 (map_of m).
Proof. unfold map_of. rewrite foldl_snoc. reflexivity. Qed.

Lemma map_of_sorted m : sorted (map_of m).
Proof. induction m as [|kv m IH] using rev_ind; [constructor|]. rewrite map_of_snoc. apply put_sorted, IH. Qed.

(** The map holds each name once, with its last value. *)
Lemma map_of_member k m : member k (map_of m) = member k (rev m).
Proof.
  induction m as [|[k' v] m IH] using rev_ind; [reflexivity|]. rewrite map_of_snoc, rev_unit, member_put by apply map_of_sorted. cbn [member fst snd]. rewrite IH. reflexivity.
Qed.

Lemma put_last k v m : Forall (fun x => before x k) (map fst m) -> put k v m = m ++ [(k, v)].
Proof.
  induction m as [|[k' v'] m IH]; cbn [map fst put app]; [reflexivity|]. rewrite Forall_cons. intros [Hk Hm]. unfold before in Hk. rewrite String.compare_antisym, Hk. cbn [CompOpp].
  rewrite (IH Hm). reflexivity.
Qed.

Lemma sorted_snoc m kv : sorted (m ++ [kv]) -> sorted m /\ Forall (fun x => before x kv.1) (map fst m).
Proof.
  unfold sorted. rewrite map_app. cbn [map]. induction (map fst m) as [|x l IH]; cbn [app]; intros H; [split; constructor|].
  apply StronglySorted_inv in H as [H1 H2]. destruct (IH H1) as [Hs Hf]. apply Forall_app in H2 as [H2 H3]. apply Forall_cons in H3 as [H3 _].
  split; [constructor; assumption | constructor; assumption].
Qed.

Lemma map_of_fixed m : sorted m -> map_of m = m.
Proof.
  induction m as [|kv m IH] using rev_ind; [reflexivity|]. intros [H1 H2]%sorted_snoc. rewrite map_of_snoc, (IH H1), put_last by exact H2. destruct kv. reflexivity.
Qed.

Lemma map_of_Forall (P : string * json -> Prop) m : Forall P m -> Forall P (map_of m).
Proof.
  induction m as [|kv m IH] using rev_ind; [constructor|]. rewrite Forall_app, Forall_cons, map_of_snoc. intros (Hm & Hkv & _). specialize (IH Hm). revert IH. generalize (map_of m).
  intros l. induction l as [|[k' v'] l IHl]; cbn [put]; intros H; [repeat constructor; destruct kv; exact Hkv|]. apply Forall_cons in H as [H1 H2].
  destruct (String.compare _ _); repeat (constructor; auto); destruct kv; auto.
Qed.

(** * Decoded values *)

(** Every object of the value is a map in order. *)
Inductive ordered : json -> Prop :=
| ord_null : ordered JNull
| ord_bool b : ordered (JBool b)
| ord_num t : ordered (JNum t)
| ord_str s : ordered (JStr s)
| ord_arr l : Forall ordered l -> ordered (JArr l)
| ord_obj m : sorted m -> Forall (fun kv => ordered kv.2) m -> ordered (JObj m).

Lemma decoded_ordered v : ordered (decoded v).
Proof.
  induction v using json_deep_ind; cbn [decoded]; constructor.
  - apply Forall_map. exact H.
  - apply map_of_sorted.
  - apply map_of_Forall, Forall_map. exact H.
Qed.

Lemma decoded_fixed v : ordered v -> decoded v = v.
Proof.
  induction v using json_deep_ind; intros Hv; inversion Hv; subst; cbn [decoded]; try reflexivity; f_equal.
  - rewrite <-(map_id l) at 2. apply map_ext_in. intros x Hx%list_elem_of_In. rewrite Forall_forall in *. auto.
  - replace (map (fun kv => (kv.1, decoded kv.2)) m) with m; [apply map_of_fixed; assumption|].
    rewrite <-(map_id m) at 1. apply map_ext_in. intros [k x] Hx%list_elem_of_In. rewrite Forall_forall in *. cbn. f_equal. symmetry.
    match goal with A : forall x, x ∈ m -> ordered _ -> _, B : forall x, x ∈ m -> ordered _ |- _ => exact (A _ Hx (B _ Hx)) end.
Qed.

Lemma decoded_tidy v : tidy v -> tidy (decoded v).
Proof.
  induction v using json_deep_ind; intros Hv; inversion Hv; subst; cbn [decoded]; constructor; try assumption.
  - apply Forall_map. rewrite Forall_forall in *. auto.
  - apply map_of_Forall, Forall_map. rewrite Forall_forall in *. intros kv Hkv. cbn.
    match goal with A : forall x, x ∈ m -> utf8 _ /\ _ |- _ => destruct (A kv Hkv) end. split; [assumption | auto].
Qed.

Definition deepest (m : list (string * json)) : N := foldr (fun kv acc => N.max (levels kv.2) acc) 0%N m.

Lemma deepest_put k v m : (deepest (put k v m) <= N.max (levels v) (deepest m))%N.
Proof.
  induction m as [|[k' v'] m IH]; [cbn; lia|]. cbn [put]. destruct (String.compare k k'); unfold deepest in *; cbn [foldr snd] in *; lia.
Qed.

Lemma deepest_map_of m : (deepest (map_of m) <= deepest m)%N.
Proof.
  induction m as [|[k v] m IH] using rev_ind; [reflexivity|]. rewrite map_of_snoc. cbn [fst snd]. pose proof (deepest_put k v (map_of m)) as H.
  assert (E : deepest (m ++ [(k, v)]) = N.max (levels v) (deepest m)) by (clear; induction m as [|x m IH]; [cbn; lia|]; unfold deepest in *; cbn [app foldr] in *; lia).
  rewrite E. lia.
Qed.

Lemma levels_decoded v : (levels (decoded v) <= levels v)%N.
Proof.
  induction v using json_deep_ind; cbn [decoded levels]; try reflexivity.
  - apply N.add_le_mono_r with (p := 0%N). induction H as [|x l Hx _ IH]; cbn [map foldr]; lia.
  - pose proof (deepest_map_of (map (fun kv => (kv.1, decoded kv.2)) m)) as Hm.
    assert (Hd : (deepest (map (fun kv => (kv.1, decoded kv.2)) m) <= deepest m)%N) by (clear Hm; unfold deepest; induction H as [|x l Hx _ IH]; cbn [map foldr snd] in *; lia).
    unfold deepest in *. lia.
Qed.

(** A value begins with a character that is no white space. *)
Lemma peek_in s c t : peek s = Some (c, t) -> c ∈ chars s.
Proof.
  unfold peek. induction s as [|d s IH]; cbn [skip_ws chars]; [discriminate|]. destruct (is_space d); [intros H; right; apply IH, H|]. intros [= <- _]. left.
Qed.

Lemma value_graphic fl s v r : value fl s v r -> exists c, c ∈ chars s /\ graphic c = true.
Proof.
  intros H. inversion H as [? c t ? ? Hp _ _ Hs|? t ? Hp _|? t m ? Hp _|? t ? Hp _|? t l ? Hp _]; subst; apply peek_in in Hp; [|eexists; split; [exact Hp | reflexivity]..].
  exists c. split; [exact Hp|]. clear -Hs. unfold scalar in Hs. destruct (lex_scalar (String c t)) as [[l u]|] eqn:E; [|discriminate]. clear Hs. unfold lex_scalar in E.
  destruct (Ascii.eqb_spec c dquote) as [->|_]; [reflexivity|]. destruct (Ascii.eqb_spec c "t") as [->|_]; [reflexivity|]. destruct (Ascii.eqb_spec c "f") as [->|_]; [reflexivity|].
  destruct (Ascii.eqb_spec c "n") as [->|_]; [reflexivity|]. destruct (Ascii.eqb_spec c "-") as [->|_]; [reflexivity|]. cbn [orb] in E. destruct (Json.is_digit c) eqn:Ed; [|discriminate].
  unfold Json.is_digit, graphic, in_range in *. rewrite andb_true_iff, !N.leb_le in *. change (code "0") with 48%N in Ed. change (code "9") with 57%N in Ed.
  change (code "!") with 33%N. change (code "~") with 126%N. lia.
Qed.

Lemma CompactJSON_document text v : document false text v -> CompactJSON text = Marshal (decoded v).
Proof.
  intros H. unfold CompactJSON. rewrite (proj2 (parse_iff false text v) H). destruct (String.eqb_spec (TrimSpace text) "") as [E|]; [|reflexivity]. exfalso.
  destruct H as [(r & Hv & _) _]. apply value_graphic in Hv as (c & Hc & Hg). exact (TrimSpace_nonempty _ _ Hc Hg E).
Qed.

Lemma Marshal_nonempty v : tidy v -> Marshal v <> "".
Proof.
  intros Hv E. pose proof (tidy_back v Hv "" eq_refl) as H. rewrite E in H. apply value_graphic in H as (c & Hc & _). inversion Hc.
Qed.

(** What CompactJSON gives is one JSON value again, which is already compact. *)
Lemma CompactJSON_again text v : document false text v -> document false (CompactJSON text) (decoded v).
Proof.
  intros H. rewrite (CompactJSON_document _ _ H). apply parse_iff, parse_Marshal_tidy; [apply decoded_tidy; eapply document_tidy; exact H|].
  destruct H as [_ Hs]. unfold shallow in *. apply N.leb_le in Hs. apply N.leb_le. pose proof (levels_decoded v). lia.
Qed.
Lemma CompactJSON_none text : ~ (exists v, document false text v) -> CompactJSON text = "".
Proof.
  intros Hn. unfold CompactJSON. destruct (String.eqb _ _); [reflexivity|]. destruct (parse_document false text) as [v|] eqn:E; [|reflexivity].
  exfalso. apply Hn. exists v. apply parse_iff, E.
Qed.
Lemma CompactJSON_idempotent text : CompactJSON (CompactJSON text) = CompactJSON text.
Proof.
  destruct (parse_document false text) as [v|] eqn:E.
  - apply parse_iff in E. rewrite (CompactJSON_document _ _ (CompactJSON_again _ _ E)), (CompactJSON_document _ _ E), decoded_fixed by apply decoded_ordered. reflexivity.
  - rewrite (CompactJSON_none text); [reflexivity|]. intros (v & H%parse_iff). congruence.
Qed.

(** C17: the JSON gate. CompactJSON gives a text exactly for a text that is one JSON value and nothing else;
    what it gives is one JSON value again, the same one with each object's members in the order of their
    names, each name once with its last value, and with every number's text as it was; and giving it that
    text again changes nothing. The gate hands back either the compact text or the reply as written. *)
Theorem CompactJSON_exact text :
  (CompactJSON text = "" <-> ~ exists v, document false text v) /\
  (forall v, document false text v ->
    document false (CompactJSON text) (decoded v) /\ ordered (decoded v) /\ CompactJSON (CompactJSON text) = CompactJSON text) /\
  (forall m k, member k (map_of m) = member k (rev m)) /\
  gateJSON text = if String.eqb (CompactJSON text) "" then ("", text) else (CompactJSON text, "").
Proof.
  split; [|split; [|split]].
  - split; [|apply CompactJSON_none]. intros E (v & H). rewrite (CompactJSON_document _ _ H) in E. apply (Marshal_nonempty (decoded v)); [|exact E].
    apply decoded_tidy. eapply document_tidy. exact H.
  - intros v H. split; [exact (CompactJSON_again _ _ H)|]. split; [apply decoded_ordered | apply CompactJSON_idempotent].
  - intros m k. apply map_of_member.
  - unfold gateJSON. destruct (String.eqb_spec (CompactJSON text) "") as [->|]; reflexivity.
Qed.

End LlmJson.
