(* ===== verification/LlmProvider.v ===== *)
(** The data of src/llm: provider.go (kinds, requests, results, configurations), secret.go, the HTTP client of
    transport.go, and the constructors of openai.go, anthropic.go and compatible.go. A schema is a JSON value;
    an http.Client is what the code sets of it. *)
From S2P Require Import Prelude Json GoStrings.

Module LlmProvider.
Import Json GoStrings.

(** * Kinds *)

Definition KindOpenAI : string := "openai".
Definition KindAnthropic : string := "anthropic".
Definition KindLocal : string := "local".
Definition KindGemini : string := "gemini".
Definition KindQwen : string := "qwen".

Definition defaultModels : list (string * string) :=
  [(KindOpenAI, "gpt-5-mini"); (KindAnthropic, "claude-haiku-5-5"); (KindGemini, "gemini-3.8-flash"); (KindQwen, "qwen-plus"); (KindLocal, "llama3.2")].
Definition DefaultModel (kind : string) : string := default "" (snd <$> find (fun km => String.eqb km.1 kind) defaultModels).
Definition Kinds : list string := [KindAnthropic; KindGemini; KindLocal; KindOpenAI; KindQwen].

(** * Requests and results *)

Definition FormatTypeJSONSchema : string := "".
Definition FormatTypeJSONObject : string := "json_object".
(** A nil Schema is JNull. *)
Record JSONFormat := mkFormat { FType : string; FName : string; Schema : json }.

Definition object_ (f : option JSONFormat) : bool := match f with Some f => String.eqb (FType f) FormatTypeJSONObject | None => false end.
Definition schema_ (f : option JSONFormat) : bool := match f with Some f => negb (String.eqb (FType f) FormatTypeJSONObject) | None => false end.

Inductive CachePolicy := CacheNone | CacheSystem.
Record Request := mkRequest {
  System : string; Prompt : string; Format : option JSONFormat; MaxOutputTokens : Z; Seed : option Z; ReasoningEffort : string; Cache : CachePolicy }.

Record Usage := mkUsage { InputTokens : option Z; OutputTokens : option Z; CachedInputTokens : option Z; CacheCreationInputTokens : option Z }.
Definition no_usage : Usage := mkUsage None None None None.

Record Result := mkResult {
  Text : string; RModel : string; ResponseModel : string; StopReason : string; RUsage : Usage; Unparsed : string;
  FormatPath : string; FormatReason : string; Refused : bool }.

Definition FormatPathSchema : string := "schema".
Definition FormatPathTool : string := "tool".
Definition FormatPathObject : string := "object".

(** * Secrets *)

(** A nil pointer is None. *)
Definition Secret := option string.
Definition NewSecret (value : string) : Secret := if String.eqb value "" then None else Some value.
Definition Reveal (s : Secret) : string := default "" s.
Definition Configured (s : Secret) : bool := match s with Some _ => true | None => false end.
(** Every printed form of a Secret. *)
Definition redacted : string := "[REDACTED]".
Definition printed (s : Secret) : string := redacted.

(** * The HTTP client *)

(** Client.Transport: nil, a *http.Transport with or without a proxy function, another round tripper. *)
Inductive roundTripper := NilTransport | NetTransport (proxy : bool) (rest : string) | CustomTransport (name : string).
Record http_client := mkClient { Timeout : Z; refuses_redirects : bool; Transport : roundTripper }.

Definition hardenedTimeout : Z := 60000000000.
Definition newHardenedClient : http_client := mkClient hardenedTimeout true (NetTransport false "").
(** http.DefaultTransport asks the environment for a proxy. *)
Definition DefaultTransport : roundTripper := NetTransport true "DefaultTransport".
Definition noRedirects (c : http_client) : http_client := mkClient (Timeout c) true (Transport c).

(** * Configurations *)

Inductive OutputCapMode := OutputCapDefault | OutputCapOmit.
Inductive TemperatureMode := TemperatureDefault | TemperatureOmit.
#[global] Instance OutputCapMode_eq_dec : EqDecision OutputCapMode.
Proof. solve_decision. Defined.
#[global] Instance TemperatureMode_eq_dec : EqDecision TemperatureMode.
Proof. solve_decision. Defined.

Section Configs.
(** Budgets, which LlmBudget.v describes. *)
Context {B : Type}.

Record Config := mkConfig {
  Kind : string; APIKey : Secret; BaseURL : string; CModel : string; CMaxOutputTokens : Z; HTTPClient : option http_client; CBudget : option B;
  Temperature : TemperatureMode; OutputCap : OutputCapMode }.

Definition clientFor (cfg : Config) : http_client :=
  match HTTPClient cfg with
  | None => newHardenedClient
  | Some c =>
      let client := noRedirects c in
      let transport := match Transport client with NilTransport => DefaultTransport | t => t end in
      match transport with
      | NetTransport _ rest => mkClient (Timeout client) (refuses_redirects client) (NetTransport false rest)
      | t => mkClient (Timeout client) (refuses_redirects client) t
      end
  end.

(** strings.TrimRight(s, "/") *)
Definition trim_slashes (s : string) : string :=
  of_chars (rev ((fix go (l : list ascii) := match l with c :: r => if Ascii.eqb c "/" then go r else l | [] => [] end) (rev (chars s)))).

Definition withDefaults (c : Config) (defaultBaseURL : string) : Config :=
  let base := if String.eqb (TrimSpace (BaseURL c)) "" then defaultBaseURL else BaseURL c in
  mkConfig (Kind c) (APIKey c) (trim_slashes base) (if String.eqb (CModel c) "" then DefaultModel (Kind c) else CModel c) (CMaxOutputTokens c) (HTTPClient c) (CBudget c)
    (Temperature c) (OutputCap c).

(** A built client: its configuration and the HTTP client it sends with. *)
Record built := mkBuilt { cfg : Config; client : http_client }.
Inductive new_error := UnknownKind | NotCompatible | MissingKey.

Definition set_kind (kind : string) (c : Config) : Config :=
  mkConfig kind (APIKey c) (BaseURL c) (CModel c) (CMaxOutputTokens c) (HTTPClient c) (CBudget c) (Temperature c) (OutputCap c).
Definition set_key (key : Secret) (c : Config) : Config :=
  mkConfig (Kind c) key (BaseURL c) (CModel c) (CMaxOutputTokens c) (HTTPClient c) (CBudget c) (Temperature c) (OutputCap c).
Definition set_floor (floor : Z) (c : Config) : Config :=
  mkConfig (Kind c) (APIKey c) (BaseURL c) (CModel c) (Z.max (CMaxOutputTokens c) floor) (HTTPClient c) (CBudget c) (Temperature c) (OutputCap c).

Definition defaultOpenAIBaseURL : string := "https://api.openai.com/v1".
Definition openAIMinOutputTokens : Z := 2048.
Definition NewOpenAI (c : Config) : result new_error built :=
  let c := set_kind KindOpenAI c in
  if negb (Configured (APIKey c)) then Err MissingKey
  else let c := set_floor openAIMinOutputTokens (withDefaults c defaultOpenAIBaseURL) in Ok (mkBuilt c (clientFor c)).

Definition defaultAnthropicBaseURL : string := "https://api.anthropic.com".
Definition anthropicMinOutputTokens : Z := 4096.
Definition NewAnthropic (c : Config) : result new_error built :=
  let c := set_kind KindAnthropic c in
  if negb (Configured (APIKey c)) then Err MissingKey
  else let c := set_floor anthropicMinOutputTokens (withDefaults c defaultAnthropicBaseURL) in Ok (mkBuilt c (clientFor c)).

Definition defaultLocalBaseURL : string := "http://localhost:11434/v1".
Definition defaultLocalAPIKey : string := "not-needed".
Definition defaultGeminiBaseURL : string := "https://generativelanguage.googleapis.com/v1beta/openai".
Definition defaultDashScopeBaseURL : string := "https://dashscope.aliyuncs.com/compatible-mode/v1".
Definition compatibleMinOutputTokens : Z := 4096.
Definition NewCompatible (c : Config) : result new_error built :=
  let start :=
    if String.eqb (Kind c) KindLocal then Ok (defaultLocalBaseURL, if Configured (APIKey c) then c else set_key (NewSecret defaultLocalAPIKey) c)
    else if String.eqb (Kind c) KindGemini then Ok (defaultGeminiBaseURL, c)
    else if String.eqb (Kind c) KindQwen then Ok (defaultDashScopeBaseURL, c)
    else Err NotCompatible in
  match start with
  | Err e => Err e
  | Ok (defaultBaseURL, c) =>
      if negb (Configured (APIKey c)) then Err MissingKey
      else let c := set_floor compatibleMinOutputTokens (withDefaults c defaultBaseURL) in Ok (mkBuilt c (clientFor c))
  end.

Definition New (c : Config) : result new_error built :=
  if String.eqb (Kind c) KindOpenAI then NewOpenAI c
  else if String.eqb (Kind c) KindAnthropic then NewAnthropic c
  else if existsb (String.eqb (Kind c)) [KindLocal; KindGemini; KindQwen] then NewCompatible c
  else Err UnknownKind.

(** No client follows a redirect or sends through a proxy of net/http; another round tripper is the caller's. *)
Definition hardened (c : http_client) : Prop := refuses_redirects c = true /\ forall rest, Transport c <> NetTransport true rest /\ Transport c <> NilTransport.

Lemma clientFor_hardened c : hardened (clientFor c).
Proof. unfold hardened, clientFor. destruct (HTTPClient c) as [[t r tr]|]; [destruct tr|]; cbn; (split; [reflexivity|]); intros u; split; discriminate. Qed.

(** What New accepts: a known kind, with a key unless it is local; and what it builds. *)
Lemma New_exact c :
  match New c with
  | Ok b => Kind c ∈ Kinds /\ Kind (cfg b) = Kind c /\ Configured (APIKey (cfg b)) = true /\ hardened (client b) /\
      (CMaxOutputTokens c <= CMaxOutputTokens (cfg b))%Z /\ (CModel c <> "" -> CModel (cfg b) = CModel c) /\ CModel (cfg b) <> "" /\
      (Configured (APIKey c) = true -> APIKey (cfg b) = APIKey c)
  | Err UnknownKind => Kind c ∉ Kinds
  | Err MissingKey => Kind c ∈ Kinds /\ Kind c <> KindLocal /\ APIKey c = None
  | Err NotCompatible => False
  end.
Proof.
  destruct c as [kind key base model maxt hc bud temp cap]. unfold New. cbn [Kind APIKey CModel].
  assert (Hm : forall m, m <> "" -> (if String.eqb model "" then m else model) <> "") by (intros m Hm; destruct (String.eqb_spec model ""); assumption).
  assert (Hm' : forall m, model <> "" -> (if String.eqb model "" then m else model) = model) by (intros m H; destruct (String.eqb_spec model ""); [contradiction | reflexivity]).
  assert (Hin : forall k, existsb (String.eqb k) Kinds = true -> k ∈ Kinds) by (intros k (x & Hx & ->%String.eqb_eq)%existsb_exists; apply list_elem_of_In, Hx).
  assert (Hk : forall kind, kind <> KindOpenAI -> kind <> KindAnthropic -> kind <> KindLocal -> kind <> KindGemini -> kind <> KindQwen -> kind ∉ Kinds)
    by (intros k ? ? ? ? ?; unfold Kinds; rewrite !not_elem_of_cons; repeat split; auto using not_elem_of_nil).
  assert (Hne : forall k, existsb (String.eqb k) Kinds = true -> DefaultModel k <> "").
  { intros k (x & Hx & ->%String.eqb_eq)%existsb_exists. destruct Hx as [<-|[<-|[<-|[<-|[<-|[]]]]]]; discriminate. }
  destruct (String.eqb_spec kind KindOpenAI) as [->|N1]; [|destruct (String.eqb_spec kind KindAnthropic) as [->|N2]].
  1,2: unfold NewOpenAI, NewAnthropic; cbn [Configured APIKey set_kind]; destruct key; cbn [negb]; [|split; [apply Hin; reflexivity|split; [discriminate | reflexivity]]];
    cbn [cfg client Kind APIKey CMaxOutputTokens CModel withDefaults set_kind set_floor Configured];
    (split; [apply Hin; reflexivity|]); (split; [reflexivity|]); (split; [reflexivity|]); (split; [apply clientFor_hardened|]); (split; [apply Z.le_max_l|]); (split; [apply Hm'|]);
    (split; [apply Hm, Hne; reflexivity|]); auto.
  cbn [existsb]. unfold NewCompatible. cbn [Kind APIKey].
  destruct (String.eqb_spec kind KindLocal) as [->|N3]; [|destruct (String.eqb_spec kind KindGemini) as [->|N4]; [|destruct (String.eqb_spec kind KindQwen) as [->|N5]; [|cbn; auto]]].
  all: cbn [orb]; destruct key; cbn [Configured APIKey set_key NewSecret String.eqb defaultLocalAPIKey Ascii.eqb Bool.eqb negb];
    try (split; [apply Hin; reflexivity|split; [discriminate | reflexivity]]);
    cbn [cfg client Kind APIKey CMaxOutputTokens CModel withDefaults set_kind set_key set_floor Configured];
    (split; [apply Hin; reflexivity|]); (split; [reflexivity|]); (split; [reflexivity|]); (split; [apply clientFor_hardened|]); (split; [apply Z.le_max_l|]); (split; [apply Hm'|]);
    (split; [apply Hm, Hne; reflexivity|]); auto; discriminate.
Qed.

End Configs.
Arguments Config : clear implicits.
Arguments built : clear implicits.
End LlmProvider.
