(* ===== verification/LlmRedact.v ===== *)
(** What src/llm prints: the text of an error (errors.go sanitizeMessage and Error), what it never lets through,
    and the printed forms of a provider (secret.go). *)
From S2P Require Import Prelude Utf8 Json JsonEncode GoStrings PepCacheKey GoRegexp LlmErrors LlmProvider.

Module LlmRedact.
Import Utf8 Json GoStrings GoRegexp LlmProvider LlmErrors.

(** * secretPatterns *)

Definition ci (p : N -> bool) : N -> bool := fold p.
Definition cs (p : N -> bool) : N -> bool := p.

(** [A-Za-z0-9+/_.~-], [\s:=] and ['\x22]? *)
Definition token_char (r : N) : bool := alnum r || among "+/_.~-" r.
Definition separator (r : N) : bool := space r || among ":=" r.
Definition quote_char (r : N) : bool := among "'" r || (r =? code dquote)%N.
Definition not_in (p : N -> bool) (r : N) : bool := negb (p r).

Definition value : pat := Seq (Plus (ci token_char)) (Many (among "=")).
Definition authorization_pattern : pat :=
  Seq (Group (Seq (literal ci "authorization") (Plus separator))) (Seq (Opt (Rune quote_char)) (Seq value (Opt (Seq (Plus space) value)))).
Definition userinfo_pattern : pat :=
  Seq Edge (Seq (Group (Seq (Rune (fun r => span "A" "Z" r || span "a" "z" r)) (Seq (Many (fun r => alnum r || among "+.-" r)) (literal cs "://"))))
    (Seq (Plus (not_in (fun r => space r || among "@" r))) (Rune (among "@")))).
Definition label_pattern : pat :=
  Seq (Group (Seq (one_of ci ["secret"; "token"; "key"; "password"; "passwd"; "credential"; "authorization"; "signature"]) (Plus separator)))
    (Seq (Opt (Rune quote_char)) (Plus (not_in (fun r => quote_char r || space r || among ",;}" r)))).
Definition prefix_pattern : pat :=
  Seq Edge (Seq (Alt (Alt (Alt (one_of cs ["sk-"; "sk_live_"; "sk_test_"; "ghp_"; "gho_"; "github_pat_"]) (Seq (literal cs "xox") (Seq (Plus alnum) (literal cs "-")))) (literal cs "AKIA")) (literal cs "AIza"))
    (at_least 6 (fun r => alnum r || among "_-" r))).
Definition opaque_char (r : N) : bool := alnum r || among "+/_-" r.
Definition opaque_pattern : pat :=
  Seq Edge (Seq (at_least 24 opaque_char) (Seq (Opt (Seq (Rune (among "=")) (Opt (Rune (among "="))))) Edge)).
Definition secretPatterns : list pat := [authorization_pattern; userinfo_pattern; label_pattern; prefix_pattern; opaque_pattern].

(** * sanitizeMessage *)

Definition marker : string := "<redacted>".
Definition redact (pattern : pat) (found : string) : string :=
  match FindStringSubmatch pattern found with
  | Some sub => if String.eqb sub "" then marker else sub +:+ marker
  | None => marker
  end.
Definition LF : ascii := chr 10.
Definition CR : ascii := chr 13.
Definition one_line (message : string) : string := of_chars (map (fun c => if Ascii.eqb c LF || Ascii.eqb c CR then " "%char else c) (chars message)).

Definition sanitizeMessage (message : string) : string :=
  let message := if String.eqb message "" then "LLM provider error" else message in
  let text := fold_left (fun text pattern => ReplaceAllStringFunc pattern text (redact pattern)) secretPatterns (TrimSpace (one_line message)) in
  if 500 <? String.length text then take 500 text else text.

(** Error(), which every fmt verb prints. *)
Definition Error_Error (e : Error) : string :=
  join " | " ([sanitizeMessage (err_message e)] ++ (if String.eqb (Provider e) "" then [] else ["provider=" +:+ Provider e]) ++
    (if String.eqb (Model e) "" then [] else ["model=" +:+ Model e]) ++ (if String.eqb (cause_type e) "" then [] else ["cause_type=" +:+ cause_type e])).

Definition q (s : string) : string := String dquote s +:+ String dquote "".
Example redactions : map sanitizeMessage
  ["Authorization: Bearer abc.def-123== please"; "dial postgres://user:pa:ss@db/x failed"; "api_key=hunter2, retry"; "PASSWORD: " +:+ q "open sesame";
   "key sk_live_0123456 and xoxb-aaaaaa1 then ghp_12345"; "id 0123456789abcdef01234567== end"; "plain" +:+ String LF "text  "; ""; "the " +:+ of_chars [chr 226; chr 132; chr 170] +:+ "ey: abc"]
  = ["Authorization: <redacted> please"; "dial postgres://<redacted>db/x failed"; "api_key=<redacted>, retry"; "PASSWORD: <redacted> sesame" +:+ String dquote "";
     "key <redacted> and <redacted> then ghp_12345"; "id <redacted>== end"; "plain text"; "LLM provider error"; "the " +:+ of_chars [chr 226; chr 132; chr 170] +:+ "ey: <redacted>"].
Proof. vm_compute. reflexivity. Qed.

(** * The printed forms of a provider *)

Record providerView := mkView { v_Kind : string; v_Model : string; v_BaseURL : string }.
Section View.
Context {B : Type}.
Definition view (p : built B) : providerView := mkView (Kind (cfg p)) (CModel (cfg p)) (BaseURL (cfg p)).
End View.
Section Format.
Variable IsPrint : N -> bool.
(** fmt: the verb v with #, and every other. *)
Definition format (sharp_v : bool) (v : providerView) : string :=
  let quote := CacheKey.Quote IsPrint in
  if sharp_v then "llm.Provider{Kind:" +:+ quote (v_Kind v) +:+ ", Model:" +:+ quote (v_Model v) +:+ ", BaseURL:" +:+ quote (v_BaseURL v) +:+ "}"
  else "{Kind:" +:+ v_Kind v +:+ " Model:" +:+ v_Model v +:+ " BaseURL:" +:+ v_BaseURL v +:+ "}".
End Format.
(** slog: a group. *)
Definition logValue (v : providerView) : list (string * string) := [("kind", v_Kind v); ("model", v_Model v); ("base_url", v_BaseURL v)].
Definition marshalJSON (v : providerView) : string := Encode.Marshal (JObj [("kind", JStr (v_Kind v)); ("model", JStr (v_Model v)); ("base_url", JStr (v_BaseURL v))]).

(** Two clients that differ in their keys and clients only print the same. *)
Lemma view_without_key {B} (c : Config B) key1 key2 client1 client2 : view (mkBuilt (set_key key1 c) client1) = view (mkBuilt (set_key key2 c) client2).
Proof. reflexivity. Qed.

(** * What no text lets through *)

Definition word_byte (c : ascii) : bool := is_word (code c).
(** [n] bytes in a row of the alphabet of \b, in [l]. *)
Definition has_run (n : nat) (l : list ascii) : Prop := exists u w v, l = u ++ w ++ v /\ length w = n /\ Forall (fun c => word_byte c = true) w.
(** The same of runes. *)
Definition word (c : chunk) : bool := is_word c.1.
Definition has_runes (n : nat) (l : list chunk) : Prop := exists u w v, l = u ++ w ++ v /\ length w = n /\ Forall (fun c => word c = true) w.

(** A rune's bytes: itself, or none that is a word character's. *)
Definition plain (c : chunk) : Prop := if word c then exists a, c.2 = String a "" /\ word_byte a = true else Forall (fun a => word_byte a = false) (chars c.2) /\ c.2 <> "".

Lemma is_word_ascii r : is_word r = true -> (r < 128)%N.
Proof. unfold is_word. rewrite !orb_true_iff, !andb_true_iff, !N.leb_le, N.eqb_eq. lia. Qed.
Lemma high_rune r : (128 <= r)%N -> is_word r = false.
Proof. intros H. destruct (is_word r) eqn:E; [|reflexivity]. apply is_word_ascii in E. lia. Qed.

(** A byte of 128 and more begins a rune that is no word character, of bytes that are none. *)
Lemma high_decode a s : (128 <= code a)%N ->
  (128 <= (DecodeRune (String a s)).1)%N /\ Forall (fun c => (128 <= code c)%N) (chars (take (DecodeRune (String a s)).2 (String a s))).
Proof.
  intros Ha. assert (H1 : (128 <= RuneError)%N /\ Forall (fun c => (128 <= code c)%N) (chars (take 1 (String a s)))) by (split; [discriminate | constructor; [exact Ha | constructor]]).
  simpl DecodeRune. rewrite (proj2 (N.ltb_ge _ _)) by exact Ha.
  destruct (between 194 223 a) eqn:E2; [|destruct (between 224 239 a) eqn:E3; [|destruct (between 240 244 a) eqn:E4; [|exact H1]]].
  - destruct s as [|b s]; [exact H1|]. destruct (cont b) eqn:Hb; [|exact H1]. apply between_code in E2. apply cont_code in Hb. unfold low6. cbn [fst snd take chars].
    split; [lia|]. repeat constructor; lia.
  - destruct s as [|b [|c s]]; [exact H1 | exact H1 |]. destruct (between _ _ b && cont c) eqn:Hb; [|exact H1].
    apply andb_true_iff in Hb as [Hb Hc]. apply between_code in E3, Hb. apply cont_code in Hc. unfold low6. cbn [fst snd take chars].
    destruct (N.eqb_spec (code a) 224), (N.eqb_spec (code a) 237); (split; [lia|]; repeat constructor; lia).
  - destruct s as [|b [|c [|d s]]]; [exact H1 | exact H1 | exact H1 |]. destruct (between _ _ b && cont c && cont d) eqn:Hb; [|exact H1].
    apply andb_true_iff in Hb as [Hb Hd]. apply andb_true_iff in Hb as [Hb Hc]. apply between_code in E4, Hb. apply cont_code in Hc, Hd. unfold low6. cbn [fst snd take chars].
    destruct (N.eqb_spec (code a) 240), (N.eqb_spec (code a) 244); (split; [lia|]; repeat constructor; lia).
Qed.

Lemma decoded_plain s : s <> "" -> plain ((DecodeRune s).1, take (DecodeRune s).2 s).
Proof.
  intros Hs. unfold plain, word. cbn [fst snd]. destruct s as [|a s]; [congruence|].
  destruct (N.ltb_spec (code a) 128) as [Ha|Ha].
  - rewrite decode_ascii by exact Ha. cbn [fst snd take]. unfold word_byte. destruct (is_word (code a)) eqn:E; [exists a; split; [reflexivity | exact E]|].
    split; [|discriminate]. constructor; [exact E | constructor].
  - destruct (high_decode a s Ha) as [Hr Hb]. rewrite high_rune by exact Hr. split.
    + eapply Forall_impl; [exact Hb|]. intros c Hc. apply high_rune. exact Hc.
    + pose proof (decode_width (String a s) ltac:(discriminate)) as Hw. destruct (DecodeRune (String a s)).2; [lia | discriminate].
Qed.
Lemma runes_plain s : Forall plain (runes s).
Proof.
  unfold runes. generalize (String.length s). intros fuel. revert s. induction fuel as [|fuel IH]; intros [|a s]; cbn [runes_]; try constructor.
  pose proof (decoded_plain (String a s) ltac:(discriminate)) as H. destruct (DecodeRune (String a s)) as [r w]. constructor; [exact H | apply IH].
Qed.

(** A run of bytes is a run of runes. *)
Lemma run_at_head l : forall w v, Forall plain l -> chars (bytes l) = w ++ v -> Forall (fun c => word_byte c = true) w ->
  exists w' v', l = w' ++ v' /\ length w' = length w /\ Forall (fun c => word c = true) w'.
Proof.
  induction l as [|c l IH]; intros [|a w] v Hl E Hw.
  - exists [], []. auto.
  - discriminate.
  - exists [], (c :: l). auto.
  - apply Forall_cons in Hl as [Hc Hl]. apply Forall_cons in Hw as [Ha Hw]. rewrite bytes_cons, chars_app in E. unfold plain in Hc. destruct (word c) eqn:Ec.
    + destruct Hc as (x & Ex & Hx). rewrite Ex in E. cbn [chars app] in E. injection E as -> E. destruct (IH _ _ Hl E Hw) as (w' & v' & -> & Hn & Hw').
      exists (c :: w'), v'. split; [reflexivity|]. split; [cbn; congruence | constructor; assumption].
    + destruct Hc as [Hb Hne]. destruct c.2 as [|x t]; [congruence|]. injection E as -> E. apply Forall_cons in Hb as [Hb _]. congruence.
Qed.
Lemma run_of_runes n l : n <> 0 -> Forall plain l -> has_run n (chars (bytes l)) -> has_runes n l.
Proof.
  intros Hn. induction l as [|c l IH]; intros Hl (u & w & v & E & Hw & Hr).
  - symmetry in E. apply app_eq_nil in E as [_ E]. apply app_eq_nil in E as [-> _]. cbn in Hw. congruence.
  - assert (Hh : u = [] -> has_runes n (c :: l)).
    { intros ->. destruct (run_at_head _ w v Hl E Hr) as (w' & v' & E' & Hn' & Hw'). exists [], w', v'. rewrite Hn', Hw. auto. }
    apply Forall_cons in Hl as [Hc Hl]. rewrite bytes_cons, chars_app in E.
    assert (Ht : has_run n (chars (bytes l)) -> has_runes n (c :: l)).
    { intros H. destruct (IH Hl H) as (u' & w' & v' & -> & H'). exists (c :: u'), w', v'. auto. }
    apply app_eq_inv in E as [(k & E1 & E2)|(k & E1 & E2)]; [|apply Ht; exists k, w, v; auto].
    destruct k as [|x k]; [apply Ht; exists [], w, v; auto|]. unfold plain in Hc. destruct (word c) eqn:Ec.
    + destruct Hc as (y & Ey & _). rewrite Ey in E1. destruct u as [|z u]; [apply Hh; reflexivity|]. cbn in E1. injection E1 as _ E1. destruct u; discriminate.
    + destruct Hc as [Hb _]. rewrite E1 in Hb. apply Forall_app in Hb as [_ Hb]. apply Forall_cons in Hb as [Hb _].
      destruct w as [|y w]; [cbn in Hw; congruence|]. injection E2 as -> _. apply Forall_cons in Hr as [Hr _]. congruence.
Qed.

Lemma runes_length s : length (runes s) <= String.length s.
Proof.
  unfold runes. generalize (String.length s) as fuel. intros fuel. revert s. induction fuel as [|fuel IH]; intros [|a s]; cbn [runes_]; [cbn; lia | cbn; lia | cbn; lia |].
  destruct (DecodeRune (String a s)) as [r w]. cbn [length]. specialize (IH (drop w (String a s))). lia.
Qed.

(** * The opaque runs *)

(** Where a run could begin or end, nothing of it is cut. *)
Definition settled (before : option chunk) (s : list chunk) : Prop := word_at before = true -> word_at (head s) = false.

Lemma word_opaque c : word c = true -> opaque_char c.1 = true.
Proof.
  unfold word, is_word, opaque_char, alnum, span. rewrite !orb_true_iff, !andb_true_iff, !N.leb_le, N.eqb_eq. intros H.
  change (code "A") with 65%N. change (code "Z") with 90%N. change (code "a") with 97%N. change (code "z") with 122%N. change (code "0") with 48%N. change (code "9") with 57%N.
  destruct H as [[[H|H]|H]|H]; [auto | auto | auto | right; rewrite H; reflexivity].
Qed.
Lemma Matches_exactly n p : forall b (w : list chunk) s, length w = n -> Forall (fun c => p c.1 = true) w -> Matches (exactly n (Rune p)) b (w ++ s) (last_of b w) s.
Proof.
  induction n as [|n IH]; intros b [|c w] s Hn Hw; try discriminate; [apply M_eps|]. apply Forall_cons in Hw as [Hc Hw]. injection Hn as Hn.
  rewrite last_of_cons. eapply M_seq; [apply M_rune; exact Hc | apply IH; assumption].
Qed.
Lemma Matches_many (p : N -> bool) w : forall b s, Forall (fun c => p c.1 = true) w -> Matches (Many p) b (w ++ s) (last_of b w) s.
Proof. induction w as [|c w IH]; intros b s Hw; [apply M_many_nil|]. apply Forall_cons in Hw as [Hc Hw]. rewrite last_of_cons. apply M_many_cons; [exact Hc | apply IH; exact Hw]. Qed.

Lemma word_span (l : list chunk) : exists w v, l = w ++ v /\ Forall (fun c => word c = true) w /\ word_at (head v) = false.
Proof.
  induction l as [|c l (w & v & -> & Hw & Hv)]; [exists [], []; auto|]. destruct (word c) eqn:E; [exists (c :: w), v; auto|].
  exists [], (c :: w ++ v). auto.
Qed.
Lemma word_last b l : l <> [] -> Forall (fun c => word c = true) l -> word_at (last_of b l) = true.
Proof.
  intros Hl H. destruct l as [|c k _] using rev_ind; [congruence|].
  rewrite last_of_app. apply Forall_app in H as [_ H]. apply Forall_cons in H as [H _]. exact H.
Qed.

(** Twenty-four word characters after an edge are a match, with the rest of their word. *)
Lemma opaque_matches b (w v : list chunk) : word_at b = false -> length w = 24 -> Forall (fun c => word c = true) w -> exists b1 s1, Matches opaque_pattern b (w ++ v) b1 s1.
Proof.
  intros Hb Hn Hw. destruct (word_span v) as (x & y & -> & Hx & Hy). exists (last_of (last_of b w) x), y.
  assert (Ho : forall l, Forall (fun c => word c = true) l -> Forall (fun c : chunk => opaque_char c.1 = true) l) by (intros l Hl; eapply Forall_impl; [exact Hl | exact word_opaque]).
  unfold opaque_pattern, at_least, Opt. eapply M_seq; [apply M_edge|].
  { unfold at_edge. rewrite Hb. destruct w as [|c w]; [discriminate|]. apply Forall_cons in Hw as [Hc _]. cbn. unfold word in Hc. rewrite Hc. reflexivity. }
  eapply M_seq; [eapply M_seq; [apply Matches_exactly; [exact Hn | apply Ho; exact Hw] | apply Matches_many; apply Ho; exact Hx]|].
  eapply M_seq; [apply M_alt_r, M_eps | apply M_edge]. unfold at_edge. rewrite Hy, <-last_of_app, word_last; [reflexivity | |].
  - destruct w; [discriminate | discriminate].
  - apply Forall_app. auto.
Qed.
(** A match ends at an edge, so no word is cut there. *)
Lemma opaque_ends b s b1 s1 : Matches opaque_pattern b s b1 s1 -> settled b1 s1.
Proof.
  intros H. apply seq_inv in H as (? & ? & _ & H). apply seq_inv in H as (? & ? & _ & H). apply seq_inv in H as (? & ? & _ & H).
  apply edge_inv in H as (-> & -> & E). unfold at_edge in E. unfold settled. intros Hb. rewrite Hb in E. destruct (word_at (head _)); [discriminate | reflexivity].
Qed.

(** In a text that no match begins in, no 24 word characters follow each other. *)
Lemma skipped_short b l v : settled b (l ++ v) ->
  (forall u k b1 s1, l = u ++ k -> k <> [] -> ~ Matches opaque_pattern (last_of b u) (k ++ v) b1 s1) -> ~ has_runes 24 l.
Proof.
  intros Hs Hn (u & w & x & E & Hl & Hw). revert w x E Hl Hw. induction u as [|c u IH] using rev_ind; intros w x E Hl Hw.
  - cbn [app] in E. subst l. destruct (word_at b) eqn:Hb.
    + specialize (Hs Hb). destruct w as [|c w]; [discriminate|]. apply Forall_cons in Hw as [Hc _]. cbn in Hs. unfold word in Hc. congruence.
    + destruct (opaque_matches b w (x ++ v) Hb Hl Hw) as (b1 & s1 & H). rewrite app_assoc in H.
      apply (Hn [] (w ++ x) b1 s1 eq_refl); [destruct w; discriminate | exact H].
  - destruct (word c) eqn:Ec.
    + destruct w as [|y w _] using rev_ind; [discriminate|]. rewrite length_app in Hl. cbn in Hl. apply Forall_app in Hw as [Hw _].
      apply (IH (c :: w) (y :: x)); [rewrite E, <-!app_assoc; reflexivity | cbn; lia | constructor; assumption].
    + destruct (opaque_matches (last_of b (u ++ [c])) w (x ++ v)) as (b1 & s1 & H); [rewrite last_of_app; exact Ec | exact Hl | exact Hw |].
      rewrite app_assoc in H. apply (Hn (u ++ [c]) (w ++ x) b1 s1 E); [destruct w; discriminate | exact H].
Qed.

(** ** The whole pass *)

Lemma has_run_app n l k x : word_byte x = false -> has_run n (l ++ x :: k) -> has_run n l \/ has_run n k.
Proof.
  intros Hx (u & w & v & E & Hn & Hw). apply app_eq_inv in E as [(p & -> & E)|(p & -> & E)].
  - apply app_eq_inv in E as [(z & -> & E)|(z & -> & E)].
    + destruct z as [|y z]; [left; exists u, p, []; rewrite !app_nil_r in *; auto|]. injection E as -> _. apply Forall_app in Hw as [_ Hw]. apply Forall_cons in Hw as [Hw _]. congruence.
    + left. exists u, w, z. auto.
  - destruct p as [|y p]; cbn in E.
    + destruct w as [|y w]; [left; exists l, [], []; rewrite !app_nil_r; auto|]. injection E as <- _. apply Forall_cons in Hw as [Hw _]. congruence.
    + injection E as <- E. right. exists p, w, v. auto.
Qed.

Lemma has_run_length n l : has_run n l -> n <= length l.
Proof. intros (u & w & v & -> & <- & _). rewrite !length_app. lia. Qed.
Lemma exactly_length n p : forall b s b1 s1, Matches (exactly n (Rune p)) b s b1 s1 -> length s = n + length s1.
Proof.
  induction n as [|n IH]; intros b s b1 s1 H; cbn [exactly] in H; [inversion H; reflexivity|].
  apply seq_inv in H as (b2 & s2 & H1 & H2). apply IH in H2. inversion H1; subst. cbn [length]. lia.
Qed.
Lemma Matches_shorter a b s b1 s1 : Matches a b s b1 s1 -> length s1 <= length s.
Proof. intros H. apply Matches_prefix in H as (m & -> & _). rewrite length_app. lia. Qed.
Lemma opaque_takes b s b1 s1 : Matches opaque_pattern b s b1 s1 -> length s1 < length s.
Proof.
  intros H. apply seq_inv in H as (? & ? & H1 & H). apply seq_inv in H as (? & ? & H2 & H3). apply seq_inv in H2 as (? & ? & H4 & H5).
  apply exactly_length in H4. apply Matches_shorter in H1, H3, H5. lia.
Qed.

Lemma replaced_short (repl : string -> string) : (forall m, repl m = marker) ->
  forall fuel b s, length s <= fuel -> Forall plain s -> settled b s -> ~ has_run 24 (chars (replace fuel opaque_pattern repl b s)).
Proof.
  intros Hr. induction fuel as [|fuel IH]; intros b s Hl Hp Hs; cbn [replace].
  - destruct s; [|cbn in Hl; lia]. intros H. apply has_run_length in H. cbn in H. lia.
  - destruct (find opaque_pattern b s) as [f|] eqn:Ef.
    + destruct (leftmost_found _ _ _ _ Ef) as (E & Hb & Hm & Hn). pose proof (opaque_takes _ _ _ _ Hm) as Ht. pose proof (opaque_ends _ _ _ _ Hm) as He.
      rewrite E in Hp. apply Forall_app in Hp as [Hp1 Hp]. apply Forall_app in Hp as [_ Hp2]. rewrite Hr, !chars_app.
      change (chars marker) with ("<"%char :: chars "redacted" ++ [">"%char]). cbn [app]. rewrite <-app_assoc. cbn [app]. intros H.
      apply has_run_app in H as [H|H]; [|apply has_run_app in H as [H|H]; [|revert H; apply IH; [|exact Hp2 | exact He] |reflexivity]|reflexivity].
      * apply run_of_runes in H; [|discriminate | exact Hp1]. revert H. eapply skipped_short; [|exact Hn]. rewrite <-E. exact Hs.
      * apply has_run_length in H. cbn in H. lia.
      * rewrite E, !length_app in Hl. rewrite length_app in Ht. lia.
    + intros H. apply run_of_runes in H; [|discriminate | exact Hp]. revert H. apply (skipped_short b s []).
      * rewrite app_nil_r. exact Hs.
      * intros u k b1 s1 E _. rewrite app_nil_r. exact (leftmost_none _ _ _ Ef u k b1 s1 E).
Qed.
Lemma opaque_redact m : redact opaque_pattern m = marker.
Proof.
  unfold redact, FindStringSubmatch. destruct (find opaque_pattern None (runes m)) as [f|] eqn:E; [|reflexivity]. cbn [option_map].
  assert (Hg : groupless opaque_pattern = true) by reflexivity. rewrite (find_groupless _ _ Hg _ _ E). reflexivity.
Qed.

(** ** Lines and lengths *)

(** A pass leaves bytes that satisfy [P], as those of "<redacted>" do. *)
Section Kept.
Variable P : ascii -> Prop.
Hypothesis marker_P : Forall P (chars marker).

Lemma runes_P s : Forall P (chars s) -> Forall (fun c => Forall P (chars c.2)) (runes s).
Proof. intros H. apply Forall_bytes. rewrite runes_bytes. exact H. Qed.
Lemma redact_P pattern m : Forall P (chars m) -> Forall P (chars (redact pattern m)).
Proof.
  intros H. unfold redact, FindStringSubmatch. destruct (find pattern None (runes m)) as [f|] eqn:E; [|exact marker_P]. cbn [option_map].
  destruct (group1 f) as [l|] eqn:Eg; [|exact marker_P]. destruct (String.eqb (bytes l) ""); [exact marker_P|]. rewrite chars_app. apply Forall_app. split; [|exact marker_P].
  apply Forall_bytes. exact (find_group_forall _ _ _ (runes_P _ H) _ _ _ E Eg).
Qed.
Lemma replace_P fuel pattern : forall b s, Forall (fun c => Forall P (chars c.2)) s -> Forall P (chars (replace fuel pattern (redact pattern) b s)).
Proof.
  induction fuel as [|fuel IH]; intros b s Hs; cbn [replace]; [apply Forall_bytes; exact Hs|].
  destruct (find pattern b s) as [f|] eqn:E; [|apply Forall_bytes; exact Hs]. destruct (leftmost_found _ _ _ _ E) as (Es & _). rewrite Es, !Forall_app in Hs. destruct Hs as (H1 & H2 & H3).
  rewrite !chars_app, !Forall_app. split; [apply Forall_bytes; exact H1|]. split; [apply redact_P, Forall_bytes; exact H2 | apply IH; exact H3].
Qed.
Lemma pass_P pattern text : Forall P (chars text) -> Forall P (chars (ReplaceAllStringFunc pattern text (redact pattern))).
Proof. intros H. apply replace_P, runes_P. exact H. Qed.
Lemma passes_P patterns : forall text, Forall P (chars text) -> Forall P (chars (fold_left (fun text pattern => ReplaceAllStringFunc pattern text (redact pattern)) patterns text)).
Proof. induction patterns as [|p ps IH]; intros text H; [exact H|]. cbn [fold_left]. apply IH, pass_P, H. Qed.
End Kept.

Lemma strip_suffix p : forall l r, strip p l = Some r -> exists k, l = k ++ r.
Proof.
  induction p as [|a p IH]; intros l r; cbn [strip]; [intros [= ->]; exists []; reflexivity|]. destruct l as [|c l]; [discriminate|].
  destruct (Ascii.eqb a c); [|discriminate]. intros H. destruct (IH _ _ H) as (k & ->). exists (c :: k). reflexivity.
Qed.
Lemma trim_suffix ps fuel : forall l, exists k, l = k ++ trim ps fuel l.
Proof.
  induction fuel as [|fuel IH]; intros l; cbn [trim]; [exists []; reflexivity|]. destruct (strip_any ps l) as [r|] eqn:E; [|exists []; reflexivity].
  assert (Hk : exists k, l = k ++ r).
  { clear IH. induction ps as [|p ps IHp]; [discriminate|]. cbn [strip_any] in E. destruct (strip p l) eqn:Es; [injection E as ->; exact (strip_suffix _ _ _ Es) | exact (IHp E)]. }
  destruct Hk as (k & ->), (IH r) as (k' & E'). exists (k ++ k'). rewrite E' at 1. apply app_assoc.
Qed.
Lemma TrimSpace_P (P : ascii -> Prop) s : Forall P (chars s) -> Forall P (chars (TrimSpace s)).
Proof.
  assert (Ht : forall ps fuel l, Forall P l -> Forall P (trim ps fuel l)).
  { intros ps fuel l H. destruct (trim_suffix ps fuel l) as (k & E). rewrite E in H. apply Forall_app in H as [_ H]. exact H. }
  intros H. unfold TrimSpace, TrimRight. rewrite chars_of_chars. apply Forall_rev, Ht, Forall_rev. unfold TrimLeft. rewrite chars_of_chars. apply Ht. exact H.
Qed.
Lemma take_chars n s : chars (take n s) = list.take n (chars s).
Proof. revert s. induction n as [|n IH]; intros [|c s]; try reflexivity. cbn. rewrite IH. reflexivity. Qed.

(** C24: whatever the message, the text that a log can show is at most 500 bytes on one line, and no 24 letters,
    digits or underscores follow each other in it. *)
Theorem sanitizeMessage_redacts message :
  let text := sanitizeMessage message in
  String.length text <= 500 /\ free_of LF text /\ free_of CR text /\ ~ has_run 24 (chars text).
Proof.
  unfold sanitizeMessage. set (m := if String.eqb message "" then _ else _). change secretPatterns with ([authorization_pattern; userinfo_pattern; label_pattern; prefix_pattern] ++ [opaque_pattern]).
  rewrite fold_left_app. set (t4 := fold_left _ [authorization_pattern; userinfo_pattern; label_pattern; prefix_pattern] _). cbn [fold_left]. set (t := ReplaceAllStringFunc opaque_pattern t4 _).
  assert (Hline : Forall (fun c => c <> LF /\ c <> CR) (chars t)).
  { subst t t4. apply pass_P; [repeat constructor; discriminate|]. apply passes_P; [repeat constructor; discriminate|]. apply TrimSpace_P. unfold one_line. rewrite chars_of_chars. apply Forall_map.
    assert (Hsp : " "%char <> LF /\ " "%char <> CR) by (vm_compute; split; discriminate).
    apply Forall_forall. intros c _. destruct (Ascii.eqb c LF || Ascii.eqb c CR) eqn:E; [exact Hsp|]. apply orb_false_iff in E as [E1 E2]. simp_bool. auto. }
  assert (Hrun : ~ has_run 24 (chars t)).
  { subst t. apply replaced_short; [exact opaque_redact | apply runes_length | apply runes_plain | discriminate]. }
  assert (Hcut : forall n, Forall (fun c => c <> LF /\ c <> CR) (chars (take n t)) /\ ~ has_run 24 (chars (take n t))).
  { intros n. rewrite take_chars. split; [apply Forall_take; exact Hline|]. intros (u & w & v & E & H). apply Hrun. exists u, w, (v ++ list.drop n (chars t)).
    split; [|exact H]. rewrite <-(firstn_skipn n (chars t)) at 1. rewrite E, <-!app_assoc. reflexivity. }
  assert (Hall : forall x, Forall (fun c => c <> LF /\ c <> CR) (chars x) -> free_of LF x /\ free_of CR x).
  { intros x H. rewrite Forall_forall in H. split; intros Hin; destruct (H _ Hin); congruence. }
  destruct (Nat.ltb_spec 500 (String.length t)) as [Hl|Hl].
  - destruct (Hcut 500) as [Hc Hr], (Hall _ (proj1 (Hcut 500))). split; [|auto]. rewrite <-length_chars, take_chars, length_take. lia.
  - destruct (Hall _ Hline). auto.
Qed.
End LlmRedact.
