(* ===== verification/LlmParse.v ===== *)
(** The response parsers of src/llm: parseOpenAIResponse (openai.go), parseChatResponse (compatible.go) and
    parseAnthropicResponse (anthropic.go). encoding/json binds a body to their structs as AuthReview.v
    describes; a slice that is bound again is written over what its array held, and a json.RawMessage is the
    value's text in the body. *)
From S2P Require Import Prelude Utf8 Json AuthJwks AuthReview LlmProvider.

Module LlmParse.
Import Json LlmProvider.

Section Parse.
Variable SimpleFold : N -> N.
Notation bind_struct := (Review.bind_struct SimpleFold).
Notation bind_string := Jwks.bind_string.

(** * Fields *)

(** A *int: null is nil, a number must be an int64's decimal text. *)
Definition bind_int (v : json) (old : option Z) : option (option Z) :=
  match v with JNull => Some None | JNum t => match Review.ParseInt t with Some n => Some (Some n) | None => None end | _ => None end.

(** A pointer to a struct: null is nil, an object is bound over what it points to, or over a new one. *)
Definition bind_pointer {A} (zero : A) (bind : json -> A -> option A) (v : json) (old : option A) : option (option A) :=
  match v with JNull => Some None | JObj _ => option_map Some (bind v (default zero old)) | _ => None end.

(** A slice: its elements, and its array. *)
Record slice (A : Type) := mkSlice { elems : list A; backing : list A }.
Arguments mkSlice {A} elems backing.
Arguments elems {A} s.
Arguments backing {A} s.
Definition nil_slice {A} : slice A := mkSlice [] [].
Fixpoint bind_elems {A} (zero : A) (bind : json -> A -> option A) (l : list json) (backing : list A) : option (list A) :=
  match l with
  | [] => Some []
  | v :: l =>
      match bind v (default zero (head backing)), bind_elems zero bind l (tail backing) with
      | Some a, Some r => Some (a :: r)
      | _, _ => None
      end
  end.
Definition bind_slice {A} (zero : A) (bind : json -> A -> option A) (v : json) (old : slice A) : option (slice A) :=
  match v with
  | JNull => Some nil_slice
  | JArr [] => Some nil_slice
  | JArr l => option_map (fun e => mkSlice e (e ++ skipn (length e) (backing old))) (bind_elems zero bind l (backing old))
  | _ => None
  end.

(** responseModel: a string or null sets it; any other value leaves it. *)
Definition bind_model (v : json) (old : string) : option string :=
  Some (match v with JStr s => s | JNull => "" | _ => old end).

(** * The Responses API *)

Record chunk := mkChunk { c_Type : string; c_Text : string }.
Definition bind_chunk : json -> chunk -> option chunk :=
  bind_struct (fun f v c => if String.eqb f "type" then option_map (fun s => mkChunk s (c_Text c)) (bind_string v (c_Type c))
                            else option_map (fun s => mkChunk (c_Type c) s) (bind_string v (c_Text c))) ["type"; "text"].
(** An item of output has the one field Content. *)
Definition item := slice chunk.
Definition bind_item : json -> item -> option item := bind_struct (fun _ v c => bind_slice (mkChunk "" "") bind_chunk v c) ["content"].

(** A struct whose one field is a *int. *)
Definition bind_cached : json -> option Z -> option (option Z) := bind_struct (fun _ v n => bind_int v n) ["cached_tokens"].

Record token_usage := mkTokens { u_input : option Z; u_output : option Z; u_details : option (option Z) }.
Definition zero_tokens : token_usage := mkTokens None None None.
Definition bind_tokens (input output details : string) : json -> token_usage -> option token_usage :=
  bind_struct (fun f v u =>
    if String.eqb f input then option_map (fun n => mkTokens n (u_output u) (u_details u)) (bind_int v (u_input u))
    else if String.eqb f output then option_map (fun n => mkTokens (u_input u) n (u_details u)) (bind_int v (u_output u))
    else option_map (fun d => mkTokens (u_input u) (u_output u) d) (bind_pointer None bind_cached v (u_details u))) [input; output; details].

Record openAIResponsesResponse := mkOpenAI {
  o_model : string; o_text : string; o_output : slice item; o_usage : option token_usage; o_incomplete : option string }.
Definition zero_openai : openAIResponsesResponse := mkOpenAI "" "" nil_slice None None.
Definition bind_openai : json -> openAIResponsesResponse -> option openAIResponsesResponse :=
  bind_struct (fun f v r =>
    if String.eqb f "model" then option_map (fun m => mkOpenAI m (o_text r) (o_output r) (o_usage r) (o_incomplete r)) (bind_model v (o_model r))
    else if String.eqb f "output_text" then option_map (fun t => mkOpenAI (o_model r) t (o_output r) (o_usage r) (o_incomplete r)) (bind_string v (o_text r))
    else if String.eqb f "output" then option_map (fun l => mkOpenAI (o_model r) (o_text r) l (o_usage r) (o_incomplete r)) (bind_slice nil_slice bind_item v (o_output r))
    else if String.eqb f "usage" then option_map (fun u => mkOpenAI (o_model r) (o_text r) (o_output r) u (o_incomplete r))
      (bind_pointer zero_tokens (bind_tokens "input_tokens" "output_tokens" "input_tokens_details") v (o_usage r))
    else option_map (fun i => mkOpenAI (o_model r) (o_text r) (o_output r) (o_usage r) i)
      (bind_pointer "" (bind_struct (fun _ v s => bind_string v s) ["reason"]) v (o_incomplete r)))
    ["model"; "output_text"; "output"; "usage"; "incomplete_details"].

Record openAIAnswer := mkOpenAIAnswer { oa_model : string; oa_text : string; oa_reason : string; oa_usage : Usage; oa_refused : bool }.
Definition zero_openai_answer : openAIAnswer := mkOpenAIAnswer "" "" "" no_usage false.

Definition usage_of (u : option token_usage) : Usage :=
  match u with
  | Some u => mkUsage (u_input u) (u_output u) (match u_details u with Some cached => cached | None => None end) None
  | None => no_usage
  end.

Definition chunks (r : openAIResponsesResponse) : list chunk := concat (map elems (elems (o_output r))).
Definition is_text (c : chunk) : bool := String.eqb (c_Type c) "output_text" || String.eqb (c_Type c) "text".
Definition concat_text (l : list string) : string := foldr append "" l.

Definition parseOpenAIResponse (raw : string) : option openAIAnswer :=
  match parse_document false raw with
  | None => None
  | Some v =>
      match bind_openai v zero_openai with
      | None => None
      | Some decoded =>
          let text := if String.eqb (o_text decoded) "" then concat_text (map c_Text (List.filter is_text (chunks decoded))) else o_text decoded in
          let refused := existsb (fun c => String.eqb (c_Type c) "refusal" && String.eqb text "") (chunks decoded) in
          let reason := match o_incomplete decoded with Some r => if String.eqb r "" then "completed" else r | None => "completed" end in
          Some (mkOpenAIAnswer (o_model decoded) text reason (usage_of (o_usage decoded)) refused)
      end
  end.

(** * Chat Completions *)

(** chatReplyMessage, with the fields of its chatMessage. *)
Record message := mkMessage { m_role : string; m_content : string; m_refusal : string }.
Definition bind_message : json -> message -> option message :=
  bind_struct (fun f v m =>
    if String.eqb f "role" then option_map (fun s => mkMessage s (m_content m) (m_refusal m)) (bind_string v (m_role m))
    else if String.eqb f "content" then option_map (fun s => mkMessage (m_role m) s (m_refusal m)) (bind_string v (m_content m))
    else option_map (fun s => mkMessage (m_role m) (m_content m) s) (bind_string v (m_refusal m))) ["role"; "content"; "refusal"].
Record choice := mkChoice { ch_message : message; ch_finish : string }.
Definition zero_choice : choice := mkChoice (mkMessage "" "" "") "".
Definition bind_choice : json -> choice -> option choice :=
  bind_struct (fun f v c => if String.eqb f "message" then option_map (fun m => mkChoice m (ch_finish c)) (bind_message v (ch_message c))
                            else option_map (fun s => mkChoice (ch_message c) s) (bind_string v (ch_finish c))) ["message"; "finish_reason"].

Record chatResponse := mkChat { r_model : string; r_choices : slice choice; r_usage : option token_usage }.
Definition bind_chat : json -> chatResponse -> option chatResponse :=
  bind_struct (fun f v r =>
    if String.eqb f "model" then option_map (fun m => mkChat m (r_choices r) (r_usage r)) (bind_model v (r_model r))
    else if String.eqb f "choices" then option_map (fun l => mkChat (r_model r) l (r_usage r)) (bind_slice zero_choice bind_choice v (r_choices r))
    else option_map (fun u => mkChat (r_model r) (r_choices r) u)
      (bind_pointer zero_tokens (bind_tokens "prompt_tokens" "completion_tokens" "prompt_tokens_details") v (r_usage r))) ["model"; "choices"; "usage"].

Record chatAnswer := mkChatAnswer { ca_model : string; ca_text : string; ca_finish : string; ca_usage : Usage; ca_refused : bool }.
Definition zero_chat_answer : chatAnswer := mkChatAnswer "" "" "" no_usage false.

(** The answer so far, and whether the body is one: a body without a choice still reports its usage. *)
Definition parseChatResponse (raw : string) : chatAnswer * bool :=
  match parse_document false raw with
  | None => (zero_chat_answer, false)
  | Some v =>
      match bind_chat v (mkChat "" nil_slice None) with
      | None => (zero_chat_answer, false)
      | Some decoded =>
          let usage := usage_of (r_usage decoded) in
          match elems (r_choices decoded) with
          | [] => (mkChatAnswer (r_model decoded) "" "" usage false, false)
          | c :: _ =>
              let refused := negb (String.eqb (m_refusal (ch_message c)) "") in
              (mkChatAnswer (r_model decoded) (if refused then "" else m_content (ch_message c)) (ch_finish c) usage refused, true)
          end
      end
  end.

(** * The Messages API, whose tool input is kept as its text *)

(** The text of the value at the head of [s], and what follows it. *)
Definition raw_value (s : string) : option (string * string) :=
  match parse_value false (2 * String.length s + 2) s with
  | Some (_, r) => let s := skip_ws s in Some (Utf8.take (String.length s - String.length r) s, r)
  | None => None
  end.
Fixpoint raw_members (fuel : nat) (s : string) : option (list (string * string)) :=
  match fuel with
  | 0 => None
  | S fuel =>
      match key s with
      | None => None
      | Some (k, t) =>
          match raw_value t with
          | None => None
          | Some (v, r) =>
              match peek r with
              | Some (c, t) => if Ascii.eqb c "," then option_map (cons (k, v)) (raw_members fuel t) else Some [(k, v)]
              | None => Some [(k, v)]
              end
          end
      end
  end.
Fixpoint raw_elements (fuel : nat) (s : string) : option (list string) :=
  match fuel with
  | 0 => None
  | S fuel =>
      match raw_value s with
      | None => None
      | Some (v, r) =>
          match peek r with
          | Some (c, t) => if Ascii.eqb c "," then option_map (cons v) (raw_elements fuel t) else Some [v]
          | None => Some [v]
          end
      end
  end.

(** What a text holds: the members of an object, the elements of an array, or the value. *)
Inductive shape := RObj (m : list (string * string)) | RArr (l : list string) | RVal (v : json).
Definition raw_shape (raw : string) : option shape :=
  match parse_document false raw with
  | None => None
  | Some (JObj []) => Some (RObj [])
  | Some (JArr []) => Some (RArr [])
  | Some (JObj _) => match peek raw with Some (_, t) => option_map RObj (raw_members (String.length raw) t) | None => None end
  | Some (JArr _) => match peek raw with Some (_, t) => option_map RArr (raw_elements (String.length raw) t) | None => None end
  | Some v => Some (RVal v)
  end.
Definition on_value {A} (bind : json -> A -> option A) (raw : string) (a : A) : option A :=
  match parse_document false raw with Some v => bind v a | None => None end.

Fixpoint bind_raw_fields {A} (bind : string -> string -> A -> option A) (fields : list string) (m : list (string * string)) (a : A) : option A :=
  match m with
  | [] => Some a
  | (name, raw) :: m =>
      match Jwks.field_for SimpleFold fields name with
      | None => bind_raw_fields bind fields m a
      | Some f => match bind f raw a with Some a => bind_raw_fields bind fields m a | None => None end
      end
  end.
Definition bind_raw_struct {A} (bind : string -> string -> A -> option A) (fields : list string) (raw : string) (a : A) : option A :=
  match raw_shape raw with Some (RObj m) => bind_raw_fields bind fields m a | Some (RVal JNull) => Some a | _ => None end.
Fixpoint bind_raw_elems {A} (zero : A) (bind : string -> A -> option A) (l : list string) (backing : list A) : option (list A) :=
  match l with
  | [] => Some []
  | raw :: l =>
      match bind raw (default zero (head backing)), bind_raw_elems zero bind l (tail backing) with
      | Some a, Some r => Some (a :: r)
      | _, _ => None
      end
  end.
Definition bind_raw_slice {A} (zero : A) (bind : string -> A -> option A) (raw : string) (old : slice A) : option (slice A) :=
  match raw_shape raw with
  | Some (RVal JNull) | Some (RArr []) => Some nil_slice
  | Some (RArr l) => option_map (fun e => mkSlice e (e ++ skipn (length e) (backing old))) (bind_raw_elems zero bind l (backing old))
  | _ => None
  end.

Record block := mkBlock { b_Type : string; b_Text : string; b_Input : string }.
Definition bind_block : string -> block -> option block :=
  bind_raw_struct (fun f raw b =>
    if String.eqb f "type" then option_map (fun s => mkBlock s (b_Text b) (b_Input b)) (on_value bind_string raw (b_Type b))
    else if String.eqb f "text" then option_map (fun s => mkBlock (b_Type b) s (b_Input b)) (on_value bind_string raw (b_Text b))
    else Some (mkBlock (b_Type b) (b_Text b) raw)) ["type"; "text"; "input"].

Record cache_usage := mkCacheUsage { k_input : option Z; k_output : option Z; k_created : option Z; k_read : option Z }.
Definition bind_cache_usage : json -> cache_usage -> option cache_usage :=
  bind_struct (fun f v u =>
    if String.eqb f "input_tokens" then option_map (fun n => mkCacheUsage n (k_output u) (k_created u) (k_read u)) (bind_int v (k_input u))
    else if String.eqb f "output_tokens" then option_map (fun n => mkCacheUsage (k_input u) n (k_created u) (k_read u)) (bind_int v (k_output u))
    else if String.eqb f "cache_creation_input_tokens" then option_map (fun n => mkCacheUsage (k_input u) (k_output u) n (k_read u)) (bind_int v (k_created u))
    else option_map (fun n => mkCacheUsage (k_input u) (k_output u) (k_created u) n) (bind_int v (k_read u)))
    ["input_tokens"; "output_tokens"; "cache_creation_input_tokens"; "cache_read_input_tokens"].

Record anthropicResponse := mkAnthropic { a_model : string; a_content : slice block; a_stop : string; a_usage : option cache_usage }.
Definition bind_anthropic : string -> anthropicResponse -> option anthropicResponse :=
  bind_raw_struct (fun f raw r =>
    if String.eqb f "model" then option_map (fun m => mkAnthropic m (a_content r) (a_stop r) (a_usage r)) (on_value bind_model raw (a_model r))
    else if String.eqb f "content" then option_map (fun l => mkAnthropic (a_model r) l (a_stop r) (a_usage r)) (bind_raw_slice (mkBlock "" "" "") bind_block raw (a_content r))
    else if String.eqb f "stop_reason" then option_map (fun s => mkAnthropic (a_model r) (a_content r) s (a_usage r)) (on_value bind_string raw (a_stop r))
    else option_map (fun u => mkAnthropic (a_model r) (a_content r) (a_stop r) u)
      (on_value (bind_pointer (mkCacheUsage None None None None) bind_cache_usage) raw (a_usage r))) ["model"; "content"; "stop_reason"; "usage"].

Record anthropicAnswer := mkAnthropicAnswer { aa_model : string; aa_text : string; aa_stop : string; aa_usage : Usage }.
Definition zero_anthropic_answer : anthropicAnswer := mkAnthropicAnswer "" "" "" no_usage.

(** The loop over the blocks: the text so far, and the first tool input that is not empty. *)
Definition add_block (acc : string * string) (b : block) : string * string :=
  let '(text, toolInput) := acc in
  if String.eqb (b_Type b) "text" then (text +:+ b_Text b, toolInput)
  else if String.eqb (b_Type b) "tool_use" then (text, if String.eqb toolInput "" then b_Input b else toolInput)
  else acc.
Definition add_int (total : Z) (extra : option Z) : Z := match extra with Some n => i64 (total + n) | None => total end.
Definition cache_usage_of (u : option cache_usage) : Usage :=
  match u with
  | Some u => mkUsage (match k_input u with Some n => Some (foldl add_int n [k_created u; k_read u]) | None => None end) (k_output u) (k_read u) (k_created u)
  | None => no_usage
  end.

Definition parseAnthropicResponse (raw : string) : option anthropicAnswer :=
  match parse_document false raw with
  | None => None
  | Some _ =>
      match bind_anthropic raw (mkAnthropic "" nil_slice "" None) with
      | None => None
      | Some decoded =>
          let '(text, toolInput) := foldl add_block ("", "") (elems (a_content decoded)) in
          Some (mkAnthropicAnswer (a_model decoded) (if String.eqb toolInput "" then text else toolInput) (a_stop decoded) (cache_usage_of (a_usage decoded)))
      end
  end.
End Parse.
Arguments mkSlice {A} elems backing.
Arguments elems {A} s.
Arguments backing {A} s.

(** ** The members' texts are there for every object *)

Lemma raw_value_of s v r : value false s v r -> exists raw, raw_value s = Some (raw, r).
Proof. intros H. unfold raw_value. rewrite (proj1 (parse_complete false) s v r H) by lia. eauto. Qed.

Lemma raw_members_of m : forall s r fuel, members false s m r -> String.length s <= fuel -> exists l, raw_members fuel s = Some l /\ map fst l = map fst m.
Proof.
  induction m as [|[k v] m IH]; intros s r fuel H Hf; [inversion H|].
  assert (Hk : exists t t1 c t2, key s = Some (k, t) /\ value false t v t1 /\ peek t1 = Some (c, t2) /\ (c = "}"%char /\ m = [] \/ c = ","%char /\ members false t2 m r)).
  { inversion H; subst; eauto 12. }
  destruct Hk as (t & t1 & c & t2 & Hk & Hv & Hp & Hc). pose proof (key_length _ _ _ Hk) as L1. pose proof (peek_length _ _ _ Hp) as L2.
  pose proof (proj1 (value_consumes false) _ _ _ Hv) as L3. destruct (raw_value_of _ _ _ Hv) as (raw & Hr).
  destruct fuel as [|fuel]; [lia|]. cbn [raw_members]. rewrite Hk, Hr, Hp. destruct Hc as [[-> ->]|[-> Hm]]; cbn; [eauto|].
  destruct (IH t2 r fuel Hm) as (l & -> & El); [lia|]. cbn. exists ((k, raw) :: l). cbn. rewrite El. auto.
Qed.

Lemma scalar_not_object s m r : scalar false s <> Some (JObj m, r).
Proof.
  unfold scalar. destruct (lex_scalar s) as [[l t]|] eqn:E; [|discriminate]. destruct l as [v|n]; [|discriminate]. intros [= -> ->].
  unfold lex_scalar in E. destruct s as [|c s]; [discriminate|].
  repeat match type of E with (if ?b then _ else _) = _ => destruct b | match ?o with Some _ => _ | None => _ end = _ => destruct o as [[? ?]|] || destruct o end; discriminate.
Qed.

Lemma raw_shape_object s m : document false s (JObj m) -> exists l, raw_shape s = Some (RObj l) /\ map fst l = map fst m.
Proof.
  intros H. unfold raw_shape. rewrite (proj2 (parse_iff false s _) H). destruct m as [|kv m]; [exists []; auto|].
  destruct H as [(r & Hv & _) _]. inversion Hv as [? ? ? ? ? ? ? ? Hs| |? t ? ? Hp Hm| |]; subst; [contradiction (scalar_not_object _ _ _ Hs)|].
  rewrite Hp. pose proof (peek_length _ _ _ Hp). destruct (raw_members_of _ _ _ (String.length s) Hm) as (l & -> & El); [lia|]. cbn. eauto.
Qed.

(** A struct whose fields keep their texts is bound from every object. *)
Lemma bind_raw_fields_total {A} SimpleFold (f : string -> string -> A -> A) fields m a :
  exists a', bind_raw_fields SimpleFold (fun k raw a => Some (f k raw a)) fields m a = Some a'.
Proof. revert a. induction m as [|[k raw] m IH]; intros a; cbn [bind_raw_fields]; [eauto|]. destruct (Jwks.field_for SimpleFold fields k); apply IH. Qed.

Definition q (s : string) : string := String dquote (s +:+ String dquote "").
Example openai_body : parseOpenAIResponse id ("{" +:+ q "model" +:+ ":" +:+ q "m" +:+ "," +:+ q "output" +:+ ":[{" +:+ q "content" +:+ ":[{" +:+ q "type" +:+ ":" +:+ q "text" +:+ "," +:+
    q "text" +:+ ":" +:+ q "a" +:+ "},{" +:+ q "type" +:+ ":" +:+ q "refusal" +:+ "}]}]," +:+ q "usage" +:+ ":{" +:+ q "input_tokens" +:+ ":7}}")
  = Some (mkOpenAIAnswer "m" "a" "completed" (mkUsage (Some 7) None None None) false)%Z.
Proof. vm_compute. reflexivity. Qed.
Example chat_bodies : map (parseChatResponse id) ["{}"; "{" +:+ q "choices" +:+ ":[{" +:+ q "message" +:+ ":{" +:+ q "content" +:+ ":" +:+ q "x" +:+ "," +:+ q "refusal" +:+ ":" +:+ q "no" +:+ "}}]}"; "[]"]
  = [(zero_chat_answer, false); (mkChatAnswer "" "" "" no_usage true, true); (zero_chat_answer, false)].
Proof. vm_compute. reflexivity. Qed.
Example anthropic_body : parseAnthropicResponse id (" {" +:+ q "content" +:+ ":[{" +:+ q "type" +:+ ":" +:+ q "text" +:+ "," +:+ q "text" +:+ ":" +:+ q "well" +:+ "} , {" +:+ q "type" +:+ ":" +:+ q "tool_use" +:+ "," +:+
    q "input" +:+ ": {" +:+ q "x" +:+ " : 1e2} } ]," +:+ q "usage" +:+ ":{" +:+ q "input_tokens" +:+ ":5," +:+ q "cache_read_input_tokens" +:+ ":2}}")
  = Some (mkAnthropicAnswer "" ("{" +:+ q "x" +:+ " : 1e2}") "" (mkUsage (Some 7) None (Some 2) None))%Z.
Proof. vm_compute. reflexivity. Qed.
End LlmParse.
