(* ===== verification/LlmSchema.v ===== *)
(** The schemas that src/llm sends to Anthropic: anthropicSchema and its passes (anthropic.go), the check
    against the documented limits (anthropic_schema_fit.go), and the integer test on a number's text. A
    map[string]any is a [JObj] whose members are in order, as LlmJson.v decodes it; strconv.ParseFloat is an
    argument. *)
From Stdlib Require Import SpecFloat.
From S2P Require Import Prelude Utf8 Json JsonEncode Regex GoFormat ChStatement AuthReview LlmErrors LlmJson LlmProvider.

Module LlmSchema.
Import Json Encode LlmErrors LlmJson LlmProvider.

Definition has (k : string) (m : list (string * json)) : bool := match member k m with Some _ => true | None => false end.
Definition remove (k : string) (m : list (string * json)) : list (string * json) := List.filter (fun kv => negb (String.eqb kv.1 k)) m.

(** * Numbers *)

(** The digits after the last [n] characters are kept. *)
Definition all_zeros (s : string) : bool := forallb (Ascii.eqb "0") (chars s).
(** strings.IndexAny(text, "eE"), as the text before it and after it. *)
Fixpoint cut_exponent (s : string) : string * option string :=
  match s with
  | EmptyString => ("", None)
  | String c r => if Ascii.eqb c "e" || Ascii.eqb c "E" then ("", Some r) else let '(a, b) := cut_exponent r in (String c a, b)
  end.
(** strings.Cut(text, ".") *)
Fixpoint cut_point (s : string) : string * string :=
  match s with
  | EmptyString => ("", "")
  | String c r => if Ascii.eqb c "." then ("", r) else let '(a, b) := cut_point r in (String c a, b)
  end.

Definition exponentBound : Z := 2 ^ 40.
(** The exponent, clamped: what strconv.ParseInt refuses is too far out. *)
Definition clamped_exponent (e : string) : Z :=
  let parsed := match Review.ParseInt e with
    | Some n => n
    | None => match e with String c _ => if Ascii.eqb c "-" then (- exponentBound)%Z else exponentBound | EmptyString => exponentBound end
    end in
  Z.max (- exponentBound) (Z.min exponentBound parsed).
(** Whether the digits after the point, moved by the exponent, are all zeros. *)
Definition integer_digits (whole fraction : string) (exponent : Z) : bool :=
  let lf := Z.of_nat (String.length fraction) in let lw := Z.of_nat (String.length whole) in
  let dropped := (lf - exponent)%Z in
  if (dropped <=? 0)%Z then true
  else if (dropped <=? lf)%Z then all_zeros (Utf8.drop (Z.to_nat (lf - dropped)) fraction)
  else if negb (all_zeros fraction) then false
  else let rest := Z.min (dropped - lf) lw in all_zeros (Utf8.drop (Z.to_nat (lw - rest)) whole).
Definition numberTextIsInteger (text : string) : bool :=
  let text := match text with String c r => if Ascii.eqb c "-" then r else text | EmptyString => text end in
  let '(text, after) := cut_exponent text in
  let exponent := match after with None => 0%Z | Some e => clamped_exponent e end in
  let '(whole, fraction) := cut_point text in
  integer_digits whole fraction exponent.

Example integers : map numberTextIsInteger ["1"; "-10"; "1.0"; "1.5"; "15e-1"; "150e-1"; "1.5e1"; "0e-99999999999999999999"; "1e99999999999999999999"; "9007199254740993.0"; "100E-2"; "100E-3"]
  = [true; true; true; false; false; true; true; true; true; true; true; false].
Proof. reflexivity. Qed.

Section Numbers.
Variable ParseFloat : string -> option spec_float.

Definition schemaNumber (v : json) : option spec_float := match v with JNum t => ParseFloat t | _ => None end.
Definition schemaInteger (v : json) : bool := match v with JNum t => numberTextIsInteger t | _ => false end.

(** * The passes *)

Definition anthropicUnsupportedKeywords : list string :=
  ["minimum"; "maximum"; "exclusiveMinimum"; "exclusiveMaximum"; "multipleOf"; "minLength"; "maxLength"; "maxItems"; "uniqueItems"; "minContains"; "maxContains";
   "minProperties"; "maxProperties"].
Definition anthropicSchemaDataKeywords : list string := ["default"; "const"; "enum"; "examples"].

(** The phrase of a bound before and after its value. *)
Definition anthropicBoundPhrases : list (string * (string * string)) :=
  [("minLength", ("at least ", " characters")); ("maxLength", ("at most ", " characters")); ("minimum", ("at least ", "")); ("maximum", ("at most ", ""));
   ("exclusiveMinimum", ("greater than ", "")); ("exclusiveMaximum", ("less than ", "")); ("multipleOf", ("a multiple of ", "")); ("minItems", ("at least ", " items"));
   ("maxItems", ("at most ", " items")); ("uniqueItems", ("unique items", "")); ("minContains", ("at least ", " matching items"));
   ("maxContains", ("at most ", " matching items")); ("minProperties", ("at least ", " properties")); ("maxProperties", ("at most ", " properties"))].

Definition boundValue (v : json) : string := match v with JNum t => t | v => Marshal v end.

(** The limit that a bound words, if it was dropped. *)
Definition limit_of (original stripped : list (string * json)) (bound : string * (string * string)) : option string :=
  let '(keyword, (prefix, suffix)) := bound in
  match member keyword original with
  | None => None
  | Some v =>
      if has keyword stripped then None
      else if String.eqb keyword "uniqueItems" then match v with JBool true => Some prefix | _ => None end
      else Some (prefix +:+ boundValue v +:+ suffix)
  end.
Definition describeDroppedBounds (original stripped : list (string * json)) : list (string * json) :=
  match omap (limit_of original stripped) anthropicBoundPhrases with
  | [] => stripped
  | limits =>
      let text := "Limits: " +:+ Prelude.join "; " limits +:+ "." in
      let text := match member "description" stripped with
        | Some (JStr existing) => if String.eqb existing "" then text else existing +:+ " " +:+ text
        | _ => text
        end in
      put "description" (JStr text) stripped
  end.

Definition jsonTypeAllows (name value : json) : bool :=
  match name with
  | JStr n =>
      if String.eqb n "null" then match value with JNull => true | _ => false end
      else if String.eqb n "string" then match value with JStr _ => true | _ => false end
      else if String.eqb n "boolean" then match value with JBool _ => true | _ => false end
      else if String.eqb n "number" then match value with JNum _ => true | _ => false end
      else if String.eqb n "integer" then schemaInteger value
      else false
  | _ => false
  end.
Definition enumWithoutTypeList (schema : list (string * json)) : list (string * json) :=
  match member "type" schema, member "enum" schema with
  | Some (JArr types), Some (JArr values) =>
      remove "type" (put "enum" (JArr (List.filter (fun v => existsb (fun name => jsonTypeAllows name v) types) values)) schema)
  | _, _ => schema
  end.

Definition is_zero_or_one (f : spec_float) : bool :=
  match SFcompare f (of_int 0) with Some Eq => true | _ => match SFcompare f (of_int 1) with Some Eq => true | _ => false end end.
(** A bound that is dropped. *)
Definition dropped (key : string) (inner : json) : bool :=
  contains anthropicUnsupportedKeywords key ||
  (String.eqb key "minItems" && negb (match schemaNumber inner with Some f => is_zero_or_one f | None => false end)).
Definition names_schemas (key : string) : bool := contains ["properties"; "$defs"; "definitions"] key.

Fixpoint stripSchema (value : json) : json :=
  match value with
  | JObj m =>
      let out := (fix members (l : list (string * json)) : list (string * json) :=
        match l with
        | [] => []
        | (key, inner) :: l =>
            if contains anthropicSchemaDataKeywords key && negb (contains anthropicUnsupportedKeywords key) then (key, inner) :: members l
            else if dropped key inner then members l
            else (key, match inner with
                       | JObj names => if names_schemas key then JObj (map (fun kv => (kv.1, stripSchema kv.2)) names) else stripSchema inner
                       | _ => stripSchema inner
                       end) :: members l
        end) m in
      JObj (enumWithoutTypeList (describeDroppedBounds m out))
  | JArr l => JArr (map stripSchema l)
  | v => v
  end.

(** The copy through JSON, whose numbers keep their text; a schema that cannot be copied stays as it is. *)
Definition copySchema (schema : json) : json := match parse_document false (Marshal schema) with Some v => decoded v | None => schema end.
Definition anthropicSchema (schema : json) : json :=
  match stripSchema (copySchema schema) with JObj m => JObj m | _ => schema end.

(** * The documented limits *)

Definition anthropicMaxOptionalParameters : Z := 24.
Definition anthropicMaxUnionParameters : Z := 16.
Definition anthropicStructuredKeywords : list string :=
  ["type"; "properties"; "required"; "additionalProperties"; "items"; "enum"; "const"; "anyOf"; "allOf"; "$ref"; "$defs"; "definitions"; "description"; "title"; "default";
   "examples"; "format"; "minItems"; "pattern"; "$schema"; "$id"; "$comment"].
Definition anthropicStringFormats : list string := ["date-time"; "time"; "date"; "duration"; "email"; "hostname"; "uri"; "ipv4"; "ipv6"; "uuid"].

Definition anthropicUnsupportedPattern : re :=
  RAlt (RSeq (lit (String backslash "")) (cls "1-9")) (RAlt (RSeq (lit "(?") (cls "=!<")) (RSeq (lit (String backslash "")) (cls "bB"))).
Definition unsupported_pattern (s : string) : bool := ChStatement.search ChStatement.anywhere ChStatement.anywhere anthropicUnsupportedPattern None s.

Definition anthropicNoForcedTool : list string := ["claude-opus-5-5"; "claude-sonnet-5-5"; "claude-fable-5-1"; "claude-mythos-5-1"].
Definition HasPrefix (s prefix : string) : bool := match Json.after prefix s with Some _ => true | None => false end.
Definition anthropicForcesTools (model : string) : bool := negb (existsb (HasPrefix model) anthropicNoForcedTool).

Definition typed (schema : list (string * json)) : bool := existsb (fun k => has k schema) ["type"; "anyOf"; "allOf"; "enum"; "const"; "$ref"].
Definition isUnion (schema : list (string * json)) : bool :=
  has "anyOf" schema || match member "type" schema with Some (JArr _) => true | _ => false end.

Record fitCounts := mkCounts { optional : Z; unions : Z }.
Definition count_property (required : list string) (name : string) (child : list (string * json)) (c : fitCounts) : fitCounts :=
  mkCounts (if contains required name then optional c else optional c + 1)%Z (if isUnion child then unions c + 1 else unions c)%Z.

(** The first limit that a list of checks breaks; the counts are threaded through. *)
Fixpoint first_reason {A : Type} (check : A -> fitCounts -> string * fitCounts) (l : list A) (c : fitCounts) : string * fitCounts :=
  match l with
  | [] => ("", c)
  | x :: l => match check x c with
      | (EmptyString, c) => first_reason check l c
      | refused => refused
      end
  end.

Definition texts (l : list json) : list string := omap (fun v => match v with JStr s => Some s | _ => None end) l.
Definition list_at (k : string) (m : list (string * json)) : list json := match member k m with Some (JArr l) => l | _ => [] end.
Definition map_at (k : string) (m : list (string * json)) : list (string * json) := match member k m with Some (JObj o) => o | _ => [] end.
Definition is_compound (v : json) : bool := match v with JObj _ | JArr _ => true | _ => false end.
Definition isObject (schema : list (string * json)) : bool :=
  match member "type" schema with Some (JStr t) => String.eqb t "object" | _ => false end ||
  match member "properties" schema with None | Some JNull => false | Some _ => true end.

(** The checks on a node alone, in order. *)
Definition node_reason (schema : list (string * json)) (path : string) : string :=
  match List.find (fun kv => negb (contains anthropicStructuredKeywords kv.1)) schema with
  | Some (key, _) => "unsupported_keyword " +:+ key +:+ ": " +:+ path
  | None =>
  if match member "$ref" schema with Some (JStr ref) => negb (HasPrefix ref "#") | _ => false end then "external_ref: " +:+ path
  else match member "format" schema with
  | Some (JStr format) => if contains anthropicStringFormats format then "" else "string_format " +:+ format +:+ ": " +:+ path
  | _ => "" end
  end.
Definition value_reason (schema : list (string * json)) (path : string) : string :=
  if match member "pattern" schema with Some (JStr pattern) => unsupported_pattern pattern | _ => false end then "pattern: " +:+ path
  else if existsb is_compound (list_at "enum" schema) then "complex_enum: " +:+ path
  else if isObject schema && negb (match member "additionalProperties" schema with Some (JBool false) => true | _ => false end)
  then "additional_properties_not_false: " +:+ path
  else "".

(** fitNode, where [depths] counts the depths that are left: at 0 the depth is over 64. *)
Fixpoint fitNode (depths : nat) (node : json) (path : string) (counts : fitCounts) : string * fitCounts :=
  match depths with
  | O => ("depth: " +:+ path, counts)
  | S depths =>
  match node with
  | JObj schema =>
      match node_reason schema path with String c r => (String c r, counts) | EmptyString =>
      match value_reason schema path with String c r => (String c r, counts) | EmptyString =>
      let required := texts (list_at "required" schema) in
      first_reason (fun step c => step c)
        [first_reason (fun (kv : string * json) c =>
           let propertyPath := path +:+ "." +:+ kv.1 in
           match kv.2 with
           | JObj child =>
               if typed child then fitNode depths (JObj child) propertyPath (count_property required kv.1 child c)
               else ("property_without_type: " +:+ propertyPath, c)
           | _ => ("property_not_a_schema: " +:+ propertyPath, c)
           end) (map_at "properties" schema);
         first_reason (fun key c =>
           match member key schema with Some (JObj child) => fitNode depths (JObj child) (path +:+ "." +:+ key) c | _ => ("", c) end)
           ["items"; "additionalProperties"];
         first_reason (fun key c =>
           first_reason (fun (ix : nat * json) c =>
             fitNode depths ix.2 (path +:+ "." +:+ key +:+ "[" +:+ GoFormat.FormatInt (Z.of_nat ix.1) +:+ "]") c)
             (imap pair (list_at key schema)) c) ["anyOf"; "allOf"];
         first_reason (fun key c =>
           first_reason (fun (kv : string * json) c => fitNode depths kv.2 (path +:+ "." +:+ key +:+ "." +:+ kv.1) c) (map_at key schema) c)
           ["$defs"; "definitions"]] counts
      end end
  | _ => ("", counts)
  end end.

Definition anthropicSchemaFit (schema : list (string * json)) : bool * string :=
  let '(reason, counts) := fitNode 65 (JObj schema) "$" (mkCounts 0 0) in
  if negb (String.eqb reason "") then (false, reason)
  else if (anthropicMaxOptionalParameters <? optional counts)%Z
  then (false, "optional_parameters: " +:+ GoFormat.FormatInt (optional counts) +:+ " over the limit of 24")
  else if (anthropicMaxUnionParameters <? unions counts)%Z
  then (false, "union_parameters: " +:+ GoFormat.FormatInt (unions counts) +:+ " over the limit of 16")
  else (true, "").
End Numbers.
End LlmSchema.
