(* ===== verification/LlmSchemaSpec.v ===== *)
(** What the schema passes of src/llm promise: the integer test on a number's text is exact, the copy
    that is sent keeps no keyword that the API refuses and loses nothing else, and a schema fits exactly when it
    is within the limits that the code checks. *)
From Stdlib Require Import SpecFloat.
From S2P Require Import Prelude Utf8 Json JsonEncode Decimal Regex ChStatement AuthReview Wellformed LlmErrors LlmJson LlmProvider LlmSchema.

Module LlmSchemaSpec.
Import Json Wellformed LlmJson LlmProvider LlmSchema.

(** * The integer test *)

Definition all_digits (s : string) : Prop := Forall (fun c => Decimal.is_digit c = true) (chars s).
Notation dec := Decimal.dec.

Lemma length_app_s s t : String.length (s +:+ t) = String.length s + String.length t.
Proof. induction s as [|c s IH]; [reflexivity|]. rewrite str_app_cons. cbn. rewrite IH. reflexivity. Qed.
Lemma all_digits_app s t : all_digits (s +:+ t) <-> all_digits s /\ all_digits t.
Proof. unfold all_digits. rewrite chars_app. apply Forall_app. Qed.

Lemma dec_acc_shift s : forall a, Decimal.dec_acc a s = (a * 10 ^ Z.of_nat (String.length s) + dec s)%Z.
Proof.
  unfold dec. induction s as [|c s IH]; intros a; cbn [Decimal.dec_acc String.length]; [lia|]. rewrite IH, (IH (0 * 10 + _)%Z).
  rewrite Nat2Z.inj_succ, Z.pow_succ_r by lia. lia.
Qed.
Lemma dec_app s t : dec (s +:+ t) = (dec s * 10 ^ Z.of_nat (String.length t) + dec t)%Z.
Proof.
  rewrite <-dec_acc_shift. unfold dec. generalize 0%Z. induction s as [|c s IH]; intros a; [reflexivity|]. rewrite str_app_cons. cbn. apply IH.
Qed.
Lemma dec_bound s : all_digits s -> (0 <= dec s < 10 ^ Z.of_nat (String.length s))%Z.
Proof.
  induction s as [|c s IH]; intros H; [vm_compute; intuition congruence|]. apply Forall_cons in H as [Hc Hs]. specialize (IH Hs). apply Decimal.digit_range in Hc.
  unfold dec in *. cbn [Decimal.dec_acc String.length]. rewrite dec_acc_shift, Nat2Z.inj_succ, Z.pow_succ_r by lia. unfold dec.
  assert (0 < 10 ^ Z.of_nat (String.length s))%Z by (apply Z.pow_pos_nonneg; lia). nia.
Qed.
Lemma all_zeros_dec s : all_digits s -> all_zeros s = true <-> dec s = 0%Z.
Proof.
  unfold all_zeros. induction s as [|c s IH]; intros H; [split; reflexivity|]. apply Forall_cons in H as [Hc Hs]. cbn [chars forallb]. rewrite andb_true_iff, IH by exact Hs.
  pose proof (dec_bound s Hs) as Hb. pose proof (Decimal.digit_range c Hc) as Hr. unfold dec at 2. cbn [Decimal.dec_acc]. rewrite dec_acc_shift.
  assert (Hp : (0 < 10 ^ Z.of_nat (String.length s))%Z) by (apply Z.pow_pos_nonneg; lia). split.
  - intros [<-%Ascii.eqb_eq ->]. vm_compute Decimal.digit. lia.
  - intros E. assert (E0 : (Decimal.digit c = 0 /\ dec s = 0)%Z) by nia. destruct E0 as [E0 Es]. split; [|exact Es]. apply Ascii.eqb_eq.
    rewrite <-(Decimal.pretty_char_digit c Hc), E0. reflexivity.
Qed.

(** The last [k] digits are zero exactly when 10^k divides the value. *)
Lemma tail_zeros s k : all_digits s -> k <= String.length s -> all_zeros (Utf8.drop (String.length s - k) s) = true <-> (10 ^ Z.of_nat k | dec s)%Z.
Proof.
  intros Hs Hk. pose proof (Utf8.take_drop (String.length s - k) s) as E. set (a := Utf8.take _ s) in E. set (b := Utf8.drop _ s) in *.
  assert (Hb : String.length b = k) by (unfold b; rewrite Utf8.length_drop; lia). rewrite <-E in Hs |- *. apply all_digits_app in Hs as [Ha Hbd].
  rewrite all_zeros_dec by exact Hbd. rewrite dec_app, Hb. pose proof (dec_bound b Hbd) as Hr. rewrite Hb in Hr.
  assert (Hp : (0 < 10 ^ Z.of_nat k)%Z) by (apply Z.pow_pos_nonneg; lia). split.
  - intros ->. exists (dec a). lia.
  - intros H. apply Z.divide_add_cancel_r in H; [|apply Z.divide_factor_r]. destruct H as [x Hx]. assert (x = 0)%Z by nia. subst x. exact Hx.
Qed.

(** What the scanner reads as a number. *)
Definition exponent_shape (e : string) (neg : bool) : Prop :=
  exists c, Ascii.eqb c "e" || Ascii.eqb c "E" = true /\ (neg = true /\ e = String c "-" \/ neg = false /\ (e = String c "+" \/ e = String c "")).
Record shaped (n : number) : Prop := {
  sh_int : all_digits (n_int n) /\ n_int n <> "";
  sh_frac : forall f, n_frac n = Some f -> all_digits f;
  sh_exp : forall e neg d, n_exp n = Some (e, neg, d) -> exponent_shape e neg /\ all_digits d /\ d <> "" }.

Lemma digits_all s d t : digits s = (d, t) -> all_digits d.
Proof.
  revert d t. induction s as [|c s IH]; intros d t; cbn [digits]; [intros [= <- _]; constructor|]. destruct (is_digit c) eqn:E; [|intros [= <- _]; constructor].
  destruct (digits s) as [d' t'] eqn:Ed. intros [= <- _]. constructor; [exact E | eapply IH; reflexivity].
Qed.
Lemma lex_number_shaped s n r : lex_number s = Some (n, r) -> shaped n.
Proof.
  unfold lex_number. destruct (match s with String _ _ => _ | EmptyString => _ end) as [neg s1].
  destruct (lex_int s1) as [[i s2]|] eqn:Ei; [|discriminate]. destruct (lex_frac s2) as [[f s3]|] eqn:Ef; [|discriminate].
  destruct (lex_exp s3) as [[e s4]|] eqn:Ee; [|discriminate]. intros [= <- _]. split; cbn [n_int n_frac n_exp].
  - split; [|destruct (lex_int_head _ _ _ Ei) as (? & ? & -> & _); discriminate]. destruct s1 as [|c s1]; [discriminate|]. cbn [lex_int] in Ei.
    destruct (Ascii.eqb c "0"); [injection Ei as <- _; repeat constructor|]. destruct (is_digit c); [|discriminate]. apply (inj Some) in Ei. eapply digits_all, Ei.
  - intros f' ->. destruct s2 as [|c s2]; [discriminate|]. cbn [lex_frac] in Ef. destruct (Ascii.eqb c "."); [|discriminate].
    destruct (digits s2) as [[|x d] t] eqn:Ed; [discriminate|]. injection Ef as <- _. eapply digits_all, Ed.
  - intros e' neg' d ->. destruct s3 as [|c s3]; [discriminate|]. cbn [lex_exp] in Ee. destruct (Ascii.eqb c "e" || Ascii.eqb c "E") eqn:Ec; [|discriminate].
    assert (H : forall sign neg r1, match digits r1 with (EmptyString, _) => None | (d, t) => Some (Some (String c sign, neg, d), t) end = Some (Some (e', neg', d), s4) ->
      e' = String c sign /\ neg' = neg /\ all_digits d /\ d <> "").
    { intros sign ng r1. destruct (digits r1) as [[|x d'] t] eqn:Ed; [discriminate|]. intros [= <- <- <- _]. repeat split; [eapply digits_all, Ed | discriminate]. }
    unfold exponent_shape. destruct s3 as [|g r1]; [destruct (H "" false "" Ee) as (_ & _ & _ & Hd); discriminate Ee|].
    destruct (Ascii.eqb g "+"); [|destruct (Ascii.eqb g "-")]; apply H in Ee as (-> & -> & Hd); (split; [exists c; auto 6 | exact Hd]).
Qed.

(** ** Its value *)

Definition fraction (n : number) : string := default "" (n_frac n).
Definition exponent (n : number) : Z := match n_exp n with Some (_, neg, d) => if neg : bool then (- dec d)%Z else dec d | None => 0%Z end.
(** The digits and the power of ten they are scaled by: the number is a whole one exactly when the power is not
    negative, or divides the digits. *)
Definition integral (n : number) : Prop :=
  let scale := (exponent n - Z.of_nat (String.length (fraction n)))%Z in
  (0 <= scale)%Z \/ (10 ^ (- scale) | dec (n_int n +:+ fraction n))%Z.

(** ** The text is cut where the scanner cut it *)

Definition no_exp (s : string) : Prop := Forall (fun c => Ascii.eqb c "e" || Ascii.eqb c "E" = false) (chars s).
Lemma cut_exponent_app s t : no_exp s -> cut_exponent (s +:+ t) = (s +:+ (cut_exponent t).1, (cut_exponent t).2).
Proof.
  induction s as [|c s IH]; intros H; [rewrite !str_app_nil; destruct (cut_exponent t); reflexivity|]. apply Forall_cons in H as [Hc Hs].
  rewrite !str_app_cons. cbn [cut_exponent]. rewrite Hc, (IH Hs). reflexivity.
Qed.
Lemma cut_point_app s t : Forall (fun c => Ascii.eqb c "." = false) (chars s) -> cut_point (s +:+ t) = (s +:+ (cut_point t).1, (cut_point t).2).
Proof.
  induction s as [|c s IH]; intros H; [rewrite !str_app_nil; destruct (cut_point t); reflexivity|]. apply Forall_cons in H as [Hc Hs].
  rewrite !str_app_cons. cbn [cut_point]. rewrite Hc, (IH Hs). reflexivity.
Qed.
Lemma digit_other c : Decimal.is_digit c = true -> Ascii.eqb c "e" || Ascii.eqb c "E" = false /\ Ascii.eqb c "." = false /\ Ascii.eqb c "-" = false /\ Ascii.eqb c "+" = false.
Proof.
  intros H. repeat split; apply not_true_iff_false; intros E; rewrite ?orb_true_iff, ?Ascii.eqb_eq in E; repeat destruct E as [E|E]; subst; discriminate.
Qed.
Lemma all_digits_no_exp s : all_digits s -> no_exp s.
Proof. intros H. eapply Forall_impl; [exact H|]. intros c Hc. apply digit_other, Hc. Qed.

Lemma digits_forallb d : all_digits d -> forallb Decimal.is_digit (chars d) = true.
Proof. intros H. apply forallb_forall. intros c Hc. rewrite <-list_elem_of_In in Hc. unfold all_digits in H. rewrite Forall_forall in H. apply H, Hc. Qed.
Lemma ParseInt_signed (neg : bool) sign d : all_digits d -> d <> "" -> (neg = true /\ sign = "-" \/ neg = false /\ (sign = "+" \/ sign = "")) ->
  Review.ParseInt (sign +:+ d) = let n := if neg then (- dec d)%Z else dec d in if (n <? min_int64)%Z || (max_int64 <? n)%Z then None else Some n.
Proof.
  intros Hd Hn Hs. pose proof (digits_forallb d Hd) as Hf. destruct d as [|c d]; [contradiction|]. unfold Review.ParseInt.
  assert (Hc : Decimal.is_digit c = true) by (apply Forall_cons in Hd; apply Hd). apply digit_other in Hc as (_ & _ & Hm & Hp).
  assert (Hb : String.eqb (String c d) "" || negb (forallb Json.is_digit (chars (String c d))) = false).
  { apply orb_false_iff. split; [reflexivity|]. apply negb_false_iff. exact Hf. }
  destruct Hs as [[-> ->]|[-> [->| ->]]]; rewrite ?str_app_cons, ?str_app_nil; cbn [Ascii.eqb Bool.eqb]; rewrite ?Hm, ?Hp, Hb; reflexivity.
Qed.
(** The exponent's text, read back. *)
Lemma clamped_exponent_dec (neg : bool) sign d : all_digits d -> d <> "" -> (neg = true /\ sign = "-" \/ neg = false /\ (sign = "+" \/ sign = "")) ->
  clamped_exponent (sign +:+ d) = Z.max (- exponentBound) (Z.min exponentBound (if neg then (- dec d)%Z else dec d)).
Proof.
  intros Hd Hn Hs. unfold clamped_exponent. rewrite (ParseInt_signed neg sign d Hd Hn Hs). cbv zeta. pose proof (dec_bound d Hd) as [H0 _].
  set (n := if neg then (- dec d)%Z else dec d). destruct ((n <? min_int64)%Z || (max_int64 <? n)%Z) eqn:E; [|reflexivity].
  assert (Hc : exists c r, sign +:+ d = String c r /\ Ascii.eqb c "-" = neg).
  { destruct Hs as [[-> ->]|[-> [->| ->]]]; rewrite ?str_app_cons, ?str_app_nil; eauto. destruct d as [|c d]; [contradiction|]. exists c, d. split; [reflexivity|].
    apply Forall_cons in Hd as [Hc _]. apply digit_other in Hc. tauto. }
  destruct Hc as (c & r & -> & ->). unfold n in *. apply orb_true_iff in E. rewrite !Z.ltb_lt in E. unfold min_int64, max_int64, exponentBound in *. destruct neg; lia.
Qed.

Lemma text_parts n : shaped n ->
  numberTextIsInteger (number_text n) = integer_digits (n_int n) (fraction n) (Z.max (- exponentBound) (Z.min exponentBound (exponent n))).
Proof.
  intros [[Hi Hne] Hf He]. unfold number_text. assert (Hhead : exists c i, n_int n = String c i /\ Ascii.eqb c "-" = false).
  { destruct (n_int n) as [|c i]; [contradiction|]. exists c, i. split; [reflexivity|]. apply Forall_cons in Hi as [Hc _]. apply digit_other in Hc. tauto. }
  set (rest := n_int n +:+ _). assert (E : numberTextIsInteger ((if n_neg n then "-" else "") +:+ rest) = numberTextIsInteger rest).
  { destruct (n_neg n); [|reflexivity]. rewrite str_app_cons, str_app_nil. unfold rest. destruct Hhead as (c & i & -> & Hc). rewrite str_app_cons. unfold numberTextIsInteger. rewrite Hc. reflexivity. }
  rewrite E. unfold numberTextIsInteger.
  assert (E1 : match rest with String c r => if Ascii.eqb c "-" then r else rest | EmptyString => rest end = rest).
  { unfold rest. destruct Hhead as (c & i & -> & Hc). rewrite str_app_cons, Hc. reflexivity. }
  rewrite E1. unfold rest. clear E E1 rest Hhead.
  assert (Hexp : match cut_exponent (match n_exp n with Some (e, _, d) => e +:+ d | None => "" end) with (a, after) =>
      a = "" /\ match after with None => 0%Z | Some e => clamped_exponent e end = Z.max (- exponentBound) (Z.min exponentBound (exponent n)) end).
  { unfold exponent. destruct (n_exp n) as [[[e neg] d]|]; [|split; reflexivity]. destruct (He e neg d eq_refl) as ((c & Hc & Hs) & Hd & Hdn).
    assert (Hsign : exists sign, e = String c sign /\ (neg = true /\ sign = "-" \/ neg = false /\ (sign = "+" \/ sign = ""))).
    { destruct Hs as [[-> ->]|[-> [->| ->]]]; eexists; (split; [reflexivity|]); auto. }
    destruct Hsign as (sign & -> & Hsign). rewrite str_app_cons. cbn [cut_exponent]. rewrite Hc. split; [reflexivity|]. apply clamped_exponent_dec; assumption. }
  destruct (cut_exponent (match n_exp n with Some _ => _ | None => _ end)) as [a after] eqn:Ea. destruct Hexp as [-> Hexp].
  assert (Hcut : cut_exponent (n_int n +:+ (match n_frac n with Some f => "." +:+ f | None => "" end) +:+ match n_exp n with Some (e, _, d) => e +:+ d | None => "" end)
    = (n_int n +:+ match n_frac n with Some f => "." +:+ f | None => "" end, after)).
  { rewrite cut_exponent_app by (apply all_digits_no_exp, Hi). rewrite cut_exponent_app, Ea; [cbn [fst snd]; rewrite str_app_nil_r; reflexivity|].
    destruct (n_frac n) as [f|]; [|constructor]. rewrite str_app_cons, str_app_nil. constructor; [reflexivity | apply all_digits_no_exp, Hf; reflexivity]. }
  rewrite Hcut, Hexp, cut_point_app by (eapply Forall_impl; [exact Hi|]; intros c Hc; apply digit_other, Hc).
  unfold fraction. destruct (n_frac n) as [f|]; cbn [default fst snd cut_point]; rewrite str_app_nil_r; reflexivity.
Qed.

(** Powers of ten against a value of [l] digits. *)
Lemma pow10_pos k : (0 <= k)%Z -> (0 < 10 ^ k)%Z.
Proof. intros H. apply Z.pow_pos_nonneg; lia. Qed.
Lemma pow10_divide j k : (0 <= j <= k)%Z -> (10 ^ j | 10 ^ k)%Z.
Proof. intros H. exists (10 ^ (k - j))%Z. rewrite <-Z.pow_add_r by lia. f_equal. lia. Qed.
Lemma pow10_divides_small s k : all_digits s -> (Z.of_nat (String.length s) <= k)%Z -> (10 ^ k | dec s)%Z <-> dec s = 0%Z.
Proof.
  intros Hs Hk. pose proof (dec_bound s Hs) as Hb. split; [|intros ->; apply Z.divide_0_r]. intros (x & Hx).
  assert (10 ^ Z.of_nat (String.length s) <= 10 ^ k)%Z by (apply Z.pow_le_mono_r; lia). assert (0 < 10 ^ k)%Z by (apply pow10_pos; lia).
  rewrite Hx in Hb |- *. clear Hx. set (p10 := (10 ^ k)%Z) in *. assert (x = 0)%Z as -> by (destruct (Z.lt_trichotomy x 0) as [|[|]]; [nia | assumption | nia]). lia.
Qed.
Lemma zeros_after s k : all_digits s -> (0 <= k)%Z ->
  all_zeros (Utf8.drop (Z.to_nat (Z.of_nat (String.length s) - Z.min k (Z.of_nat (String.length s)))) s) = true <-> (10 ^ k | dec s)%Z.
Proof.
  intros Hs Hk. destruct (Z.le_gt_cases k (Z.of_nat (String.length s))) as [Hle|Hgt].
  - rewrite Z.min_l by exact Hle. replace (Z.to_nat _) with (String.length s - Z.to_nat k) by lia. rewrite tail_zeros by (exact Hs || lia). rewrite Z2Nat.id by exact Hk. reflexivity.
  - rewrite Z.min_r, Z.sub_diag by lia. replace (Utf8.drop (Z.to_nat 0) s) with s by (destruct s; reflexivity).
    rewrite all_zeros_dec by exact Hs. symmetry. apply pow10_divides_small; [exact Hs | lia].
Qed.

Lemma integer_digits_exact whole fraction_ e : all_digits whole -> all_digits fraction_ ->
  (Z.of_nat (String.length whole) + Z.of_nat (String.length fraction_) < exponentBound)%Z ->
  integer_digits whole fraction_ (Z.max (- exponentBound) (Z.min exponentBound e)) = true <->
  (0 <= e - Z.of_nat (String.length fraction_))%Z \/ (10 ^ (Z.of_nat (String.length fraction_) - e) | dec (whole +:+ fraction_))%Z.
Proof.
  intros Hw Hf Hlen. set (lf := Z.of_nat (String.length fraction_)) in *. set (lw := Z.of_nat (String.length whole)) in *. unfold integer_digits. fold lf lw.
  set (ec := Z.max _ _). assert (Hec : (ec = e \/ e < - exponentBound /\ ec = - exponentBound \/ exponentBound < e /\ ec = exponentBound)%Z) by (unfold ec, exponentBound in *; lia).
  rewrite dec_app. fold lf. destruct (Z.leb_spec (lf - ec) 0) as [H0|H0]; [split; [left | reflexivity]; unfold exponentBound in *; lia|].
  assert (Hneg : ~ (0 <= e - lf)%Z) by (unfold exponentBound in *; lia). destruct (Z.leb_spec (lf - ec) lf) as [H1|H1].
  - assert (ec = e) as -> by (unfold exponentBound in *; lia). replace (lf - (lf - e))%Z with (lf - Z.min (lf - e) lf)%Z by lia.
    pose proof (zeros_after fraction_ (lf - e) Hf ltac:(lia)) as Hz. fold lf in Hz. rewrite Hz.
    assert (Hd : (10 ^ (lf - e) | dec whole * 10 ^ lf)%Z) by (apply Z.divide_mul_r, pow10_divide; lia). split.
    + intros H. right. apply Z.divide_add_r; assumption.
    + intros [H|H]; [lia|]. exact (Z.divide_add_cancel_r _ _ _ Hd H).
  - assert (He : (e < 0)%Z) by (unfold exponentBound in *; lia). pose proof (pow10_pos lf) as Hp. destruct (all_zeros fraction_) eqn:Ez; cbn [negb].
    + apply all_zeros_dec in Ez; [|exact Hf]. rewrite Ez, Z.add_0_r. replace (lf - e)%Z with (- e + lf)%Z by lia. rewrite Z.pow_add_r by lia.
      assert (Hmin : Z.min (lf - ec - lf) lw = Z.min (- e) lw) by (unfold exponentBound in *; lia). rewrite Hmin.
      pose proof (zeros_after whole (- e) Hw ltac:(lia)) as Hz. fold lw in Hz. rewrite Hz. split.
      * intros H. right. apply Z.mul_divide_mono_r. exact H.
      * intros [H|H]; [lia|]. apply Z.mul_divide_cancel_r in H; [exact H | lia].
    + split; [discriminate|]. intros [H|H]; [lia|]. exfalso. assert (Hd : (10 ^ lf | dec whole * 10 ^ lf + dec fraction_)%Z) by (eapply Z.divide_trans; [apply pow10_divide|exact H]; lia).
      apply Z.divide_add_cancel_r in Hd; [|apply Z.divide_factor_r]. apply pow10_divides_small in Hd; [|exact Hf | lia]. apply all_zeros_dec in Hd; [congruence | exact Hf].
Qed.

(** C21: the integer test is exact. For the text of every number that the scanner accepts, however large, it holds
    exactly when the number is whole, that is when the power of ten that scales its digits is not negative or
    divides them; the clamping of exponents beyond 2^40 changes nothing for a text that is shorter. *)
Theorem numberTextIsInteger_exact s n r : lex_number s = Some (n, r) -> (Z.of_nat (String.length (number_text n)) < 2 ^ 40)%Z ->
  numberTextIsInteger (number_text n) = true <-> integral n.
Proof.
  intros Hn Hlen. pose proof (lex_number_shaped _ _ _ Hn) as Hs. rewrite (text_parts n Hs). destruct Hs as [[Hi _] Hf _]. unfold integral. rewrite integer_digits_exact.
  - replace (- (exponent n - _))%Z with (Z.of_nat (String.length (fraction n)) - exponent n)%Z by lia. reflexivity.
  - exact Hi.
  - unfold fraction. destruct (n_frac n) as [f|]; [apply Hf; reflexivity | constructor].
  - unfold number_text in Hlen. rewrite !length_app_s in Hlen. unfold fraction, exponentBound. destruct (n_frac n); rewrite ?length_app_s in Hlen; cbn [default id String.length] in *; lia.
Qed.

Lemma numberTextIsInteger_exact_witness :
  lex_number "-1.50e2," = Some (Number true "1" (Some "50") (Some ("e", false, "2")), ",") /\ (Z.of_nat (String.length "-1.50e2") < 2 ^ 40)%Z /\
  (numberTextIsInteger "-1.50e2" = true <-> integral (Number true "1" (Some "50") (Some ("e", false, "2")))).
Proof.
  split; [reflexivity|]. split; [reflexivity|].
  exact (numberTextIsInteger_exact "-1.50e2," (Number true "1" (Some "50") (Some ("e", false, "2"))) "," eq_refl eq_refl).
Defined.

(** * The limits *)

(** What is asked of a schema, without an order and apart from the code: of the node alone, of its properties,
    and of the schemas in it, one level less deep. *)

(** A pattern that structured outputs do not support, by a piece of it: a backreference, a word boundary, or the
    start of a lookaround. *)
Definition unsupported_piece (pattern : string) : Prop :=
  exists u c v, (pattern = u +:+ String backslash (String c v) /\ c ∈ chars "123456789bB") \/ (pattern = u +:+ "(?" +:+ String c v /\ c ∈ chars "=!<").
Definition scalar (v : json) : Prop := (forall l, v <> JArr l) /\ (forall m, v <> JObj m).
(** It says that it is an object, or has properties. *)
Definition object_schema (m : list (string * json)) : Prop :=
  member "type" m = Some (JStr "object") \/ exists v, member "properties" m = Some v /\ v <> JNull.
Definition node_within (m : list (string * json)) : Prop :=
  Forall (fun kv => kv.1 ∈ ["type"; "properties"; "required"; "additionalProperties"; "items"; "enum"; "const"; "anyOf"; "allOf"; "$ref"; "$defs"; "definitions";
                            "description"; "title"; "default"; "examples"; "format"; "minItems"; "pattern"; "$schema"; "$id"; "$comment"]) m /\
  (forall ref, member "$ref" m = Some (JStr ref) -> exists inside, ref = "#" +:+ inside) /\
  (forall format, member "format" m = Some (JStr format) ->
     format ∈ ["date-time"; "time"; "date"; "duration"; "email"; "hostname"; "uri"; "ipv4"; "ipv6"; "uuid"]) /\
  (forall pattern, member "pattern" m = Some (JStr pattern) -> ~ unsupported_piece pattern) /\
  (forall values, member "enum" m = Some (JArr values) -> Forall scalar values) /\
  (object_schema m -> member "additionalProperties" m = Some (JBool false)).
(** A property is a schema that says what it allows. *)
Definition property_within (kv : string * json) : Prop :=
  exists child k x, kv.2 = JObj child /\ member k child = Some x /\ k ∈ ["type"; "anyOf"; "allOf"; "enum"; "const"; "$ref"].
Definition object_at (k : string) (m : list (string * json)) : list json := match member k m with Some (JObj o) => [JObj o] | _ => [] end.
Definition subschemas (m : list (string * json)) : list json :=
  map snd (map_at "properties" m) ++ concat (map (fun k => object_at k m) ["items"; "additionalProperties"]) ++ concat (map (fun k => list_at k m) ["anyOf"; "allOf"]) ++
  concat (map (fun k => map snd (map_at k m)) ["$defs"; "definitions"]).
Fixpoint within (depths : nat) (v : json) : Prop :=
  match depths, v with
  | O, _ => False
  | S depths, JObj m => node_within m /\ Forall property_within (map_at "properties" m) /\ Forall (within depths) (subschemas m)
  | S _, _ => True
  end.

(** The optional and the union-typed properties of a whole schema. *)
Definition plus (a b : fitCounts) : fitCounts := mkCounts (optional a + optional b) (unions a + unions b).
Definition zero : fitCounts := mkCounts 0 0.
Definition sum (l : list fitCounts) : fitCounts := foldr plus zero l.
(** Of one property: whether no entry of required names it, and whether it is an anyOf or has a list of types. *)
Definition own_property (required : list json) (kv : string * json) : fitCounts :=
  mkCounts (if existsb (fun v => match v with JStr name => String.eqb name kv.1 | _ => false end) required then 0 else 1)
    (match kv.2 with JObj child => match member "anyOf" child, member "type" child with Some _, _ | None, Some (JArr _) => 1 | _, _ => 0 end | _ => 0 end).
Definition own (m : list (string * json)) : fitCounts := sum (map (own_property (list_at "required" m)) (map_at "properties" m)).
Fixpoint totals (depths : nat) (v : json) : fitCounts :=
  match depths, v with S depths, JObj m => plus (own m) (sum (map (totals depths) (subschemas m))) | _, _ => zero end.

Lemma plus_assoc a b c : plus a (plus b c) = plus (plus a b) c.
Proof. unfold plus. cbn. f_equal; lia. Qed.
Lemma plus_comm a b : plus a b = plus b a.
Proof. unfold plus. f_equal; lia. Qed.
Lemma plus_zero a : plus a zero = a.
Proof. destruct a. unfold plus, zero. cbn. f_equal; lia. Qed.
Lemma sum_app l k : sum (l ++ k) = plus (sum l) (sum k).
Proof.
  induction l as [|a l IH]; [cbn; rewrite plus_comm, plus_zero; reflexivity|].
  change (plus a (sum (l ++ k)) = plus (plus a (sum l)) (sum k)). rewrite IH. apply plus_assoc.
Qed.

Lemma sum_plus {A} (f g : A -> fitCounts) l : sum (map (fun x => plus (f x) (g x)) l) = plus (sum (map f l)) (sum (map g l)).
Proof.
  induction l as [|x l IH]; [reflexivity|]. change (plus (plus (f x) (g x)) (sum (map (fun x => plus (f x) (g x)) l)) = plus (plus (f x) (sum (map f l))) (plus (g x) (sum (map g l)))).
  rewrite IH. unfold plus. cbn. f_equal; lia.
Qed.
Lemma sum_concat l : sum (concat l) = sum (map sum l).
Proof. induction l as [|x l IH]; [reflexivity|]. cbn [concat map]. rewrite sum_app, IH. reflexivity. Qed.

(** A check that passes exactly when [P] holds, and then adds [w]. *)
Definition passes (check : fitCounts -> string * fitCounts) (P : Prop) (w : fitCounts) : Prop :=
  forall c, P /\ check c = ("", plus c w) \/ ~ P /\ (check c).1 <> "".

Lemma passes_ext check P Q w v : passes check P w -> (P <-> Q) -> w = v -> passes check Q v.
Proof. intros Hd H -> c. destruct (Hd c); [left | right]; tauto. Qed.
Lemma passes_cons {A} (check : A -> fitCounts -> string * fitCounts) x l P w Q v :
  passes (check x) P w -> passes (first_reason check l) Q v -> passes (first_reason check (x :: l)) (P /\ Q) (plus w v).
Proof.
  intros Hx Hl c. cbn [first_reason]. destruct (Hx c) as [[Px ->]|[Nx Hr]].
  - destruct (Hl (plus c w)) as [[Pl ->]|[Nl Hr]]; [left | right; tauto]. rewrite <-plus_assoc. tauto.
  - right. split; [tauto|]. destruct (check x c) as [[|a r] c']; [contradiction | exact Hr].
Qed.
Lemma passes_nil {A} (check : A -> fitCounts -> string * fitCounts) : passes (first_reason check []) True zero.
Proof. intros c. left. rewrite plus_zero. auto. Qed.
Lemma passes_list {A} (check : A -> fitCounts -> string * fitCounts) (P : A -> Prop) (w : A -> fitCounts) l :
  (forall x, x ∈ l -> passes (check x) (P x) (w x)) -> passes (first_reason check l) (Forall P l) (sum (map w l)).
Proof.
  induction l as [|x l IH]; intros H; [eapply passes_ext; [apply passes_nil | rewrite Forall_nil; tauto | reflexivity]|].
  eapply passes_ext; [apply passes_cons; [apply H; left | apply IH; intros y Hy; apply H; right; exact Hy] | rewrite Forall_cons; tauto | reflexivity].
Qed.

(** ** The checks on a node *)

Lemma contains_elem l k : contains l k = true <-> k ∈ l.
Proof. unfold contains. rewrite existsb_exists, list_elem_of_In. setoid_rewrite String.eqb_eq. naive_solver. Qed.
Lemma digit_or_b c : (in_class [("1"%char, "9"%char)] c = true \/ in_class [("b"%char, "b"%char); ("B"%char, "B"%char)] c = true) <-> c ∈ chars "123456789bB".
Proof. rewrite <-orb_true_iff, <-(bool_decide_eq_true (c ∈ chars "123456789bB")). destruct c as [[] [] [] [] [] [] [] []]; vm_compute; tauto. Qed.
Lemma look_sign c : in_class [("="%char, "="%char); ("!"%char, "!"%char); ("<"%char, "<"%char)] c = true <-> c ∈ chars "=!<".
Proof. rewrite <-(bool_decide_eq_true (c ∈ chars "=!<")). destruct c as [[] [] [] [] [] [] [] []]; vm_compute; tauto. Qed.
Lemma lit_class w rs u : matches (RSeq (lit w) (RCls rs)) u <-> exists c, u = w +:+ String c "" /\ in_class rs c = true.
Proof.
  rewrite matches_seq. setoid_rewrite matches_lit. setoid_rewrite matches_cls. split; [intros (? & ? & -> & -> & c & -> & H); eauto|].
  intros (c & -> & H). exists w, (String c ""). eauto.
Qed.
Lemma unsupported_pattern_iff s : unsupported_pattern s = true <-> unsupported_piece s.
Proof.
  unfold unsupported_pattern, unsupported_piece. rewrite ChStatement.search_iff.
  assert (Hm : forall u, matches anthropicUnsupportedPattern u <->
    (exists c, u = String backslash (String c "") /\ c ∈ chars "123456789bB") \/ exists c, u = "(?" +:+ String c "" /\ c ∈ chars "=!<").
  { intros u. unfold anthropicUnsupportedPattern, cls. rewrite !matches_alt, !lit_class. cbn [cls_ranges String.length]. setoid_rewrite <-digit_or_b. setoid_rewrite <-look_sign.
    split; [intros [(c & -> & H)|[(c & -> & H)|(c & -> & H)]] | intros [(c & -> & [H|H])|(c & -> & H)]]; eauto 8. }
  setoid_rewrite Hm. split.
  - intros (w & u & v & -> & _ & [(c & -> & H)|(c & -> & H)] & _); exists w, c, v; [left | right]; (split; [reflexivity | exact H]).
  - intros (w & c & v & [[-> H]|[-> H]]).
    + exists w, (String backslash (String c "")), v. repeat split. left. eauto.
    + exists w, ("(?" +:+ String c ""), v. repeat split. right. eauto.
Qed.

Lemma node_reason_iff m path : node_reason m path = "" <->
  Forall (fun kv => contains anthropicStructuredKeywords kv.1 = true) m /\
  (forall ref, member "$ref" m = Some (JStr ref) -> HasPrefix ref "#" = true) /\
  (forall format, member "format" m = Some (JStr format) -> contains anthropicStringFormats format = true).
Proof.
  unfold node_reason. destruct (List.find _ m) as [[k x]|] eqn:F.
  { apply find_some in F as [Hin Hk]. cbn in Hk. split; [discriminate|]. intros [H _]. rewrite Forall_forall in H. apply list_elem_of_In, H in Hin. cbn in Hin. rewrite Hin in Hk. discriminate. }
  assert (Hk : Forall (fun kv => contains anthropicStructuredKeywords kv.1 = true) m).
  { apply Forall_forall. intros kv Hin%list_elem_of_In. apply (find_none _ _ F) in Hin. apply negb_false_iff in Hin. exact Hin. }
  assert (Hr : (match member "$ref" m with Some (JStr ref) => negb (HasPrefix ref "#") | _ => false end) = false <-> forall ref, member "$ref" m = Some (JStr ref) -> HasPrefix ref "#" = true).
  { destruct (member "$ref" m) as [v|]; [destruct v as [| | |ref| |]|]; try (split; [discriminate | reflexivity]). rewrite negb_false_iff. naive_solver. }
  destruct (match member "$ref" m with Some _ => _ | None => _ end); [split; [discriminate | intros (_ & H & _); apply Hr in H; discriminate]|].
  destruct (member "format" m) as [v|]; [destruct v as [| | |format| |]|]; try (split; [intros _; split; [exact Hk|]; split; [apply Hr; reflexivity | discriminate] | reflexivity]).
  destruct (contains anthropicStringFormats format) eqn:Ef.
  - split; [|reflexivity]. intros _. split; [exact Hk|]. split; [apply Hr; reflexivity|]. intros f [= <-]. exact Ef.
  - split; [discriminate|]. intros (_ & _ & H). rewrite (H _ eq_refl) in Ef. discriminate.
Qed.
Lemma value_reason_iff m path : value_reason m path = "" <->
  (forall pattern, member "pattern" m = Some (JStr pattern) -> unsupported_pattern pattern = false) /\
  existsb is_compound (list_at "enum" m) = false /\
  (isObject m = true -> member "additionalProperties" m = Some (JBool false)).
Proof.
  unfold value_reason. destruct (match member "pattern" m with Some (JStr pattern) => unsupported_pattern pattern | _ => false end) eqn:Ep.
  { split; [discriminate|]. intros [H _]. destruct (member "pattern" m) as [v|]; [destruct v as [| | |pattern| |]|]; try discriminate. rewrite (H _ eq_refl) in Ep. discriminate. }
  assert (Hp : forall pattern, member "pattern" m = Some (JStr pattern) -> unsupported_pattern pattern = false) by (intros pattern E; rewrite E in Ep; exact Ep).
  destruct (existsb is_compound (list_at "enum" m)); [split; [discriminate | intros (_ & [=] & _)]|].
  destruct (isObject m); cbn [andb]; [|split; [intros _; repeat split; [exact Hp | discriminate] | reflexivity]].
  destruct (member "additionalProperties" m) as [v|]; [destruct v as [|[|]| | | |]|]; cbn; naive_solver.
Qed.
Lemma isObject_iff m : isObject m = true <-> object_schema m.
Proof.
  unfold isObject, object_schema. rewrite orb_true_iff.
  assert (H1 : match member "type" m with Some (JStr t) => String.eqb t "object" | _ => false end = true <-> member "type" m = Some (JStr "object")).
  { destruct (member "type" m) as [v|]; [destruct v as [| | |t| |]|]; try (split; discriminate). rewrite String.eqb_eq. split; [intros ->; reflexivity | intros [= ->]; reflexivity]. }
  rewrite H1. destruct (member "properties" m) as [[]|]; naive_solver.
Qed.
Lemma enum_scalars m : existsb is_compound (list_at "enum" m) = false <-> forall values, member "enum" m = Some (JArr values) -> Forall scalar values.
Proof.
  assert (H : forall l, existsb is_compound l = false <-> Forall scalar l).
  { induction l as [|v l IH]; cbn [existsb]; [split; [constructor | reflexivity]|]. rewrite orb_false_iff, Forall_cons, IH. unfold scalar. destruct v; cbn; naive_solver. }
  unfold list_at. destruct (member "enum" m) as [[]|]; rewrite H; naive_solver.
Qed.
Lemma HasPrefix_iff s p : HasPrefix s p = true <-> exists r, s = p +:+ r.
Proof.
  unfold HasPrefix. revert s. induction p as [|a p IH]; intros s; cbn [after]; [split; [intros _; exists s; reflexivity | reflexivity]|].
  setoid_rewrite str_app_cons. destruct s as [|b s]; [split; [discriminate | intros (r & [=])]|].
  destruct (Ascii.eqb_spec a b) as [->|N]; [rewrite IH; naive_solver | split; [discriminate | intros (r & [= -> _]); contradiction]].
Qed.
Lemma node_within_iff m path : node_within m <-> node_reason m path = "" /\ value_reason m path = "".
Proof.
  rewrite node_reason_iff, value_reason_iff, isObject_iff, enum_scalars. unfold node_within.
  setoid_rewrite contains_elem. setoid_rewrite HasPrefix_iff. setoid_rewrite <-not_true_iff_false. setoid_rewrite unsupported_pattern_iff. tauto.
Qed.
Lemma property_within_iff kv : property_within kv <-> exists child, kv.2 = JObj child /\ typed child = true.
Proof.
  unfold property_within, typed, has. setoid_rewrite existsb_exists. setoid_rewrite <-list_elem_of_In. split.
  - intros (child & k & x & E & Hm & Hk). exists child. split; [exact E|]. exists k. rewrite Hm. auto.
  - intros (child & E & k & Hk & Hm). destruct (member k child) as [x|] eqn:F; [|discriminate]. eauto 8.
Qed.
Lemma own_property_counts m name child c : count_property (texts (list_at "required" m)) name child c = plus c (own_property (list_at "required" m) (name, JObj child)).
Proof.
  unfold count_property, plus, own_property, isUnion, has, contains. cbn [fst snd optional unions].
  assert (E : existsb (fun v => String.eqb v name) (texts (list_at "required" m)) = existsb (fun v => match v with JStr n => String.eqb n name | _ => false end) (list_at "required" m)).
  { unfold texts. induction (list_at "required" m) as [|v l IH]; [reflexivity|]. destruct v; cbn; rewrite ?IH; reflexivity. }
  rewrite E. destruct (existsb _ (list_at "required" m)), (member "anyOf" child), (member "type" child) as [[]|]; cbn; f_equal; lia.
Qed.

(** The schemas behind some names: each one's own list of them. *)
Lemma passes_keys (pick : string -> list json) (P : json -> Prop) (w : json -> fitCounts) keys (run : string -> fitCounts -> string * fitCounts) :
  (forall k, passes (run k) (Forall P (pick k)) (sum (map w (pick k)))) ->
  passes (first_reason run keys) (Forall P (concat (map pick keys))) (sum (map w (concat (map pick keys)))).
Proof.
  intros H. eapply passes_ext; [apply (passes_list _ (fun k => Forall P (pick k)) (fun k => sum (map w (pick k)))); intros k _; apply H| |].
  - rewrite Forall_concat, Forall_map. reflexivity.
  - rewrite concat_map, sum_concat, !map_map. reflexivity.
Qed.
(** A list of values with labels. *)
Lemma passes_labelled {L} (check : L * json -> fitCounts -> string * fitCounts) (P : json -> Prop) (w : json -> fitCounts) (l : list (L * json)) :
  (forall x, passes (check x) (P x.2) (w x.2)) -> passes (first_reason check l) (Forall P (map snd l)) (sum (map w (map snd l))).
Proof.
  intros H. eapply passes_ext; [apply (passes_list check (fun x => P x.2) (fun x => w x.2)); intros x _; apply H | rewrite Forall_map; reflexivity | rewrite map_map; reflexivity].
Qed.

Section Children.
Variables (depths : nat) (path : string).
Hypothesis fits : forall v path, passes (fitNode depths v path) (within depths v) (totals depths v).
Notation W := (within depths).
Notation T := (totals depths).

Lemma property_passes m kv :
  passes (fun c => let propertyPath := path +:+ "." +:+ kv.1 in
    match kv.2 with
    | JObj child => if typed child then fitNode depths (JObj child) propertyPath (count_property (texts (list_at "required" m)) kv.1 child c) else ("property_without_type: " +:+ propertyPath, c)
    | _ => ("property_not_a_schema: " +:+ propertyPath, c)
    end) (property_within kv /\ W kv.2) (plus (own_property (list_at "required" m) kv) (T kv.2)).
Proof.
  intros c. rewrite property_within_iff. destruct kv as [name v]. cbn [fst snd].
  destruct v as [|b|t|s|l|child]; try (right; split; [intros [(x & [=] & _) _] | discriminate]).
  destruct (typed child) eqn:Et; [|right; split; [intros [(x & [= <-] & H) _]; congruence | discriminate]]. rewrite own_property_counts.
  destruct (fits (JObj child) (path +:+ "." +:+ name) (plus c (own_property (list_at "required" m) (name, JObj child)))) as [[H ->]|[H Hr]].
  - left. rewrite plus_assoc. split; [split; [exists child; auto | exact H] | reflexivity].
  - right. split; [tauto | exact Hr].
Qed.

Lemma properties_pass m : passes (first_reason (fun (kv : string * json) c => let propertyPath := path +:+ "." +:+ kv.1 in
    match kv.2 with
    | JObj child => if typed child then fitNode depths (JObj child) propertyPath (count_property (texts (list_at "required" m)) kv.1 child c) else ("property_without_type: " +:+ propertyPath, c)
    | _ => ("property_not_a_schema: " +:+ propertyPath, c)
    end) (map_at "properties" m))
  (Forall property_within (map_at "properties" m) /\ Forall W (map snd (map_at "properties" m))) (plus (own m) (sum (map T (map snd (map_at "properties" m))))).
Proof.
  eapply passes_ext; [apply (passes_list _ (fun kv => property_within kv /\ W kv.2)); intros kv _; apply property_passes| |].
  - rewrite Forall_and, Forall_map. reflexivity.
  - rewrite sum_plus, map_map. reflexivity.
Qed.

Lemma object_passes m k : passes (fun c => match member k m with Some (JObj child) => fitNode depths (JObj child) (path +:+ "." +:+ k) c | _ => ("", c) end)
  (Forall W (object_at k m)) (sum (map T (object_at k m))).
Proof.
  unfold object_at. assert (Hn : passes (fun c => ("", c)) (Forall W []) (sum (map T []))) by (intros c; left; cbn; rewrite plus_zero; auto).
  destruct (member k m) as [[]|]; try exact Hn. eapply passes_ext; [apply fits | rewrite Forall_singleton; reflexivity | cbn [map sum foldr]; rewrite plus_zero; reflexivity].
Qed.
End Children.

Lemma snd_imap {A B} (l : list A) : forall f : nat -> B, map snd (imap (fun i x => (f i, x)) l) = l.
Proof. induction l as [|x l IH]; intros f; [reflexivity|]. rewrite imap_cons. cbn [map snd]. f_equal. apply (IH (f ∘ S)). Qed.

Lemma fitNode_passes depths : forall v path, passes (fitNode depths v path) (within depths v) (totals depths v).
Proof.
  induction depths as [|depths IH]; intros v path c; [right; split; [intros []|discriminate]|].
  destruct v as [|b|t|s|l|m]; try (left; cbn; rewrite plus_zero; split; [exact I | reflexivity]).
  cbn [fitNode within totals]. pose proof (node_within_iff m path) as Hn. destruct (node_reason m path) as [|a r] eqn:En.
  2:{ right. split; [|discriminate]. intros [H _]. apply Hn in H as [H _]. discriminate. }
  destruct (value_reason m path) as [|a r] eqn:Ev.
  2:{ right. split; [|discriminate]. intros [H _]. apply Hn in H as [_ H]. discriminate. }
  assert (Hm : node_within m) by (apply Hn; auto). revert c.
  eapply passes_ext; [apply passes_cons; [apply (properties_pass depths path IH m)|]; apply passes_cons; [apply (passes_keys (fun k => object_at k m)); intros k; apply (object_passes depths path IH)|];
    apply passes_cons; [apply (passes_keys (fun k => list_at k m) (within depths) (totals depths))|]; [|apply passes_cons; [apply (passes_keys (fun k => map snd (map_at k m)) (within depths) (totals depths))|apply passes_nil]]| |].
  - intros k. eapply passes_ext; [apply (passes_labelled _ (within depths) (totals depths)); intros ix; apply IH | rewrite (snd_imap _ id); reflexivity | rewrite (snd_imap _ id); reflexivity].
  - intros k. apply (passes_labelled _ (within depths) (totals depths)). intros kv. apply IH.
  - unfold subschemas. rewrite !Forall_app. tauto.
  - unfold subschemas. rewrite !map_app, !sum_app, plus_zero, <-!plus_assoc. reflexivity.
Qed.

(** A schema that refers to itself fits: nothing looks where a reference inside leads. *)
Example recursive_ref_fits : anthropicSchemaFit [("additionalProperties", JBool false);
    ("properties", JObj [("child", JObj [("$ref", JStr "#")])]); ("required", JArr [JStr "child"]); ("type", JStr "object")] = (true, "").
Proof. vm_compute. reflexivity. Qed.

(** C19: the mode is picked by the limits that are checked and nothing else. A schema fits structured outputs
    exactly when every schema in it, to a depth of 64, has only the supported keywords, a $ref that begins with
    "#", a known string format, a pattern without a backreference, a word boundary or a lookaround, no object or
    array as an enum value and, if it is an object, additionalProperties false; when its properties are schemas
    that say what they allow; and when no more than 24 properties are optional and 16 of a union type in the
    whole of it. One that does not fit is given a reason. *)
Theorem anthropicSchemaFit_exact m :
  let total := totals 65 (JObj m) in
  ((anthropicSchemaFit m).1 = true <-> within 65 (JObj m) /\ (optional total <= 24)%Z /\ (unions total <= 16)%Z) /\
  ((anthropicSchemaFit m).1 = true <-> (anthropicSchemaFit m).2 = "").
Proof.
  cbv zeta. unfold anthropicSchemaFit, anthropicMaxOptionalParameters, anthropicMaxUnionParameters. generalize (fitNode_passes 65 (JObj m) "$" zero). fold zero.
  generalize (fitNode 65 (JObj m) "$" zero), (totals 65 (JObj m)), (within 65 (JObj m)). intros [reason counts] total W [[Hw E]|[Hw Hr]].
  - rewrite plus_comm, plus_zero in E. injection E as -> ->. change (negb (String.eqb "" "")) with false. cbv iota.
    destruct (Z.ltb_spec 24 (optional total)); [|destruct (Z.ltb_spec 16 (unions total))]; cbn [fst snd].
    + split; [split; [discriminate | lia] | split; discriminate].
    + split; [split; [discriminate | lia] | split; discriminate].
    + split; [split; [intros _; auto | reflexivity] | split; reflexivity].
  - cbn [fst snd] in *. destruct (String.eqb_spec reason "") as [|N]; [contradiction|]. cbn [negb fst snd]. split; [split; [discriminate | tauto] | split; [discriminate | contradiction]].
Qed.

(** * The passes *)

Lemma remove_other k k0 m : k <> k0 -> member k (remove k0 m) = member k m.
Proof.
  intros N. induction m as [|[k' v] m IH]; [reflexivity|]. unfold remove. cbn [List.filter fst member]. destruct (String.eqb_spec k' k0) as [->|N']; cbn [negb].
  - rewrite (proj2 (String.eqb_neq k k0) N). exact IH.
  - cbn [member]. destruct (String.eqb k k'); [reflexivity | exact IH].
Qed.
Lemma member_enum k m : sorted m -> k ∉ ["description"; "enum"; "type"] -> member k (enumWithoutTypeList m) = member k m.
Proof.
  intros Hm Hk. rewrite !not_elem_of_cons in Hk. destruct Hk as (_ & N1 & N2 & _). unfold enumWithoutTypeList. destruct (member "type" m) as [[]|]; try reflexivity.
  destruct (member "enum" m) as [[]|]; try reflexivity. rewrite remove_other by exact N2. rewrite member_put by exact Hm. rewrite (proj2 (String.eqb_neq k "enum") N1). reflexivity.
Qed.

Section Strip.
Variable ParseFloat : string -> option SpecFloat.spec_float.
Notation strip := (stripSchema ParseFloat).
Notation dropped := (dropped ParseFloat).

(** A member that holds data, and not a schema. *)
Definition is_data (k : string) : bool := contains anthropicSchemaDataKeywords k && negb (contains anthropicUnsupportedKeywords k).
Definition strip_value (k : string) (x : json) : json :=
  match x with JObj names => if names_schemas k then JObj (map (fun kv => (kv.1, strip kv.2)) names) else strip x | _ => strip x end.
Definition strip_member (kv : string * json) : option (string * json) :=
  if is_data kv.1 then Some kv else if dropped kv.1 kv.2 then None else Some (kv.1, strip_value kv.1 kv.2).

Lemma strip_object m : strip (JObj m) = JObj (enumWithoutTypeList (describeDroppedBounds m (omap strip_member m))).
Proof.
  cbn [stripSchema]. do 2 f_equal. f_equal. induction m as [|[k x] m IH]; [reflexivity|]. cbn [omap list_omap]. unfold strip_member at 1, is_data. cbn [fst snd].
  destruct (contains anthropicSchemaDataKeywords k && negb (contains anthropicUnsupportedKeywords k)); [f_equal; exact IH|].
  destruct (dropped k x); [exact IH|]. f_equal. exact IH.
Qed.

(** ** What is refused, apart from the code *)

(** The bounds that the API refuses: of numbers, texts and objects, and of arrays but for minItems 0 or 1. *)
Definition zero_or_one (x : json) : Prop :=
  exists t f, x = JNum t /\ ParseFloat t = Some f /\ (SFcompare f (LlmErrors.of_int 0) = Some Eq \/ SFcompare f (LlmErrors.of_int 1) = Some Eq).
Definition refused (k : string) (x : json) : Prop :=
  k ∈ ["minimum"; "maximum"; "exclusiveMinimum"; "exclusiveMaximum"; "multipleOf"; "minLength"; "maxLength"; "maxItems"; "uniqueItems"; "minContains"; "maxContains";
       "minProperties"; "maxProperties"] \/ (k = "minItems" /\ ~ zero_or_one x).
(** The keywords that hold data, and those that hold schemas under names. *)
Definition holds_data (k : string) : Prop := k ∈ ["default"; "const"; "enum"; "examples"].
Definition holds_names (k : string) : Prop := k ∈ ["properties"; "$defs"; "definitions"].

Lemma dropped_iff k x : dropped k x = true <-> refused k x.
Proof.
  unfold LlmSchema.dropped, refused. rewrite orb_true_iff, andb_true_iff, contains_elem, String.eqb_eq, negb_true_iff. apply or_iff_compat_l, and_iff_compat_l.
  unfold zero_or_one, schemaNumber, is_zero_or_one. rewrite <-not_true_iff_false. apply not_iff_compat. split.
  - destruct x as [| |t| | |]; try discriminate. destruct (ParseFloat t) as [f|] eqn:E; [|discriminate]. intros H. exists t, f. split; [reflexivity|]. split; [exact E|].
    destruct (SFcompare f (LlmErrors.of_int 0)) as [[]|], (SFcompare f (LlmErrors.of_int 1)) as [[]|]; try discriminate; auto.
  - intros (t & f & -> & -> & [H|H]); rewrite H; [reflexivity|]. destruct (SFcompare f (LlmErrors.of_int 0)) as [[]|]; reflexivity.
Qed.
Lemma kept_iff k x : dropped k x = false <-> ~ refused k x.
Proof. rewrite <-dropped_iff. destruct (dropped k x); intuition congruence. Qed.
Lemma is_data_iff k : is_data k = true <-> holds_data k.
Proof.
  unfold is_data, holds_data. rewrite andb_true_iff, negb_true_iff, contains_elem. split; [tauto|]. intros H. split; [exact H|].
  revert k H. apply Forall_forall. repeat constructor.
Qed.
Lemma names_iff k : names_schemas k = true <-> holds_names k.
Proof. apply contains_elem. Qed.

(** A schema with nothing that the API refuses: no bound in a schema, at any depth, but in data or as the name of
    a property; and no enum under a list of types. *)
Definition enum_under_types (m : list (string * json)) : Prop := exists types values, member "type" m = Some (JArr types) /\ member "enum" m = Some (JArr values).
Inductive clean : json -> Prop :=
| clean_leaf v : scalar v -> clean v
| clean_arr l : Forall clean l -> clean (JArr l)
| clean_obj m : Forall clean_member m -> ~ enum_under_types m -> clean (JObj m)
with clean_member : string * json -> Prop :=
| cm_data k x : holds_data k -> clean_member (k, x)
| cm_names k names : ~ refused k (JObj names) -> holds_names k -> Forall (fun kv => clean kv.2) names -> clean_member (k, JObj names)
| cm_schema k x : ~ refused k x -> clean x -> clean_member (k, x).

Lemma put_Forall (P : string * json -> Prop) k v m : P (k, v) -> Forall P m -> Forall P (put k v m).
Proof.
  intros Hp. induction m as [|[k' v'] m IH]; intros H; cbn [put]; [repeat constructor; exact Hp|]. apply Forall_cons in H as [H1 H2].
  destruct (String.compare k k'); repeat constructor; auto.
Qed.
Lemma remove_Forall (P : string * json -> Prop) k m : Forall P m -> Forall P (remove k m).
Proof. intros H. unfold remove. apply Forall_forall. intros x Hx. apply list_elem_of_In, filter_In in Hx as [Hx _]. rewrite Forall_forall in H. apply H, list_elem_of_In, Hx. Qed.
Lemma remove_member k m : member k (remove k m) = None.
Proof.
  induction m as [|[k' v] m IH]; [reflexivity|]. unfold remove. cbn [List.filter fst]. destruct (String.eqb_spec k' k) as [->|N]; cbn [negb]; [exact IH|].
  cbn [member]. destruct (String.eqb_spec k k'); [congruence | exact IH].
Qed.

Lemma describe_Forall (P : string * json -> Prop) m out : (forall t, P ("description", JStr t)) -> Forall P out -> Forall P (describeDroppedBounds m out).
Proof. intros Hp H. unfold describeDroppedBounds. destruct (omap _ _); [exact H|]. apply put_Forall; [apply Hp | exact H]. Qed.
Lemma enum_Forall (P : string * json -> Prop) m : (forall l, P ("enum", JArr l)) -> Forall P m -> Forall P (enumWithoutTypeList m).
Proof.
  intros Hp H. unfold enumWithoutTypeList. destruct (member "type" m) as [[]|]; try exact H. destruct (member "enum" m) as [[]|]; try exact H. apply remove_Forall, put_Forall; [apply Hp | exact H].
Qed.
Lemma enum_removed m : ~ enum_under_types (enumWithoutTypeList m).
Proof.
  intros (types & values & H1 & H2). unfold enumWithoutTypeList in H1, H2. destruct (member "type" m) as [v|] eqn:Et; [|congruence]. destruct v; try congruence.
  destruct (member "enum" m) as [v|] eqn:Ee; [|congruence]. destruct v; try congruence. rewrite remove_member in H1. discriminate.
Qed.

(** A value that is not dropped is not after its passes either. *)
Lemma dropped_strip k x : dropped k x = false -> dropped k (strip_value k x) = false.
Proof.
  unfold LlmSchema.dropped. rewrite !orb_false_iff, !andb_false_iff, !negb_false_iff. intros [H1 [H2|H2]]; (split; [exact H1|]); [left; exact H2|right].
  destruct x; cbn [strip_value stripSchema]; try exact H2; discriminate.
Qed.

Lemma strip_clean_deep v : clean (strip v) /\ forall m, v = JObj m -> Forall (fun kv => clean (strip kv.2)) m.
Proof.
  induction v as [|b|t|s|l IH|m IH] using json_deep_ind; try (split; [apply clean_leaf; split; discriminate | discriminate]).
  - split; [|discriminate]. apply clean_arr. apply Forall_map. eapply Forall_impl; [exact IH|]. intros x [H _]. exact H.
  - split; [|intros m' [= <-]; eapply Forall_impl; [exact IH|]; intros x [H _]; exact H]. rewrite strip_object. apply clean_obj; [|apply enum_removed].
    apply enum_Forall; [intros l; apply cm_data, is_data_iff; reflexivity|].
    apply describe_Forall; [intros t; apply cm_schema; [apply kept_iff; reflexivity | apply clean_leaf; split; discriminate]|].
    apply Forall_forall. intros [k y] (kv & Hin & Hk)%list_elem_of_omap. rewrite Forall_forall in IH. specialize (IH kv Hin). destruct kv as [k0 x]. cbn [snd] in IH. destruct IH as [Hx Hnames].
    unfold strip_member in Hk. cbn [fst snd] in Hk. destruct (is_data k0) eqn:Ed; [injection Hk as <- <-; apply cm_data, is_data_iff, Ed|].
    destruct (dropped k0 x) eqn:Eq; [discriminate|]. injection Hk as <- <-. pose proof (dropped_strip _ _ Eq) as Hd. apply kept_iff in Hd.
    destruct x as [| | | | |names]; try (apply cm_schema; assumption). cbn [strip_value] in *. destruct (names_schemas k0) eqn:En; [|apply cm_schema; assumption].
    apply cm_names; [exact Hd | apply names_iff, En|]. apply Forall_map. exact (Hnames names eq_refl).
Qed.

(** ** What is kept *)

Lemma strip_member_key kv kv' : strip_member kv = Some kv' -> kv'.1 = kv.1.
Proof. unfold strip_member. destruct (is_data kv.1); [intros [= ->]; reflexivity|]. destruct (dropped kv.1 kv.2); [discriminate|]. intros [= <-]. reflexivity. Qed.
Lemma strip_members_sorted m : sorted m -> sorted (omap strip_member m).
Proof.
  unfold sorted. induction m as [|[k x] m IH]; intros H; [constructor|]. apply Sorted.StronglySorted_inv in H as [Hm Hk]. specialize (IH Hm). cbn [fst] in Hk.
  cbn [omap list_omap]. destruct (strip_member (k, x)) as [[k2 x2]|] eqn:Es; [|exact IH]. apply strip_member_key in Es. cbn [fst] in Es. subst k2. constructor; [exact IH|]. cbn [fst].
  apply Forall_forall. intros y Hy. apply list_elem_of_In, in_map_iff in Hy as (kv & <- & Hy). apply list_elem_of_In, list_elem_of_omap in Hy as (kv' & Hin & Hs).
  rewrite (strip_member_key _ _ Hs). rewrite Forall_forall in Hk. apply Hk, list_elem_of_In, in_map, list_elem_of_In, Hin.
Qed.
Lemma strip_members_member k m : sorted m -> member k (omap strip_member m) = match member k m with Some x => option_map snd (strip_member (k, x)) | None => None end.
Proof.
  unfold sorted. induction m as [|[k' x] m IH]; intros H; [reflexivity|]. apply Sorted.StronglySorted_inv in H as [Hm Hk]. specialize (IH Hm). cbn [fst] in Hk.
  cbn [omap list_omap member]. destruct (strip_member (k', x)) as [[k2 x2]|] eqn:Es.
  - pose proof (strip_member_key _ _ Es) as E. cbn [fst] in E. subst k2. cbn [member]. destruct (String.eqb_spec k k') as [->|N]; [rewrite Es; reflexivity | exact IH].
  - destruct (String.eqb_spec k k') as [->|N]; [|exact IH]. rewrite Es, IH, member_none; [reflexivity|]. intros Hin. rewrite Forall_forall in Hk. specialize (Hk k' Hin).
    apply before_le in Hk. tauto.
Qed.

(** ** What is sent *)

(** The words of the bounds, in their order: before the bound's own text and after it. *)
Definition phrases : list (string * (string * string)) :=
  [("minLength", ("at least ", " characters")); ("maxLength", ("at most ", " characters")); ("minimum", ("at least ", "")); ("maximum", ("at most ", ""));
   ("exclusiveMinimum", ("greater than ", "")); ("exclusiveMaximum", ("less than ", "")); ("multipleOf", ("a multiple of ", "")); ("minItems", ("at least ", " items"));
   ("maxItems", ("at most ", " items")); ("uniqueItems", ("unique items", "")); ("minContains", ("at least ", " matching items"));
   ("maxContains", ("at most ", " matching items")); ("minProperties", ("at least ", " properties")); ("maxProperties", ("at most ", " properties"))].
(** How one bound is said: uniqueItems only when it is true, and without its value; a number by its text. *)
Inductive said : string -> string -> string -> json -> string -> Prop :=
| said_unique pre suf : said "uniqueItems" pre suf (JBool true) pre
| said_number k pre suf t : k <> "uniqueItems" -> said k pre suf (JNum t) (pre +:+ t +:+ suf)
| said_other k pre suf x : k <> "uniqueItems" -> (forall t, x <> JNum t) -> said k pre suf x (pre +:+ Encode.Marshal x +:+ suf).
(** The limits of the members [m] that are refused, bound by bound. *)
Inductive limits (m : list (string * json)) : list (string * (string * string)) -> list string -> Prop :=
| limits_end : limits m [] []
| limits_said k pre suf x words rest texts :
    member k m = Some x -> refused k x -> said k pre suf x words -> limits m rest texts -> limits m ((k, (pre, suf)) :: rest) (words :: texts)
| limits_none k pre suf rest texts :
    (forall x words, member k m = Some x -> refused k x -> ~ said k pre suf x words) -> limits m rest texts -> limits m ((k, (pre, suf)) :: rest) texts.

(** The values that a type allows, of those that an enum may hold. *)
Definition allows (name value : json) : Prop :=
  (name = JStr "null" /\ value = JNull) \/ (name = JStr "string" /\ exists s, value = JStr s) \/ (name = JStr "boolean" /\ exists b, value = JBool b) \/
  (name = JStr "number" /\ exists t, value = JNum t) \/ (name = JStr "integer" /\ exists t, value = JNum t /\ numberTextIsInteger t = true).
Inductive picks {A} (P : A -> Prop) : list A -> list A -> Prop :=
| picks_nil : picks P [] []
| picks_in x l l' : P x -> picks P l l' -> picks P (x :: l) (x :: l')
| picks_out x l l' : ~ P x -> picks P l l' -> picks P (x :: l) l'.

(** The description: as it was kept, unless there are limits to say; they follow it, or stand alone. *)
Definition described (kept : option json) (texts : list string) (o : option json) : Prop :=
  let said := "Limits: " +:+ Prelude.join "; " texts +:+ "." in
  (texts = [] -> o = kept) /\
  (texts <> [] -> (exists existing, kept = Some (JStr existing) /\ existing <> "" /\ o = Some (JStr (existing +:+ " " +:+ said))) \/
                  ((forall existing, kept = Some (JStr existing) -> existing = "") /\ o = Some (JStr said))).
(** The type and the enum: as they were kept, unless both are lists; then the enum's values that some type allows. *)
Definition retyped (kept : string -> option json) (m : list (string * json)) : Prop :=
  (exists types values values', kept "type" = Some (JArr types) /\ kept "enum" = Some (JArr values) /\
     picks (fun v => Exists (fun name => allows name v) types) values values' /\ member "type" m = None /\ member "enum" m = Some (JArr values')) \/
  ((forall types values, kept "type" = Some (JArr types) -> kept "enum" <> Some (JArr values)) /\ member "type" m = kept "type" /\ member "enum" m = kept "enum").

(** What is sent for a schema: for an object, first what is [kept] of each keyword, and then the description, the
    type and the enum. *)
Inductive sent : json -> json -> Prop :=
| sent_leaf v : scalar v -> sent v v
| sent_arr l l' : Forall2 sent l l' -> sent (JArr l) (JArr l')
| sent_obj m m' kept texts : (forall k, passed m k (kept k)) -> limits m phrases texts ->
    (forall k, k <> "description" -> k <> "type" -> k <> "enum" -> member k m' = kept k) ->
    described (kept "description") texts (member "description" m') -> retyped kept m' -> sorted m' -> sent (JObj m) (JObj m')
with passed : list (string * json) -> string -> option json -> Prop :=
| passed_absent m k : member k m = None -> passed m k None
| passed_refused m k x : member k m = Some x -> refused k x -> passed m k None
| passed_data m k x : member k m = Some x -> holds_data k -> passed m k (Some x)
| passed_names m k names names' : member k m = Some (JObj names) -> holds_names k ->
    Forall2 (fun a b => a.1 = b.1 /\ sent a.2 b.2) names names' -> passed m k (Some (JObj names'))
| passed_schema m k x y : member k m = Some x -> ~ refused k x -> ~ holds_data k -> (forall names, holds_names k -> x <> JObj names) -> sent x y -> passed m k (Some y).

(** ** Each pass *)

Lemma data_not_refused k x : is_data k = true -> dropped k x = false.
Proof.
  intros H%is_data_iff. apply kept_iff. unfold refused. revert k H. apply Forall_forall.
  repeat (apply Forall_cons; split; [intros [H|[H _]]; [revert H; apply (bool_decide_unpack (_ ∉ _)); reflexivity | discriminate]|]). constructor.
Qed.
Lemma member_in k x m : member k m = Some x -> (k, x) ∈ m.
Proof.
  induction m as [|[k' v] m IH]; [discriminate|]. cbn [member]. destruct (String.eqb_spec k k') as [->|]; [intros [= ->]; left | intros H; right; auto].
Qed.
Lemma strip_passed m k : sorted m -> Forall (fun kv => sent kv.2 (strip kv.2)) m ->
  (forall x names, member k m = Some x -> x = JObj names -> Forall (fun kv => sent kv.2 (strip kv.2)) names) -> passed m k (member k (omap strip_member m)).
Proof.
  intros Hm Hs Hn. rewrite strip_members_member by exact Hm. destruct (member k m) as [x|] eqn:E; [|apply passed_absent, E].
  assert (Hx : sent x (strip x)) by (rewrite Forall_forall in Hs; exact (Hs _ (member_in _ _ _ E))).
  unfold strip_member. cbn [fst snd]. destruct (is_data k) eqn:Ed; [apply passed_data; [exact E | apply is_data_iff, Ed]|].
  destruct (dropped k x) eqn:Eq; [apply (passed_refused _ _ x); [exact E | apply dropped_iff, Eq]|]. cbn [option_map snd].
  assert (Hd : ~ holds_data k) by (rewrite <-is_data_iff; congruence). apply kept_iff in Eq.
  destruct x as [| | | | |names]; try (eapply passed_schema; [exact E | exact Eq | exact Hd | discriminate | exact Hx]).
  cbn [strip_value]. destruct (names_schemas k) eqn:En.
  - apply passed_names with (names := names); [exact E | apply names_iff, En|]. specialize (Hn _ _ eq_refl eq_refl). clear -Hn.
    induction Hn as [|kv names H _ IH]; constructor; [split; [reflexivity | exact H] | exact IH].
  - apply passed_schema with (x := JObj names); [exact E | exact Eq | exact Hd | intros ns H; apply names_iff in H; congruence | exact Hx].
Qed.

Lemma said_limit k pre suf x : (if String.eqb k "uniqueItems" then match x with JBool true => Some pre | _ => None end else Some (pre +:+ boundValue x +:+ suf)) =
  match x with JBool true => if String.eqb k "uniqueItems" then Some pre else Some (pre +:+ Encode.Marshal x +:+ suf)
             | JNum t => if String.eqb k "uniqueItems" then None else Some (pre +:+ t +:+ suf)
             | _ => if String.eqb k "uniqueItems" then None else Some (pre +:+ Encode.Marshal x +:+ suf) end.
Proof. destruct (String.eqb k "uniqueItems"), x as [|[]| | | |]; reflexivity. Qed.
Lemma said_iff k pre suf x words : said k pre suf x words <->
  (if String.eqb k "uniqueItems" then match x with JBool true => Some pre | _ => None end else Some (pre +:+ boundValue x +:+ suf)) = Some words.
Proof.
  rewrite said_limit. split.
  - intros [pre' suf'|k' pre' suf' t N|k' pre' suf' y N Hy]; [reflexivity | rewrite (proj2 (String.eqb_neq _ _) N); reflexivity|].
    rewrite (proj2 (String.eqb_neq _ _) N). destruct y as [|[]|t| | |]; reflexivity.
  - destruct (String.eqb_spec k "uniqueItems") as [->|N]; [destruct x as [|[]| | | |]; try discriminate; intros [= <-]; constructor|].
    destruct x as [|[]| | | |]; intros [= <-]; constructor; (exact N || discriminate).
Qed.
Lemma bound_not_data : Forall (fun b => is_data b.1 = false) phrases.
Proof. repeat constructor. Qed.
Lemma limits_omap m : sorted m -> limits m phrases (omap (limit_of m (omap strip_member m)) anthropicBoundPhrases).
Proof.
  intros Hm. change anthropicBoundPhrases with phrases. generalize bound_not_data. induction phrases as [|[k [pre suf]] rest IH]; intros Hd; [constructor|].
  apply Forall_cons in Hd as [Hk Hd]. specialize (IH Hd). cbn [fst] in Hk. cbn [omap list_omap limit_of]. unfold has. rewrite strip_members_member by exact Hm.
  destruct (member k m) as [x|] eqn:E; [|apply limits_none; [intros x words; congruence | exact IH]].
  unfold strip_member. cbn [fst snd]. rewrite Hk. destruct (dropped k x) eqn:Eq; cbn [option_map].
  - pose proof (proj1 (dropped_iff _ _) Eq) as Hr. pose proof (said_iff k pre suf x) as Hs. destruct (if String.eqb k "uniqueItems" then _ else _) as [words|].
    + eapply limits_said; [exact E | exact Hr | apply Hs; reflexivity | exact IH].
    + apply limits_none; [|exact IH]. intros x' words E'. rewrite E in E'. injection E' as <-. intros _ H. apply Hs in H. discriminate.
  - apply limits_none; [|exact IH]. intros x' words E'. rewrite E in E'. injection E' as <-. intros H. apply kept_iff in Eq. contradiction.
Qed.

Lemma described_bounds m out : sorted out -> let texts := omap (limit_of m out) anthropicBoundPhrases in
  sorted (describeDroppedBounds m out) /\ (forall k, k <> "description" -> member k (describeDroppedBounds m out) = member k out) /\
  described (member "description" out) texts (member "description" (describeDroppedBounds m out)).
Proof.
  intros Ho. unfold describeDroppedBounds, described. destruct (omap (limit_of m out) anthropicBoundPhrases) as [|l ls]; cbv zeta; [repeat split; [exact Ho | congruence]|].
  split; [apply put_sorted, Ho|]. split; [intros k N; rewrite member_put by exact Ho; destruct (String.eqb_spec k "description"); [contradiction | reflexivity]|].
  rewrite member_put by exact Ho. cbn [String.eqb]. split; [discriminate|]. intros _.
  destruct (member "description" out) as [v|]; [destruct v as [| | |existing| |]|]; try (right; split; [discriminate | reflexivity]).
  destruct (String.eqb_spec existing "") as [->|N]; [right; split; [intros ? [= <-]; reflexivity | reflexivity] | left; eauto].
Qed.
Lemma allows_iff name value : jsonTypeAllows name value = true <-> allows name value.
Proof.
  unfold jsonTypeAllows, allows. destruct name as [| | |n| |]; try (split; [discriminate | intuition discriminate]).
  repeat match goal with |- context [String.eqb n ?s] => destruct (String.eqb_spec n s) as [->|?] end; destruct value; cbn [schemaInteger];
    (split; [intros H; try discriminate; eauto 10 | intros H; decompose [ex and or] H; simplify_eq; try reflexivity; auto]).
Qed.
Lemma picks_filter types values : picks (fun v => Exists (fun name => allows name v) types) values (List.filter (fun v => existsb (fun name => jsonTypeAllows name v) types) values).
Proof.
  assert (H : forall v, existsb (fun name => jsonTypeAllows name v) types = true <-> Exists (fun name => allows name v) types).
  { intros v. rewrite existsb_exists, Exists_exists. setoid_rewrite list_elem_of_In. setoid_rewrite allows_iff. reflexivity. }
  induction values as [|v values IH]; [constructor|]. cbn [List.filter]. destruct (existsb _ types) eqn:E; [apply picks_in; [apply H, E | exact IH] | apply picks_out; [rewrite <-H; congruence | exact IH]].
Qed.
Lemma remove_sorted k m : sorted m -> sorted (remove k m).
Proof.
  unfold sorted, remove. induction m as [|kv m IH]; intros H; [constructor|]. cbn [map] in H. apply Sorted.StronglySorted_inv in H as [Hm Hk]. cbn [List.filter].
  destruct (negb _); [|exact (IH Hm)]. cbn [map]. constructor; [exact (IH Hm)|]. apply Forall_forall. intros y (kv' & -> & Hin)%list_elem_of_fmap.
  apply list_elem_of_In, filter_In in Hin as [Hin _]. rewrite Forall_forall in Hk. apply Hk, list_elem_of_fmap. exists kv'. split; [reflexivity | apply list_elem_of_In, Hin].
Qed.
Lemma retyped_enum m : sorted m -> sorted (enumWithoutTypeList m) /\ (forall k, k <> "type" -> k <> "enum" -> member k (enumWithoutTypeList m) = member k m) /\
  retyped (fun k => member k m) (enumWithoutTypeList m).
Proof.
  intros Hm. unfold enumWithoutTypeList, retyped.
  destruct (member "type" m) as [t|] eqn:Et; [destruct t as [| | | |types|]|]; try (split; [exact Hm|]; split; [reflexivity|]; right; split; [discriminate | split; [congruence | reflexivity]]).
  destruct (member "enum" m) as [v|] eqn:Ee; [destruct v as [| | | |values|]|]; try (split; [exact Hm|]; split; [reflexivity|]; right; split; [discriminate | split; congruence]).
  split; [apply remove_sorted, put_sorted, Hm|]. split.
  - intros k N1 N2. rewrite remove_other, member_put by assumption. rewrite (proj2 (String.eqb_neq _ _) N2). reflexivity.
  - left. do 3 eexists. split; [reflexivity|]. split; [reflexivity|]. split; [apply picks_filter|]. split; [apply remove_member|].
    rewrite remove_other, member_put by (discriminate || exact Hm). reflexivity.
Qed.

Lemma strip_sent_object m : sorted m -> Forall (fun kv => sent kv.2 (strip kv.2)) m ->
  (forall k x names, member k m = Some x -> x = JObj names -> Forall (fun kv => sent kv.2 (strip kv.2)) names) -> sent (JObj m) (strip (JObj m)).
Proof.
  intros Hm Hs Hn. rewrite strip_object. pose proof (strip_members_sorted m Hm) as Ho. destruct (described_bounds m _ Ho) as (Hd & Hk & Ht).
  destruct (retyped_enum _ Hd) as (He & Hk' & Hr). eapply (sent_obj _ _ (fun k => member k (omap strip_member m))).
  - intros k. apply strip_passed; [exact Hm | exact Hs | exact (Hn k)].
  - apply limits_omap, Hm.
  - intros k N1 N2 N3. rewrite Hk', Hk by assumption. reflexivity.
  - rewrite Hk' by discriminate. exact Ht.
  - unfold retyped in *. rewrite !Hk in Hr by discriminate. exact Hr.
  - exact He.
Qed.
Lemma strip_sent_deep v : ordered v -> sent v (strip v) /\ forall m, v = JObj m -> Forall (fun kv => sent kv.2 (strip kv.2)) m.
Proof.
  induction v as [|b|t|s|l IH|m IH] using json_deep_ind; intros Hv; try (split; [apply sent_leaf; split; discriminate | discriminate]); inversion Hv; subst.
  - split; [|discriminate]. apply sent_arr. clear Hv. induction l as [|x l IHl]; [constructor|]. apply Forall_cons in IH as [Hx Hl].
    match goal with H : Forall ordered (_ :: _) |- _ => apply Forall_cons in H as [Ox Ol] end. cbn [map]. constructor; [apply Hx, Ox | apply IHl; assumption].
  - assert (Hs : Forall (fun kv => sent kv.2 (strip kv.2) /\ forall names, kv.2 = JObj names -> Forall (fun kv => sent kv.2 (strip kv.2)) names) m).
    { apply Forall_forall. intros kv Hin. rewrite Forall_forall in *. apply IH; auto. }
    assert (Hm : Forall (fun kv => sent kv.2 (strip kv.2)) m) by (eapply Forall_impl; [exact Hs | intros kv [H _]; exact H]).
    split; [|intros m' [= <-]; exact Hm]. apply strip_sent_object; [assumption | exact Hm|]. intros k x names E ->. rewrite Forall_forall in Hs. exact (proj2 (Hs _ (member_in _ _ _ E)) names eq_refl).
Qed.

(** C20: the copy that Anthropic is sent. Whatever the schema, no bound that the API refuses is left in a schema of
    it, at any depth, and no enum under a list of types; and the copy is what [sent] says, so that nothing else is
    lost. In every object each keyword that is not a refused bound is there, data as it was, named schemas under
    their names, whatever these are, and other values with the same passes made over them; the description is
    as it was, followed by the refused bounds in words when there are any; the type and the enum are as they
    were, but that an enum under a list of types keeps the nulls, texts, booleans and numbers that one of them allows
    and loses the list. ([ordered]: a Go map, by its names, as LlmJson.v decodes one.) *)
Theorem stripSchema_exact v : clean (strip v) /\ (ordered v -> sent v (strip v)).
Proof. split; [apply strip_clean_deep | intros H; apply strip_sent_deep, H]. Qed.

(** A compound value is not kept under a list of types, whatever the list: here the object, which the type
    "object" allows. *)
Example compound_enum_lost : strip (JObj [("enum", JArr [JNull; JObj []]); ("type", JArr [JStr "null"; JStr "object"])]) = JObj [("enum", JArr [JNull])].
Proof. reflexivity. Qed.
End Strip.

Lemma stripSchema_exact_witness : let schema := JObj [("description", JStr "d"); ("enum", JArr [JNull; JStr "x"]); ("maximum", JNum "3"); ("type", JArr [JStr "null"])] in
  ordered schema /\ sent (fun _ => None) schema (stripSchema (fun _ => None) schema) /\
  stripSchema (fun _ => None) schema = JObj [("description", JStr "d Limits: at most 3."); ("enum", JArr [JNull])].
Proof.
  cbv zeta. match goal with |- ordered ?v /\ _ => assert (H : ordered v) by (repeat constructor); split; [exact H|]; split; [exact (proj2 (stripSchema_exact (fun _ => None) v) H) | reflexivity] end.
Defined.
End LlmSchemaSpec.
