(* ===== verification/LlmCall.v ===== *)
(** One call of src/llm to its provider: the exchange of transport.go with its span, and the budget of budget.go
    that admits and settles it. What the program asks of its surroundings (the context, the clock, the HTTP
    client, a random key, a caller's budget) it asks of a world [W], of which nothing is known; what it does
    is recorded as events. *)
From Stdlib Require Import SpecFloat.
From S2P Require Import Prelude Json GoFormat LlmErrors LlmProvider.

Module LlmCall.
Import GoFormat LlmErrors LlmProvider.

(** * Effects *)

(** The two errors of a context that has ended. *)
Inductive ctx_error := CtxCanceled | CtxDeadlineExceeded.

Record http_request := mkHttp { h_client : http_client; h_method : string; h_target : string; h_header : list (string * string); h_body : option string }.
(** No response; or a response's status, its Retry-After header, and its body, which may break off. *)
Inductive reply := NoAnswer (e : raw_error) | Answer (status : Z) (retry_after : string) (body : result raw_error string).

(** A finished span: its attributes (absent: "" or 0), the status if one was received, and error.class. *)
Record span := mkSpan { sp_provider : string; sp_model : string; sp_role : string; sp_attempt : Z; sp_operation : string; sp_status : Z; sp_class : string }.
(** One HTTP attempt as the budget sees it. *)
Record Attempt := mkAttempt { IdempotencyKey : string; a_Provider : string; a_Model : string; a_BaseURL : string; MaxInputBytes : Z; MaxOutputTokens : Z; CacheWrite : bool }.

Inductive event := EAttempt (a : Attempt) | ESent (r : http_request) | ESpan (s : span) | ESlept (delay : Z).

(** Functions of libraries: the Unicode tables, strconv.ParseFloat, int64 of a float that no int64 is near,
    url.Parse (scheme and host), url.PathEscape. *)
Record library := mkLib {
  lower : N -> N; SimpleFold : N -> N; ParseFloat : string -> option spec_float; unrepresentable : spec_float -> Z;
  ParseURL : string -> option (string * string); PathEscape : string -> string; IsPrint : N -> bool }.

Section World.
Variable W : Type.

(** What the surroundings do: ctx.Err; waiting for a timer or the end of the context, with the error that it
    then has; time.Until of a date (http.ParseTime); whether net/http builds a request; the round trip;
    randomID. *)
Record env := mkEnv {
  ctx_err : W -> option ctx_error * W; wait : Z -> W -> option ctx_error * W; until_date : W -> string -> option spec_float;
  buildable : string -> string -> bool; round_trip : http_request -> W -> reply * W; random_id : W -> string * W }.

Definition M (A : Type) : Type := W -> A * list event * W.
Definition ret {A} (a : A) : M A := fun w => (a, [], w).
Definition bind {A B} (m : M A) (k : A -> M B) : M B := fun w => let '(a, t, w) := m w in let '(b, u, w) := k a w in (b, t ++ u, w).
Definition emit (e : event) : M unit := fun w => (tt, [e], w).
Definition ask {A} (f : W -> A * W) : M A := fun w => let '(a, w) := f w in (a, [], w).
Definition look {A} (f : W -> A) : M A := fun w => (f w, [], w).

(** * Budgets *)

(** How a Run ends: without an error, with the very error that its last call of invoke returned, or with
    another one. Between, it may call invoke, whatever it does with the answer. *)
Inductive budget_end := BNil | BSame | BOwn (cause : string).
Inductive run := Done (e : budget_end) (w : W) | Invoke (w : W) (k : Usage -> option failure -> W -> run).
(** A Budget, and the AdmitBatch of one that has it: the error of its refusal. *)
Record Budget := mkBudget { Run : Attempt -> W -> run; AdmitBatch : option (string -> string -> string -> W -> option string * W) }.

(** The error of a call: the budget's own (a budgetError), or the exchange's. *)
Inductive send_error := SBudget (cause : string) | SFailure (f : failure).
Definition IsBudgetRefusal (e : send_error) : bool := match e with SBudget _ => true | SFailure _ => false end.

Definition verdict (e : budget_end) (last : option failure) : option send_error :=
  match e with BNil => None | BSame => option_map SFailure last | BOwn cause => Some (SBudget cause) end.

Section Guarded.
Context {S : Type}.
(** What invoke does, which assigns to the variable it captures. *)
Variable send : S -> M (S * Usage * option failure).
Fixpoint settle (r : run) (s : S) (last : option failure) : (S * option send_error) * list event * W :=
  match r with
  | Done e w => ((s, verdict e last), [], w)
  | Invoke w k =>
      let '((s, usage, err), t, w) := send s w in
      let '(o, u, w) := settle (k usage err w) s err in (o, t ++ u, w)
  end.
Definition guarded (budget : option Budget) (attempt : Attempt) (s : S) : M (S * option send_error) :=
  bind (emit (EAttempt attempt)) (fun _ =>
  match budget with
  | None => bind (send s) (fun o => ret (o.1.1, option_map SFailure o.2))
  | Some b => fun w => settle (Run b attempt w) s None
  end).
End Guarded.

Inductive batch_refusal := Unbudgetable | Unadmitted (cause : string).
Definition admitBatch (budget : option Budget) (provider model baseURL : string) : M (option batch_refusal) :=
  match budget with
  | None => ret None
  | Some b => match AdmitBatch b with
      | None => ret (Some Unbudgetable)
      | Some check => bind (ask (check provider model baseURL)) (fun e => ret (option_map Unadmitted e))
      end
  end.

(** * The exchange *)

Section Exchange.
Variables (lib : library) (e : env).

Definition sleepFor (delay : Z) : M (option ctx_error) := bind (emit (ESlept delay)) (fun _ => ask (wait e delay)).

(** error.class of an exchange that ended with an error of the transport, or with a status. *)
Definition span_error (err : raw_error) (ctx_ended : bool) : string :=
  if ctx_ended then "canceled" else if isTimeout err then "timeout"
  else if Contains (ToLower (lower lib) (raw_text err)) "connection refused" then "refused" else "other".
Definition span_status (status : Z) : string :=
  if (200 <=? status)%Z && (status <? 300)%Z then ""
  else if (status =? 429)%Z then "rate_limit"
  else if existsb (Z.eqb status) [401; 402; 403]%Z then "auth"
  else if (status =? 404)%Z then "model_not_found"
  else if existsb (Z.eqb status) [400; 422]%Z then "invalid_request"
  else if (500 <=? status)%Z then "server" else "other".
Definition spanClass (status : Z) (transportErr : option raw_error) (ctx_ended : bool) : string :=
  match transportErr with Some err => span_error err ctx_ended | None => span_status status end.

(** spanBody's Close: what the body's reading and its use made of an answer. *)
Definition closed_class (status : Z) (readErr : option raw_error) (invalid : bool) : string :=
  let class := spanClass status None false in
  if negb (String.eqb class "") then class
  else match readErr with Some err => spanClass 0 (Some err) false | None => if invalid then "invalid_answer" else "" end.

Definition spanMaxModelLen : nat := 128.
(** What a context carries for the span: the role, and the operation of a batch. *)
Record labels := mkLabels { role : string; operation : string }.
Definition endSpan (l : labels) (attempt : Z) (provider model : string) (status : Z) (class : string) : M unit :=
  let role := if existsb (String.eqb (role l)) ["served"; "shadow"] then role l else "" in
  emit (ESpan (mkSpan provider (String.substring 0 spanMaxModelLen model) role (if (0 <? attempt)%Z then attempt else 0) (operation l) (if (0 <? status)%Z then status else 0) class)).

Definition success (status : Z) : bool := (200 <=? status)%Z && (status <? 300)%Z.

Context {D : Type}.
(** decode assigns [d] and may fail. *)
Definition exchange (l : labels) (attempt : Z) (c : http_client) (method target : string) (header : list (string * string)) (body : option string)
    (provider model : string) (decode : string -> D * bool) (d : D) : M (D * option failure) :=
  if negb (buildable e method target) then ret (d, Some (FOther "llm: build request"))
  else
    let req := mkHttp c method target header body in
    bind (emit (ESent req)) (fun _ =>
    bind (ask (round_trip e req)) (fun r =>
    match r with
    | NoAnswer err =>
        bind (ask (ctx_err e)) (fun ended =>
        bind (endSpan l attempt provider model 0 (spanClass 0 (Some err) (match ended with Some _ => true | None => false end))) (fun _ =>
        ret (d, Some (FTransport (transportFailure (ParseURL lib) err)))))
    | Answer status retry_after body =>
        match body with
        | Err err =>
            bind (endSpan l attempt provider model status (closed_class status (Some err) false)) (fun _ =>
            ret (d, Some (FTransport (transportFailure (ParseURL lib) err))))
        | Ok raw =>
            if negb (success status)
            then bind (endSpan l attempt provider model status (closed_class status None false)) (fun _ => ret (d, Some (FStatus (mkStatus status retry_after raw))))
            else let '(d, ok) := decode raw in
                 bind (endSpan l attempt provider model status (closed_class status None (negb ok))) (fun _ =>
                 ret (d, if ok then None else Some (FTyped (decodeFailure raw))))
        end
    end)).
End Exchange.

(** * What a computation ensures *)

(** Whatever the surroundings do, the answer and the events are as [Q] says. *)
Definition ensures {A} (m : M A) (Q : A -> list event -> Prop) : Prop := forall w, Q (m w).1.1 (m w).1.2.

Lemma ensures_ret {A} (a : A) (Q : A -> list event -> Prop) : Q a [] -> ensures (ret a) Q.
Proof. intros H w. exact H. Qed.
Lemma ensures_bind {A B} (m : M A) (k : A -> M B) (P : A -> list event -> Prop) (Q : B -> list event -> Prop) :
  ensures m P -> (forall a t, P a t -> ensures (k a) (fun b u => Q b (t ++ u))) -> ensures (bind m k) Q.
Proof.
  intros Hm Hk w. specialize (Hm w). unfold bind. destruct (m w) as [[a t] w1]. cbn [fst snd] in Hm. specialize (Hk a t Hm w1).
  destruct (k a w1) as [[b u] w2]. exact Hk.
Qed.
Lemma ensures_emit x (Q : unit -> list event -> Prop) : Q tt [x] -> ensures (emit x) Q.
Proof. intros H w. exact H. Qed.
Lemma ensures_ask {A} (f : W -> A * W) (Q : A -> list event -> Prop) : (forall a, Q a []) -> ensures (ask f) Q.
Proof. intros H w. unfold ask. destruct (f w). apply H. Qed.
Lemma ensures_look {A} (f : W -> A) (Q : A -> list event -> Prop) : (forall a, Q a []) -> ensures (look f) Q.
Proof. intros H w. apply H. Qed.
Lemma ensures_weaken {A} (m : M A) (P Q : A -> list event -> Prop) : ensures m P -> (forall a t, P a t -> Q a t) -> ensures m Q.
Proof. intros H Hi w. apply Hi, H. Qed.

(** The requests, the attempts and the delays among some events. *)
Definition sent (t : list event) : list http_request := omap (fun e => match e with ESent r => Some r | _ => None end) t.
Definition attempts (t : list event) : list Attempt := omap (fun e => match e with EAttempt a => Some a | _ => None end) t.
Definition delays (t : list event) : list Z := omap (fun e => match e with ESlept d => Some d | _ => None end) t.
Definition spans (t : list event) : list span := omap (fun e => match e with ESpan s => Some s | _ => None end) t.

(** An exchange: nothing, or one request of the client and one span, whose class is empty exactly on success. *)
Definition exchanged (req : http_request) (failed : bool) (t : list event) : Prop :=
  (t = [] /\ failed = true) \/ exists s, t = [ESent req; ESpan s] /\ (sp_class s = "" <-> failed = false).

Lemma span_status_success status : span_status status = "" <-> success status = true.
Proof.
  unfold span_status, success. destruct ((200 <=? status)%Z && (status <? 300)%Z); [tauto|].
  repeat match goal with |- context [if ?b then _ else _] => destruct b end; split; discriminate.
Qed.

Lemma span_error_class lib err ended : span_error lib err ended <> "".
Proof. unfold span_error. destruct ended; [discriminate|]. destruct (isTimeout err); [discriminate|]. destruct (Contains _ _); discriminate. Qed.

Lemma closed_class_success lib status readErr invalid :
  closed_class lib status readErr invalid = "" <-> success status = true /\ readErr = None /\ invalid = false.
Proof.
  unfold closed_class, spanClass. rewrite <-(span_status_success status). destruct (String.eqb_spec (span_status status) "") as [->|H]; cbn [negb]; [|tauto].
  destruct readErr as [err|]; [split; [intros H; destruct (span_error_class _ _ _ H) | intros (_ & E & _); discriminate]|]. destruct invalid; split; intuition discriminate.
Qed.

Lemma exchange_exchanged lib e {D} l attempt c method target header body provider model (decode : string -> D * bool) d :
  ensures (exchange lib e l attempt c method target header body provider model decode d)
    (fun o t => exchanged (mkHttp c method target header body) (match o.2 with Some _ => true | None => false end) t /\
                (o.1 = d \/ exists raw, o.1 = (decode raw).1) /\ (o.2 = None -> exists raw, decode raw = (o.1, true))).
Proof.
  unfold exchange. destruct (buildable e method target); cbn [negb]; [|apply ensures_ret; split; [left; auto | split; [left; reflexivity | discriminate]]].
  eapply ensures_bind; [apply (ensures_emit _ (fun _ t => t = [ESent (mkHttp c method target header body)])); reflexivity|]. intros [] ? ->.
  eapply ensures_bind; [apply (ensures_ask _ (fun _ t => t = [])); reflexivity|]. intros r ? ->.
  assert (Hend : forall status class (o : D * option failure) , (class = "" <-> o.2 = None) -> (o.1 = d \/ exists raw, o.1 = (decode raw).1) ->
    (o.2 = None -> exists raw, decode raw = (o.1, true)) -> ensures (bind (endSpan l attempt provider model status class) (fun _ => ret o))
      (fun o t => exchanged (mkHttp c method target header body) (match o.2 with Some _ => true | None => false end) (ESent (mkHttp c method target header body) :: t) /\
                  (o.1 = d \/ exists raw, o.1 = (decode raw).1) /\ (o.2 = None -> exists raw, decode raw = (o.1, true)))).
  { intros status class o Hc Hd Ho w. cbn. split; [|split; [exact Hd | exact Ho]]. right. eexists. split; [reflexivity|]. cbn [sp_class]. rewrite Hc. destruct (o.2); split; congruence. }
  destruct r as [err|status ra [raw|err]].
  - eapply ensures_bind; [apply (ensures_ask _ (fun _ t => t = [])); reflexivity|]. intros ended ? ->.
    eapply ensures_weaken; [apply Hend; [split; [intros H; exfalso; revert H; apply span_error_class | discriminate]|left; reflexivity|discriminate]|exact (fun _ _ H => H)].
  - destruct (success status) eqn:Es; cbn [negb].
    + destruct (decode raw) as [d' ok] eqn:Ed. eapply ensures_weaken; [|exact (fun _ _ H => H)].
      apply Hend; [rewrite closed_class_success, Es; destruct ok; cbn; intuition discriminate | right; exists raw; rewrite Ed; reflexivity | destruct ok; [eauto | discriminate]].
    + eapply ensures_weaken; [apply Hend; [rewrite closed_class_success, Es; split; [intros (H & _) | intros H]; discriminate H | left; reflexivity | discriminate]|exact (fun _ _ H => H)].
  - eapply ensures_weaken; [apply Hend; [rewrite closed_class_success; split; [intros (_ & H & _) | intros H]; discriminate H | left; reflexivity | discriminate]|exact (fun _ _ H => H)].
Qed.
(** Events that send [req] alone, any number of times, and neither ask for an attempt nor wait. *)
Definition only (req : http_request) (t : list event) : Prop := attempts t = [] /\ delays t = [] /\ Forall (eq req) (sent t).
Lemma only_nil req : only req [].
Proof. repeat constructor. Qed.
Lemma only_app req t u : only req t -> only req u -> only req (t ++ u).
Proof.
  intros (A1 & D1 & S1) (A2 & D2 & S2). unfold only, attempts, delays, sent in *. rewrite !omap_app, A1, A2, D1, D2. repeat split. apply Forall_app_2; assumption.
Qed.
Lemma exchanged_only req failed t : exchanged req failed t -> only req t.
Proof. intros [[-> _]|(s & -> & _)]; repeat constructor. Qed.

(** A budget runs nothing but invoke: what each call of it keeps, the whole keeps. *)
Lemma settle_keeps {S} (send : S -> M (S * Usage * option failure)) (I : S -> Prop) req :
  (forall s, I s -> ensures (send s) (fun o t => I o.1.1 /\ only req t)) ->
  forall r s last, I s -> I (settle send r s last).1.1.1 /\ only req (settle send r s last).1.2.
Proof.
  intros Hs r. induction r as [b w|w k IH]; intros s last HI; [split; [exact HI | apply only_nil]|]. cbn [settle].
  specialize (Hs s HI w). destruct (send s w) as [[[[s' usage] err] t] w']. cbn in Hs. destruct Hs as [HI' Ht].
  specialize (IH usage err w' s' err HI'). destruct (settle send (k usage err w') s' err) as [[o u] w'']. cbn in IH |- *. split; [apply IH | apply only_app; [exact Ht | apply IH]].
Qed.

(** One attempt, then the budget's calls; without a budget, the one call and its outcome. *)
Lemma guarded_keeps {S} (send : S -> M (S * Usage * option failure)) budget a s (I : S -> Prop) req :
  I s -> (forall s, I s -> ensures (send s) (fun o t => I o.1.1 /\ only req t)) ->
  ensures (guarded send budget a s) (fun o t => I o.1 /\ exists u, t = EAttempt a :: u /\ only req u).
Proof.
  intros HI Hs. unfold guarded. eapply ensures_bind; [apply (ensures_emit _ (fun _ t => t = [EAttempt a])); reflexivity|]. intros [] ? ->. destruct budget as [b|].
  - intros w. destruct (settle_keeps send I req Hs (Run b a w) s None HI) as [H1 H2]. split; [exact H1|]. eexists. split; [reflexivity | exact H2].
  - eapply ensures_bind; [apply Hs, HI|]. intros o t [H1 H2]. apply ensures_ret. split; [exact H1|]. exists t. rewrite app_nil_r. split; [reflexivity | exact H2].
Qed.
End World.

Arguments ensures {W A} m Q.
Arguments ret {W A} a.
Arguments bind {W A B} m k.
Arguments emit {W} e.
Arguments ask {W A} f.
Arguments look {W A} f.
End LlmCall.

Declare Scope call_scope.
Delimit Scope call_scope with call.
Notation "x <- m ;; k" := (LlmCall.bind m (fun x => k)) (at level 100, m at next level, right associativity) : call_scope.
Notation "m ;;; k" := (LlmCall.bind m (fun _ => k)) (at level 100, right associativity) : call_scope.
