(* ===== verification/LlmRequest.v ===== *)
(** The request bodies of src/llm: responsesBody (openai.go), the Chat Completions body (compatible.go) and
    messagesBody (anthropic.go), as the structs that the code builds and the JSON that encoding/json writes of
    them: a field per member, in the order of the declarations, without the empty ones of omitempty. *)
From Stdlib Require Import SpecFloat.
From S2P Require Import Prelude Json JsonEncode Regex GoFormat ChStatement LlmErrors LlmJson LlmProvider LlmSchema.

Module LlmRequest.
Import Json Encode GoFormat LlmProvider LlmSchema.

(** A member, an omitempty member, and an int. *)
Definition field (k : string) (v : json) : list (string * json) := [(k, v)].
Definition field_str (k s : string) : list (string * json) := if String.eqb s "" then [] else [(k, JStr s)].
Definition field_opt {A} (k : string) (f : A -> json) (v : option A) : list (string * json) := match v with Some a => [(k, f a)] | None => [] end.
Definition jint (n : Z) : json := JNum (FormatInt n).
(** A map[string]any of omitempty. *)
Definition field_map (k : string) (m : json) : list (string * json) := match m with JObj (_ :: _) => [(k, m)] | _ => [] end.

(** * The Responses API *)

Record openAITextFormat := mkTextFormat { tf_Type : string; tf_Name : string; tf_Strict : bool; tf_Schema : json }.
Record openAIResponsesRequest := mkResponses {
  or_Model : string; or_Instructions : string; or_Input : string; or_Format : openAITextFormat; or_Verbosity : string; or_Effort : string; or_MaxOutputTokens : Z }.

Definition text_format_json (f : openAITextFormat) : json :=
  JObj (field "type" (JStr (tf_Type f)) ++ field_str "name" (tf_Name f) ++ (if tf_Strict f then field "strict" (JBool true) else []) ++ field_map "schema" (tf_Schema f)).
Definition responses_json (r : openAIResponsesRequest) : json :=
  JObj [("model", JStr (or_Model r)); ("instructions", JStr (or_Instructions r)); ("input", JStr (or_Input r));
    ("text", JObj [("format", text_format_json (or_Format r)); ("verbosity", JStr (or_Verbosity r))]); ("reasoning", JObj [("effort", JStr (or_Effort r))]);
    ("max_output_tokens", jint (or_MaxOutputTokens r))].

Definition responsesBody (model : string) (request : Request) (maxTokens : Z) : openAIResponsesRequest :=
  let format := match Format request with
    | Some f => if schema_ (Some f) then mkTextFormat "json_schema" (FName f) true (Schema f) else mkTextFormat "json_object" "" false JNull
    | None => mkTextFormat "json_object" "" false JNull
    end in
  mkResponses model (System request) (Prompt request) format "low" (if String.eqb (ReasoningEffort request) "" then "low" else ReasoningEffort request) maxTokens.

(** * Chat Completions *)

Record chatMessage := mkChatMessage { cm_Role : string; cm_Content : string }.
Record chatJSONSchema := mkChatSchema { cs_Name : string; cs_Schema : json; cs_Strict : bool }.
Record chatResponseFormat := mkChatFormat { cf_Type : string; cf_JSONSchema : option chatJSONSchema }.
(** The temperature is the text of its number. *)
Record chatRequest := mkChatRequest {
  cr_Model : string; cr_Messages : list chatMessage; cr_MaxCompletionTokens : option Z; cr_Temperature : option string; cr_ResponseFormat : option chatResponseFormat;
  cr_Seed : option Z; cr_ReasoningEffort : string }.

Definition message_json (m : chatMessage) : json := JObj [("role", JStr (cm_Role m)); ("content", JStr (cm_Content m))].
Definition chat_schema_json (s : chatJSONSchema) : json := JObj [("name", JStr (cs_Name s)); ("schema", cs_Schema s); ("strict", JBool (cs_Strict s))].
Definition chat_format_json (f : chatResponseFormat) : json := JObj (field "type" (JStr (cf_Type f)) ++ field_opt "json_schema" chat_schema_json (cf_JSONSchema f)).
Definition chat_json (r : chatRequest) : json :=
  JObj (field "model" (JStr (cr_Model r)) ++ field "messages" (JArr (map message_json (cr_Messages r))) ++ field_opt "max_completion_tokens" jint (cr_MaxCompletionTokens r) ++
    field_opt "temperature" JNum (cr_Temperature r) ++ field_opt "response_format" chat_format_json (cr_ResponseFormat r) ++ field_opt "seed" jint (cr_Seed r) ++
    field_str "reasoning_effort" (cr_ReasoningEffort r)).

Definition compatibleTemperature : string := "0.3".
Section Chat.
Context {B : Type}.
Definition chat_format (kind : string) (request : Request) : option chatResponseFormat :=
  match Format request with
  | Some f => if schema_ (Some f) then Some (mkChatFormat "json_schema" (Some (mkChatSchema (FName f) (Schema f) true))) else Some (mkChatFormat "json_object" None)
  | None => if String.eqb kind KindLocal then None else Some (mkChatFormat "json_object" None)
  end.
Definition chat_cap (c : Config B) (request : Request) : option Z :=
  if bool_decide (OutputCap c = OutputCapOmit) then None else Some (Z.max (CMaxOutputTokens c) (MaxOutputTokens request)).
Definition chatBody (c : Config B) (request : Request) : chatRequest :=
  mkChatRequest (CModel c) [mkChatMessage "system" (System request); mkChatMessage "user" (Prompt request)] (chat_cap c request)
    (if bool_decide (Temperature c = TemperatureOmit) then None else Some compatibleTemperature) (chat_format (Kind c) request) (Seed request) (ReasoningEffort request).
End Chat.

(** * The Messages API *)

Inductive anthropicMode := anthropicStructured | anthropicForcedTool.
#[global] Instance anthropicMode_eq_dec : EqDecision anthropicMode.
Proof. solve_decision. Defined.

Definition tool_char (c : ascii) : bool := Json.is_digit c || in_range "a" "z" c || in_range "A" "Z" c || Ascii.eqb c "_" || Ascii.eqb c "-".
(** ^[a-zA-Z0-9_-]{1,64}$ *)
Definition anthropicToolNamePattern (s : string) : bool := (1 <=? String.length s) && (String.length s <=? 64) && forallb tool_char (chars s).
Definition anthropicToolName (format : option JSONFormat) : string :=
  match format with Some f => if anthropicToolNamePattern (FName f) then FName f else "output" | None => "output" end.

(** System: absent, a string, or one block, with a cache marker or none. *)
Inductive system_field := NoSystem | SystemText (s : string) | SystemBlocks (text : string) (cached : bool).
Record anthropicTool := mkTool { at_Name : string; at_Description : string; at_InputSchema : json }.
Record anthropicToolChoice := mkToolChoice { tc_Type : string; tc_Name : string }.
Record anthropicRequest := mkMessages {
  ar_Model : string; ar_MaxTokens : Z; ar_System : system_field; ar_Messages : list chatMessage; ar_OutputSchema : option json; ar_Tools : list anthropicTool;
  ar_ToolChoice : option anthropicToolChoice }.

Definition system_json (s : system_field) : list (string * json) :=
  match s with
  | NoSystem => []
  | SystemText s => [("system", JStr s)]
  | SystemBlocks text cached =>
      [("system", JArr [JObj ([("type", JStr "text"); ("text", JStr text)] ++ if cached then [("cache_control", JObj [("type", JStr "ephemeral")])] else [])])]
  end.
Definition tool_json (t : anthropicTool) : json := JObj [("name", JStr (at_Name t)); ("description", JStr (at_Description t)); ("input_schema", at_InputSchema t)].
Definition choice_json (c : anthropicToolChoice) : json := JObj (field "type" (JStr (tc_Type c)) ++ field_str "name" (tc_Name c)).
Definition messages_json (r : anthropicRequest) : json :=
  JObj (field "model" (JStr (ar_Model r)) ++ field "max_tokens" (jint (ar_MaxTokens r)) ++ system_json (ar_System r) ++
    field "messages" (JArr (map message_json (ar_Messages r))) ++
    field_opt "output_config" (fun s => JObj [("format", JObj [("type", JStr "json_schema"); ("schema", s)])]) (ar_OutputSchema r) ++
    (match ar_Tools r with [] => [] | l => field "tools" (JArr (map tool_json l)) end) ++ field_opt "tool_choice" choice_json (ar_ToolChoice r)).

Definition toolDescription : string :=
  "Return the answer as this tool's input. Give each property at the level the input schema defines it: never move a top-level property inside an object property, and add no property the schema does not list.".

Section Messages.
Variable ParseFloat : string -> option spec_float.
Definition messagesBody (model : string) (request : Request) (maxTokens : Z) (mode : anthropicMode) : anthropicRequest :=
  let system := if String.eqb (System request) "" then NoSystem
    else match Cache request with CacheSystem => SystemBlocks (System request) true | CacheNone => SystemText (System request) end in
  let messages := [mkChatMessage "user" (Prompt request)] in
  match Format request with
  | Some f =>
      if negb (schema_ (Some f)) then mkMessages model maxTokens system messages None [] None
      else match mode with
      | anthropicStructured => mkMessages model maxTokens system messages (Some (anthropicSchema ParseFloat (Schema f))) [] None
      | anthropicForcedTool =>
          let name := anthropicToolName (Some f) in
          mkMessages model maxTokens system messages None [mkTool name toolDescription (copySchema (Schema f))]
            (Some (if anthropicForcesTools model then mkToolChoice "tool" name else mkToolChoice "auto" ""))
      end
  | None => mkMessages model maxTokens system messages None [] None
  end.
End Messages.
Definition cacheMarked (body : anthropicRequest) : bool := match ar_System body with SystemBlocks _ cached => cached | _ => false end.
End LlmRequest.
