(* ===== verification/LlmComplete.v ===== *)
(** Complete of the three clients of src/llm: OpenAI (openai.go), Anthropic (anthropic.go) and Compatible
    (compatible.go), each with its send. A loop over attempts is a recursion over their numbers; Anthropic's,
    which has no bound of its own, is one over the retries that are left. *)
From S2P Require Import Prelude Json JsonEncode GoFormat LlmErrors LlmJson LlmProvider LlmParse LlmSchema LlmCall LlmRequest.

Module LlmComplete.
Import Json Encode GoFormat LlmErrors LlmJson LlmProvider LlmParse LlmSchema LlmCall LlmRequest.
Local Open Scope call_scope.

(** A typed error; the error of a context that ended while waiting; the error of a call that is not retried
    because the budget refused it, or because the context had ended. *)
Inductive complete_error := CError (e : Error) | CContext (e : ctx_error) | CSend (e : send_error).

(** ClassOf: the class of the package's own Error, which a budget's refusal and a context's end are not. *)
Definition ClassOf (err : complete_error) : option ErrorClass :=
  match err with CError e | CSend (SFailure (FTyped e)) => Some (Class e) | _ => None end.

Definition object_path (request : Request) : string := if object_ (Format request) then FormatPathObject else FormatPathSchema.
Definition format_path (request : Request) : string := match Format request with Some _ => object_path request | None => "" end.
(** A result with a model and nothing else. *)
Definition bare_result (model : string) : Result := mkResult "" model "" "" no_usage "" "" "" false.

Section Complete.
Context {W : Type}.
(** The libraries, the surroundings, the client, and the role that the caller's context carries. *)
Variables (lib : library) (e : env W) (p : built (Budget W)) (caller : string).
Notation M := (LlmCall.M W).
Notation model := (CModel (cfg p)).
Notation kind := (Kind (cfg p)).

Definition classified (err : failure) : M Error :=
  look (fun w => classify (lower lib) (ParseFloat lib) (until_date W e w) (unrepresentable lib) (IsPrint lib) err kind model).

(** What follows the error of a call: [again] is the rest of the loop, if retries are left. *)
Definition after_error (err : send_error) (retries : Z) (again : option (Error -> M (result complete_error Result))) : M (result complete_error Result) :=
  match err with
  | SBudget _ => ret (Err (CSend err))
  | SFailure f =>
      ended <- ask (ctx_err W e);;
      match ended with
      | Some _ => ret (Err (CSend err))
      | None =>
          typed <- classified f;;
          match again, Retryable typed with
          | Some again, true =>
              stopped <- sleepFor W e (delayFor typed retries);;
              match stopped with Some c => ret (Err (CContext c)) | None => again typed end
          | _, _ => ret (Err (CError typed))
          end
      end
  end.

Definition requestKey : M string := id <- ask (random_id W e);; ret ("shared:" +:+ id).
Definition attempt_of (key : string) (attempt : Z) (payload : string) (cap : Z) (cached : bool) : Attempt :=
  mkAttempt (key +:+ ":attempt:" +:+ FormatInt attempt) kind model (BaseURL (cfg p)) (Z.max 1 (Z.of_nat (String.length payload))) cap cached.

(** One call: [decode] gives the answer and whether the body was usable, and [usage] is its usage. *)
Definition call {A} (path : string) (header : list (string * string)) (decode : string -> A * bool) (usage : A -> Usage) (zero : A)
    (attempt : Z) (a : Attempt) (payload : string) : M (A * option send_error) :=
  guarded W (fun answer =>
      o <- exchange W lib e (mkLabels caller "") attempt (client p) "POST" (BaseURL (cfg p) +:+ path) header (Some payload) kind model decode answer;;
      ret (o.1, usage o.1, o.2))
    (CBudget (cfg p)) a zero.

Definition bearer : list (string * string) := [("Content-Type", "application/json"); ("Authorization", "Bearer " +:+ Reveal (APIKey (cfg p)))].
(** The cap of the second call of an answer that was cut: doubled up to a maximum, never lowered. *)
Definition raised (maximum cap : Z) : Z := Z.max cap (Z.min maximum (i64 (cap * 2))).
Definition cutDelay : Z := 500 * Millisecond.

(** * OpenAI *)

Definition openAIMaxOutputTokens : Z := 8192.
Definition openAIMaxRetries : Z := 1.
Definition decode_openai (raw : string) : openAIAnswer * bool :=
  match parseOpenAIResponse (SimpleFold lib) raw with Some a => (a, true) | None => (zero_openai_answer, false) end.
Definition openai_send (key : string) (attempt : Z) (body : openAIResponsesRequest) : M (openAIAnswer * option send_error) :=
  let payload := Marshal (responses_json body) in
  call "/responses" bearer decode_openai oa_usage zero_openai_answer attempt (attempt_of key attempt payload (or_MaxOutputTokens body) false) payload.

Definition openai_result (request : Request) (answer : openAIAnswer) : Result :=
  let '(text, unparsed) := gateJSON (oa_text answer) in
  let '(text, unparsed) := if oa_refused answer then ("", "") else (text, unparsed) in
  let unparsed := match Format request with None => "" | Some _ => unparsed end in
  mkResult text model (oa_model answer) (oa_reason answer) (oa_usage answer) unparsed (format_path request) "" (oa_refused answer).
Definition openai_cut (request : Request) (answer : openAIAnswer) : bool :=
  String.eqb (Text (openai_result request answer)) "" && negb (oa_refused answer) && String.eqb (oa_reason answer) "max_output_tokens".

Fixpoint openai_loop (attempts : list Z) (request : Request) (key : string) (maxTokens : Z) (lastErr : option Error) : M (result complete_error Result) :=
  match attempts with
  | [] => ret (match lastErr with Some err => Err (CError err) | None => Ok (bare_result model) end)
  | attempt :: attempts =>
      o <- openai_send key (attempt + 1) (responsesBody model request maxTokens);;
      match o.2 with
      | Some err =>
          after_error err attempt (if (attempt <? openAIMaxRetries)%Z then Some (fun typed => openai_loop attempts request key maxTokens (Some typed)) else None)
      | None =>
          if openai_cut request o.1 && (attempt <? openAIMaxRetries)%Z
          then stopped <- sleepFor W e cutDelay;;
               match stopped with
               | Some c => ret (Err (CContext c))
               | None => openai_loop attempts request key (raised openAIMaxOutputTokens maxTokens) lastErr
               end
          else ret (Ok (openai_result request o.1))
      end
  end.
Definition openai_Complete (request : Request) : M (result complete_error Result) :=
  match Seed request with
  | Some _ => ret (Err (CError (errSeedUnsupported KindOpenAI model)))
  | None => key <- requestKey;; openai_loop [0; 1]%Z request key (Z.max (CMaxOutputTokens (cfg p)) (LlmProvider.MaxOutputTokens request)) None
  end.

(** * Chat Completions *)

Definition compatibleMaxRetries : Z := 1.
Definition decode_chat : string -> chatAnswer * bool := parseChatResponse (SimpleFold lib).
Definition compatible_send (key : string) (attempt : Z) (body : chatRequest) : M (chatAnswer * option send_error) :=
  let payload := Marshal (chat_json body) in
  call "/chat/completions" bearer decode_chat ca_usage zero_chat_answer attempt (attempt_of key attempt payload (default 0%Z (cr_MaxCompletionTokens body)) false) payload.

Definition compatible_result (request : Request) (answer : chatAnswer) : Result :=
  let '(text, unparsed) := match Format request with
    | Some _ => if ca_refused answer then (ca_text answer, "") else gateJSON (ca_text answer)
    | None => (ca_text answer, "")
    end in
  mkResult text model (ca_model answer) (ca_finish answer) (ca_usage answer) unparsed (format_path request) "" (ca_refused answer).

Fixpoint compatible_loop (attempts : list Z) (request : Request) (key : string) (lastErr : option Error) : M (result complete_error Result) :=
  match attempts with
  | [] => ret (match lastErr with Some err => Err (CError err) | None => Ok (bare_result model) end)
  | attempt :: attempts =>
      o <- compatible_send key (attempt + 1) (chatBody (cfg p) request);;
      match o.2 with
      | Some err =>
          after_error err attempt (if (attempt <? compatibleMaxRetries)%Z then Some (fun typed => compatible_loop attempts request key (Some typed)) else None)
      | None => ret (Ok (compatible_result request o.1))
      end
  end.
Definition compatible_Complete (request : Request) : M (result complete_error Result) :=
  if match Seed request with Some _ => String.eqb kind KindGemini | None => false end then ret (Err (CError (errSeedUnsupported KindGemini model)))
  else key <- requestKey;; compatible_loop [0; 1]%Z request key None.

(** * Anthropic *)

Definition anthropicAPIVersion : string := "2023-06-01".
Definition anthropicMaxOutputTokens : Z := 16000.
Definition anthropicMaxRetries : nat := 1.
Definition decode_anthropic (raw : string) : anthropicAnswer * bool :=
  match parseAnthropicResponse (SimpleFold lib) raw with Some a => (a, true) | None => (zero_anthropic_answer, false) end.
Definition anthropic_send (key : string) (attempt : Z) (body : anthropicRequest) : M (anthropicAnswer * option send_error) :=
  let payload := Marshal (messages_json body) in
  call "/v1/messages" [("Content-Type", "application/json"); ("Anthropic-Version", anthropicAPIVersion); ("X-Api-Key", Reveal (APIKey (cfg p)))]
    decode_anthropic aa_usage zero_anthropic_answer attempt (attempt_of key attempt payload (ar_MaxTokens body) (cacheMarked body)) payload.

(** The mode, and the limit that keeps a schema from structured outputs. *)
Definition anthropic_mode (request : Request) : anthropicMode * string :=
  match Format request with
  | Some f =>
      if schema_ (Some f)
      then let '(fits, why) := anthropicSchemaFit (match anthropicSchema (ParseFloat lib) (Schema f) with JObj m => m | _ => [] end) in
           if fits then (anthropicStructured, "") else (anthropicForcedTool, why)
      else (anthropicStructured, "")
  | None => (anthropicStructured, "")
  end.
Definition refusal (answer : anthropicAnswer) : bool := String.eqb (aa_stop answer) "refusal".
Definition anthropic_result (request : Request) (answer : anthropicAnswer) (mode : anthropicMode) (reason : string) : Result :=
  let text := if refusal answer then "" else aa_text answer in
  let '(text, unparsed) := match Format request with
    | Some _ => if refusal answer then (text, "") else gateJSON (aa_text answer)
    | None => (text, "")
    end in
  let path := match Format request with
    | Some f => if object_ (Some f) then FormatPathObject else if bool_decide (mode = anthropicForcedTool) then FormatPathTool else FormatPathSchema
    | None => "" end in
  mkResult text model (aa_model answer) (aa_stop answer) (aa_usage answer) unparsed path (match Format request with Some _ => reason | None => "" end) false.
Definition anthropic_cut (request : Request) (answer : anthropicAnswer) : bool :=
  match Format request with
  | Some _ => negb (refusal answer) && String.eqb (gateJSON (aa_text answer)).1 "" && String.eqb (aa_stop answer) "max_tokens"
  | None => false
  end.

Fixpoint anthropic_loop (left_ : nat) (callNumber : Z) (request : Request) (mode : anthropicMode) (reason key : string) (maxTokens : Z) : M (result complete_error Result) :=
  let retries := Z.of_nat (anthropicMaxRetries - left_) in
  o <- anthropic_send key callNumber (messagesBody (ParseFloat lib) model request maxTokens mode);;
  match o.2 with
  | Some err =>
      after_error err retries (match left_ with S left_ => Some (fun _ => anthropic_loop left_ (callNumber + 1) request mode reason key maxTokens) | O => None end)
  | None =>
      match anthropic_cut request o.1, left_ with
      | true, S left_ =>
          stopped <- sleepFor W e cutDelay;;
          match stopped with
          | Some c => ret (Err (CContext c))
          | None => anthropic_loop left_ (callNumber + 1) request mode reason key (raised anthropicMaxOutputTokens maxTokens)
          end
      | _, _ => ret (Ok (anthropic_result request o.1 mode reason))
      end
  end.
Definition anthropic_Complete (request : Request) : M (result complete_error Result) :=
  match Seed request with
  | Some _ => ret (Err (CError (errSeedUnsupported KindAnthropic model)))
  | None =>
      let '(mode, reason) := anthropic_mode request in
      key <- requestKey;;
      anthropic_loop anthropicMaxRetries 1 request mode reason key (Z.max (CMaxOutputTokens (cfg p)) (LlmProvider.MaxOutputTokens request))
  end.
End Complete.

(** A scripted world: the replies to come. A server error, then an answer that was cut at the cap. *)
Definition scripted : env (list reply) :=
  mkEnv _ (fun w => (None, w)) (fun _ w => (None, w)) (fun _ _ => None) (fun _ _ => true)
    (fun _ w => match w with r :: w => (r, w) | [] => (NoAnswer (mkRaw false false true None ""), []) end) (fun w => ("00", w)).
Definition no_library : library := mkLib id id (fun _ => None) (fun _ => 0%Z) (fun _ => None) id (fun _ => true).
Definition demo_client (kind : string) : built (Budget (list reply)) :=
  mkBuilt (mkConfig kind (Some "k") "http://h" "m" 2048 None None TemperatureDefault OutputCapDefault) newHardenedClient.
Definition demo_request : Request := mkRequest "s" "p" (Some (mkFormat "" "f" (JObj [("type", JStr "object")]))) 0 None "" CacheNone.
Definition cut_body : string := "{" +:+ q "output_text" +:+ ":" +:+ q "{" +:+ "," +:+ q "incomplete_details" +:+ ":{" +:+ q "reason" +:+ ":" +:+ q "max_output_tokens" +:+ "}}".
Definition good_body : string := "{" +:+ q "output_text" +:+ ":" +:+ q " [1.0] " +:+ "}".

(** The attempts' caps, the delays, and the texts that come back. *)
Definition observed (o : result complete_error Result * list event * list reply) : list Z * list Z * option (string * string) :=
  (omap (fun e => match e with EAttempt a => Some (LlmCall.MaxOutputTokens a) | _ => None end) o.1.2,
   omap (fun e => match e with ESlept d => Some d | _ => None end) o.1.2,
   match o.1.1 with Ok r => Some (Text r, Unparsed r) | Err _ => None end).
Example openai_runs : map (fun w => observed (openai_Complete no_library scripted (demo_client "openai") "" demo_request w))
  [[Answer 200 "" (Ok good_body)]; [Answer 500 "" (Ok "oops"); Answer 200 "" (Ok cut_body)]; [Answer 200 "" (Ok cut_body); Answer 200 "" (Ok good_body)];
   [Answer 401 "" (Ok "")]; [Answer 503 "" (Ok ""); Answer 503 "" (Ok ""); Answer 200 "" (Ok good_body)]]
  = [([2048], [], Some ("[1.0]", "")); ([2048; 2048], [500000000], Some ("", "{")); ([2048; 4096], [500000000], Some ("[1.0]", ""));
     ([2048], [], None); ([2048; 2048], [500000000], None)]%Z.
Proof. vm_compute. reflexivity. Qed.
End LlmComplete.
