(* ===== verification/LlmContract.v ===== *)
(** What Complete of the three clients promises: each is one protocol of at most two calls, of which the second
    follows only a failure that is retryable or an answer that was cut, and the protocol's calls and results are
    as they should be whatever the provider, the budget, the context and the clock do. *)
From S2P Require Import Prelude Json JsonEncode GoFormat LlmErrors LlmJson LlmProvider LlmParse LlmSchema LlmCall LlmRequest LlmComplete.

Module LlmContract.
Import Json Encode GoFormat LlmErrors LlmJson LlmProvider LlmParse LlmSchema LlmCall LlmRequest LlmComplete.
Local Open Scope call_scope.

(** * The protocol *)

Section Protocol.
Context {W A : Type}.
Variables (lib : library) (e : env W) (p : built (Budget W)).
(** The call of a number, under an output cap; whether its answer was cut; the cap after a cut; the result. *)
Variables (send : Z -> Z -> M W (A * option send_error)) (cut : A -> bool) (raise : Z -> Z) (result_of : A -> Result).
Notation M := (M W).

(** The second call, after which nothing is tried again. *)
Definition last_call (cap : Z) : M (result complete_error Result) :=
  o <- send 2 cap;;
  match o.2 with Some err => after_error lib e p err 1 None | None => ret (Ok (result_of o.1)) end.

Definition protocol (cap : Z) : M (result complete_error Result) :=
  o <- send 1 cap;;
  match o.2 with
  | Some err => after_error lib e p err 0 (Some (fun _ => last_call cap))
  | None =>
      if cut o.1
      then stopped <- sleepFor W e cutDelay;; match stopped with Some c => ret (Err (CContext c)) | None => last_call (raise cap) end
      else ret (Ok (result_of o.1))
  end.

(** ** Its events *)

(** What a call does: the events [C number cap], and an answer that is as [I] says. *)
Variables (I : A -> Prop) (C : Z -> Z -> list event -> Prop).
Hypothesis call_does : forall n cap, ensures (send n cap) (fun o t => I o.1 /\ C n cap t).

Definition at_most_twice (cap : Z) (out : result complete_error Result) (t : list event) : Prop :=
  C 1 cap t \/
  (exists u d c, t = u ++ [ESlept d] /\ C 1 cap u /\ out = Err (CContext c)) \/
  (exists u d v cap', t = u ++ ESlept d :: v /\ C 1 cap u /\ C 2 cap' v /\ (cap' = cap \/ cap' = raise cap)).
Definition sound_result (out : result complete_error Result) : Prop := match out with Ok r => exists a, I a /\ r = result_of a | Err _ => True end.

Lemma sleepFor_ensures d : ensures (sleepFor W e d) (fun _ t => t = [ESlept d]).
Proof.
  eapply ensures_bind; [apply (ensures_emit _ _ (fun _ t => t = [ESlept d])); reflexivity|]. intros [] ? ->. apply ensures_ask. reflexivity.
Qed.

(** The error of a call: returned at once, or the rest after a delay. *)
Lemma after_error_ensures err retries again (Q : result complete_error Result -> list event -> Prop) :
  (forall err, Q (Err err) []) -> (forall k d c, again = Some k -> Q (Err (CContext c)) [ESlept d]) ->
  (forall k, again = Some k -> forall typed d, Retryable typed = true -> ensures (k typed) (fun out t => Q out (ESlept d :: t))) ->
  ensures (after_error lib e p err retries again) Q.
Proof.
  intros H1 H2 H3. destruct err as [cause|f]; [apply ensures_ret, H1|]. eapply ensures_bind; [apply (ensures_ask _ _ (fun _ t => t = [])); reflexivity|].
  intros [c|] ? ->; [apply ensures_ret, H1|]. eapply ensures_bind; [apply (ensures_look _ _ (fun _ t => t = [])); reflexivity|]. intros typed ? ->.
  destruct again as [k|]; [|apply ensures_ret, H1]. destruct (Retryable typed) eqn:Er; [|apply ensures_ret, H1].
  eapply ensures_bind; [apply sleepFor_ensures|]. intros [c|] ? ->; [apply ensures_ret, (H2 k); reflexivity|]. exact (H3 k eq_refl typed _ Er).
Qed.

Lemma last_call_ensures cap : ensures (last_call cap) (fun out t => C 2 cap t /\ sound_result out).
Proof.
  eapply ensures_bind; [apply call_does|]. intros [a err] t [HI HC]. cbn in HI |- *. destruct err as [err|].
  - apply after_error_ensures; intros; rewrite ?app_nil_r; try discriminate; try (split; [exact HC | exact Logic.I]).
  - apply ensures_ret. rewrite app_nil_r. split; [exact HC|]. exists a. auto.
Qed.

(** A second call after a delay, which ends as [last_call] does. *)
Lemma second_call u d cap cap' : C 1 cap u -> cap' = cap \/ cap' = raise cap ->
  ensures (last_call cap') (fun out t => at_most_twice cap out (u ++ ESlept d :: t) /\ sound_result out).
Proof.
  intros Hu Hc. eapply ensures_weaken; [apply last_call_ensures|]. intros out t [Ht Ho]. split; [|exact Ho]. right. right. exists u, d, t, cap'. auto.
Qed.

Lemma protocol_ensures cap : ensures (protocol cap) (fun out t => at_most_twice cap out t /\ sound_result out).
Proof.
  eapply ensures_bind; [apply call_does|]. intros [a err] u [HI HC]. cbn in HI |- *. destruct err as [err|].
  - apply after_error_ensures.
    + intros. rewrite app_nil_r. split; [left; exact HC | exact Logic.I].
    + intros k d c _. split; [|exact Logic.I]. right. left. exists u, d, c. auto.
    + intros k [= <-] typed d _. apply second_call; auto.
  - destruct (cut a).
    + eapply ensures_bind; [apply sleepFor_ensures|]. intros [c|] ? ->.
      * apply ensures_ret. split; [|exact Logic.I]. right. left. exists u, cutDelay, c. auto.
      * apply second_call; auto.
    + apply ensures_ret. rewrite app_nil_r. split; [left; exact HC|]. exists a. auto.
Qed.
End Protocol.

(** * The clients *)

Section Clients.
Context {W : Type}.
Variables (lib : library) (e : env W) (p : built (Budget W)) (caller : string).

Lemma bind_ext {A B} (m : M W A) (k k' : A -> M W B) w : (forall a w, k a w = k' a w) -> bind m k w = bind m k' w.
Proof. intros H. unfold bind. destruct (m w) as [[a t] w1]. rewrite H. reflexivity. Qed.
Lemma after_error_ext err n (k k' : Error -> M W (result complete_error Result)) w :
  (forall a w, k a w = k' a w) -> after_error lib e p err n (Some k) w = after_error lib e p err n (Some k') w.
Proof.
  intros H. destruct err; [reflexivity|]. apply bind_ext. intros [c|] w1; [reflexivity|]. apply bind_ext. intros typed w2. destruct (Retryable typed); [|reflexivity].
  apply bind_ext. intros [c|] w3; [reflexivity | apply H].
Qed.

Definition openai_call (request : Request) (key : string) (n cap : Z) := openai_send lib e p caller key n (responsesBody (CModel (cfg p)) request cap).
Definition compatible_call (request : Request) (key : string) (n : Z) (_ : Z) := compatible_send lib e p caller key n (chatBody (cfg p) request).
Definition anthropic_call (request : Request) (mode : anthropicMode) (key : string) (n cap : Z) :=
  anthropic_send lib e p caller key n (messagesBody (ParseFloat lib) (CModel (cfg p)) request cap mode).
Definition first_cap (request : Request) : Z := Z.max (CMaxOutputTokens (cfg p)) (LlmProvider.MaxOutputTokens request).

Lemma openai_protocol request w : openai_Complete lib e p caller request w =
  match Seed request with
  | Some _ => ret (Err (CError (errSeedUnsupported KindOpenAI (CModel (cfg p))))) w
  | None => bind (requestKey e) (fun key =>
      protocol lib e p (openai_call request key) (openai_cut p request) (raised openAIMaxOutputTokens) (openai_result p request) (first_cap request)) w
  end.
Proof.
  unfold openai_Complete. destruct (Seed request); [reflexivity|]. apply bind_ext. intros key w1. apply bind_ext. intros [a [err|]] w2; cbn [fst snd].
  - apply after_error_ext. intros typed w3. apply bind_ext. intros [a' [err'|]] w4; [reflexivity|]. cbn. rewrite andb_false_r. reflexivity.
  - cbn. rewrite andb_true_r. destruct (openai_cut p request a); [|reflexivity]. apply bind_ext. intros [c|] w3; [reflexivity|].
    apply bind_ext. intros [a' [err'|]] w4; [reflexivity|]. cbn. rewrite andb_false_r. reflexivity.
Qed.

Lemma compatible_protocol request w : compatible_Complete lib e p caller request w =
  if match Seed request with Some _ => String.eqb (Kind (cfg p)) KindGemini | None => false end
  then ret (Err (CError (errSeedUnsupported KindGemini (CModel (cfg p))))) w
  else bind (requestKey e) (fun key =>
    protocol lib e p (compatible_call request key) (fun _ => false) (fun cap => cap) (compatible_result p request) (first_cap request)) w.
Proof.
  unfold compatible_Complete. destruct (match Seed request with Some _ => _ | None => _ end); [reflexivity|]. apply bind_ext. intros key w1. apply bind_ext.
  intros [a [err|]] w2; [|reflexivity]. apply after_error_ext. intros typed w3. apply bind_ext. intros [a' [err'|]] w4; reflexivity.
Qed.

Lemma anthropic_protocol request w : anthropic_Complete lib e p caller request w =
  match Seed request with
  | Some _ => ret (Err (CError (errSeedUnsupported KindAnthropic (CModel (cfg p))))) w
  | None => let '(mode, reason) := anthropic_mode lib request in bind (requestKey e) (fun key =>
      protocol lib e p (anthropic_call request mode key) (anthropic_cut request) (raised anthropicMaxOutputTokens)
        (fun a => anthropic_result p request a mode reason) (first_cap request)) w
  end.
Proof.
  unfold anthropic_Complete. destruct (Seed request); [reflexivity|]. destruct (anthropic_mode lib request) as [mode reason]. apply bind_ext. intros key w1.
  apply bind_ext. intros [a [err|]] w2; cbn [fst snd].
  - apply after_error_ext. intros typed w3. apply bind_ext. intros [a' [err'|]] w4; [reflexivity|]. cbn. destruct (anthropic_cut request a'); reflexivity.
  - destruct (anthropic_cut request a); [|reflexivity]. apply bind_ext. intros [c|] w3; [reflexivity|].
    apply bind_ext. intros [a' [err'|]] w4; [reflexivity|]. cbn. destruct (anthropic_cut request a'); reflexivity.
Qed.

(** ** Calls and results *)

(** The call of a number under a cap: one attempt as the budget is told of it, and requests with one body. *)
Definition called (target : string) (header : list (string * string)) (payload : Z -> string) (cached : bool) (told : Z -> Z) (key : string) (n cap : Z) (t : list event) : Prop :=
  exists u, t = EAttempt (attempt_of p key n (payload cap) (told cap) cached) :: u /\
    only (mkHttp (client p) "POST" (BaseURL (cfg p) +:+ target) header (Some (payload cap))) u.

Lemma call_called {A} path header (decode : string -> A * bool) usage zero n payload cap cached told key (I : A -> Prop) :
  I zero -> (forall raw, I (decode raw).1) ->
  ensures (call lib e p caller path header decode usage zero n (attempt_of p key n (payload cap) (told cap) cached) (payload cap))
    (fun o t => I o.1 /\ called path header payload cached told key n cap t).
Proof.
  intros H0 HI. apply guarded_keeps; [exact H0|]. intros s Hs. eapply ensures_bind; [apply exchange_exchanged|]. intros [a err] t [He [Ha _]].
  apply ensures_ret. cbn in Ha |- *. rewrite app_nil_r. split; [|eapply exchanged_only; exact He]. destruct Ha as [->|(raw & ->)]; auto.
Qed.

(** A result under a Format is compact JSON or nothing; a refused one is nothing. *)
Definition gated (request : Request) (r : Result) : Prop :=
  RModel r = CModel (cfg p) /\ (Refused r = true -> Text r = "" /\ Unparsed r = "") /\
  (Format request <> None -> CompactJSON (Text r) = Text r /\ (Text r = "" \/ Unparsed r = "")) /\ (Format request = None -> Unparsed r = "").

Lemma gateJSON_pair reply : CompactJSON (gateJSON reply).1 = (gateJSON reply).1 /\ ((gateJSON reply).1 = "" \/ (gateJSON reply).2 = "").
Proof.
  unfold gateJSON. cbn [fst snd]. split; [apply CompactJSON_idempotent|]. destruct (String.eqb_spec (CompactJSON reply) ""); auto.
Qed.

Lemma openai_gated request a : gated request (openai_result p request a).
Proof.
  unfold gated, openai_result. pose proof (gateJSON_pair (oa_text a)) as [H1 H2]. destruct (gateJSON (oa_text a)) as [text unparsed].
  destruct (oa_refused a), (Format request) as [f|]; cbn in *; repeat split; auto; congruence.
Qed.
Lemma compatible_gated request a : (ca_refused a = true -> ca_text a = "") -> gated request (compatible_result p request a).
Proof.
  intros Ha. unfold gated, compatible_result. pose proof (gateJSON_pair (ca_text a)) as [H1 H2]. destruct (gateJSON (ca_text a)) as [text unparsed].
  destruct (ca_refused a) eqn:E, (Format request) as [f|]; cbn in *; rewrite ?E; repeat split; auto; try congruence; rewrite ?Ha; auto.
Qed.
Lemma anthropic_gated request a mode reason : gated request (anthropic_result p request a mode reason).
Proof.
  unfold gated, anthropic_result. pose proof (gateJSON_pair (aa_text a)) as [H1 H2]. destruct (gateJSON (aa_text a)) as [text unparsed].
  destruct (refusal a), (Format request) as [f|]; cbn in *; repeat split; auto; congruence.
Qed.

(** A protocol after a fresh key. *)
Lemma keyed_protocol {A} (send : string -> Z -> Z -> M W (A * option send_error)) cut raise result_of (I : A -> Prop) (C : string -> Z -> Z -> list event -> Prop) request cap :
  (forall key n cap, ensures (send key n cap) (fun o t => I o.1 /\ C key n cap t)) -> (forall a, I a -> gated request (result_of a)) ->
  ensures (bind (requestKey e) (fun key => protocol lib e p (send key) cut raise result_of cap))
    (fun out t => (exists key, at_most_twice raise (C key) cap out t) /\ forall r, out = Ok r -> gated request r).
Proof.
  intros Hs Hr. apply ensures_bind with (P := fun _ t => t = []).
  - eapply ensures_bind; [apply (ensures_ask _ _ (fun _ t => t = [])); reflexivity|]. intros id ? ->. apply ensures_ret. reflexivity.
  - intros key ? ->. eapply ensures_weaken; [apply (protocol_ensures lib e p (send key) cut raise result_of I (C key)); apply Hs|].
    intros out t [Ht Ho]. split; [exists key; exact Ht|]. intros r ->. destruct Ho as (a & Ha & ->). apply Hr, Ha.
Qed.
Lemma raised_bounds maximum cap : (cap <= raised maximum cap <= Z.max cap maximum)%Z.
Proof. unfold raised. lia. Qed.

Definition openai_called (request : Request) (key : string) : Z -> Z -> list event -> Prop :=
  called "/responses" (bearer p) (fun cap => Marshal (responses_json (responsesBody (CModel (cfg p)) request cap))) false (fun cap => cap) key.
Definition compatible_called (request : Request) (key : string) : Z -> Z -> list event -> Prop :=
  called "/chat/completions" (bearer p) (fun _ => Marshal (chat_json (chatBody (cfg p) request))) false (fun _ => default 0%Z (chat_cap (cfg p) request)) key.
Definition anthropic_called (request : Request) (key : string) : Z -> Z -> list event -> Prop :=
  let mode := (anthropic_mode lib request).1 in
  called "/v1/messages" [("Content-Type", "application/json"); ("Anthropic-Version", anthropicAPIVersion); ("X-Api-Key", Reveal (APIKey (cfg p)))]
    (fun cap => Marshal (messages_json (messagesBody (ParseFloat lib) (CModel (cfg p)) request cap mode)))
    (match Cache request with CacheSystem => negb (String.eqb (System request) "") | CacheNone => false end) (fun cap => cap) key.

Lemma openai_does request key n cap : ensures (openai_call request key n cap) (fun o t => True /\ openai_called request key n cap t).
Proof. unfold openai_call, openai_send, openai_called. 
  exact (call_called "/responses" (bearer p) (decode_openai lib) oa_usage zero_openai_answer n
    (fun c => Marshal (responses_json (responsesBody (CModel (cfg p)) request c))) cap false (fun c => c) key (fun _ => True) Logic.I (fun _ => Logic.I)).
Qed.
Lemma chat_refused_silent raw : ca_refused (parseChatResponse (SimpleFold lib) raw).1 = true -> ca_text (parseChatResponse (SimpleFold lib) raw).1 = "".
Proof.
  unfold parseChatResponse. destruct (parse_document false raw); [|discriminate]. destruct (bind_chat _ _ _); [|discriminate].
  destruct (elems _); [discriminate|]. cbn. intros ->. reflexivity.
Qed.
Lemma compatible_does request key n cap :
  ensures (compatible_call request key n cap) (fun o t => (ca_refused o.1 = true -> ca_text o.1 = "") /\ compatible_called request key n cap t).
Proof.
  unfold compatible_call, compatible_send, compatible_called.
  apply (call_called "/chat/completions" (bearer p) (decode_chat lib) ca_usage zero_chat_answer n (fun _ => Marshal (chat_json (chatBody (cfg p) request))) cap false
    (fun _ => default 0%Z (chat_cap (cfg p) request)) key (fun a => ca_refused a = true -> ca_text a = "")); [discriminate | apply chat_refused_silent].
Qed.
Lemma messages_cached request cap mode : cacheMarked (messagesBody (ParseFloat lib) (CModel (cfg p)) request cap mode) =
  match Cache request with CacheSystem => negb (String.eqb (System request) "") | CacheNone => false end.
Proof.
  unfold messagesBody, cacheMarked. destruct (String.eqb (System request) ""), (Cache request), (Format request) as [f|], mode; cbn [negb];
    try (destruct (schema_ (Some f)); cbn [negb]); reflexivity.
Qed.
Lemma messages_cap request cap mode : ar_MaxTokens (messagesBody (ParseFloat lib) (CModel (cfg p)) request cap mode) = cap.
Proof. unfold messagesBody. destruct (Format request) as [f|]; [|reflexivity]. destruct (schema_ (Some f)); cbn [negb]; [|reflexivity]. destruct mode; reflexivity. Qed.
Lemma anthropic_does request key n cap :
  ensures (anthropic_call request (anthropic_mode lib request).1 key n cap) (fun o t => True /\ anthropic_called request key n cap t).
Proof.
  unfold anthropic_call, anthropic_send, anthropic_called. rewrite messages_cached, messages_cap.
  exact (call_called "/v1/messages" [("Content-Type", "application/json"); ("Anthropic-Version", anthropicAPIVersion); ("X-Api-Key", Reveal (APIKey (cfg p)))]
    (decode_anthropic lib) aa_usage zero_anthropic_answer n
    (fun c => Marshal (messages_json (messagesBody (ParseFloat lib) (CModel (cfg p)) request c (anthropic_mode lib request).1))) cap
    (match Cache request with CacheSystem => negb (String.eqb (System request) "") | CacheNone => false end) (fun c => c) key (fun _ => True) Logic.I (fun _ => Logic.I)).
Qed.

(** What each client promises. *)
Definition openai_promise (request : Request) (out : result complete_error Result) (t : list event) : Prop :=
  (Seed request <> None -> t = [] /\ out = Err (CError (errSeedUnsupported KindOpenAI (CModel (cfg p))))) /\
  (Seed request = None -> exists key, at_most_twice (raised openAIMaxOutputTokens) (openai_called request key) (first_cap request) out t) /\
  forall r, out = Ok r -> gated request r.
Definition compatible_promise (request : Request) (out : result complete_error Result) (t : list event) : Prop :=
  (Seed request <> None /\ Kind (cfg p) = KindGemini -> t = [] /\ out = Err (CError (errSeedUnsupported KindGemini (CModel (cfg p))))) /\
  (Seed request = None \/ Kind (cfg p) <> KindGemini -> exists key, at_most_twice (fun cap => cap) (compatible_called request key) (first_cap request) out t) /\
  forall r, out = Ok r -> gated request r.
Definition anthropic_promise (request : Request) (out : result complete_error Result) (t : list event) : Prop :=
  (Seed request <> None -> t = [] /\ out = Err (CError (errSeedUnsupported KindAnthropic (CModel (cfg p))))) /\
  (Seed request = None -> exists key, at_most_twice (raised anthropicMaxOutputTokens) (anthropic_called request key) (first_cap request) out t) /\
  forall r, out = Ok r -> gated request r.

Lemma openai_promised request : ensures (openai_Complete lib e p caller request) (openai_promise request).
Proof.
  intros w. unfold openai_promise. rewrite openai_protocol. destruct (Seed request); [split; [auto|]; split; discriminate|].
  destruct (keyed_protocol (openai_call request) (openai_cut p request) (raised openAIMaxOutputTokens) (openai_result p request) (fun _ => True) (openai_called request) request (first_cap request)
    (openai_does request) (fun a _ => openai_gated request a) w) as [H1 H2]. split; [tauto|]. split; [intros _; exact H1 | exact H2].
Qed.

Lemma compatible_promised request : ensures (compatible_Complete lib e p caller request) (compatible_promise request).
Proof.
  intros w. unfold compatible_promise. rewrite compatible_protocol. destruct (keyed_protocol (compatible_call request) (fun _ => false) (fun cap => cap) (compatible_result p request) (fun a => ca_refused a = true -> ca_text a = "")
    (compatible_called request) request (first_cap request)
    (compatible_does request) (compatible_gated request) w) as [H1 H2]. destruct (Seed request) as [z|].
  - destruct (String.eqb_spec (Kind (cfg p)) KindGemini) as [E|N]; [split; [auto|]; split; [intros [|]; [discriminate | contradiction] | discriminate]|].
    split; [tauto|]. split; [intros _; exact H1 | exact H2].
  - split; [tauto|]. split; [intros _; exact H1 | exact H2].
Qed.

Lemma anthropic_promised request : ensures (anthropic_Complete lib e p caller request) (anthropic_promise request).
Proof.
  intros w. unfold anthropic_promise. rewrite anthropic_protocol. destruct (Seed request); [split; [auto|]; split; discriminate|]. pose proof (anthropic_does request) as Hd.
  destruct (anthropic_mode lib request) as [mode reason]. destruct (keyed_protocol (anthropic_call request mode) (anthropic_cut request) (raised anthropicMaxOutputTokens)
    (fun a => anthropic_result p request a mode reason) (fun _ => True) (anthropic_called request) request (first_cap request) Hd (fun a _ => anthropic_gated request a mode reason) w) as [H1 H2].
  split; [tauto|]. split; [intros _; exact H1 | exact H2].
Qed.

(** C12: what Complete does and returns, whatever the provider, the budget and the context do. With a seed that
    the kind refuses it does nothing. Otherwise it makes at most two attempts, numbered 1 and 2 under one
    random key, the second after a delay; each tells the budget its exact output cap, the length of its body
    and whether the body marks a cache, and sends nothing but that body, with the client's key, to the
    client's URL. The cap starts at the larger floor and is only ever raised. A result names the client's
    model; under a Format its text is compact JSON or empty, and the reply is kept apart only when it is
    empty; without one nothing is kept apart; a refused one has no text. *)
Theorem Complete_promises request :
  ensures (openai_Complete lib e p caller request) (openai_promise request) /\
  ensures (compatible_Complete lib e p caller request) (compatible_promise request) /\
  ensures (anthropic_Complete lib e p caller request) (anthropic_promise request) /\
  (forall maximum cap, cap <= raised maximum cap <= Z.max cap maximum)%Z.
Proof. split; [apply openai_promised | split; [apply compatible_promised | split; [apply anthropic_promised | apply raised_bounds]]]. Qed.
End Clients.
End LlmContract.
