(* ===== verification/LlmRule.v ===== *)
(** The rule that each Complete of src/llm follows, stated by itself as inference rules over the client's calls,
    and the proof that each of the three loops derives exactly what the rule does. Nothing of the loops is in
    the rule: what is worth a second call, how long the wait before it is, when an answer counts as cut, how
    far the cap is raised, and what a result holds are written out here. *)
From S2P Require Import Prelude Json JsonEncode GoFormat LlmErrors LlmJson LlmProvider LlmParse LlmSchema LlmCall LlmRequest LlmComplete LlmContract.

Module LlmRule.
Import Json GoFormat LlmErrors LlmJson LlmProvider LlmParse LlmSchema LlmCall LlmRequest LlmComplete LlmContract.

(** * The rule *)

(** The failures that are worth a second call. *)
Definition transient (err : Error) : Prop :=
  Class err = ClassRateLimit \/ Class err = ClassServer \/ Class err = ClassTimeout \/ Class err = ClassTransport \/ Class err = ClassOutput.
(** The wait before it: what a rate limit asks for, or half a second. *)
Definition pause (err : Error) (d : Z) : Prop :=
  let asked := Class err = ClassRateLimit /\ (0 < RetryAfter err)%Z in (asked -> d = RetryAfter err) /\ (~ asked -> d = 500000000%Z).

Section Rule.
Context {W A : Type}.
Variables (lib : library) (e : env W) (p : built (Budget W)).
(** The call of a number under an output cap, the answers that were cut at it, the largest cap that a second
    call is raised to, and what an answer reads as. *)
Variables (send : Z -> Z -> M W (A * option send_error)) (truncated : A -> Prop) (maximum : Z) (reads : A -> Result -> Prop).

(** A failure, typed at the moment of [w]. *)
Definition typed (f : failure) (w : W) : Error :=
  classify (lower lib) (ParseFloat lib) (until_date W e w) (unrepresentable lib) (IsPrint lib) f (Kind (cfg p)) (CModel (cfg p)).

(** The error of a failed call: as it is if the budget refused the call or the context has ended, or typed. *)
Inductive given_up : send_error -> W -> complete_error -> W -> Prop :=
| over_budget cause w : given_up (SBudget cause) w (CSend (SBudget cause)) w
| call_ended f c w w' : ctx_err W e w = (Some c, w') -> given_up (SFailure f) w (CSend (SFailure f)) w'
| call_failed f w w' : ctx_err W e w = (None, w') -> given_up (SFailure f) w (CError (typed f w')) w'.

(** The second call: whatever it gives is the end. *)
Inductive ends (cap : Z) (w : W) : result complete_error Result -> list event -> W -> Prop :=
| ends_read a t w1 r : send 2 cap w = (a, None, t, w1) -> reads a r -> ends cap w (Ok r) t w1
| ends_failed a err t w1 err' w2 : send 2 cap w = (a, Some err, t, w1) -> given_up err w1 err' w2 -> ends cap w (Err err') t w2.

(** The wait, which the end of the context cuts short, and the second call. *)
Inductive resumes (d cap : Z) (w : W) : result complete_error Result -> list event -> W -> Prop :=
| interrupted c w1 : wait W e d w = (Some c, w1) -> resumes d cap w (Err (CContext c)) [ESlept d] w1
| rested w1 out t w2 : wait W e d w = (None, w1) -> ends cap w1 out t w2 -> resumes d cap w out (ESlept d :: t) w2.

Inductive completes (cap : Z) (w : W) : result complete_error Result -> list event -> W -> Prop :=
| answered a t w1 r : send 1 cap w = (a, None, t, w1) -> ~ truncated a -> reads a r -> completes cap w (Ok r) t w1
| widened a t w1 out u w2 : send 1 cap w = (a, None, t, w1) -> truncated a ->
    resumes 500000000 (Z.max cap (Z.min maximum (i64 (2 * cap)))) w1 out u w2 -> completes cap w out (t ++ u) w2
| failed a err t w1 err' w2 : send 1 cap w = (a, Some err, t, w1) -> given_up err w1 err' w2 ->
    (forall err, err' = CError err -> ~ transient err) -> completes cap w (Err err') t w2
| retried a f t w1 w2 d out u w3 : send 1 cap w = (a, Some (SFailure f), t, w1) -> ctx_err W e w1 = (None, w2) ->
    transient (typed f w2) -> pause (typed f w2) d -> resumes d cap w2 out u w3 -> completes cap w out (t ++ u) w3.

(** ** The protocol derives exactly this *)

Lemma transient_retryable err : transient err <-> Retryable err = true.
Proof. unfold transient, Retryable. rewrite bool_decide_eq_true. unfold retryableClasses. destruct (Class err); split; set_solver. Qed.
Lemma pause_delay err d : pause err d <-> d = delayFor err 0.
Proof.
  unfold pause, delayFor. assert (retryDelay 0 = 500000000%Z) as -> by reflexivity.
  destruct (bool_decide_reflect (Class err = ClassRateLimit)) as [E|N], (Z.ltb_spec 0 (RetryAfter err)); cbn; split; intros H1;
    try (destruct H1 as [H1 H2]); try (split; intros H2); try tauto; try lia; try (apply H1; tauto); try (apply H2; intros [? ?]; (contradiction || lia)).
Qed.

Variables (cut : A -> bool) (raise : Z -> Z) (result_of : A -> Result).
Hypotheses (Hcut : forall a, truncated a <-> cut a = true) (Hraise : forall a cap, cut a = true -> raise cap = Z.max cap (Z.min maximum (i64 (2 * cap))))
  (Hreads : forall a r, reads a r <-> r = result_of a).

Lemma given_up_after err w err' w' : given_up err w err' w' <-> after_error lib e p err 1 None w = (Err err', [], w').
Proof.
  split.
  - intros [cause w0|f c w0 w1 H|f w0 w1 H]; unfold after_error, bind, ask; rewrite ?H; reflexivity.
  - destruct err as [cause|f]; cbn; [intros [= <- <-]; constructor|]. unfold bind, ask. destruct (ctx_err W e w) as [[c|] w1] eqn:E; cbn; intros [= <- <-].
    + econstructor. exact E.
    + apply call_failed, E.
Qed.

Lemma ends_last_call cap w out t w' : ends cap w out t w' <-> last_call lib e p send result_of cap w = (out, t, w').
Proof.
  unfold last_call, bind at 1. split.
  - intros [a u w1 r Hs Hr|a err u w1 err' w2 Hs Hg]; rewrite Hs; cbn [fst snd].
    + apply Hreads in Hr as ->. unfold ret. rewrite app_nil_r. reflexivity.
    + apply given_up_after in Hg. rewrite Hg, app_nil_r. reflexivity.
  - destruct (send 2 cap w) as [[[a [err|]] u] w1] eqn:E; cbn [fst snd].
    + destruct (after_error lib e p err 1 None w1) as [[o v] w2] eqn:G. intros [= <- <- <-].
      assert (exists err', o = Err err' /\ v = []) as (err' & -> & ->).
      { revert G. clear. destruct err; cbn; [intros [= <- <- <-]; eauto|]. unfold bind, ask. destruct (ctx_err W e w1) as [[c|] w]; cbn; intros [= <- <- <-]; eauto. }
      rewrite app_nil_r. eapply ends_failed; [exact E|]. apply given_up_after, G.
    + intros [= <- <- <-]. rewrite app_nil_r. eapply ends_read; [exact E|]. apply Hreads. reflexivity.
Qed.

Definition resume (d cap : Z) : M W (result complete_error Result) :=
  bind (sleepFor W e d) (fun stopped => match stopped with Some c => ret (Err (CContext c)) | None => last_call lib e p send result_of cap end).
Lemma resumes_resume d cap w out t w' : resumes d cap w out t w' <-> resume d cap w = (out, t, w').
Proof.
  unfold resume, sleepFor, emit, ask, bind. split.
  - intros [c w1 Hw|w1 o u w2 Hw Hl]; rewrite Hw; cbn; [reflexivity|]. apply ends_last_call in Hl. rewrite Hl. reflexivity.
  - destruct (wait W e d w) as [[c|] w1] eqn:E; cbn.
    + intros [= <- <- <-]. apply interrupted, E.
    + destruct (last_call lib e p send result_of cap w1) as [[o u] w2] eqn:L. intros [= <- <- <-]. eapply rested; [exact E|]. apply ends_last_call, L.
Qed.

Lemma given_up_open f w w1 err' w' : ctx_err W e w = (None, w1) -> given_up (SFailure f) w err' w' <-> err' = CError (typed f w1) /\ w' = w1.
Proof. intros E. split; [intros H; inversion H; simplify_eq; rewrite E in *; simplify_eq; auto | intros [-> ->]; apply call_failed, E]. Qed.
Lemma given_up_ended f w c w1 err' w' : ctx_err W e w = (Some c, w1) -> given_up (SFailure f) w err' w' <-> err' = CSend (SFailure f) /\ w' = w1.
Proof. intros E. split; [intros H; inversion H; simplify_eq; rewrite E in *; simplify_eq; auto | intros [-> ->]; eapply call_ended, E]. Qed.

(** A first failure: given up, or followed by the second call. *)
Lemma first_failure err cap w out t w' : after_error lib e p err 0 (Some (fun _ => last_call lib e p send result_of cap)) w = (out, t, w') <->
  (exists err', out = Err err' /\ t = [] /\ given_up err w err' w' /\ forall err, err' = CError err -> ~ transient err) \/
  (exists f w1 d, err = SFailure f /\ ctx_err W e w = (None, w1) /\ transient (typed f w1) /\ pause (typed f w1) d /\ resumes d cap w1 out t w').
Proof.
  destruct err as [cause|f]; cbn [after_error].
  { split; [intros [= <- <- <-]; left; eexists; repeat split; [constructor | discriminate]|]. intros [(err' & -> & -> & Hg & _)|(f & _ & _ & E & _)]; [inversion Hg; reflexivity | discriminate]. }
  unfold bind at 1, ask. destruct (ctx_err W e w) as [[c|] w1] eqn:E; cbn.
  { split; [intros [= <- <- <-]; left; eexists; repeat split; [econstructor; exact E | discriminate]|].
    intros [(err' & -> & -> & Hg & _)|(f' & w2 & d & [= <-] & E' & _)]; [|congruence]. apply (given_up_ended _ _ _ _ _ _ E) in Hg as [-> ->]. reflexivity. }
  fold (typed f w1). destruct (Retryable (typed f w1)) eqn:R.
  - fold (resume (delayFor (typed f w1) 0) cap). split.
    + intros H. right. exists f, w1, (delayFor (typed f w1) 0). split; [reflexivity|]. split; [reflexivity|]. split; [apply transient_retryable, R|].
      split; [apply pause_delay; reflexivity|]. apply resumes_resume. rewrite <-H. destruct (resume _ _ w1) as [[? ?] ?]. reflexivity.
    + intros [(err' & -> & -> & Hg & Hn)|(f' & w2 & d & [= <-] & [= <-] & _ & Hp & Hr)].
      * apply (given_up_open _ _ _ _ _ E) in Hg as [-> ->]. destruct (Hn _ eq_refl). apply transient_retryable, R.
      * apply pause_delay in Hp as ->. apply resumes_resume in Hr. rewrite Hr. reflexivity.
  - split.
    + intros [= <- <- <-]. left. eexists. repeat split; [apply call_failed, E|]. intros err [= <-] H. apply transient_retryable in H. congruence.
    + intros [(err' & -> & -> & Hg & Hn)|(f' & w2 & d & [= <-] & [= <-] & Ht & _)]; [|apply transient_retryable in Ht; congruence].
      apply (given_up_open _ _ _ _ _ E) in Hg as [-> ->]. reflexivity.
Qed.

Lemma completes_protocol cap w out t w' : completes cap w out t w' <-> protocol lib e p send cut raise result_of cap w = (out, t, w').
Proof.
  unfold protocol, bind at 1. destruct (send 1 cap w) as [[[a [err|]] u] w1] eqn:E; cbn [fst snd].
  - destruct (after_error _ _ _ _ _ _ w1) as [[o v] w2] eqn:F. pose proof F as G. rewrite first_failure in F. split.
    + intros H. assert (exists v', t = u ++ v' /\ after_error lib e p err 0 (Some (fun _ => last_call lib e p send result_of cap)) w1 = (out, v', w')) as (v' & -> & H').
      { inversion H; match goal with K : send 1 cap w = _ |- _ => rewrite E in K end; simplify_eq.
        - exists []. rewrite app_nil_r. split; [reflexivity|]. apply first_failure. left. eauto.
        - eexists. split; [reflexivity|]. apply first_failure. right. eauto 10. }
      congruence.
    + intros [= <- <- <-]. destruct F as [(err' & -> & -> & Hg & Hn)|(f & w3 & d & -> & Hc & Ht & Hp & Hr)].
      * rewrite app_nil_r. eapply failed; eauto.
      * eapply retried; eauto.
  - destruct (cut a) eqn:C.
    + fold (resume cutDelay (raise cap)). rewrite (Hraise a cap C). split.
      * intros H. inversion H; match goal with K : send 1 cap w = _ |- _ => rewrite E in K end; simplify_eq; [exfalso; match goal with H : ~ truncated _ |- _ => apply H, Hcut, C end|].
        match goal with H : resumes _ _ _ _ _ _ |- _ => apply resumes_resume in H; unfold cutDelay, Millisecond; change (500 * 1000000)%Z with 500000000%Z; rewrite H end. reflexivity.
      * destruct (resume _ _ w1) as [[o v] w2] eqn:R. intros [= <- <- <-]. eapply widened; [exact E | apply Hcut, C | apply resumes_resume; exact R].
    + unfold ret. rewrite app_nil_r. split.
      * intros H. inversion H; match goal with K : send 1 cap w = _ |- _ => rewrite E in K end; simplify_eq; [|match goal with H : truncated _ |- _ => apply Hcut in H; congruence end].
        match goal with H : reads _ _ |- _ => apply Hreads in H as -> end. reflexivity.
      * intros [= <- <- <-]. eapply answered; [exact E | rewrite Hcut; congruence | apply Hreads; reflexivity].
Qed.
End Rule.

(** * What an answer reads as *)

Section Clients.
Context {W : Type}.
Variables (lib : library) (e : env W) (p : built (Budget W)) (caller : string).

(** The facts of the answer that every client passes on. *)
Definition passes_on (served stop : string) (usage : Usage) (refused : bool) (r : Result) : Prop :=
  RModel r = CModel (cfg p) /\ ResponseModel r = served /\ StopReason r = stop /\ RUsage r = usage /\ Refused r = refused.
(** The reply is kept apart when a Format asked for JSON and it is none, unless it was a refusal. *)
Definition kept_apart (request : Request) (refused : Prop) (raw : string) (r : Result) : Prop :=
  let lost := Format request <> None /\ ~ refused /\ CompactJSON raw = "" in (lost -> Unparsed r = raw) /\ (~ lost -> Unparsed r = "").
(** The way the format was asked for. *)
Definition path_taken (request : Request) (way : string) (r : Result) : Prop :=
  match Format request with
  | None => FormatPath r = ""
  | Some f => (FType f = "json_object" -> FormatPath r = "object") /\ (FType f <> "json_object" -> FormatPath r = way)
  end.

Definition openai_reads (request : Request) (a : openAIAnswer) (r : Result) : Prop :=
  passes_on (oa_model a) (oa_reason a) (oa_usage a) (oa_refused a) r /\ FormatReason r = "" /\
  Text r = (if oa_refused a then "" else CompactJSON (oa_text a)) /\ kept_apart request (oa_refused a = true) (oa_text a) r /\ path_taken request "schema" r.
Definition chat_reads (request : Request) (a : chatAnswer) (r : Result) : Prop :=
  passes_on (ca_model a) (ca_finish a) (ca_usage a) (ca_refused a) r /\ FormatReason r = "" /\
  (Format request = None \/ ca_refused a = true -> Text r = ca_text a) /\ (Format request <> None /\ ca_refused a = false -> Text r = CompactJSON (ca_text a)) /\
  kept_apart request (ca_refused a = true) (ca_text a) r /\ path_taken request "schema" r.
Definition anthropic_reads (request : Request) (mode : anthropicMode) (reason : string) (a : anthropicAnswer) (r : Result) : Prop :=
  passes_on (aa_model a) (aa_stop a) (aa_usage a) false r /\ (Format request = None -> FormatReason r = "") /\ (Format request <> None -> FormatReason r = reason) /\
  (aa_stop a = "refusal" -> Text r = "") /\ (aa_stop a <> "refusal" -> Format request = None -> Text r = aa_text a) /\
  (aa_stop a <> "refusal" -> Format request <> None -> Text r = CompactJSON (aa_text a)) /\
  kept_apart request (aa_stop a = "refusal") (aa_text a) r /\ path_taken request (match mode with anthropicForcedTool => "tool" | anthropicStructured => "schema" end) r.

(** An answer that its output cap cut: it stopped for that, is no refusal, and holds no JSON document. *)
Definition openai_truncated (a : openAIAnswer) : Prop := oa_refused a = false /\ oa_reason a = "max_output_tokens" /\ CompactJSON (oa_text a) = "".
Definition anthropic_truncated (request : Request) (a : anthropicAnswer) : Prop := Format request <> None /\ aa_stop a = "max_tokens" /\ CompactJSON (aa_text a) = "".

(** Anthropic's mode: a forced tool, with the limit that was found, for a schema that does not fit. *)
Definition misfit (request : Request) (why : string) : Prop :=
  exists f, Format request = Some f /\ FType f <> "json_object" /\
    anthropicSchemaFit (match anthropicSchema (ParseFloat lib) (Schema f) with JObj m => m | _ => [] end) = (false, why).
Definition picked (request : Request) (mode : anthropicMode) (reason : string) : Prop :=
  (mode = anthropicForcedTool /\ misfit request reason) \/ (mode = anthropicStructured /\ reason = "" /\ forall why, ~ misfit request why).

(** A result of the client's model is its fields. *)
Lemma result_fields r text served stop usage unparsed path reason refused : r = mkResult text (CModel (cfg p)) served stop usage unparsed path reason refused <->
  passes_on served stop usage refused r /\ Text r = text /\ Unparsed r = unparsed /\ FormatPath r = path /\ FormatReason r = reason.
Proof. unfold passes_on. destruct r; cbn. split; [intros [= -> -> -> -> -> -> -> -> ->]; auto 10 | intros ((-> & -> & -> & -> & ->) & -> & -> & -> & ->); reflexivity]. Qed.
Lemma kept_apart_iff request (refused : bool) (P : Prop) raw r : (P <-> refused = true) ->
  kept_apart request P raw r <-> Unparsed r = match Format request with Some _ => if refused then "" else if String.eqb (CompactJSON raw) "" then raw else "" | None => "" end.
Proof.
  intros HP. unfold kept_apart. rewrite HP. destruct (Format request), refused, (String.eqb_spec (CompactJSON raw) ""); intuition congruence.
Qed.
Lemma path_taken_iff request way r : path_taken request way r <->
  FormatPath r = match Format request with Some f => if object_ (Some f) then "object" else way | None => "" end.
Proof. unfold path_taken, object_. destruct (Format request) as [f|]; [|tauto]. destruct (String.eqb_spec (FType f) FormatTypeJSONObject); intuition congruence. Qed.

Lemma openai_reads_iff request a r : openai_reads request a r <-> r = openai_result p request a.
Proof.
  unfold openai_reads. rewrite (kept_apart_iff _ (oa_refused a)), path_taken_iff by tauto. unfold openai_result, gateJSON, format_path, object_path.
  destruct (oa_refused a), (Format request) as [f|]; rewrite result_fields; tauto.
Qed.
Lemma chat_reads_iff request a r : chat_reads request a r <-> r = compatible_result p request a.
Proof.
  unfold chat_reads. rewrite (kept_apart_iff _ (ca_refused a)), path_taken_iff by tauto. unfold compatible_result, gateJSON, format_path, object_path.
  destruct (ca_refused a), (Format request) as [f|]; rewrite result_fields; intuition congruence.
Qed.
Lemma anthropic_reads_iff request mode reason a r : anthropic_reads request mode reason a r <-> r = anthropic_result p request a mode reason.
Proof.
  unfold anthropic_reads. rewrite (kept_apart_iff _ (refusal a)), path_taken_iff by (unfold refusal; symmetry; apply String.eqb_eq).
  unfold anthropic_result, gateJSON, refusal, bool_decide.
  destruct (String.eqb_spec (aa_stop a) "refusal") as [R|R], (Format request) as [f|], mode; cbn; rewrite result_fields; intuition congruence.
Qed.
Lemma openai_truncated_iff request a : openai_truncated a <-> openai_cut p request a = true.
Proof.
  unfold openai_truncated, openai_cut, openai_result, gateJSON. rewrite !andb_true_iff, !String.eqb_eq, negb_true_iff.
  destruct (oa_refused a), (Format request); cbn; intuition congruence.
Qed.
Lemma anthropic_truncated_iff request a : anthropic_truncated request a <-> anthropic_cut request a = true.
Proof.
  unfold anthropic_truncated, anthropic_cut, refusal, gateJSON. destruct (Format request); [|intuition congruence]. cbn [fst].
  rewrite !andb_true_iff, negb_true_iff, String.eqb_neq, !String.eqb_eq. intuition congruence.
Qed.
Lemma picked_iff request mode reason : picked request mode reason <-> anthropic_mode lib request = (mode, reason).
Proof.
  unfold picked, misfit, anthropic_mode, schema_. destruct (Format request) as [f|].
  - destruct (String.eqb_spec (FType f) FormatTypeJSONObject) as [E|N]; cbn [negb].
    + split; [intros [[_ (? & [= <-] & N & _)]|(-> & -> & _)]; [destruct (N E) | reflexivity]|]. intros [= <- <-]. right. repeat split. intros why (? & [= <-] & N & _). destruct (N E).
    + destruct (anthropicSchemaFit _) as [[|] why] eqn:F.
      * split; [intros [[_ (? & [= <-] & _ & H)]|(-> & -> & _)]; [congruence | reflexivity]|]. intros [= <- <-]. right. repeat split. intros why' (? & [= <-] & _ & H). congruence.
      * split; [intros [[-> (? & [= <-] & _ & H)]|(_ & _ & H)]; [congruence | destruct (H why); eauto]|]. intros [= <- <-]. left. eauto 6.
  - split; [intros [[_ (? & [=] & _)]|(-> & -> & _)]; reflexivity|]. intros [= <- <-]. right. repeat split. intros why (? & [=] & _).
Qed.

(** * The clients *)

(** Complete without a seed: one random key for its calls, and the rule from the larger of the two floors. *)
Definition keyed {A} (send : string -> Z -> Z -> M W (A * option send_error)) (truncated : A -> Prop) (maximum : Z) (reads : A -> Result -> Prop)
    (request : Request) (w : W) (out : result complete_error Result) (t : list event) (w' : W) : Prop :=
  exists id w1, random_id W e w = (id, w1) /\
    completes lib e p (send ("shared:" +:+ id)) truncated maximum reads (Z.max (CMaxOutputTokens (cfg p)) (LlmProvider.MaxOutputTokens request)) w1 out t w'.
(** A seed that the kind has no field for: an error, and nothing done. *)
Definition seed_refused (kind : string) (w : W) (out : result complete_error Result) (t : list event) (w' : W) : Prop :=
  out = Err (CError (NewError ClassInvalidRequest kind (CModel (cfg p)) "LLM provider API takes no seed.")) /\ t = [] /\ w' = w.

Lemma keyed_protocol_iff {A} (send : string -> Z -> Z -> M W (A * option send_error)) truncated maximum reads cut raise result_of request w out t w' :
  (forall a, truncated a <-> cut a = true) -> (forall a cap, cut a = true -> raise cap = Z.max cap (Z.min maximum (i64 (2 * cap)))) ->
  (forall a r, reads a r <-> r = result_of a) ->
  bind (requestKey e) (fun key => protocol lib e p (send key) cut raise result_of (first_cap p request)) w = (out, t, w') <->
  keyed send truncated maximum reads request w out t w'.
Proof.
  intros H1 H2 H3. unfold keyed, requestKey, bind, ask, ret. destruct (random_id W e w) as [id w1]. cbn [app].
  fold (first_cap p request). pose proof (completes_protocol lib e p (send ("shared:" +:+ id)) truncated maximum reads cut raise result_of H1 H2 H3 (first_cap p request) w1 out t w') as H.
  destruct (protocol _ _ _ _ _ _ _ _ w1) as [[o u] w2]. rewrite <-H. split; [eauto|]. intros (? & ? & [= <- <-] & H4). apply H. exact (proj1 H H4).
Qed.
Lemma raised_cap maximum cap : raised maximum cap = Z.max cap (Z.min maximum (i64 (2 * cap))).
Proof. unfold raised. rewrite (Z.mul_comm cap). reflexivity. Qed.
Lemma refused_iff kind w out t w' : ret (Err (CError (errSeedUnsupported kind (CModel (cfg p))))) w = (out, t, w') <-> seed_refused kind w out t w'.
Proof. unfold ret, seed_refused, errSeedUnsupported. split; [intros [= <- <- <-]; auto | intros (-> & -> & ->); reflexivity]. Qed.

(** C13: each Complete does exactly what the rule says. A seed that the kind has no field for is an error and
    nothing else is done (a chat server is sent it, unless it is Gemini's). Otherwise the first call is made
    under the larger of the two floors. Its answer is read, unless it was cut: it stopped at the cap (never so
    for a chat server), it is no refusal, and it holds no JSON document (for Anthropic, asked for with a
    Format); then the second call follows half a second later under twice the cap, up to 8192 or 16000 but
    never less than before. A failed call is returned as it is when the budget refused it or the context has
    ended; typed when its class is not a rate limit, a server's, a timeout, the transport's or the output's;
    and otherwise followed by the second call after the rate limit's own delay or half a second, unless the
    context ends first. The second call's answer or failure is the end. The result passes on the model, stop
    reason, usage and refusal; its text is the compact JSON under a Format (OpenAI's always), and what is no
    JSON is kept apart. *)
Theorem Complete_follows_rule request w out t w' :
  (openai_Complete lib e p caller request w = (out, t, w') <->
     (Seed request <> None /\ seed_refused KindOpenAI w out t w') \/
     (Seed request = None /\ keyed (openai_call lib e p caller request) openai_truncated 8192 (openai_reads request) request w out t w')) /\
  (compatible_Complete lib e p caller request w = (out, t, w') <->
     (Seed request <> None /\ Kind (cfg p) = KindGemini /\ seed_refused KindGemini w out t w') \/
     ((Seed request = None \/ Kind (cfg p) <> KindGemini) /\
      keyed (compatible_call lib e p caller request) (fun _ => False) 0 (chat_reads request) request w out t w')) /\
  (anthropic_Complete lib e p caller request w = (out, t, w') <->
     (Seed request <> None /\ seed_refused KindAnthropic w out t w') \/
     (Seed request = None /\ exists mode reason, picked request mode reason /\
      keyed (anthropic_call lib e p caller request mode) (anthropic_truncated request) 16000 (anthropic_reads request mode reason) request w out t w')).
Proof.
  rewrite openai_protocol, compatible_protocol, anthropic_protocol. split; [|split].
  - destruct (Seed request); [rewrite refused_iff; intuition discriminate|].
    rewrite keyed_protocol_iff; [|apply openai_truncated_iff | intros _ cap _; apply raised_cap | apply openai_reads_iff]. intuition congruence.
  - destruct (Seed request); [destruct (String.eqb_spec (Kind (cfg p)) KindGemini); [rewrite refused_iff; intuition discriminate|]|];
      (rewrite (keyed_protocol_iff _ (fun _ => False) 0 (chat_reads request)); [|intuition discriminate | discriminate | apply chat_reads_iff]; intuition congruence).
  - destruct (Seed request); [rewrite refused_iff; intuition discriminate|]. destruct (anthropic_mode lib request) as [mode reason] eqn:E.
    rewrite keyed_protocol_iff; [|apply anthropic_truncated_iff | intros _ cap _; apply raised_cap | apply anthropic_reads_iff]. apply picked_iff in E. split.
    + intros H. right. eauto 6.
    + intros [[[] _]|(_ & mode' & reason' & E' & H)]; [reflexivity|]. apply picked_iff in E, E'. rewrite E in E'. injection E' as <- <-. exact H.
Qed.
End Clients.
End LlmRule.
