(* ===== verification/LlmStrict.v ===== *)
(** CompleteStrict (strict.go) over the Provider interface of provider.go, which the three clients implement.
    The caller's validate and repair are functions of what they are given. *)
From S2P Require Import Prelude Json JsonEncode GoFormat LlmErrors LlmJson LlmProvider LlmCall LlmComplete LlmContract.

Module LlmStrict.
Import LlmErrors LlmJson LlmProvider LlmCall LlmComplete LlmContract.
Local Open Scope call_scope.

(** * Providers *)

(** A Provider: its model, Complete, and what every caller relies on: a result names the model, a refused one
    has no text, and a text under a Format is compact JSON or empty. *)
Class Provider (W : Type) := {
  Model_ : string;
  Complete : Request -> M W (result complete_error Result);
  Complete_gated : forall request, ensures (Complete request) (fun out _ => forall r, out = Ok r ->
    RModel r = Model_ /\ (Refused r = true -> Text r = "" /\ Unparsed r = "") /\
    (Format request <> None -> CompactJSON (Text r) = Text r /\ (Text r = "" \/ Unparsed r = "")) /\ (Format request = None -> Unparsed r = "")) }.

(** Complete of what New builds, by its kind. *)
Definition client_Complete {W} (lib : library) (e : env W) (p : built (Budget W)) (caller : string) (request : Request) : M W (result complete_error Result) :=
  if String.eqb (Kind (cfg p)) KindOpenAI then openai_Complete lib e p caller request
  else if String.eqb (Kind (cfg p)) KindAnthropic then anthropic_Complete lib e p caller request
  else compatible_Complete lib e p caller request.

#[global] Instance client_provider {W} (lib : library) (e : env W) (p : built (Budget W)) (caller : string) : Provider W.
Proof.
  refine {| Model_ := CModel (cfg p); Complete := client_Complete lib e p caller |}. intros request. unfold client_Complete.
  destruct (String.eqb (Kind (cfg p)) KindOpenAI); [|destruct (String.eqb (Kind (cfg p)) KindAnthropic)].
  - eapply ensures_weaken; [apply openai_promised|]. intros out t (_ & _ & H). exact H.
  - eapply ensures_weaken; [apply anthropic_promised|]. intros out t (_ & _ & H). exact H.
  - eapply ensures_weaken; [apply compatible_promised|]. intros out t (_ & _ & H). exact H.
Defined.

(** * The strict contract *)

Inductive Outcome := OutcomeOK | OutcomeRepaired | OutcomeInvalid.

Section Strict.
(** The reasons that validate gives. *)
Context {W V : Type} `{!Provider W}.
Inductive reason := ErrEmptyAnswer | Invalid (v : V).
Record strict_result := mkStrict { final : Result; outcome : option Outcome; calls : list Result; error : option complete_error }.

Variables (validate : string -> option V) (repair : string -> reason -> Request).

Definition check (r : Result) : option reason :=
  if String.eqb (Text r) "" then Some ErrEmptyAnswer else option_map Invalid (validate (Text r)).
Definition rejected (r : Result) : string := if String.eqb (Text r) "" then Unparsed r else Text r.
Definition zero_result : Result := mkResult "" "" "" "" no_usage "" "" "" false.

Definition CompleteStrict (request : Request) : M W strict_result :=
  first <- Complete request;;
  match first with
  | Err err => ret (mkStrict zero_result None [] (Some err))
  | Ok first =>
      if Refused first then ret (mkStrict first (Some OutcomeInvalid) [first] None)
      else match check first with
      | None => ret (mkStrict first (Some OutcomeOK) [first] None)
      | Some reason =>
          second <- Complete (repair (rejected first) reason);;
          match second with
          | Err err => ret (mkStrict first None [first] (Some err))
          | Ok second => ret (mkStrict second (Some (match check second with None => OutcomeRepaired | Some _ => OutcomeInvalid end)) [first; second] None)
          end
      end
  end.

(** An answer that may be used. *)
Definition accepted (r : Result) : Prop := Text r <> "" /\ validate (Text r) = None.
Lemma check_accepted r : check r = None <-> accepted r.
Proof.
  unfold check, accepted. destruct (String.eqb_spec (Text r) "") as [E|N]; [split; [discriminate | tauto]|].
  destruct (validate (Text r)); cbn; (split; [try discriminate; auto | intros [_ H]; try discriminate; reflexivity]).
Qed.

(** What a call of the provider may answer. *)
Definition answers (request : Request) (out : result complete_error Result) : Prop := exists w, (Complete request w).1.1 = out.

Lemma Complete_both request : ensures (Complete request) (fun out _ => answers request out /\ (forall r, out = Ok r -> Refused r = true -> Text r = "")).
Proof. intros w. split; [exists w; reflexivity|]. intros r Hr. apply (Complete_gated request w r Hr). Qed.

(** C14: CompleteStrict over any Provider. It asks once, or twice, the second time with the repair of what was
    rejected (the text, or the reply that the gate refused) and of the reason. It ends OK with the first
    answer exactly when that one is accepted, and repaired with the second exactly when only the second is;
    a refused first answer is final and is never repaired, and no refused answer is ever accepted. Every
    answer is reported in order, and after an error there is no outcome. *)
Theorem CompleteStrict_sound request :
  ensures (CompleteStrict request) (fun s _ =>
    match calls s with
    | [] => outcome s = None /\ exists err, error s = Some err /\ answers request (Err err)
    | [first] =>
        answers request (Ok first) /\ final s = first /\
        match outcome s with
        | Some OutcomeOK => accepted first /\ Refused first = false /\ error s = None
        | Some OutcomeInvalid => Refused first = true /\ error s = None
        | Some OutcomeRepaired => False
        | None => ~ accepted first /\ Refused first = false /\
            exists reason err, check first = Some reason /\ error s = Some err /\ answers (repair (rejected first) reason) (Err err)
        end
    | [first; second] =>
        answers request (Ok first) /\ final s = second /\ error s = None /\ ~ accepted first /\ Refused first = false /\
        (exists reason, check first = Some reason /\ answers (repair (rejected first) reason) (Ok second)) /\
        (outcome s = Some OutcomeRepaired /\ accepted second /\ Refused second = false \/ outcome s = Some OutcomeInvalid /\ ~ accepted second)
    | _ => False
    end).
Proof.
  assert (Hna : forall r why, check r = Some why -> ~ accepted r) by (intros r why Hc Ha%check_accepted; congruence).
  eapply ensures_bind; [apply Complete_both|]. intros [first|err] t [Ha Hf]; cbn beta iota; [|apply ensures_ret; cbn; eauto].
  destruct (Refused first) eqn:Er; [apply ensures_ret; cbn; auto|].
  destruct (check first) as [why|] eqn:Ec; [|apply ensures_ret; cbn; apply check_accepted in Ec; auto].
  eapply ensures_bind; [apply Complete_both|]. intros [second|err] u [Hb Hs]; apply ensures_ret; cbn [calls final outcome error].
  - repeat (split; [eauto|]). destruct (check second) as [why2|] eqn:E2; [right; eauto|]. left. apply check_accepted in E2. split; [reflexivity|]. split; [exact E2|].
    destruct (Refused second) eqn:R2; [|reflexivity]. destruct E2 as [E2 _]. contradiction (E2 (Hs second eq_refl R2)).
  - repeat (split; [eauto|]). exists why, err. auto.
Qed.
End Strict.
End LlmStrict.
