(* ===== verification/LlmBatch.v ===== *)
(** The Batch API of src/llm: batch.go (statuses, requests, their validation, the errors of a line) and
    openai_batch.go (the five calls, and the reading of a result file). The boundary of a multipart body is the
    world's; bufio.Scanner's lines are those of a text that its buffer holds whole. *)
From S2P Require Import Prelude Utf8 Json JsonEncode GoStrings GoFormat AuthJwks AuthReview LlmErrors LlmJson LlmProvider LlmParse LlmCall LlmRequest LlmComplete LlmRedact.

Module LlmBatch.
Import Json Encode GoStrings GoFormat LlmErrors LlmJson LlmProvider LlmParse LlmCall LlmRequest LlmComplete.
Local Open Scope call_scope.

(** * Statuses *)

Inductive BatchJobStatus :=
| BatchJobSubmitted | BatchJobRunning | BatchJobCancelling | BatchJobSucceeded | BatchJobFailed | BatchJobCancelled | BatchJobExpired.
#[global] Instance BatchJobStatus_eq_dec : EqDecision BatchJobStatus.
Proof. solve_decision. Defined.
(** The string that the type is. *)
Definition status_name (s : BatchJobStatus) : string :=
  match s with
  | BatchJobSubmitted => "submitted" | BatchJobRunning => "running" | BatchJobCancelling => "cancelling" | BatchJobSucceeded => "succeeded"
  | BatchJobFailed => "failed" | BatchJobCancelled => "cancelled" | BatchJobExpired => "expired"
  end.
Definition Terminal (s : BatchJobStatus) : bool :=
  match s with BatchJobSucceeded | BatchJobFailed | BatchJobCancelled | BatchJobExpired => true | _ => false end.

Definition mapOpenAIBatchStatus (lower : N -> N) (status : string) : BatchJobStatus :=
  let s := ToLower lower (TrimSpace status) in
  if contains ["validating"; "in_progress"; "finalizing"] s then BatchJobRunning
  else if String.eqb s "completed" then BatchJobSucceeded
  else if String.eqb s "failed" then BatchJobFailed
  else if String.eqb s "expired" then BatchJobExpired
  else if String.eqb s "cancelling" then BatchJobCancelling
  else if String.eqb s "cancelled" then BatchJobCancelled
  else BatchJobSubmitted.

(** * Requests *)

Record BatchItem := mkItem { CustomID : string; item_Request : Request }.
(** Metadata in the order of its names. *)
Record BatchRequest := mkBatch { Items : list BatchItem; FileName : string; Metadata : list (string * string) }.
Record BatchSubmission := mkSubmission { ProviderJobID : string; InputFileID : string; ItemCount : Z }.

Inductive item_error := NoCustomID | SpaceInCustomID | NoPrompt | CustomIDTwice.
Inductive batch_error :=
| ErrEmptyBatch | BadItem (index : Z) (e : item_error) | BError (e : Error) | BContext (c : ctx_error) | BRefused (r : batch_refusal) | BadLine (number : Z).

(** strings.IndexFunc(s, unicode.IsSpace) >= 0 *)
Fixpoint has_space (fuel : nat) (s : string) : bool :=
  match fuel, s with
  | S fuel, String _ _ => let '(r, w) := Utf8.DecodeRune s in existsb (N.eqb r) space_runes || has_space fuel (Utf8.drop w s)
  | _, _ => false
  end.
Definition item_check (seen : list string) (i : BatchItem) : option item_error :=
  if String.eqb (TrimSpace (CustomID i)) "" then Some NoCustomID
  else if has_space (String.length (CustomID i)) (CustomID i) then Some SpaceInCustomID
  else if String.eqb (Prompt (item_Request i)) "" then Some NoPrompt
  else if contains seen (CustomID i) then Some CustomIDTwice
  else None.
Fixpoint items_check (seen : list string) (index : Z) (items : list BatchItem) : option batch_error :=
  match items with
  | [] => None
  | i :: items => match item_check seen i with
      | Some e => Some (BadItem index e)
      | None => items_check (CustomID i :: seen) (index + 1) items
      end
  end.
Definition validateBatchItems (items : list BatchItem) : option batch_error :=
  match items with [] => Some ErrEmptyBatch | _ => items_check [] 0 items end.

(** * Results *)

Record BatchItemResult := mkItemResult {
  r_CustomID : string; r_Text : string; ErrorCode : string; ErrorMessage : string; r_Refused : bool; LineID : string; RequestID : string; r_StatusCode : option Z;
  r_Usage : Usage; ProviderErrorCode : string; ProviderErrorType : string }.
Definition Succeeded (r : BatchItemResult) : bool := String.eqb (ErrorCode r) "" && negb (String.eqb (r_Text r) "").

Section Line.
Variable SimpleFold : N -> N.

(** jsonScalarText, jsonInt and decodeObject of a raw value, "" if absent. *)
Definition jsonScalarText (raw : string) : string :=
  let trimmed := TrimSpace raw in
  match trimmed with
  | EmptyString => ""
  | String _ _ => match parse_document false trimmed with Some (JStr s) => s | Some (JNum t) => t | _ => "" end
  end.
Definition jsonInt (raw : string) : option Z :=
  match parse_document false (TrimSpace raw) with
  | Some JNull => Some 0%Z
  | Some (JNum t) => Review.ParseInt t
  | _ => None
  end.
(** A struct of three raw fields, of an object. *)
Definition raw3 : Type := string * string * string.
Definition bind_raw3 (a b c : string) : string -> raw3 -> option raw3 :=
  bind_raw_struct SimpleFold (fun f raw '(x, y, z) => Some (if String.eqb f a then (raw, y, z) else if String.eqb f b then (x, raw, z) else (x, y, raw))) [a; b; c].
Definition decodeObject (a b c raw : string) : option raw3 :=
  let trimmed := TrimSpace raw in
  match trimmed with String ch _ => if Ascii.eqb ch "{" then bind_raw3 a b c trimmed ("", "", "") else None | EmptyString => None end.
Definition firstNonEmpty (values : list string) : string := default "" (List.find (fun s => negb (String.eqb s "")) values).

Record output_line := mkLine { l_ID : string; l_CustomID : string; l_Response : string; l_Error : string }.
Definition bind_line : string -> output_line -> option output_line :=
  bind_raw_struct SimpleFold (fun f raw l => Some (
    if String.eqb f "id" then mkLine raw (l_CustomID l) (l_Response l) (l_Error l)
    else if String.eqb f "custom_id" then mkLine (l_ID l) raw (l_Response l) (l_Error l)
    else if String.eqb f "response" then mkLine (l_ID l) (l_CustomID l) raw (l_Error l)
    else mkLine (l_ID l) (l_CustomID l) (l_Response l) raw)) ["id"; "custom_id"; "response"; "error"].

Definition noText : string := "Batch response did not contain completion text".
(** The words of a body of the wrong types. *)
Definition notABody : string := " (the body is not a Responses API body: decode response: type | cause_type=*llm.classifiedError)".

Example notABody_text : notABody = " (the body is not a Responses API body: " +:+ LlmRedact.Error_Error (decodeFailure "[1]") +:+ ")".
Proof. vm_compute. reflexivity. Qed.

Definition error_result (line : output_line) (err : raw3) : BatchItemResult :=
  let '(code_, type_, message) := err in
  let code := jsonScalarText code_ in let errType := jsonScalarText type_ in
  let errorCode := firstNonEmpty [code; errType; "error"] in
  mkItemResult (jsonScalarText (l_CustomID line)) "" errorCode (firstNonEmpty [jsonScalarText message; errorCode]) false (jsonScalarText (l_ID line)) "" None no_usage code errType.
Definition response_result (line : output_line) (response : raw3) : BatchItemResult :=
  let '(status_, request_id, body) := response in
  let status := jsonInt status_ in
  let parsed := if String.eqb (TrimSpace body) "" then Some None else option_map Some (parseOpenAIResponse SimpleFold body) in
  let '(text, usage, refused, body_failed) := match parsed with
    | Some (Some a) => (firstNonEmpty [CompactJSON (oa_text a); oa_text a], oa_usage a, oa_refused a, false)
    | Some None => ("", no_usage, false, false)
    | None => ("", no_usage, false, true)
    end in
  let statusText := match status with Some n => if (n =? 0)%Z then "unknown" else FormatInt n | None => "unknown" end in
  let empty := String.eqb text "" in
  mkItemResult (jsonScalarText (l_CustomID line)) text (if empty then "http_" +:+ statusText else "")
    (if empty then noText +:+ (if body_failed : bool then notABody else "") else "") refused (jsonScalarText (l_ID line)) (jsonScalarText request_id) status usage "" "".

(** A line that is not blank: an error, or the result if it has one. *)
Definition parse_line (trimmed : string) : option (option BatchItemResult) :=
  match trimmed with
  | String ch _ =>
      if negb (Ascii.eqb ch "{") then None
      else match parse_document false trimmed with
      | None => None
      | Some _ => match bind_line trimmed (mkLine "" "" "" "") with
          | None => None
          | Some line => Some (
              match decodeObject "code" "type" "message" (l_Error line) with
              | Some err => Some (error_result line err)
              | None => match decodeObject "status_code" "request_id" "body" (l_Response line) with
                  | Some response => Some (response_result line response)
                  | None => None
                  end
              end)
          end
      end
  | EmptyString => None
  end.

(** bufio.ScanLines, [acc] being the line so far, backwards; a carriage return at a line's end is trimmed below. *)
Fixpoint scan_lines (acc : list ascii) (s : string) : list string :=
  match s with
  | EmptyString => match acc with [] => [] | _ => [of_chars (rev acc)] end
  | String c r => if Ascii.eqb c "010" then of_chars (rev acc) :: scan_lines [] r else scan_lines (c :: acc) r
  end.
Fixpoint parse_lines (number : Z) (lines : list string) : result batch_error (list BatchItemResult) :=
  match lines with
  | [] => Ok []
  | line :: lines =>
      let trimmed := TrimSpace line in
      if String.eqb trimmed "" then parse_lines (number + 1) lines
      else match parse_line trimmed with
      | None => Err (BadLine number)
      | Some r => match parse_lines (number + 1) lines with
          | Err e => Err e
          | Ok l => Ok (match r with Some r => r :: l | None => l end)
          end
      end
  end.
Definition parseOpenAIBatchLines (content : string) : result batch_error (list BatchItemResult) := parse_lines 1 (scan_lines [] content).
End Line.

(** * The errors of a line and of a batch *)

Section Failures.
Variables (lib : library) (until_date : string -> option SpecFloat.spec_float).
Definition BatchItemFailure (result : BatchItemResult) (provider model : string) : Error :=
  let status := default 0%Z (r_StatusCode result) in
  if success status && String.eqb (ProviderErrorCode result) "" && String.eqb (ProviderErrorType result) "" then NewError ClassOutput provider model "LLM provider batch line held no completion text."
  else classify (lower lib) (ParseFloat lib) until_date (unrepresentable lib) (IsPrint lib)
         (FStatus (mkStatus status "" (Prelude.join " " [ErrorCode result; ProviderErrorType result; ErrorMessage result]))) provider model.
End Failures.
Definition BatchMissingResultError (provider model : string) : Error := NewError ClassOutput provider model "LLM provider batch returned no result for the request.".
Definition BatchTimeoutError (provider model : string) : Error := NewError ClassBatchTimeout provider model "LLM provider batch did not finish within the timeout.".
Definition BatchEndedError (status : BatchJobStatus) (provider model : string) : Error := NewError ClassServer provider model ("LLM provider batch ended " +:+ status_name status +:+ ".").

(** * The calls *)

Record batch_counts := mkCounts { Total : Z; Completed : Z; Failed : Z }.
Record openAIBatchObject := mkObject { b_Status : string; b_OutputFileID : string; b_ErrorFileID : string; b_Counts : option batch_counts }.
Record BatchState := mkState {
  s_ProviderJobID : string; s_Status : BatchJobStatus; ProviderStatus : string; TotalCount : Z; CompletedCount : Z; FailedCount : Z; OutputFileID : string; ErrorFileID : string }.

Section Bind.
Variable SimpleFold : N -> N.
(** An int: null leaves it. *)
Definition bind_plain_int (v : json) (old : Z) : option Z := match v with JNull => Some old | JNum t => Review.ParseInt t | _ => None end.
Definition bind_counts : json -> batch_counts -> option batch_counts :=
  Review.bind_struct SimpleFold (fun f v c =>
    if String.eqb f "total" then option_map (fun n => mkCounts n (Completed c) (Failed c)) (bind_plain_int v (Total c))
    else if String.eqb f "completed" then option_map (fun n => mkCounts (Total c) n (Failed c)) (bind_plain_int v (Completed c))
    else option_map (fun n => mkCounts (Total c) (Completed c) n) (bind_plain_int v (Failed c))) ["total"; "completed"; "failed"].
Definition bind_object : json -> openAIBatchObject -> option openAIBatchObject :=
  Review.bind_struct SimpleFold (fun f v b =>
    if String.eqb f "status" then option_map (fun s => mkObject s (b_OutputFileID b) (b_ErrorFileID b) (b_Counts b)) (Jwks.bind_string v (b_Status b))
    else if String.eqb f "output_file_id" then option_map (fun s => mkObject (b_Status b) s (b_ErrorFileID b) (b_Counts b)) (Jwks.bind_string v (b_OutputFileID b))
    else if String.eqb f "error_file_id" then option_map (fun s => mkObject (b_Status b) (b_OutputFileID b) s (b_Counts b)) (Jwks.bind_string v (b_ErrorFileID b))
    else option_map (fun c => mkObject (b_Status b) (b_OutputFileID b) (b_ErrorFileID b) c) (bind_pointer (mkCounts 0 0 0) bind_counts v (b_Counts b)))
    ["status"; "output_file_id"; "error_file_id"; "request_counts"].
(** decodeInto, for a struct whose zero is given. *)
Definition decodeInto {A} (bind : json -> A -> option A) (zero : A) (raw : string) : A * bool :=
  match parse_document false raw with Some v => match bind v zero with Some a => (a, true) | None => (zero, false) end | None => (zero, false) end.
Definition bind_id : json -> string -> option string := Review.bind_struct SimpleFold (fun _ v s => Jwks.bind_string v s) ["id"].
End Bind.

(** ** The upload *)

Definition crlf : string := String "013" (String "010" "").
(** A rune that could end or break a header line is dropped; a byte that begins no rune is U+FFFD. *)
Fixpoint safe_name (fuel : nat) (s : string) : string :=
  match fuel, s with
  | S fuel, String _ _ =>
      let '(r, w) := Utf8.DecodeRune s in
      (if (r =? 34)%N || (r =? 92)%N || (r <? 32)%N || (r =? 127)%N then "" else Utf8.EncodeRune r) +:+ safe_name fuel (Utf8.drop w s)
  | _, _ => ""
  end.
Definition quoted_name (s : string) : string := String dquote (s +:+ String dquote "").
Definition multipartUpload (boundary payload fileName : string) : string * string :=
  ("--" +:+ boundary +:+ crlf +:+ "Content-Disposition: form-data; name=" +:+ quoted_name "purpose" +:+ crlf +:+ crlf +:+ "batch" +:+
   crlf +:+ "--" +:+ boundary +:+ crlf +:+ "Content-Disposition: form-data; name=" +:+ quoted_name "file" +:+ "; filename=" +:+ quoted_name (safe_name (String.length fileName) fileName) +:+
   crlf +:+ "Content-Type: application/jsonl" +:+ crlf +:+ crlf +:+ payload +:+ crlf +:+ "--" +:+ boundary +:+ "--" +:+ crlf,
   "multipart/form-data; boundary=" +:+ boundary).

Definition openAIBatchEndpoint : string := "/v1/responses".
Definition openAIBatchCompletionWindow : string := "24h".
Definition openAIBatchDefaultFileName : string := "batch.jsonl".
Definition batch_line_json (model : string) (floor : Z) (i : BatchItem) : json :=
  JObj [("custom_id", JStr (CustomID i)); ("method", JStr "POST"); ("url", JStr openAIBatchEndpoint);
    ("body", responses_json (responsesBody model (item_Request i) (Z.max floor (LlmProvider.MaxOutputTokens (item_Request i)))))].
Definition batch_payload (model : string) (floor : Z) (items : list BatchItem) : string :=
  Prelude.join (String "010" "") (map (fun i => Marshal (batch_line_json model floor i)) items).
Definition create_json (file : string) (metadata : list (string * string)) : json :=
  JObj ([("completion_window", JStr openAIBatchCompletionWindow); ("endpoint", JStr openAIBatchEndpoint); ("input_file_id", JStr file)] ++
    match metadata with [] => [] | _ => [("metadata", JObj (map (fun kv => (kv.1, JStr kv.2)) metadata))] end).

(** ** The five operations *)

Definition batchOpUpload : string := "upload".
Definition batchOpCreate : string := "create".
Definition batchOpRetrieve : string := "retrieve".
Definition batchOpContent : string := "content".
Definition batchOpCancel : string := "cancel".

Section Calls.
Context {W : Type}.
Variables (lib : library) (e : env W) (p : built (Budget W)) (caller : string) (boundary : W -> string * W).
Notation M := (LlmCall.M W).
Notation model := (CModel (cfg p)).

Fixpoint batch_loop {D} (attempts : list Z) (retries : Z) (operation method path contentType : string) (body : option string) (decode : string -> D * bool) (d : D)
    (lastErr : option Error) : M (result batch_error D) :=
  match attempts with
  | [] => ret (match lastErr with Some err => Err (BError err) | None => Ok d end)
  | attempt :: attempts =>
      if (retries <? attempt)%Z then ret (match lastErr with Some err => Err (BError err) | None => Ok d end)
      else
        let header := [("Authorization", "Bearer " +:+ Reveal (APIKey (cfg p)))] ++ if String.eqb contentType "" then [] else [("Content-Type", contentType)] in
        o <- exchange W lib e (mkLabels caller operation) (attempt + 1) (client p) method (BaseURL (cfg p) +:+ path) header body KindOpenAI model decode d;;
        match o.2 with
        | None => ret (Ok o.1)
        | Some f =>
            ended <- ask (ctx_err W e);;
            match ended with
            | Some c => ret (Err (BContext c))
            | None =>
                typed <- classified lib e p f;;
                if Retryable typed && (attempt <? retries)%Z
                then stopped <- sleepFor W e (delayFor typed attempt);;
                     match stopped with
                     | Some c => ret (Err (BContext c))
                     | None => batch_loop attempts retries operation method path contentType body decode d (Some typed)
                     end
                else ret (Err (BError typed))
            end
        end
  end.
Definition batchCall {D} (operation method path contentType : string) (body : option string) (decode : string -> D * bool) (d : D) : M (result batch_error D) :=
  let retries := if String.eqb operation batchOpCreate then 0%Z else openAIMaxRetries in
  batch_loop [0; 1]%Z retries operation method path contentType body decode d None.

Definition or_fail {A B} (m : M (result batch_error A)) (k : A -> M (result batch_error B)) : M (result batch_error B) :=
  r <- m;; match r with Ok a => k a | Err err => ret (Err err) end.

Definition SubmitBatch (batch : BatchRequest) : M (result batch_error BatchSubmission) :=
  match validateBatchItems (Items batch) with
  | Some err => ret (Err err)
  | None =>
  if existsb (fun i => match Seed (item_Request i) with Some _ => true | None => false end) (Items batch)
  then ret (Err (BError (errSeedUnsupported KindOpenAI model)))
  else
    let payload := batch_payload model (CMaxOutputTokens (cfg p)) (Items batch) in
    refused <- admitBatch W (CBudget (cfg p)) KindOpenAI model (BaseURL (cfg p));;
    match refused with
    | Some r => ret (Err (BRefused r))
    | None =>
        b <- ask boundary;;
        let '(upload, contentType) := multipartUpload b payload (if String.eqb (FileName batch) "" then openAIBatchDefaultFileName else FileName batch) in
        or_fail (batchCall batchOpUpload "POST" "/files" contentType (Some upload) (decodeInto (bind_id (SimpleFold lib)) "") "") (fun file =>
        if String.eqb file "" then ret (Err (BError (NewError ClassOutput KindOpenAI model "LLM provider batch file upload returned no file id.")))
        else
          or_fail (batchCall batchOpCreate "POST" "/batches" "application/json" (Some (Marshal (create_json file (Metadata batch)))) (decodeInto (bind_id (SimpleFold lib)) "") "") (fun job =>
          if String.eqb job "" then ret (Err (BError (NewError ClassOutput KindOpenAI model "LLM provider batch create returned no batch id.")))
          else ret (Ok (mkSubmission job file (Z.of_nat (length (Items batch)))))))
    end
  end.

Definition retrieveBatch (providerJobID : string) : M (result batch_error openAIBatchObject) :=
  let zero := mkObject "" "" "" None in
  batchCall batchOpRetrieve "GET" ("/batches/" +:+ PathEscape lib providerJobID) "" None (decodeInto (bind_object (SimpleFold lib)) zero) zero.
Definition PollBatch (providerJobID : string) : M (result batch_error BatchState) :=
  or_fail (retrieveBatch providerJobID) (fun b =>
  let counts := default (mkCounts 0 0 0) (b_Counts b) in
  ret (Ok (mkState providerJobID (mapOpenAIBatchStatus (lower lib) (b_Status b)) (b_Status b) (Total counts) (Completed counts) (Failed counts) (b_OutputFileID b) (b_ErrorFileID b)))).

(** The files of the loop, in order; an absent one is passed over. *)
Fixpoint fetch_files (files : list string) : M (result batch_error (list BatchItemResult)) :=
  match files with
  | [] => ret (Ok [])
  | fileID :: files =>
      if String.eqb fileID "" then fetch_files files
      else or_fail (batchCall batchOpContent "GET" ("/files/" +:+ PathEscape lib fileID +:+ "/content") "" None (fun raw => (raw, true)) "") (fun content =>
        match parseOpenAIBatchLines (SimpleFold lib) content with
        | Err err => ret (Err err)
        | Ok parsed => or_fail (fetch_files files) (fun l => ret (Ok (parsed ++ l)))
        end)
  end.
Definition FetchBatchResults (providerJobID : string) : M (result batch_error (list BatchItemResult)) :=
  or_fail (retrieveBatch providerJobID) (fun b => fetch_files [b_OutputFileID b; b_ErrorFileID b]).
Definition CancelBatch (providerJobID : string) : M (result batch_error unit) :=
  batchCall batchOpCancel "POST" ("/batches/" +:+ PathEscape lib providerJobID +:+ "/cancel") "" None (fun _ => (tt, true)) tt.
End Calls.
(** AsBatch: of the three clients, only OpenAI's has the methods of a BatchProvider. *)
Definition AsBatch {B} (provider : built B) : option (built B) := if String.eqb (Kind (cfg provider)) KindOpenAI then Some provider else None.
End LlmBatch.
