(* ===== verification/LlmBatchSpec.v ===== *)
(** What the Batch API of src/llm promises: how a result file is read, and what SubmitBatch sends. *)
From S2P Require Import Prelude Json JsonEncode GoStrings GoFormat LlmErrors LlmJson LlmProvider LlmParse LlmCall LlmRequest LlmComplete LlmContract LlmBatch.

Module LlmBatchSpec.
Import Json Encode GoStrings GoFormat LlmErrors LlmJson LlmProvider LlmParse LlmCall LlmRequest LlmComplete LlmContract LlmBatch.
Local Open Scope call_scope.

(** * A result file *)

Section Lines.
Variable SimpleFold : N -> N.
Notation parse_line := (parse_line SimpleFold).
#[local] Arguments firstNonEmpty : simpl never.

Lemma firstNonEmpty_found l : (exists s, s ∈ l /\ s <> "") -> firstNonEmpty l <> "".
Proof.
  unfold firstNonEmpty. intros (s & Hs & Hn). destruct (List.find _ l) as [x|] eqn:E; cbn.
  - apply find_some in E as [_ E]. destruct (String.eqb_spec x ""); [discriminate | assumption].
  - apply list_elem_of_In in Hs. apply (find_none _ _ E) in Hs. destruct (String.eqb_spec s ""); [contradiction | discriminate].
Qed.

(** A refused body has no text. *)
Lemma openai_refused_silent raw a : parseOpenAIResponse SimpleFold raw = Some a -> oa_refused a = true -> oa_text a = "".
Proof.
  unfold parseOpenAIResponse. destruct (parse_document false raw); [|discriminate]. destruct (bind_openai _ _ _) as [d|]; [|discriminate].
  intros [= <-]. cbn [oa_refused oa_text]. intros (c & _ & Hc)%existsb_exists. apply andb_true_iff in Hc as [_ Hc]. apply String.eqb_eq in Hc. exact Hc.
Qed.

(** A result holds a text or an error's code, not both, and a refused one no text. *)
Definition sound (r : BatchItemResult) : Prop := (ErrorCode r = "" <-> r_Text r <> "") /\ (r_Refused r = true -> r_Text r = "").

Lemma sound_Succeeded r : sound r -> Succeeded r = true <-> ErrorCode r = "".
Proof.
  unfold sound, Succeeded. intros [[H _] _]. destruct (String.eqb_spec (ErrorCode r) "") as [E|N]; cbn; [|split; [discriminate | contradiction]].
  destruct (String.eqb_spec (r_Text r) ""); [destruct (H E e) | tauto].
Qed.

Lemma parse_line_sound t r : parse_line t = Some (Some r) -> sound r.
Proof.
  unfold LlmBatch.parse_line. destruct t as [|ch t]; [discriminate|]. destruct (negb (Ascii.eqb ch "{")); [discriminate|].
  destruct (parse_document false _); [|discriminate]. destruct (bind_line _ _ _) as [line|]; [|discriminate].
  destruct (decodeObject _ _ _ _ (l_Error line)) as [[[code_ type_] message]|].
  - intros [= <-]. unfold sound, error_result. cbn [ErrorCode r_Text r_Refused]. split; [|discriminate]. split; [|tauto]. intros H. exfalso. revert H.
    apply firstNonEmpty_found. exists "error". split; [set_solver | discriminate].
  - destruct (decodeObject _ _ _ _ (l_Response line)) as [[[status_ id_] body]|]; [|discriminate]. intros [= <-]. unfold response_result.
    destruct (String.eqb (TrimSpace body) ""); cbn; [split; [split; discriminate || tauto | discriminate]|].
    destruct (parseOpenAIResponse SimpleFold body) as [a|] eqn:Ea; cbn; [|split; [split; discriminate || tauto | discriminate]].
    unfold sound. cbn [ErrorCode r_Text r_Refused]. split.
    + destruct (String.eqb_spec (firstNonEmpty [CompactJSON (oa_text a); oa_text a]) "") as [->|]; [|tauto]. split; [discriminate | tauto].
    + intros Hr. rewrite (openai_refused_silent _ _ Ea Hr). reflexivity.
Qed.

(** A line can be read exactly when it is a JSON object. *)
Lemma parse_line_object t : parse_line t <> None <-> exists r m, t = String "{" r /\ document false t (JObj m).
Proof.
  unfold LlmBatch.parse_line. destruct t as [|ch r]; [split; [tauto | intros (? & ? & [=] & _)]|].
  destruct (Ascii.eqb_spec ch "{") as [->|N]; cbn [negb]; [|split; [tauto | intros (? & ? & [= -> ->] & _); contradiction]].
  destruct (parse_document false (String "{" r)) as [v|] eqn:E; [|split; [tauto | intros (? & m & _ & H%parse_iff); congruence]].
  apply parse_iff in E. assert (Hv : exists m, v = JObj m).
  { destruct E as [(t & Hv & _) _]. inversion Hv as [? ? ? ? ? Hp N1| | | |]; subst; eauto.
    - injection Hp as <- _. contradiction (N1 eq_refl).
    - discriminate.
    - discriminate. }
  destruct Hv as (m & ->). split; [intros _; eauto|]. intros _. unfold bind_line, bind_raw_struct. destruct (raw_shape_object _ _ E) as (l & -> & _).
  match goal with |- context [bind_raw_fields _ (fun f raw l => Some (@?g f raw l)) ?fs _ ?a] =>
    destruct (bind_raw_fields_total SimpleFold g fs l a) as (line & Hl) end.
  rewrite Hl. discriminate.
Qed.

Definition blank (line : string) : Prop := TrimSpace line = "".
Definition readable (line : string) : Prop := blank line \/ parse_line (TrimSpace line) <> None.
(** A line's result, if it has one. *)
Definition result_of (line : string) : option BatchItemResult := match parse_line (TrimSpace line) with Some r => r | None => None end.

Lemma parse_lines_spec lines : forall n, match parse_lines SimpleFold n lines with
  | Ok l => Forall readable lines /\ l = omap result_of lines
  | Err e => exists before line after, lines = before ++ line :: after /\ e = BadLine (n + Z.of_nat (length before)) /\ Forall readable before /\ ~ readable line
  end.
Proof.
  induction lines as [|line lines IH]; intros n; cbn [parse_lines]; [auto|]. specialize (IH (n + 1)%Z).
  assert (Hstep : readable line -> match parse_lines SimpleFold (n + 1) lines with
    | Ok l => Forall readable (line :: lines) /\ l = omap result_of lines
    | Err e => exists before line' after, line :: lines = before ++ line' :: after /\ e = BadLine (n + Z.of_nat (length before)) /\ Forall readable before /\ ~ readable line' end).
  { intros Hr. destruct (parse_lines SimpleFold (n + 1) lines) as [l|e].
    - destruct IH as [H ->]. split; [constructor; assumption | reflexivity].
    - destruct IH as (before & line' & after & -> & -> & Hb & Hl). exists (line :: before), line', after. split; [reflexivity|]. split; [f_equal; cbn [length]; lia|].
      split; [constructor; assumption | exact Hl]. }
  destruct (String.eqb_spec (TrimSpace line) "") as [Eb|Nb].
  - specialize (Hstep (or_introl Eb)). destruct (parse_lines SimpleFold (n + 1) lines); [|exact Hstep]. destruct Hstep as [H ->]. split; [exact H|].
    assert (E : result_of line = None) by (unfold result_of; rewrite Eb; reflexivity). cbn. rewrite E. reflexivity.
  - destruct (parse_line (TrimSpace line)) as [r|] eqn:Er.
    + assert (Hr : readable line) by (right; congruence). specialize (Hstep Hr). destruct (parse_lines SimpleFold (n + 1) lines); [|exact Hstep].
      destruct Hstep as [H ->]. split; [exact H|]. assert (E : result_of line = r) by (unfold result_of; rewrite Er; reflexivity). cbn. rewrite E. destruct r; reflexivity.
    + exists [], line, lines. split; [reflexivity|]. split; [f_equal; cbn; lia|]. split; [constructor|]. unfold readable, blank. rewrite Er. tauto.
Qed.

(** C18: how a result file is read. Every line that is not blank must be a JSON object; the first that is not
    fails the whole file, with its number. Otherwise the results are those of the lines, in their order; a
    line that has neither an error object nor a response object has none. Every result either has a text or
    the code of an error and never both, so that it succeeded exactly when it has no code, and a refusal has
    no text. *)
Theorem batch_lines_exact content :
  let lines := scan_lines [] content in
  (forall t, parse_line t <> None <-> exists r m, t = String "{" r /\ document false t (JObj m)) /\
  match parseOpenAIBatchLines SimpleFold content with
  | Ok l => Forall readable lines /\ l = omap result_of lines /\ Forall (fun r => sound r /\ (Succeeded r = true <-> ErrorCode r = "")) l
  | Err e => exists before line after, lines = before ++ line :: after /\ e = BadLine (1 + Z.of_nat (length before)) /\ Forall readable before /\ ~ readable line
  end.
Proof.
  intros lines. split; [apply parse_line_object|]. unfold parseOpenAIBatchLines. fold lines. pose proof (parse_lines_spec lines 1) as H.
  destruct (parse_lines SimpleFold 1 lines) as [l|e]; [|exact H]. destruct H as [H ->]. split; [exact H|]. split; [reflexivity|].
  apply Forall_forall. intros r (line & _ & Hr)%list_elem_of_omap. unfold result_of in Hr. destruct (parse_line (TrimSpace line)) as [o|] eqn:E; [|discriminate]. subst o.
  apply parse_line_sound in E. split; [exact E | apply sound_Succeeded, E].
Qed.
End Lines.

(** * Submission *)

Section Submit.
Context {W : Type}.
Variables (lib : library) (e : env W) (p : built (Budget W)) (caller : string) (boundary : W -> string * W).
Notation model := (CModel (cfg p)).

(** Nothing but [req], at most [n] times, with no attempt of a budget; if it succeeded, at least once, and with
    what [decode] makes of a response. *)
Definition sends {D} (decode : string -> D * bool) (req : http_request) (n : nat) (out : result batch_error D) (t : list event) : Prop :=
  attempts t = [] /\ (forall r, out <> Err (BRefused r)) /\ exists k, sent t = repeat req k /\ k <= n /\ forall d, out = Ok d -> 1 <= k /\ exists raw, decode raw = (d, true).

Lemma exchanged_sends req failed t : exchanged req failed t -> attempts t = [] /\ exists k, sent t = repeat req k /\ k <= 1 /\ (failed = false -> 1 <= k).
Proof. intros [[-> ->]|(s & -> & _)]; (split; [reflexivity|]); [exists 0 | exists 1]; repeat split; (lia || discriminate). Qed.

Lemma sent_app t u : sent (t ++ u) = sent t ++ sent u.
Proof. apply omap_app. Qed.
Lemma attempts_app t u : attempts (t ++ u) = attempts t ++ attempts u.
Proof. apply omap_app. Qed.

Section Call.
Context {D : Type}.
Variables (retries : Z) (operation method path contentType : string) (body : option string) (decode : string -> D * bool) (d : D).
Definition call_request : http_request :=
  mkHttp (client p) method (BaseURL (cfg p) +:+ path)
    ([("Authorization", "Bearer " +:+ Reveal (APIKey (cfg p)))] ++ if String.eqb contentType "" then [] else [("Content-Type", contentType)]) body.
(** The attempts of the loop. *)
Definition allowed (l : list Z) : nat := length (List.filter (fun a => (a <=? retries)%Z) l).

Lemma batch_loop_sends l : forall lastErr, lastErr <> None \/ match l with a :: _ => (a <= retries)%Z | [] => False end ->
  ensures (batch_loop lib e p caller l retries operation method path contentType body decode d lastErr) (sends decode call_request (allowed l)).
Proof.
  assert (Hstop : forall lastErr n, lastErr <> None -> @ensures W _ (ret (match lastErr with Some err => Err (BError err) | None => Ok d end)) (sends decode call_request n)).
  { intros [err|] n H; [|tauto]. apply ensures_ret. split; [reflexivity|]. split; [discriminate|]. exists 0. split; [reflexivity|]. split; [lia | discriminate]. }
  induction l as [|a l IH]; intros lastErr Hl; cbn [batch_loop]; [apply Hstop; tauto|]. unfold allowed. cbn [List.filter].
  destruct (Z.ltb_spec retries a) as [Hlt|Hle]; [apply Hstop; destruct Hl; [assumption | lia]|]. rewrite (proj2 (Z.leb_le a retries) Hle). cbn [length]. fold (allowed l).
  eapply ensures_bind; [apply exchange_exchanged|]. intros [d' err] t (He & _ & Hraw). cbn [fst snd] in *. apply exchanged_sends in He as (Ha & k & Hs & Hk & Hk1).
  assert (Hend : forall r : result batch_error D, (forall x, r <> Err (BRefused x)) -> (forall a, r = Ok a -> err = None /\ a = d') -> sends decode call_request (S (allowed l)) r (t ++ [])).
  { intros r Hn Hr. rewrite app_nil_r. split; [exact Ha|]. split; [exact Hn|]. exists k. split; [exact Hs|]. split; [lia|]. intros a' H. destruct (Hr a' H) as [-> ->]. auto. }
  destruct err as [f|]; [|apply ensures_ret, Hend; [discriminate | intros a' [= ->]; auto]].
  eapply ensures_bind; [apply (ensures_ask _ _ (fun _ t => t = [])); reflexivity|]. intros [c|] ? ->; [apply ensures_ret, Hend; discriminate|].
  eapply ensures_bind; [apply (ensures_look _ _ (fun _ t => t = [])); reflexivity|]. intros typed ? ->.
  destruct (Retryable typed && (a <? retries)%Z) eqn:Er; [|apply ensures_ret, Hend; discriminate].
  eapply ensures_bind; [apply sleepFor_ensures|]. intros [c|] ? ->.
  - apply ensures_ret. split; [|split; [discriminate|exists k]]; rewrite ?attempts_app, ?sent_app, ?Ha, ?Hs, ?app_nil_r; cbn; rewrite ?app_nil_r; [reflexivity|].
    split; [reflexivity|]. split; [lia | discriminate].
  - eapply ensures_weaken; [apply IH; left; discriminate|]. intros out u (Hau & Hn & k' & Hsu & Hk' & Hok). split; [|split; [exact Hn|exists (k + k')]].
    + rewrite attempts_app, Ha. exact Hau.
    + rewrite sent_app, Hs. cbn [app]. change (sent (ESlept _ :: u)) with (sent u). rewrite Hsu, <-repeat_app. split; [reflexivity|]. split; [lia|]. intros x H. destruct (Hok x H) as [? ?]. split; [lia | assumption].
Qed.

End Call.

Lemma batchCall_sends {D} operation method path contentType body (decode : string -> D * bool) d :
  ensures (batchCall lib e p caller operation method path contentType body decode d)
    (sends decode (call_request method path contentType body) (if String.eqb operation batchOpCreate then 1 else 2)).
Proof.
  unfold batchCall. eapply ensures_weaken; [apply batch_loop_sends; right; destruct (String.eqb operation batchOpCreate); discriminate|].
  intros out t H. destruct (String.eqb operation batchOpCreate); exact H.
Qed.

Lemma ensures_or_fail {A B} (m : M W (result batch_error A)) (k : A -> M W (result batch_error B)) P (Q : result batch_error B -> list event -> Prop) :
  ensures m P -> (forall err t, P (Err err) t -> Q (Err err) t) -> (forall a t, P (Ok a) t -> ensures (k a) (fun o u => Q o (t ++ u))) -> ensures (or_fail m k) Q.
Proof.
  intros Hm He Hk. eapply ensures_bind; [exact Hm|]. intros [a|err] t Ht; [apply Hk, Ht|]. apply ensures_ret. rewrite app_nil_r. apply He, Ht.
Qed.
Lemma admitBatch_silent budget provider m base : ensures (@admitBatch W budget provider m base) (fun _ t => t = []).
Proof.
  destruct budget as [b|]; [|apply ensures_ret; reflexivity]. cbn. destruct (AdmitBatch W b); [|apply ensures_ret; reflexivity].
  eapply ensures_bind; [apply (ensures_ask _ _ (fun _ t => t = [])); reflexivity|]. intros o ? ->. apply ensures_ret. reflexivity.
Qed.

(** The two requests of a submission. *)
Definition upload_request (batch : BatchRequest) (b : string) : http_request :=
  let '(upload, contentType) := multipartUpload b (batch_payload model (CMaxOutputTokens (cfg p)) (Items batch)) (if String.eqb (FileName batch) "" then openAIBatchDefaultFileName else FileName batch) in
  call_request "POST" "/files" contentType (Some upload).
Definition create_request (batch : BatchRequest) (file : string) : http_request :=
  call_request "POST" "/batches" "application/json" (Some (Marshal (create_json file (Metadata batch)))).

(** What a submission sent, and how it ended. *)
Definition submitted (batch : BatchRequest) (out : result batch_error BatchSubmission) (t : list event) : Prop :=
  (validateBatchItems (Items batch) <> None \/ existsb (fun i => match Seed (item_Request i) with Some _ => true | None => false end) (Items batch) = true ->
    t = [] /\ is_ok out = false) /\
  (forall r, out = Err (BRefused r) -> t = []) /\
  exists b uploads file creates,
    sent t = repeat (upload_request batch b) uploads ++ repeat (create_request batch file) creates /\
    uploads <= 2 /\ creates <= 1 /\ (creates <> 0 -> 1 <= uploads /\ file <> "") /\
    (creates <> 0 -> exists raw, decodeInto (bind_id (SimpleFold lib)) "" raw = (file, true)) /\
    forall s, out = Ok s -> creates = 1 /\ InputFileID s = file /\ ProviderJobID s <> "" /\ ItemCount s = Z.of_nat (length (Items batch)).

(** C15: what SubmitBatch sends. A batch that is empty, or that has an item without an identifier, with a space in
    it, without a prompt, with the identifier of an item before it or with a seed, is refused with nothing
    sent, and so is one that the budget does not admit. Otherwise the file goes out at most twice, always the
    same, and the create request at most once, after the file and with the identifier that the provider gave it;
    and a submission that succeeds sent both and counts every item. *)
Theorem SubmitBatch_once batch : ensures (SubmitBatch lib e p caller boundary batch) (submitted batch).
Proof.
  unfold SubmitBatch. destruct (validateBatchItems (Items batch)) as [err|] eqn:Ev.
  { apply ensures_ret. split; [auto|]. split; [auto|]. exists "", 0, "", 0. repeat split; (lia || discriminate || tauto). }
  destruct (existsb _ (Items batch)) eqn:Es.
  { apply ensures_ret. split; [auto|]. split; [auto|]. exists "", 0, "", 0. repeat split; (lia || discriminate || tauto). }
  eapply ensures_bind; [apply admitBatch_silent|]. intros [r|] ? ->.
  { apply ensures_ret. split; [intros [H|H]; congruence|]. split; [auto|]. exists "", 0, "", 0. repeat split; (lia || discriminate || tauto). }
  eapply ensures_bind; [apply (ensures_ask _ _ (fun _ t => t = [])); reflexivity|]. intros b ? ->.
  pose (up := upload_request batch b). unfold upload_request in up. destruct (multipartUpload b _ _) as [upload contentType] eqn:Em.
  assert (Hpost : forall out t, (forall r, out <> Err (BRefused r)) -> (exists uploads file creates,
      sent t = repeat up uploads ++ repeat (create_request batch file) creates /\ uploads <= 2 /\ creates <= 1 /\ (creates <> 0 -> 1 <= uploads /\ file <> "") /\
      (creates <> 0 -> exists raw, decodeInto (bind_id (SimpleFold lib)) "" raw = (file, true)) /\
      forall s, out = Ok s -> creates = 1 /\ InputFileID s = file /\ ProviderJobID s <> "" /\ ItemCount s = Z.of_nat (length (Items batch))) -> submitted batch out t).
  { intros out t Hr (uploads & file & creates & H). split; [intros [X|X]; congruence|]. split; [intros r X; destruct (Hr r X)|].
    exists b, uploads, file, creates. unfold upload_request. rewrite Em. exact H. }
  eapply ensures_or_fail; [apply batchCall_sends| |].
  - intros err t (_ & Hr & k & Hs & Hk & _). apply Hpost; [intros r [= ->]; eapply Hr; reflexivity|]. exists k, "", 0. rewrite app_nil_r. repeat split; (assumption || lia || discriminate || tauto).
  - intros file t (_ & _ & k & Hs & Hk & Hok). destruct (Hok file eq_refl) as [Hk1 Hraw]. cbn in Hk. destruct (String.eqb_spec file "") as [->|Hf].
    { apply ensures_ret, Hpost; [discriminate|]. exists k, "", 0. rewrite !app_nil_r. repeat split; (assumption || lia || discriminate || tauto). }
    eapply ensures_or_fail; [apply batchCall_sends| |].
    + intros err u (_ & Hr & j & Hsu & Hj & _). apply Hpost; [intros r [= ->]; eapply Hr; reflexivity|]. exists k, file, j. cbn [app]. rewrite sent_app, Hs, Hsu. cbn in Hj.
      repeat split; (assumption || lia || discriminate || tauto || auto).
    + intros job u (_ & _ & j & Hsu & Hj & Hoku). destruct (Hoku job eq_refl) as [Hj1 _]. cbn in Hj. assert (j = 1) as -> by lia.
      assert (Hsent : sent (t ++ u ++ []) = repeat up k ++ repeat (create_request batch file) 1) by (rewrite app_nil_r, sent_app, Hs, Hsu; reflexivity).
      destruct (String.eqb_spec job "") as [->|Hjob]; apply ensures_ret, Hpost; try discriminate; exists k, file, 1.
      * repeat split; (assumption || lia || discriminate || tauto || auto).
      * split; [exact Hsent|]. split; [lia|]. split; [lia|]. split; [auto|]. split; [auto|]. intros s [= <-]. auto.
Qed.
End Submit.
End LlmBatchSpec.
