(* ===== verification/SchemaTables.v ===== *)
(** The declared ClickHouse tables (src/schema/schema.go): each table's columns in production order, its engine,
    and DDL, which renders CREATE TABLE statements. A Go map is a gmap; the membership view is its text. *)
From stdpp Require Import gmap sorting.
From S2P Require Import Prelude Json LlmErrors.

Module Tables.

Record Column := mkColumn { Name : string; Type_ : string }.
#[global] Instance Column_eq_dec : EqDecision Column.
Proof. solve_decision. Defined.

(** * The columns *)

Definition backfill_log : list Column :=
  [mkColumn "job_id" "String"; mkColumn "org_id" "String"; mkColumn "chunk_index" "UInt32"; mkColumn "provider" "String"; mkColumn "items_synced" "UInt32";
   mkColumn "duration_ms" "UInt64"; mkColumn "status" "String"; mkColumn "error_message" "String"; mkColumn "created_at" "DateTime64(3)"].
Definition capacity_forecasts : list Column :=
  [mkColumn "forecast_id" "String"; mkColumn "computed_at" "DateTime64(3, 'UTC')"; mkColumn "team_id" "Nullable(String)"; mkColumn "work_scope_id" "Nullable(String)";
   mkColumn "backlog_size" "UInt32"; mkColumn "target_items" "Nullable(UInt32)"; mkColumn "simulation_count" "UInt32"; mkColumn "p50_days" "Nullable(UInt16)";
   mkColumn "p85_days" "Nullable(UInt16)"; mkColumn "p95_days" "Nullable(UInt16)"; mkColumn "p50_date" "Nullable(Date)"; mkColumn "p85_date" "Nullable(Date)";
   mkColumn "p95_date" "Nullable(Date)"; mkColumn "throughput_mean" "Float64"; mkColumn "throughput_stddev" "Float64"; mkColumn "insufficient_history" "UInt8";
   mkColumn "high_variance" "UInt8"; mkColumn "org_id" "String"; mkColumn "completion_days_values" "Array(UInt16)"; mkColumn "completion_days_counts" "Array(UInt32)"].
Definition ci_pipeline_runs : list Column :=
  [mkColumn "repo_id" "UUID"; mkColumn "run_id" "String"; mkColumn "status" "Nullable(String)"; mkColumn "started_at" "DateTime64(3, 'UTC')";
   mkColumn "finished_at" "Nullable(DateTime64(3, 'UTC'))"; mkColumn "last_synced" "DateTime64(3, 'UTC')"; mkColumn "org_id" "String";
   mkColumn "pipeline_name" "Nullable(String)"; mkColumn "branch" "Nullable(String)"].
Definition compounding_risk_daily : list Column :=
  [mkColumn "org_id" "String"; mkColumn "day" "Date"; mkColumn "scope" "Enum8('repo' = 1, 'team' = 2)"; mkColumn "scope_id" "String";
   mkColumn "compounding_risk" "Nullable(Float64)"; mkColumn "severity" "Enum8('unknown' = 0, 'low' = 1, 'elevated' = 2, 'high' = 3)"; mkColumn "computed_at" "DateTime"].
Definition deployments : list Column :=
  [mkColumn "repo_id" "UUID"; mkColumn "deployment_id" "String"; mkColumn "status" "Nullable(String)"; mkColumn "environment" "Nullable(String)";
   mkColumn "started_at" "Nullable(DateTime64(3, 'UTC'))"; mkColumn "finished_at" "Nullable(DateTime64(3, 'UTC'))";
   mkColumn "deployed_at" "Nullable(DateTime64(3, 'UTC'))"; mkColumn "release_ref" "String"; mkColumn "release_ref_confidence" "Float64";
   mkColumn "last_synced" "DateTime64(3, 'UTC')"; mkColumn "org_id" "String"].
Definition estimate_coverage_metrics_daily : list Column :=
  [mkColumn "day" "Date"; mkColumn "provider" "String"; mkColumn "work_scope_id" "String"; mkColumn "team_id" "Nullable(String)"; mkColumn "estimated_count" "UInt32";
   mkColumn "unestimated_count" "UInt32"; mkColumn "backlog_size" "UInt32"; mkColumn "ratio" "Nullable(Float64)"; mkColumn "computed_at" "DateTime64(3, 'UTC')";
   mkColumn "org_id" "String"].
Definition git_pull_request_reviews : list Column :=
  [mkColumn "repo_id" "UUID"; mkColumn "number" "UInt32"; mkColumn "review_id" "String"; mkColumn "state" "String"; mkColumn "submitted_at" "DateTime64(3, 'UTC')";
   mkColumn "last_synced" "DateTime64(3, 'UTC')"; mkColumn "org_id" "String"].
Definition git_pull_requests : list Column :=
  [mkColumn "repo_id" "UUID"; mkColumn "number" "UInt32"; mkColumn "title" "Nullable(String)"; mkColumn "body" "Nullable(String)"; mkColumn "state" "Nullable(String)";
   mkColumn "created_at" "DateTime64(3, 'UTC')"; mkColumn "merged_at" "Nullable(DateTime64(3, 'UTC'))"; mkColumn "closed_at" "Nullable(DateTime64(3, 'UTC'))";
   mkColumn "head_branch" "Nullable(String)"; mkColumn "base_branch" "Nullable(String)"; mkColumn "last_synced" "DateTime64(3, 'UTC')"; mkColumn "org_id" "String"].
Definition ic_landscape_rolling_30d : list Column :=
  [mkColumn "repo_id" "UUID"; mkColumn "as_of_day" "Date"; mkColumn "identity_id" "String"; mkColumn "team_id" "LowCardinality(String)";
   mkColumn "map_name" "LowCardinality(String)"; mkColumn "churn_loc_30d" "UInt64"; mkColumn "delivery_units_30d" "UInt32"; mkColumn "cycle_p50_30d_hours" "Float64";
   mkColumn "wip_max_30d" "UInt32"; mkColumn "computed_at" "DateTime"; mkColumn "org_id" "String"].
Definition investment_metrics_daily : list Column :=
  [mkColumn "repo_id" "Nullable(UUID)"; mkColumn "day" "Date"; mkColumn "team_id" "LowCardinality(Nullable(String))";
   mkColumn "investment_area" "LowCardinality(String)"; mkColumn "project_stream" "LowCardinality(String)"; mkColumn "delivery_units" "UInt32";
   mkColumn "work_items_completed" "UInt32"; mkColumn "prs_merged" "UInt32"; mkColumn "churn_loc" "UInt64"; mkColumn "cycle_p50_hours" "Float64";
   mkColumn "computed_at" "DateTime"; mkColumn "org_id" "String"].
Definition operational_incidents : list Column :=
  [mkColumn "org_id" "String"; mkColumn "source_version_at" "DateTime64(6, 'UTC')"; mkColumn "id" "String"; mkColumn "source_url" "Nullable(String)";
   mkColumn "source_event_at" "Nullable(DateTime64(6, 'UTC'))"; mkColumn "observed_at" "DateTime64(6, 'UTC')"; mkColumn "last_synced" "DateTime64(6, 'UTC')";
   mkColumn "relationship_confidence" "Nullable(Float64)"; mkColumn "raw_status" "Nullable(String)"; mkColumn "raw_severity" "Nullable(String)";
   mkColumn "normalized_status" "Nullable(String)"; mkColumn "normalized_severity" "Nullable(String)"; mkColumn "service_id" "Nullable(String)";
   mkColumn "title" "String"; mkColumn "description" "Nullable(String)"; mkColumn "started_at" "Nullable(DateTime64(6, 'UTC'))";
   mkColumn "resolved_at" "Nullable(DateTime64(6, 'UTC'))"; mkColumn "is_deleted" "UInt8"; mkColumn "deleted_at" "Nullable(DateTime64(6, 'UTC'))"].
Definition operational_service_repository_mappings : list Column :=
  [mkColumn "org_id" "String"; mkColumn "source_version_at" "DateTime64(6, 'UTC')"; mkColumn "id" "String"; mkColumn "relationship_provenance" "Nullable(String)";
   mkColumn "relationship_confidence" "Nullable(Float64)"; mkColumn "service_id" "String"; mkColumn "repo_id" "Nullable(UUID)";
   mkColumn "valid_from" "Nullable(DateTime64(6, 'UTC'))"; mkColumn "valid_to" "Nullable(DateTime64(6, 'UTC'))"; mkColumn "is_active" "UInt8"].
Definition recommendations_daily : list Column :=
  [mkColumn "team_id" "LowCardinality(String)"; mkColumn "org_id" "String"; mkColumn "rule_id" "LowCardinality(String)";
   mkColumn "rule_version" "LowCardinality(String)"; mkColumn "window_start" "Date"; mkColumn "window_end" "Date"; mkColumn "fired" "Bool";
   mkColumn "severity" "LowCardinality(String)"; mkColumn "title" "String"; mkColumn "rationale" "String"; mkColumn "success_criterion" "String";
   mkColumn "computed_at" "DateTime64(3, 'UTC')"].
Definition repo_metrics_daily : list Column :=
  [mkColumn "repo_id" "UUID"; mkColumn "day" "Date"; mkColumn "commits_count" "UInt32"; mkColumn "prs_merged" "UInt32"; mkColumn "median_pr_cycle_hours" "Float64";
   mkColumn "mttr_hours" "Nullable(Float64)"; mkColumn "change_failure_rate" "Float64"; mkColumn "computed_at" "DateTime('UTC')"; mkColumn "bus_factor" "UInt32";
   mkColumn "code_ownership_gini" "Float64"; mkColumn "org_id" "String"; mkColumn "prs_with_first_review" "UInt32";
   mkColumn "pr_first_review_p50_hours" "Nullable(Float64)"; mkColumn "pr_first_review_p90_hours" "Nullable(Float64)";
   mkColumn "pr_review_time_p50_hours" "Nullable(Float64)"; mkColumn "pr_pickup_time_p50_hours" "Nullable(Float64)"].
Definition team_cognitive_load_daily : list Column :=
  [mkColumn "org_id" "String"; mkColumn "team_id" "String"; mkColumn "day" "Date"; mkColumn "pr_interruption_load" "Float64"; mkColumn "context_spread_count" "Float64";
   mkColumn "review_request_load" "Float64"; mkColumn "after_hours_commit_ratio" "Nullable(Float64)"; mkColumn "weekend_commit_ratio" "Nullable(Float64)";
   mkColumn "contributing_repo_count" "UInt32"; mkColumn "sample_author_count" "UInt32"; mkColumn "computed_at" "DateTime64(6, 'UTC')"].
Definition team_complexity_daily : list Column :=
  [mkColumn "org_id" "String"; mkColumn "team_id" "String"; mkColumn "day" "Date"; mkColumn "loc_total" "Float64"; mkColumn "cyclomatic_total" "Float64";
   mkColumn "cyclomatic_per_kloc" "Float64"; mkColumn "high_complexity_functions" "Float64"; mkColumn "very_high_complexity_functions" "Float64";
   mkColumn "contributing_repo_count" "UInt32"; mkColumn "computed_at" "DateTime64(6, 'UTC')"].
Definition team_metrics_daily : list Column :=
  [mkColumn "day" "Date"; mkColumn "team_id" "LowCardinality(String)"; mkColumn "team_name" "String"; mkColumn "commits_count" "Float64";
   mkColumn "after_hours_commits_count" "Float64"; mkColumn "weekend_commits_count" "Float64"; mkColumn "after_hours_commit_ratio" "Float64";
   mkColumn "weekend_commit_ratio" "Float64"; mkColumn "computed_at" "DateTime64(6, 'UTC')"; mkColumn "org_id" "String"; mkColumn "repo_id" "String"].
Definition cicd_metrics_daily : list Column :=
  [mkColumn "repo_id" "UUID"; mkColumn "day" "Date"; mkColumn "pipelines_count" "UInt32"; mkColumn "success_rate" "Float64";
   mkColumn "avg_duration_minutes" "Nullable(Float64)"; mkColumn "p90_duration_minutes" "Nullable(Float64)"; mkColumn "avg_queue_minutes" "Nullable(Float64)";
   mkColumn "computed_at" "DateTime('UTC')"; mkColumn "org_id" "String"].
Definition deploy_metrics_daily : list Column :=
  [mkColumn "repo_id" "UUID"; mkColumn "day" "Date"; mkColumn "deployments_count" "UInt32"; mkColumn "failed_deployments_count" "UInt32";
   mkColumn "deploy_time_p50_hours" "Nullable(Float64)"; mkColumn "lead_time_p50_hours" "Nullable(Float64)"; mkColumn "computed_at" "DateTime('UTC')";
   mkColumn "org_id" "String"].
Definition repos : list Column :=
  [mkColumn "id" "UUID"; mkColumn "repo" "String"; mkColumn "ref" "Nullable(String)"; mkColumn "created_at" "DateTime64(3, 'UTC')"; mkColumn "tags" "Nullable(String)";
   mkColumn "last_synced" "DateTime64(3, 'UTC')"; mkColumn "org_id" "String"; mkColumn "provider" "String"].
Definition work_graph_issue_pr : list Column :=
  [mkColumn "repo_id" "UUID"; mkColumn "work_item_id" "String"; mkColumn "pr_number" "UInt32"; mkColumn "confidence" "Float32"; mkColumn "provenance" "String";
   mkColumn "evidence" "String"; mkColumn "last_synced" "DateTime64(3, 'UTC')"; mkColumn "org_id" "String DEFAULT 'default'";
   mkColumn "version_rank" "UInt64 MATERIALIZED ((multiIf(provenance = 'native', 3, provenance = 'explicit_text', 2, provenance = 'heuristic', 1, 0) + 1) * 1125899906842624) + toUnixTimestamp64Milli(last_synced)"].
Definition work_graph_deployment_incident_edges : list Column :=
  [mkColumn "edge_id" "String"; mkColumn "org_id" "UUID"; mkColumn "deployment_id" "String"; mkColumn "incident_id" "String"; mkColumn "repo_id" "Nullable(UUID)";
   mkColumn "confidence" "Float32"; mkColumn "source" "LowCardinality(String)"; mkColumn "evidence" "String"; mkColumn "observed_at" "DateTime64(3, 'UTC')";
   mkColumn "computed_at" "DateTime64(3, 'UTC')"].
Definition work_item_dependencies : list Column :=
  [mkColumn "source_work_item_id" "String"; mkColumn "target_work_item_id" "String"; mkColumn "relationship_type" "String"; mkColumn "relationship_type_raw" "String";
   mkColumn "last_synced" "DateTime64(3)"; mkColumn "org_id" "String"].
Definition teams : list Column :=
  [mkColumn "id" "String"; mkColumn "name" "String"; mkColumn "description" "Nullable(String)"; mkColumn "updated_at" "DateTime64(6)"; mkColumn "org_id" "String";
   mkColumn "provider" "String"; mkColumn "native_team_key" "Nullable(String)"; mkColumn "project_keys" "Array(String)"; mkColumn "is_active" "UInt8"].
Definition project_membership_transitions : list Column :=
  [mkColumn "org_id" "String"; mkColumn "source_id" "Nullable(UUID)"; mkColumn "repo_id" "UUID"; mkColumn "subject_kind" "LowCardinality(String)";
   mkColumn "subject_id" "String"; mkColumn "provider" "LowCardinality(String)"; mkColumn "from_project_id" "String"; mkColumn "to_project_id" "String";
   mkColumn "from_project_key" "String"; mkColumn "to_project_key" "String"; mkColumn "actor" "String"; mkColumn "occurred_at" "DateTime64(3)";
   mkColumn "last_synced" "DateTime64(3)"; mkColumn "event_id" "String"].
Definition projects : list Column :=
  [mkColumn "id" "String"; mkColumn "org_id" "String"; mkColumn "provider" "String"; mkColumn "project_key" "Nullable(String)"; mkColumn "name" "String";
   mkColumn "is_active" "UInt8"; mkColumn "state" "LowCardinality(String)"; mkColumn "url" "String"; mkColumn "updated_at" "DateTime64(3, 'UTC')"].
Definition work_unit_investments : list Column :=
  [mkColumn "work_unit_id" "String"; mkColumn "from_ts" "DateTime64(3, 'UTC')"; mkColumn "to_ts" "DateTime64(3, 'UTC')"; mkColumn "effort_value" "Float64";
   mkColumn "theme_distribution_json" "Map(String, Float64)"; mkColumn "subcategory_distribution_json" "Map(String, Float64)";
   mkColumn "structural_evidence_json" "String"; mkColumn "computed_at" "DateTime64(3, 'UTC')"; mkColumn "org_id" "String"].
Definition work_item_team_attributions : list Column :=
  [mkColumn "org_id" "String"; mkColumn "repo_id" "UUID"; mkColumn "work_item_id" "String"; mkColumn "team_id" "Nullable(String)";
   mkColumn "team_name" "Nullable(String)";
   mkColumn "source" "Enum8('native_team' = 1, 'linked_issue' = 2, 'project_ownership' = 3, 'repo_ownership' = 4, 'assignee_membership' = 5, 'unassigned' = 6, 'issue_project' = 7, 'manual_fallback' = 8)";
   mkColumn "is_primary" "UInt8"; mkColumn "confidence" "Enum8('high' = 1, 'medium' = 2, 'low' = 3, 'manual' = 4, 'none' = 5)";
   mkColumn "computed_at" "DateTime64(3, 'UTC')"].
Definition team_project_ownership : list Column :=
  [mkColumn "org_id" "String"; mkColumn "provider" "String"; mkColumn "team_id" "String"; mkColumn "project_id" "String"; mkColumn "project_key" "Nullable(String)";
   mkColumn "source" "Enum8('native' = 1, 'jira_legacy' = 2, 'provider_access' = 3, 'manual' = 4, 'inferred' = 5)"; mkColumn "valid_from" "DateTime64(3, 'UTC')";
   mkColumn "valid_to" "Nullable(DateTime64(3, 'UTC'))"; mkColumn "updated_at" "DateTime64(3, 'UTC')"].
Definition team_repo_ownership : list Column :=
  [mkColumn "org_id" "String"; mkColumn "provider" "String"; mkColumn "team_id" "String"; mkColumn "repo_id" "Nullable(UUID)"; mkColumn "repo_full_name" "String";
   mkColumn "match_type" "Enum8('exact' = 1, 'pattern' = 2)";
   mkColumn "source" "Enum8('native' = 1, 'jira_legacy' = 2, 'provider_access' = 3, 'manual' = 4, 'inferred' = 5)"; mkColumn "is_primary" "UInt8";
   mkColumn "specificity" "UInt16"; mkColumn "priority" "Int32"; mkColumn "valid_from" "DateTime64(3, 'UTC')"; mkColumn "valid_to" "Nullable(DateTime64(3, 'UTC'))";
   mkColumn "updated_at" "DateTime64(3, 'UTC')"].
Definition work_item_metrics_daily : list Column :=
  [mkColumn "day" "Date"; mkColumn "provider" "LowCardinality(String)"; mkColumn "work_scope_id" "LowCardinality(String)"; mkColumn "team_id" "LowCardinality(String)";
   mkColumn "items_started" "UInt32"; mkColumn "items_completed" "UInt32"; mkColumn "wip_count_end_of_day" "UInt32"; mkColumn "cycle_time_p50_hours" "Nullable(Float64)";
   mkColumn "cycle_time_p90_hours" "Nullable(Float64)"; mkColumn "lead_time_p50_hours" "Nullable(Float64)"; mkColumn "lead_time_p90_hours" "Nullable(Float64)";
   mkColumn "wip_age_p50_hours" "Nullable(Float64)"; mkColumn "wip_age_p90_hours" "Nullable(Float64)"; mkColumn "bug_completed_ratio" "Float64";
   mkColumn "story_points_completed" "Float64"; mkColumn "computed_at" "DateTime('UTC')"; mkColumn "org_id" "String"].
Definition work_items : list Column :=
  [mkColumn "repo_id" "UUID"; mkColumn "work_item_id" "String"; mkColumn "provider" "String"; mkColumn "title" "String"; mkColumn "type" "String";
   mkColumn "status" "String"; mkColumn "project_key" "String"; mkColumn "project_id" "String"; mkColumn "native_team_key" "String"; mkColumn "project_name" "String";
   mkColumn "created_at" "DateTime64(3)"; mkColumn "updated_at" "DateTime64(3)"; mkColumn "completed_at" "Nullable(DateTime64(3))";
   mkColumn "closed_at" "Nullable(DateTime64(3))"; mkColumn "labels" "Array(String)"; mkColumn "parent_id" "String"; mkColumn "url" "String";
   mkColumn "last_synced" "DateTime64(3)"; mkColumn "org_id" "String"].

(** All of them. *)
Definition ProductionColumns : gmap string (list Column) := list_to_map
  [("backfill_log", backfill_log);
   ("capacity_forecasts", capacity_forecasts);
   ("ci_pipeline_runs", ci_pipeline_runs);
   ("compounding_risk_daily", compounding_risk_daily);
   ("deployments", deployments);
   ("estimate_coverage_metrics_daily", estimate_coverage_metrics_daily);
   ("git_pull_request_reviews", git_pull_request_reviews);
   ("git_pull_requests", git_pull_requests);
   ("ic_landscape_rolling_30d", ic_landscape_rolling_30d);
   ("investment_metrics_daily", investment_metrics_daily);
   ("operational_incidents", operational_incidents);
   ("operational_service_repository_mappings", operational_service_repository_mappings);
   ("recommendations_daily", recommendations_daily);
   ("repo_metrics_daily", repo_metrics_daily);
   ("team_cognitive_load_daily", team_cognitive_load_daily);
   ("team_complexity_daily", team_complexity_daily);
   ("team_metrics_daily", team_metrics_daily);
   ("cicd_metrics_daily", cicd_metrics_daily);
   ("deploy_metrics_daily", deploy_metrics_daily);
   ("repos", repos);
   ("work_graph_issue_pr", work_graph_issue_pr);
   ("work_graph_deployment_incident_edges", work_graph_deployment_incident_edges);
   ("work_item_dependencies", work_item_dependencies);
   ("teams", teams);
   ("project_membership_transitions", project_membership_transitions);
   ("projects", projects);
   ("work_unit_investments", work_unit_investments);
   ("work_item_team_attributions", work_item_team_attributions);
   ("team_project_ownership", team_project_ownership);
   ("team_repo_ownership", team_repo_ownership);
   ("work_item_metrics_daily", work_item_metrics_daily);
   ("work_items", work_items)].

(** * The engines *)

Definition EngineFull : gmap string string := list_to_map
  [("backfill_log", "MergeTree ORDER BY (org_id, job_id, chunk_index) SETTINGS index_granularity = 8192");
   ("capacity_forecasts", "ReplacingMergeTree(computed_at) ORDER BY (org_id, forecast_id) SETTINGS index_granularity = 8192");
   ("ci_pipeline_runs", "ReplacingMergeTree(last_synced) ORDER BY (org_id, repo_id, run_id) SETTINGS index_granularity = 8192");
   ("cicd_metrics_daily", "MergeTree PARTITION BY toYYYYMM(day) ORDER BY (org_id, repo_id, day) SETTINGS index_granularity = 8192");
   ("compounding_risk_daily", "MergeTree PARTITION BY toYYYYMM(day) ORDER BY (org_id, scope, scope_id, day, computed_at) SETTINGS index_granularity = 8192");
   ("deploy_metrics_daily", "MergeTree PARTITION BY toYYYYMM(day) ORDER BY (org_id, repo_id, day) SETTINGS index_granularity = 8192");
   ("deployments", "ReplacingMergeTree(last_synced) ORDER BY (org_id, repo_id, deployment_id) SETTINGS index_granularity = 8192");
   ("estimate_coverage_metrics_daily", "ReplacingMergeTree(computed_at) PARTITION BY toYYYYMM(day) ORDER BY (org_id, day, provider, work_scope_id, ifNull(team_id, '')) SETTINGS index_granularity = 8192");
   ("git_pull_request_reviews", "ReplacingMergeTree(last_synced) ORDER BY (org_id, repo_id, number, review_id) SETTINGS index_granularity = 8192");
   ("git_pull_requests", "ReplacingMergeTree(last_synced) ORDER BY (org_id, repo_id, number) SETTINGS index_granularity = 8192");
   ("ic_landscape_rolling_30d", "ReplacingMergeTree(computed_at) PARTITION BY toYYYYMM(as_of_day) ORDER BY (org_id, repo_id, team_id, map_name, as_of_day, identity_id) SETTINGS index_granularity = 8192");
   ("investment_metrics_daily", "MergeTree PARTITION BY toYYYYMM(day) ORDER BY (org_id, day, team_id, investment_area, project_stream) SETTINGS allow_nullable_key = 1, index_granularity = 8192");
   ("operational_incidents", "ReplacingMergeTree(source_version_at) ORDER BY (org_id, id) SETTINGS index_granularity = 8192");
   ("project_membership_transitions", "ReplacingMergeTree(last_synced) ORDER BY (org_id, subject_kind, repo_id, subject_id, occurred_at, event_id) SETTINGS index_granularity = 8192");
   ("projects", "ReplacingMergeTree(updated_at) ORDER BY (org_id, provider, id) SETTINGS index_granularity = 8192");
   ("operational_service_repository_mappings", "ReplacingMergeTree(source_version_at) ORDER BY (org_id, id) SETTINGS index_granularity = 8192");
   ("recommendations_daily", "ReplacingMergeTree(computed_at) PARTITION BY toYYYYMM(window_end) ORDER BY (org_id, team_id, rule_id, window_end) SETTINGS index_granularity = 8192");
   ("repo_metrics_daily", "MergeTree PARTITION BY toYYYYMM(day) ORDER BY (org_id, repo_id, day) SETTINGS index_granularity = 8192");
   ("repos", "ReplacingMergeTree(last_synced) ORDER BY (org_id, id) SETTINGS index_granularity = 8192");
   ("team_cognitive_load_daily", "MergeTree PARTITION BY toYYYYMM(day) ORDER BY (org_id, team_id, day) SETTINGS index_granularity = 8192");
   ("team_complexity_daily", "MergeTree PARTITION BY toYYYYMM(day) ORDER BY (org_id, team_id, day) SETTINGS index_granularity = 8192");
   ("team_metrics_daily", "ReplacingMergeTree(computed_at) PARTITION BY toYYYYMM(day) ORDER BY (org_id, team_id, repo_id, day) SETTINGS index_granularity = 8192");
   ("team_project_ownership", "ReplacingMergeTree(updated_at) ORDER BY (org_id, provider, project_id, team_id, source, valid_from) SETTINGS index_granularity = 8192");
   ("team_repo_ownership", "ReplacingMergeTree(updated_at) ORDER BY (org_id, provider, repo_full_name, team_id, source, valid_from) SETTINGS index_granularity = 8192");
   ("teams", "ReplacingMergeTree(updated_at) ORDER BY (org_id, id) SETTINGS index_granularity = 8192");
   ("work_graph_issue_pr", "ReplacingMergeTree(version_rank) ORDER BY (org_id, repo_id, work_item_id, pr_number) SETTINGS index_granularity = 8192");
   ("work_graph_deployment_incident_edges", "ReplacingMergeTree(computed_at) PARTITION BY toYYYYMM(observed_at) ORDER BY (org_id, deployment_id, incident_id, source) SETTINGS index_granularity = 8192");
   ("work_item_dependencies", "ReplacingMergeTree(last_synced) ORDER BY (org_id, source_work_item_id, target_work_item_id, relationship_type) SETTINGS index_granularity = 8192");
   ("work_item_metrics_daily", "ReplacingMergeTree(computed_at) PARTITION BY toYYYYMM(day) ORDER BY (org_id, provider, day, work_scope_id, team_id) SETTINGS index_granularity = 8192");
   ("work_item_team_attributions", "ReplacingMergeTree(computed_at) ORDER BY (org_id, repo_id, work_item_id, ifNull(team_id, ''), source) SETTINGS index_granularity = 8192");
   ("work_items", "ReplacingMergeTree(last_synced) ORDER BY (org_id, repo_id, work_item_id) SETTINGS index_granularity = 8192");
   ("work_unit_investments", "ReplacingMergeTree(computed_at) ORDER BY (org_id, work_unit_id) SETTINGS index_granularity = 8192")].

(** * The statements *)

Definition withNullableKeySetting (engineFull : string) : string :=
  if LlmErrors.Contains engineFull "allow_nullable_key" then engineFull
  else if LlmErrors.Contains engineFull "SETTINGS" then engineFull +:+ ", allow_nullable_key = 1"
  else engineFull +:+ " SETTINGS allow_nullable_key = 1".

(** The two panics. *)
Inductive ddl_panic := NoColumns (table : string) | NoEngine (table : string).
Definition render (c : Column) : string := Name c +:+ " " +:+ Type_ c.
Definition statement (table : string) (columns : list Column) (engine : string) : string :=
  "CREATE TABLE " +:+ table +:+ " (" +:+ Prelude.join ", " (map render columns) +:+ ") ENGINE = " +:+ withNullableKeySetting engine.
Fixpoint statements (tables : list string) : result ddl_panic (list string) :=
  match tables with
  | [] => Ok []
  | table :: tables =>
      match ProductionColumns !! table with
      | None => Err (NoColumns table)
      | Some columns =>
          match EngineFull !! table with
          | None => Err (NoEngine table)
          | Some engine => match statements tables with Err e => Err e | Ok l => Ok (statement table columns engine :: l) end
          end
      end
  end.
(** The names of a map come in any order; they are sorted. *)
Definition DDL (tables : list string) : result ddl_panic (list string) :=
  let tables := match tables with [] => (map_to_list ProductionColumns).*1 | _ => tables end in
  statements (merge_sort String.le tables).

Example ddl_one : DDL ["backfill_log"] = Ok ["CREATE TABLE backfill_log (job_id String, org_id String, chunk_index UInt32, provider String, items_synced UInt32, duration_ms UInt64, status String, error_message String, created_at DateTime64(3)) ENGINE = MergeTree ORDER BY (org_id, job_id, chunk_index) SETTINGS index_granularity = 8192, allow_nullable_key = 1"].
Proof. vm_compute. reflexivity. Qed.
Example ddl_all : match DDL [] with Ok l => length l | Err _ => 0 end = 32.
Proof. vm_compute. reflexivity. Qed.

(** * Reading a statement back *)

(** The parts of a text that ", " separates outside parentheses, up to the parenthesis that closes it. *)
Fixpoint parts (depth : nat) (acc : list ascii) (s : string) : option (list string * string) :=
  match s with
  | EmptyString => None
  | String c r =>
      if Ascii.eqb c "(" then parts (S depth) (c :: acc) r
      else if Ascii.eqb c ")" then match depth with O => Some ([of_chars (rev acc)], r) | S depth => parts depth (c :: acc) r end
      else if Ascii.eqb c "," && (depth =? 0) then
        match r with
        | String _ r => match parts 0 [] r with Some (l, r) => Some (of_chars (rev acc) :: l, r) | None => None end
        | EmptyString => None
        end
      else parts depth (c :: acc) r
  end.
(** The text before the first space, and after it. *)
Fixpoint cut_space (s : string) : string * string :=
  match s with
  | EmptyString => ("", "")
  | String c r => if Ascii.eqb c " " then ("", r) else let '(a, b) := cut_space r in (String c a, b)
  end.
Definition read_column (s : string) : Column := let '(name, type) := cut_space s in mkColumn name type.
(** The table, the columns and the engine of a statement. *)
Definition read_statement (s : string) : option (string * list Column * string) :=
  match Json.after "CREATE TABLE " s with
  | None => None
  | Some r =>
      let '(table, r) := cut_space r in
      match Json.after "(" r with
      | None => None
      | Some r => match parts 0 [] r with
          | None => None
          | Some (l, r) => option_map (fun engine => (table, map read_column l, engine)) (Json.after " ENGINE = " r)
          end
      end
  end.

(** The identifiers of an engine's text that name columns: its words but for the language's own, outside quotes. *)
Definition word_char (c : ascii) : bool := in_range "a" "z" c || in_range "A" "Z" c || in_range "0" "9" c || Ascii.eqb c "_".
Fixpoint words (quoted : bool) (acc : list ascii) (s : string) : list string :=
  let done := match acc with [] => [] | _ => [of_chars (rev acc)] end in
  match s with
  | EmptyString => done
  | String c r =>
      if Ascii.eqb c "'" then done ++ words (negb quoted) [] r
      else if quoted then words quoted [] r
      else if word_char c then words quoted (c :: acc) r
      else done ++ words quoted [] r
  end.
Definition own_words : list string :=
  ["MergeTree"; "ReplacingMergeTree"; "PARTITION"; "BY"; "ORDER"; "SETTINGS"; "toYYYYMM"; "ifNull"; "index_granularity"; "allow_nullable_key"; "8192"; "1"].
Definition key_columns (engine : string) : list string := List.filter (fun w => negb (contains own_words w)) (words false [] engine).

(** The view of the current membership of projects, byte for byte. *)
Definition ProjectMembershipPresenceViewDDL : string := "CREATE OR REPLACE VIEW project_membership_presence AS
WITH touched AS (
    SELECT
        org_id,
        subject_kind,
        repo_id,
        subject_id,
        provider,
        occurred_at,
        event_id,
        to_project_id,
        arrayJoin(arrayFilter(
            pair -> pair.1 != '',
            if(from_project_id = to_project_id,
               [(to_project_id, to_project_key)],
               [(to_project_id, to_project_key), (from_project_id, from_project_key)])
        )) AS touch
    FROM project_membership_transitions FINAL
),
latest_membership AS (
    SELECT
        org_id,
        subject_kind,
        repo_id,
        subject_id,
        touch.1 AS project_id,
        argMax(touch.2, (occurred_at, event_id)) AS project_key,
        argMax(provider, (occurred_at, event_id)) AS provider,
        argMax(to_project_id, (occurred_at, event_id)) AS latest_to_project_id,
        max(occurred_at) AS observed_at
    FROM touched
    GROUP BY org_id, subject_kind, repo_id, subject_id, project_id
),
subjects_with_history AS (
    SELECT DISTINCT org_id, subject_kind, repo_id, subject_id
    FROM project_membership_transitions FINAL
)
SELECT
    org_id,
    subject_kind,
    repo_id,
    subject_id,
    provider,
    project_id,
    project_key,
    observed_at,
    'transition' AS source
FROM latest_membership
WHERE latest_to_project_id = project_id
UNION ALL
SELECT
    w.org_id AS org_id,
    'work_item' AS subject_kind,
    w.repo_id AS repo_id,
    w.work_item_id AS subject_id,
    w.provider AS provider,
    w.project_id AS project_id,
    w.project_key AS project_key,
    w.updated_at AS observed_at,
    'work_item_column' AS source
FROM work_items AS w FINAL
WHERE w.project_id != ''
    AND w.provider != 'gitlab'
    AND (w.provider != 'github' OR startsWith(w.project_id, 'ghprojv2:'))
    AND (w.org_id, 'work_item', w.repo_id, w.work_item_id) NOT IN (
        SELECT org_id, subject_kind, repo_id, subject_id FROM subjects_with_history
    )".

(** * What the tables are *)

(** A table: columns of different names, and an engine that sorts, partitions and replaces by columns it has. *)
Definition table_ok (table : string) (columns : list Column) : Prop :=
  columns <> [] /\ NoDup (map Name columns) /\ exists engine, EngineFull !! table = Some engine /\ Forall (fun w => w ∈ map Name columns) (key_columns engine) /\
    read_statement (statement table columns engine) = Some (table, columns, withNullableKeySetting engine).
Definition table_check (kv : string * list Column) : bool :=
  negb (bool_decide (kv.2 = [])) && bool_decide (NoDup (map Name kv.2)) &&
  match EngineFull !! kv.1 with
  | Some engine => forallb (contains (map Name kv.2)) (key_columns engine) &&
      bool_decide (read_statement (statement kv.1 kv.2 engine) = Some (kv.1, kv.2, withNullableKeySetting engine))
  | None => false
  end.

Lemma all_checked : forallb table_check (map_to_list ProductionColumns) = true.
Proof. vm_compute. reflexivity. Qed.
Lemma same_tables : dom ProductionColumns = dom EngineFull.
Proof. apply (bool_decide_eq_true_1 (dom ProductionColumns = dom EngineFull)). vm_compute. reflexivity. Qed.
#[local] Opaque ProductionColumns EngineFull.

Lemma check_ok table columns : table_check (table, columns) = true -> table_ok table columns.
Proof.
  unfold table_check. cbn [fst snd]. rewrite !andb_true_iff, negb_true_iff. intros [[Hn Hd] He]. apply bool_decide_eq_false in Hn. apply bool_decide_eq_true in Hd.
  split; [exact Hn|]. split; [exact Hd|]. destruct (EngineFull !! table) as [engine|]; [|discriminate]. apply andb_true_iff in He as [Hk Hr]. apply bool_decide_eq_true in Hr.
  exists engine. split; [reflexivity|]. split; [|exact Hr]. apply Forall_forall. intros w Hw. rewrite forallb_forall in Hk. apply contains_spec, Hk, list_elem_of_In, Hw.
Qed.
Lemma table_checked table columns : ProductionColumns !! table = Some columns -> table_ok table columns.
Proof.
  intros H. apply elem_of_map_to_list, list_elem_of_In in H. apply check_ok. exact (proj1 (forallb_forall table_check _) all_checked _ H).
Qed.

(** the declared tables are consistent. The same tables have columns and an engine; a table has columns, of
    different names; and every column that its engine sorts, partitions or replaces rows by is one of them. *)
Theorem tables_consistent :
  dom ProductionColumns = dom EngineFull /\
  forall table columns, ProductionColumns !! table = Some columns ->
    columns <> [] /\ NoDup (map Name columns) /\ exists engine, EngineFull !! table = Some engine /\ Forall (fun w => w ∈ map Name columns) (key_columns engine).
Proof.
  split; [exact same_tables|].
  intros table columns H. destruct (table_checked _ _ H) as (H1 & H2 & engine & H3 & H4 & _). eauto 6.
Qed.

(** * What DDL renders *)

Definition names_of (tables : list string) : list string := match tables with [] => (map_to_list ProductionColumns).*1 | _ => tables end.

Lemma statements_spec tables : match statements tables with
  | Ok l => Forall2 (fun table s => exists columns engine, ProductionColumns !! table = Some columns /\ EngineFull !! table = Some engine /\
      read_statement s = Some (table, columns, withNullableKeySetting engine)) tables l
  | Err e => exists table, e = NoColumns table /\ table ∈ tables /\ ProductionColumns !! table = None
  end.
Proof.
  induction tables as [|table tables IH]; cbn [statements]; [constructor|]. destruct (ProductionColumns !! table) as [columns|] eqn:Ec.
  - destruct (table_checked _ _ Ec) as (_ & _ & engine & Ee & _ & Hr). rewrite Ee. destruct (statements tables) as [l|e].
    + constructor; [eauto | exact IH].
    + destruct IH as (t & -> & Ht & Hn). exists t. split; [reflexivity|]. split; [right; exact Ht | exact Hn].
  - exists table. split; [reflexivity|]. split; [left | exact Ec].
Qed.

(** C25: what DDL renders. It panics only for a table that is not declared. Otherwise it gives a statement for each
    table that is asked for, or for every one if none is, in the order of their names; a statement read back
    gives the table, the declared columns in their order, and the production engine with nullable keys
    allowed; and the statements do not depend on the order in which the tables are asked for, or in which the
    map gives them. *)
Theorem DDL_exact tables :
  match DDL tables with
  | Ok l => exists names, Permutation names (names_of tables) /\ StronglySorted String.le names /\
      Forall2 (fun table s => exists columns engine, ProductionColumns !! table = Some columns /\ EngineFull !! table = Some engine /\
        read_statement s = Some (table, columns, withNullableKeySetting engine)) names l
  | Err e => exists table, e = NoColumns table /\ table ∈ tables /\ ProductionColumns !! table = None
  end /\
  forall tables', Permutation tables tables' -> DDL tables' = DDL tables.
Proof.
  split.
  - unfold DDL. fold (names_of tables). pose proof (statements_spec (merge_sort String.le (names_of tables))) as H.
    destruct (statements _) as [l|e].
    + exists (merge_sort String.le (names_of tables)). split; [apply merge_sort_Permutation|]. split; [apply (StronglySorted_merge_sort String.le) | exact H].
    + destruct H as (table & -> & Ht & Hn). rewrite merge_sort_Permutation in Ht. exists table. split; [reflexivity|]. split; [|exact Hn].
      destruct tables as [|t tables]; [|exact Ht]. cbn [names_of] in Ht. apply list_elem_of_fmap in Ht as ([t c] & -> & Hin). apply elem_of_map_to_list in Hin. cbn [fst] in Hn. congruence.
  - intros tables' Hp. unfold DDL. fold (names_of tables) (names_of tables'). assert (Hn : Permutation (names_of tables') (names_of tables)).
    { destruct tables as [|t l]; [apply Permutation_nil in Hp as ->; reflexivity|]. destruct tables' as [|t' l']; [symmetry in Hp; apply Permutation_nil in Hp; discriminate|]. symmetry. exact Hp. }
    f_equal. apply (StronglySorted_unique String.le); [apply (StronglySorted_merge_sort String.le)..|]. rewrite !merge_sort_Permutation. exact Hn.
Qed.
End Tables.
