(* ===== verification/ReadRowsSpec.v ===== *)
(** What every reader's statement selects is what its Scan takes: as many columns as destinations, each of a type
    that the destination takes. The types are derived: of a column as src/schema declares it, and of an
    expression by the documented types of ClickHouse's functions over the types below it, Nullable or not. *)
From S2P Require Import Prelude Json Decimal GoTime ReadOwnership LlmErrors ReadQuery ReadScope Readers ReadSpec ReadMetrics ReadRows SchemaTables.

Module ReadRowsSpec.
Import ReadRows ReadQuery ReadScope Readers ReadSpec.

#[local] Instance gotype_eq_dec : EqDecision gotype.
Proof. solve_decision. Defined.

(** * The selected expressions *)

Definition push (c : ascii) (l : list string) : list string := match l with p :: l => String c p :: l | [] => [String c ""] end.
Definition starts (p s : string) : bool := match Json.after p s with Some _ => true | None => false end.
Definition is_blank (c : ascii) : bool := existsb (Ascii.eqb c) [" "%char; chr 9; chr 10].

(** The pieces of a list of expressions, up to its FROM: the commas and the FROM outside quotes and brackets. *)
Fixpoint pieces (depth : nat) (quoted : bool) (s : string) : list string :=
  match s with
  | EmptyString => [""]
  | String c r =>
      if quoted then push c (pieces depth (negb (Ascii.eqb c squote)) r)
      else if (depth =? 0) && (starts (newline +:+ "FROM ") s || starts " FROM " s) then [""]
      else if Ascii.eqb c squote then push c (pieces depth true r)
      else if existsb (Ascii.eqb c) ["("%char; "["%char] then push c (pieces (S depth) false r)
      else if existsb (Ascii.eqb c) [")"%char; "]"%char] then push c (pieces (pred depth) false r)
      else if (depth =? 0) && Ascii.eqb c ","%char then "" :: pieces depth false r
      else push c (pieces depth false r)
  end.
Fixpoint unblank (s : string) : string := match s with String c r => if is_blank c then unblank r else s | EmptyString => "" end.
Definition expressions (s : string) : list string := map unblank (pieces 0 false s).
Definition projection (statement : string) : list string :=
  match Json.after "SELECT " (unblank statement) with Some s => expressions s | None => [] end.

Example projections : projection ("SELECT a, f(b, 'x, (y'), ifNull(c, ',')" +:+ newline +:+ "FROM t, u") = ["a"; "f(b, 'x, (y')"; "ifNull(c, ',')"].
Proof. vm_compute. reflexivity. Qed.

(** * Their types *)

(** f(arguments), to the closing bracket. *)
Fixpoint until (c : ascii) (s : string) : option (string * string) :=
  match s with
  | EmptyString => None
  | String d r => if Ascii.eqb d c then Some ("", r) else match until c r with Some (a, b) => Some (String d a, b) | None => None end
  end.
(** The text without its last character, when that is ")" and no bracket closes before. *)
Fixpoint inside (depth : nat) (quoted : bool) (s : string) : option string :=
  match s with
  | EmptyString => None
  | String c r =>
      let next depth quoted := option_map (String c) (inside depth quoted r) in
      if quoted then next depth (negb (Ascii.eqb c squote))
      else if Ascii.eqb c squote then next depth true
      else if Ascii.eqb c "("%char then next (S depth) false
      else if Ascii.eqb c ")"%char then match depth with S depth => next depth false | 0 => if String.eqb r "" then Some "" else None end
      else next depth false
  end.
Definition call_of (e : string) : option (string * list string) :=
  match until "("%char e with
  | Some (f, r) => match inside 0 false r with Some args => Some (f, expressions args) | None => None end
  | None => None
  end.
Definition literal (e : string) : bool :=
  match e with String c r => Ascii.eqb c squote && match until squote r with Some (_, t) => String.eqb t "" | None => false end | EmptyString => false end.

Definition is_number (e : string) : bool := negb (String.eqb e "") && forallb (fun c => Decimal.is_digit c || Ascii.eqb c "."%char) (chars e).
(** The text before the first place where [sep] stands, and after it. *)
Fixpoint split_on (sep s : string) : option (string * string) :=
  match Json.after sep s with
  | Some r => Some ("", r)
  | None => match s with EmptyString => None | String c r => match split_on sep r with Some (a, b) => Some (String c a, b) | None => None end end
  end.

(** ** The types of ClickHouse *)

(** A type: whether it is Nullable, and what it holds; of a DateTime64 not its precision, and LowCardinality is
    how a column is stored. *)
Record ctype := mkType { nullable : bool; base : string }.
Definition wrapped (w s : string) : option string := match Json.after (w +:+ "(") s with Some r => inside 0 false r | None => None end.
Fixpoint read_type (fuel : nat) (s : string) : ctype :=
  match fuel with
  | 0 => mkType false s
  | S fuel =>
      match wrapped "LowCardinality" s, wrapped "Nullable" s, wrapped "DateTime64" s with
      | Some r, _, _ => read_type fuel r
      | None, Some r, _ => mkType true (base (read_type fuel r))
      | None, None, Some _ => mkType false "DateTime64"
      | None, None, None => mkType false s
      end
  end.
Definition type_of (s : string) : ctype := read_type 3 s.
Definition column_type (table column : string) : option ctype :=
  match Tables.ProductionColumns !! table with
  | Some columns => option_map (fun c => type_of (Tables.Type_ c)) (List.find (fun c => String.eqb (Tables.Name c) column) columns)
  | None => None
  end.
(** The destination that the driver fills from a value of a type that is not NULL. *)
Definition assoc {A} (l : list (string * A)) (k : string) : option A := option_map snd (List.find (fun p => String.eqb p.1 k) l).
Definition scanned (base : string) : option gotype :=
  assoc [("String", GString); ("UInt8", GUint8); ("UInt32", GUint32); ("UInt64", GUint64); ("Int64", GInt64); ("Float64", GFloat64); ("DateTime64", GTime);
    ("Array(UInt16)", GUint16s); ("Array(UInt32)", GUint32s)] base.

(** The common type of alternatives: the same, or a whole number beside a number. *)
Definition whole : string := "a whole number".
Definition numeric (base : string) : bool := existsb (String.eqb base) [whole; "UInt8"; "UInt16"; "UInt32"; "UInt64"; "Int64"; "Float64"].
Definition meet (a b : string) : option string :=
  if String.eqb a b then Some a else if String.eqb b whole && numeric a then Some a else if String.eqb a whole && numeric b then Some b else None.
Definition join (a b : option ctype) : option ctype :=
  match a, b with Some a, Some b => option_map (mkType (nullable a || nullable b)) (meet (base a) (base b)) | _, _ => None end.

(** Functions whose result has one type, which is Nullable when an argument is. *)
Definition strict : list (string * string) :=
  [("toString", "String"); ("concat", "String"); ("toInt64", "Int64"); ("toFloat64", "Float64"); ("toUInt8", "UInt8"); ("toUInt64", "UInt64"); ("length", "UInt64");
   ("toDateTime64", "DateTime64")].
(** The values of a conditional: every second argument, and the last. *)
Fixpoint branches (args : list string) : list string := match args with _ :: v :: args => v :: branches args | l => l end.

(** The documented type of f(args), of an [arg]'s type. *)
Definition call_type (arg : string -> option ctype) (f : string) (args : list string) : option ctype :=
  let all := map arg args in
  let any := existsb (fun t => match t with Some t => nullable t | None => false end) all in
  match assoc strict f with
  | Some b => if existsb (fun t => match t with Some _ => false | None => true end) all then None else Some (mkType any b)
  | None =>
  if existsb (String.eqb f) ["count"; "countIf"] then Some (mkType false "UInt64")
  else if existsb (String.eqb f) ["if"; "multiIf"] then match map arg (branches args) with t :: ts => fold_left join ts t | [] => None end
  else match all with
  | [Some _] => if String.eqb f "isNotNull" then Some (mkType false "UInt8")
      else if String.eqb f "max" then arg (hd "" args)
      else if String.eqb f "sum" then match arg (hd "" args) with Some t => if String.eqb (base t) "Float64" then Some t else None | None => None end
      else None
  | [Some a; b] =>
      if String.eqb f "ifNull" then match b with Some b => option_map (mkType (nullable b)) (meet (base a) (base b)) | None => None end
      else if String.eqb f "nullIf" then Some (mkType true (base a))
      else if String.eqb f "argMax" then Some a else None
  | Some a :: _ => if String.eqb f "arraySlice" then Some a else None
  | _ => None
  end end.

(** ** Where names come from *)

(** A declared table with this alias; a subquery that passes on a column of a declared table; an expression of the
    statement under that name, over sources of its own; one of the elements of such an expression, by an
    ARRAY JOIN; or both arms of a UNION ALL. *)
Inductive source := Of (table : string) | Over (table : string) | As (expr : string) (inner : list (string * source))
  | Each (expr : string) (inner : list (string * source)) | Both (s t : source).
Definition ends_word (s : string) : bool := match s with String c _ => is_blank c | EmptyString => true end.
(** [text] names the table after a FROM or a JOIN. *)
Fixpoint names_table (name text : string) : bool :=
  match text with
  | EmptyString => false
  | String _ r =>
      match match Json.after ("FROM " +:+ name) text with Some t => Some t | None => Json.after ("JOIN " +:+ name) text end with
      | Some t => ends_word t || names_table name r
      | None => names_table name r
      end
  end.
Definition alias_of (e : string) : string * string := match until "."%char e with Some (a, c) => (a, c) | None => ("", e) end.
(** The source of a name: its own, or that of everything under its alias. *)
Definition source_of (sources : list (string * source)) (e : string) : option source :=
  match assoc sources e with Some s => Some s | None => let alias := (alias_of e).1 in assoc sources (if String.eqb alias "" then "*" else alias +:+ ".*") end.

Section Typing.
Variable text : string.
Fixpoint expr_type (fuel : nat) (sources : list (string * source)) (e : string) : option ctype :=
  match fuel with
  | 0 => None
  | S fuel =>
      let arg := expr_type fuel sources in
      if literal e then Some (mkType false "String")
      else if is_number e then Some (mkType false (if LlmErrors.Contains e "." then "Float64" else whole))
      else match call_of e with
      | Some (f, args) =>
          if String.eqb f "CAST" then match split_on " AS " (hd "" args) with Some (x, t) => option_map (fun _ => type_of t) (arg x) | None => None end
          else call_type arg f args
      | None =>
      match Json.after "{" e, split_on " AND " e, split_on " IS NOT NULL" e, split_on " <= " e, split_on " / " e, split_on "[" e with
      | Some r, _, _, _, _, _ => match split_on ":" r with Some (_, t) => match split_on "}" t with Some (t, "") => Some (type_of t) | _ => None end | None => None end
      | None, Some (a, b), _, _, _, _ =>
          match join (arg a) (arg b) with Some t => if String.eqb (base t) "UInt8" then Some t else None | None => None end
      | None, None, Some (a, ""), _, _, _ => option_map (fun _ => mkType false "UInt8") (arg a)
      | None, None, _, Some (a, b), _, _ => option_map (fun t => mkType (nullable t) "UInt8") (join (arg a) (arg b))
      | None, None, _, None, Some (a, b), _ =>
          match join (arg a) (arg b) with Some t => if numeric (base t) then Some (mkType (nullable t) "Float64") else None | None => None end
      | None, None, _, None, None, Some (m, _) =>
          match arg m with Some t => match wrapped "Map" (base t) with Some kv => option_map type_of (last (expressions kv)) | None => None end | None => None end
      | None, None, _, None, None, None =>
          let '(alias, column) := alias_of e in
          if String.eqb column "1" || String.eqb column "2"
          then match arg alias with
               | Some t => match option_map expressions (wrapped "Tuple" (base t)) with
                           | Some [a; b] => Some (type_of (if String.eqb column "1" then a else b)) | _ => None end
               | None => None end
          else match source_of sources e with Some s => source_type fuel s alias column | None => None end
      end end
  end
with source_type (fuel : nat) (s : source) (alias column : string) : option ctype :=
  match fuel with
  | 0 => None
  | S fuel =>
      match s with
      | Of table => if names_table (table +:+ " AS " +:+ alias) text then column_type table column else None
      | Over table => if names_table table text then column_type table column else None
      | As x inner => if LlmErrors.Contains text (x +:+ " AS " +:+ column) then expr_type fuel inner x else None
      | Each x inner =>
          if LlmErrors.Contains text ("ARRAY JOIN " +:+ x +:+ " AS " +:+ column)
          then match expr_type fuel inner x with Some t => option_map type_of (wrapped "Array" (base t)) | None => None end else None
      | Both s t => join (source_type fuel s alias column) (source_type fuel t alias column)
      end
  end.
End Typing.

(** What an expression is scanned as: whether its column is Nullable, and the destination. *)
Definition column_of (statement : string) (sources : list (string * source)) (e : string) : option (bool * gotype) :=
  match expr_type statement 24 sources e with Some t => option_map (pair (nullable t)) (scanned (base t)) | None => None end.
(** The columns that the destinations take, those at [nulls] being Nullable. *)
Definition taken (nulls : list nat) (ts : list gotype) : list (bool * gotype) := imap (fun i t => (bool_decide (i ∈ nulls), t)) ts.
Definition selects (sources : list (string * source)) (statement : string) (nulls : list nat) (ts : list gotype) : bool :=
  bool_decide (map (column_of statement sources) (projection statement) = map Some (taken nulls ts)).

(** The order counts, and so does a column that the schema declares Nullable, through the functions over it. *)
Example selects_strict :
  let from := newline +:+ "FROM capacity_forecasts AS c FINAL" in
  map (fun s => selects [("c.*", Of "capacity_forecasts")] ("SELECT " +:+ s +:+ from) [] [GString; GUint32])
    ["toString(c.computed_at), c.simulation_count"; "c.simulation_count, toString(c.computed_at)"; "toString(c.computed_at), c.backlog_size, c.team_id";
     "toString(c.p50_date), c.simulation_count"; "ifNull(toString(c.p50_date), ''), ifNull(c.simulation_count, 0)"; "toString(c.unknown), c.simulation_count"]
  = [true; false; false; false; true; false].
Proof. vm_compute. reflexivity. Qed.
Example nullable_types :
  map (expr_type (newline +:+ "FROM work_items AS w FINAL") 24 [("w.*", Of "work_items")])
    ["w.completed_at IS NOT NULL AND w.completed_at <= {time_end:DateTime64(6,'UTC')}"; "isNotNull(w.completed_at)"; "ifNull(nullIf(w.title, ''), nullIf(w.url, ''))"]
  = [Some (mkType true "UInt8"); Some (mkType false "UInt8"); Some (mkType true "String")].
Proof. vm_compute. reflexivity. Qed.

(** * The readers *)

Section Readers.
Context {F : Type}.
Variable ToLower : string -> string.
Notation dests s := (ReadRows.dests _ (s : scan (F := F) _)).

(** ** Where the statements' names come from *)

(** The last row of a team's metrics for a day, and a team's day of them, under an alias. *)
Definition team_metrics (under : string) : list (string * source) :=
  let rows := [("*", Over "team_metrics_daily")] in
  let totals := [("total_commits", As "toFloat64(sum(commits_count))" rows); ("total_after_hours", As "toFloat64(sum(after_hours_commits_count))" rows);
                 ("total_weekend", As "toFloat64(sum(weekend_commits_count))" rows)] in
  map (fun kv => (under +:+ kv.1, kv.2))
    (totals ++ [("team_name", As "argMax(team_name, (computed_at, row_hash))" rows);
                ("after_hours_commit_ratio", As "if(total_commits > 0, total_after_hours / total_commits, 0.0)" totals);
                ("weekend_commit_ratio", As "if(total_commits > 0, total_weekend / total_commits, 0.0)" totals); ("*", Over "team_metrics_daily")]).
(** Rows of a table whose team may be NULL, the team's names, and the rest. *)
Definition by_team (name under : string) : list (string * source) :=
  let rows := [("*", Over name)] in let team := As "ifNull(team_id, '')" rows in
  map (fun kv => (under +:+ kv.1, kv.2))
    [("team_id", team); ("team_key", team); ("has_team", As "toUInt8(isNotNull(team_id))" rows); ("has_work_scope", As "toUInt8(isNotNull(work_scope_id))" rows); ("*", Over name)].
Notation of_projects := [("p.*", Over "projects")].
Notation of_teams := [("t.*", Over "teams")].

(** The newest themes and subcategories of a unit of work. *)
Definition newest (column : string) : source := As ("argMax(" +:+ column +:+ ", computed_at)") [("*", Over "work_unit_investments")].
(** The votes for a unit's team, and what is attributed to it. *)
Definition votes : list (string * source) :=
  let t := [("t.*", Over "work_item_team_attributions")] in
  let cast := [("vote_team_id", As "ifNull(nullIf(t.team_id, ''), '')" t); ("vote_team_name", As "max(ifNull(nullIf(t.team_name, ''), nullIf(t.team_id, '')))" t)] in
  [("votes.team_id", As "argMax(vote_team_id, (cnt, vote_team_id))" cast); ("votes.team_name", As "argMax(vote_team_name, (cnt, vote_team_id))" cast)].
Definition attributed : list (string * source) :=
  [("team_id", As "votes.team_id" votes); ("team_name", As "votes.team_name" votes);
   ("theme_distribution_json", As "windowed.theme_distribution_json" [("windowed.theme_distribution_json", newest "theme_distribution_json")]);
   ("bugfix_share", As "ifNull(windowed.subcategory_distribution_json[{bugfix_key:String}], 0.0)" [("windowed.subcategory_distribution_json", newest "subcategory_distribution_json")])].
Definition team_themes : list (string * source) :=
  let pairs := [("theme_kv", Each "CAST(theme_distribution_json AS Array(Tuple(String, Float64)))" attributed)] in
  [("team_id", As "votes.team_id" votes); ("team_name", As "max(team_name)" attributed); ("kind", Both (As "'theme'" []) (As "'subcategory'" []));
   ("key", Both (As "theme_kv.1" pairs) (As "{bugfix_key:String}" [])); ("work_units", Both (As "sum(theme_kv.2)" pairs) (As "sum(bugfix_share)" attributed))].
Definition project_themes : list (string * source) :=
  let w := [("w.theme_distribution_json", newest "theme_distribution_json"); ("w.subcategory_distribution_json", newest "subcategory_distribution_json")] in
  [("project_key", As "concat(a.project_provider, ':', a.project_id)" [("a.project_provider", As "p.provider" of_projects); ("a.project_id", As "p.id" of_projects)]);
   ("work_units", As "count()" []); ("spanning_units", As "countIf(s.project_count > 1)" []); ("multi_placed_units", As "countIf(a.multi_placed = 1)" []);
   ("bugfix_weighted", As "sum(ifNull(w.subcategory_distribution_json[{bugfix_key:String}], 0.0))" w)] ++
  map (fun theme => (theme, As ("sum(w.theme_distribution_json['" +:+ theme +:+ "'])") w)) ["feature_delivery"; "operational"; "maintenance"; "quality"; "risk"].

(** A reader's call, the destinations of its Scan, the places of its Nullable columns, and where the names that it
    selects from come from. *)
Inductive typed_read : call -> list gotype -> list nat -> list (string * source) -> Prop :=
| t_pull_request b : typed_read (ReadPullRequestState b) (dests scan_PullRequestStateRow) [] [("p.*", Of "git_pull_requests")]
| t_review b : typed_read (ReadPullRequestReviews b) (dests scan_PullRequestReviewRow) [] [("r.*", Of "git_pull_request_reviews")]
| t_run b : typed_read (ReadRunStatus b) (dests scan_CIPipelineRunStatusRow) [] [("c.*", Of "ci_pipeline_runs")]
| t_cicd b : typed_read (ReadCICDMetricsDaily b) (dests scan_CICDMetricsDailyRow) [] [("*", Over "cicd_metrics_daily")]
| t_deployment b : typed_read (ReadDeploymentStatus b) (dests scan_DeploymentStatusRow) [] [("d.*", Of "deployments")]
| t_deploy b : typed_read (ReadDeployMetricsDaily b) (dests scan_DeployMetricsDailyRow) [] [("*", Over "deploy_metrics_daily")]
| t_repository limit : typed_read (ReadRepositoryIdentityWithRowLimit limit) (dests scan_RepositoryIdentityRow) [] [("r.*", Of "repos")]
| t_work_item limit : typed_read (ReadWorkItemIdentityWithRowLimit limit) (dests scan_WorkItemIdentityRow) [] [("w.*", Of "work_items")]
| t_repository_id limit : typed_read (ReadRepositoryIDsWithRowLimit limit) (dests scan_RepositoryIDRow) [] [("r.*", Of "repos")]
| t_work_item_repository limit :
    typed_read (ReadWorkItemRepositoryWithRowLimit limit) (dests scan_WorkItemRepositoryRow) [] [("w.*", Of "work_items"); ("r.*", Of "repos")]
| t_incident b : typed_read (ReadIncidents b) (dests scan_IncidentRow) [] [("i.*", Of "operational_incidents")]
| t_source b : typed_read (ReadSourceHealth b) (dests scan_SourceHealthRow) [] [("*", Over "backfill_log")]
| t_repository_metrics b : typed_read (ReadRepositoryMetrics b) (dests scan_RepositoryMetricsRow) [] [("*", Over "repo_metrics_daily")]
| t_team_metrics b : typed_read (ReadTeamMetrics b) (dests scan_TeamMetricsRow) [] (team_metrics "")
| t_project_metrics b : typed_read (ReadProjectMetricsBreakdown b) (dests scan_ProjectTeamMetricsRow) [] (of_projects ++ team_metrics "tm.")
| t_team_readiness b : typed_read (ReadTeamReadiness b) (dests scan_ReadinessCoverageRow) [] (by_team "estimate_coverage_metrics_daily" "")
| t_project_readiness b :
    typed_read (ReadProjectReadiness b) (dests scan_ReadinessProjectRow) [] (of_projects ++ of_teams ++ by_team "estimate_coverage_metrics_daily" "ec.")
| t_team_workload b : typed_read (ReadTeamWorkload b) (dests scan_WorkloadForecastRow) [] (by_team "capacity_forecasts" "")
| t_project_workload b : typed_read (ReadProjectWorkload b) (dests scan_WorkloadProjectRow) [] (of_projects ++ of_teams ++ by_team "capacity_forecasts" "cf.")
| t_completion b limit : typed_read (ReadTeamCompletionForecastsWithRowLimit b limit) (dests scan_CompletionForecastRow) [] (by_team "capacity_forecasts" "")
| t_team_theme b : typed_read (ReadTeamThemeMix b) (dests scan_TeamThemeMixRow) [1] team_themes
| t_project_theme b limit : typed_read (ReadProjectThemeMixWithRowLimit b limit) (dests scan_ProjectThemeMixRow) [] project_themes
| t_status scope st limit : typed_read (ReadWorkItemStatusWithScopeAndRowLimit ToLower scope st limit) (dests scan_WorkItemStatusRow) [] [("w.*", Of "work_items")]
| t_title scope st limit : typed_read (ReadWorkItemTitleWithScopeAndRowLimit ToLower scope st limit) (dests scan_WorkItemTitleRow) [] [("w.*", Of "work_items")]
| t_done b scope st limit : typed_read (ReadWorkItemCompletionWithScopeAndRowLimit ToLower b scope st limit) (dests scan_WorkItemCompletionRow)
    (if Active b then [1] else []) [("w.*", Of "work_items")].

Ltac run_types := vm_cast_no_check (eq_refl true).
Ltac run_bound b := destruct b as [[] h s e]; [destruct h|]; run_types.

Lemma typed_selects c ts nulls sources : typed_read c ts nulls sources -> selects sources (statement c) nulls ts = true.
Proof.
  destruct 1 as [| | | | | | | | | | | | | | | | | | | | | |scope st limit|scope st limit|b scope st limit].
  all: try match goal with b : TimeBound, sc : AuthorizationScope |- _ => fail 1 | b : TimeBound |- _ => run_bound b end.
  all: try match goal with sc : AuthorizationScope |- _ => fail 1 | _ => run_types end.
  all: cbv delta [ReadWorkItemStatusWithScopeAndRowLimit ReadWorkItemTitleWithScopeAndRowLimit ReadWorkItemCompletionWithScopeAndRowLimit workItemRead] beta zeta;
    rewrite workItemReadStatement_pieces; cbn beta iota delta [statement]; generalize (scope_from ToLower scope) (scope_where ToLower scope).
  1, 2: intros joined restricted; run_types.
  destruct b as [[] h s e]; intros joined restricted; run_types.
Qed.
Ltac each_of Hf := repeat match type of Hf with _ \/ _ => destruct Hf as [-> | Hf] | False => destruct Hf end.
Ltac typed_by H := eexists _, _, _; exact H.
Lemma every_reader_typed c : reader_call ToLower c -> exists ts nulls sources, typed_read c ts nulls sources.
Proof.
  intros [f b Hf | f b limit Hf | f b scope st limit Hf]; unfold bounded_reads, limited_reads, scoped_reads in Hf; rewrite ?elem_of_cons, elem_of_nil in Hf; each_of Hf.
  - typed_by (t_pull_request b).
  - typed_by (t_review b).
  - typed_by (t_run b).
  - typed_by (t_cicd b).
  - typed_by (t_deployment b).
  - typed_by (t_deploy b).
  - typed_by (t_incident b).
  - typed_by (t_source b).
  - typed_by (t_repository_metrics b).
  - typed_by (t_team_metrics b).
  - typed_by (t_project_metrics b).
  - typed_by (t_team_readiness b).
  - typed_by (t_project_readiness b).
  - typed_by (t_team_workload b).
  - typed_by (t_project_workload b).
  - typed_by (t_team_theme b).
  - typed_by (t_repository limit).
  - typed_by (t_work_item limit).
  - typed_by (t_repository_id limit).
  - typed_by (t_work_item_repository limit).
  - typed_by (t_completion b limit).
  - typed_by (t_project_theme b limit).
  - typed_by (t_status scope st limit).
  - typed_by (t_title scope st limit).
  - typed_by (t_done b scope st limit).
Qed.

(** C22: every reader scans what it selects. Its statement selects as many expressions as its Scan has
    destinations, and the expression at each place has a type that the destination there takes: the type is
    derived, from the columns as src/schema declares them and through the functions, subqueries, ARRAY JOINs
    and UNIONs that the statement names them by. No column is Nullable but two: the name of a team's theme mix,
    and whether a work item was completed by the end of a bound. *)
Theorem columns_scanned :
  (forall c, reader_call ToLower c -> exists ts nulls sources, typed_read c ts nulls sources) /\
  (forall c ts nulls sources, typed_read c ts nulls sources ->
    length (projection (statement c)) = length ts /\ map (column_of (statement c) sources) (projection (statement c)) = map Some (taken nulls ts)) /\
  (forall c ts nulls sources, typed_read c ts nulls sources -> nulls <> [] -> nulls = [1] /\
    ((exists b, c = ReadTeamThemeMix b) \/ (exists b scope st limit, Active b = true /\ c = ReadWorkItemCompletionWithScopeAndRowLimit ToLower b scope st limit))).
Proof.
  split; [exact every_reader_typed|]. split.
  - intros c ts nulls sources H. apply typed_selects in H. unfold selects in H. apply bool_decide_eq_true in H.
    split; [|exact H]. apply (f_equal length) in H. unfold taken in H. rewrite !length_map, length_imap in H. exact H.
  - intros c ts nulls sources H. destruct H as [| | | | | | | | | | | | | | | | | | | | | | | |b scope st limit]; try (intros N; destruct (N eq_refl)); [eauto|].
    destruct (Active b) eqn:E; [eauto 10 | intros N; destruct (N eq_refl)].
Qed.
End Readers.

(** * The membership view *)

(** What follows each SELECT that stands on a line of its own, and the name that a selected expression goes by. *)
Fixpoint arms (text : string) : list string :=
  match text with
  | EmptyString => []
  | String _ r => match Json.after (newline +:+ "SELECT" +:+ newline) text with Some t => t :: arms r | None => arms r end
  end.
Fixpoint output_name (e : string) : string :=
  match Json.after " AS " e with
  | Some name => name
  | None => match e with String _ r => match output_name r with EmptyString => "" | n => n end | EmptyString => "" end
  end.
Definition named_as (e : string) : string := match output_name e with EmptyString => e | n => n end.

(** Both arms of its UNION ALL select the same names in the same order. *)
Example membership_arms : map (fun arm => map named_as (expressions arm)) (arms Tables.ProjectMembershipPresenceViewDDL) =
  let names := ["org_id"; "subject_kind"; "repo_id"; "subject_id"; "provider"; "project_id"; "project_key"; "observed_at"; "source"] in [names; names].
Proof. vm_compute. reflexivity. Qed.
End ReadRowsSpec.
